(* ===== verification/_CoqProject ===== *)
-Q . S2P
Prelude.v
Machine.v
Icl.v
IclRef.v
SectorStore.v
Posix.v
BlockDevice.v
MountableDevice.v
StatusTracker.v
Coordinator.v
FreezeHelper.v
TraceHandler.v
DeviceSynchronizer.v
SyncSafety.v
SyncFrames.v
SyncRuns.v
BackupChain.v
Tracing.v
TraceFlush.v
SectorManager.v
ExtDevice.v
Nbd.v
NbdServer.v
NbdLife.v
Backup.v
SyncTeam.v
BackupBuilder.v
BackupManager.v
ManagerThreads.v
BackupRun.v
FullBackup.v
IncrementalBackup.v
Requests.v
Session.v
ListenerThread.v
LogSink.v
Dattod.v
XfsDevice.v
CopyTool.v
