(* ===== verification/Prelude.v ===== *)
(** * Verification of the Linux backup agent

    ** The program

    The agent backs up mounted filesystems to network block devices.  The
    daemon (src/dattod) takes a lock file, listens on a Unix socket
    (src/request_listener) and hands requests to the backup manager
    (src/backup).  For every device of a request the builder finds the
    block device and its filesystem (src/block_device), connects an NBD
    device as destination, starts a block tracer (src/tracing) that marks
    every sector written in the device's store of unsynced sectors
    (src/unsynced_sector_manager), and for a full backup marks the sectors
    in use.  A backup runs one synchronizer per device
    (src/device_synchronizer), each in a thread; it takes intervals out of
    the store and copies them, freezing the filesystem (src/freeze_helper)
    for sectors written within the last ten seconds and at the end.  The
    synchronizers finish together through the backup coordinator; progress
    goes to the status tracker (src/backup_status_tracker), log lines to a
    queue (src/logging).

    ** The files

    - [Prelude] (this file): exceptions, the error-and-state monad [M],
      [wp], loops, tactics and hints.
    - [Machine]: integers at their width, byte order, block_device/tools.h.
    - [Icl], [IclRef]: sector intervals; Boost.ICL's interval map and set as
      the classes [IclMap] and [IclSet] with their laws, and a concrete
      container that satisfies them.
    - [SectorStore]: UnsyncedSectorStore, every method.
    - [Posix]: the requests the program makes of the system ([sys]), an
      environment that answers them ([Env]), the history of calls, and the
      descriptors and directory streams a history leaves open ([open_fds],
      [open_dirs]).
    - [BlockDevice], [MountableDevice]: BlockDevice, MountableBlockDevice
      with the parsing of /proc/mounts, Ext freezing, the factory.
    - [StatusTracker], [Coordinator]: the status messages and their
      handlers; BackupCoordinator (interface [Coordinator], instances for
      the real and the fake one) and the workers of a backup.
    - [FreezeHelper]: RunWhileFrozen, and the helper's owner (its calls and
      the destructor) with the freezing thread as a step relation
      ([Threads]).
    - [TraceHandler], [DeviceSynchronizer]: AddTrace; copy_block and DoSync
      over a world of two disks, the store, writes in flight and pending
      traces.  [SyncSafety], [SyncFrames] and [SyncRuns] hold their
      theorems: what no schedule breaks, what is released on every path,
      and complete runs.  [BackupChain] is the life of a device: backups one
      after the other, with writes before, during and after them.
    - [Tracing], [SectorManager]: CpuTracer, DeviceTracer and
      UnsyncedSectorManager.  [TraceFlush]: FlushBuffer, StopTrace and the
      tracing thread as a step relation.
    - [ExtDevice]: ExtErrorTable, ExtFileSystem and GetInUseSectors;
      libext2fs's bitmaps are the class [Ext2Bitmaps].  [XfsDevice]: GetInUseSectors with the
      child that runs xfs_db and the parsing of what it prints.
    - [Nbd], [NbdLife], [NbdServer]: NbdClient and NbdBlockDevice; their
      descriptors from the constructor to the destructor; the server
      process.
    - [Backup], [BackupBuilder], [BackupManager]: DoBackup, CreateBackup and
      the manager, which uses a builder only through the class [Builder];
      [ManagerThreads]: the manager's operations, detached threads and
      destructor as a step relation.
      [SyncTeam] composes them with the synchronizers: DoSync as a worker
      of the coordinator, and a backup as the runs of its synchronizers;
      [BackupRun], [FullBackup] and [IncrementalBackup] go from a request
      to the end of its backup.
    - [Requests], [ListenerThread]: framing, request handler and the
      listener's loop; its constructor, Stop and destructor against its
      thread.  [Session]: what a client sees of its backups, the handler,
      the manager, the backups' threads and the tracker composed.
    - [LogSink], [Dattod]: the log queue; lock file, signals and main.
    - [CopyTool]: src/fsawarebdcopy, a main that composes the factory, the
      sector manager, GetInUseSectors and the synchronizer.

    Definitions keep the source's names.  A C++ method is a computation in
    [M S A] over its object's state: it returns, throws, ends the process
    ([Abort]: CHECK, std::terminate), is undefined ([Undef]: null
    dereference, overrun, uninitialised memory read as a pointer), or has
    used up its fuel; the state reached is kept in all cases.  Code that
    makes system calls runs in [IO S], over the object and the history.
    Methods that hold a mutex for their whole body are one step; code whose
    interleaving matters is a step relation ([Coordinator.team_step],
    [FreezeHelper.Threads.step], [TraceFlush.flush_step],
    [ManagerThreads.manager_step], [Session.session_step],
    [Session.thread_writes], [BackupChain.life_step],
    [ListenerThread.listener_step], [LogSink.sink_step]) or runs under a
    schedule of foreign actions ([DeviceSynchronizer.env_action] at the
    points of [DeviceSynchronizer.point]).

    ** What the theorems show

    - Copying: no write is forgotten by a synchronization whatever happens
      around it ([SyncSafety.no_change_lost], whose hypotheses name the two
      races the code has, shown to be real by
      [SyncRuns.trace_between_get_and_remove_is_lost] and
      [SyncRuns.pending_trace_is_not_waited_for]); on a device that is left
      alone ([SyncRuns.undisturbed]: time passes and freezes run out, but no
      two within ten steps, and no wake-up is lost) it ends with equal
      devices ([SyncRuns.quiet_sync_completes];
      [SyncRuns.freezes_too_short] shows what is excluded); a chain of
      backups of a device in use, ended by one at rest, leaves on the
      destination everything that was to be copied at the beginning or has
      changed since ([BackupChain.backup_chain]); the loop
      over blocks equals one copy ([SyncRuns.block_copies_are_one_copy]);
      descriptors are released on every path.
    - A backup of several devices: the calls of every DoSync follow the
      protocol the coordinator's theorems assume of a worker
      ([SyncTeam.sync_follows_protocol]); the status a backup ends with is
      the one its synchronizers' ends call for
      ([SyncTeam.backup_of_synchronizers]); and a full backup that
      StartBackup accepts, on a machine that is left alone in the same
      sense, ends as SUCCEEDED with all
      sectors in use of all its devices copied
      ([FullBackup.full_backup_succeeds], from the theorems of the manager,
      the builder, the stores, the synchronizers and the tracker), an
      incremental one with all marked sectors copied, so that destinations
      that differed only there equal their sources
      ([IncrementalBackup.incremental_backup_succeeds]).
    - The copy tool: all sectors in use of the filesystem are on the
      destination when it returns 0, and it returns within a bounded time
      ([CopyTool.copy_tool_copies_the_filesystem], from the theorems of the
      parts).
    - The store: the operations that have a caller refine a plain map from
      sectors to times ([SectorStore.store_refines_spec]); ReInsertSyncHistory
      does not do what its header says
      ([SectorStore.reinsert_breaks_its_contract]); GetInterval hands out
      maximal segments in the order of the cursor, but for a segment that
      begins exactly at it ([SectorStore.get_interval_skips_adjacent]); and
      draining the store hands out every marked sector once.
    - Finishing together: the coordinator's count in every reachable state,
      what a successful wait means, and the wrap-around that an ignored
      refusal causes.
    - Freezing: RunWhileFrozen returns only if the filesystem was frozen
      throughout; a destroyed helper has thawed
      ([FreezeHelper.Threads.destroyed_helper_has_thawed]) and its destructor
      ends ([FreezeHelper.Threads.destructor_ends]); the lost wake-up, and
      the thaw whose failure nobody hears of
      ([FreezeHelper.Threads.failed_thaw_is_swallowed]).
    - Preparing a backup: exactly the sectors in use are marked, for ext
      from the block bitmaps and for XFS from the list of free extents; an
      incremental backup touches no mark.  XFS's pipe is left open
      ([XfsDevice.xfs_leaks_pipe]).  The library's messages are asked for
      only while they are registered ([ExtDevice.error_table_scoped]).
    - Stores and tracers: whatever is asked of the sector manager, a device
      has one store and its tracer marks it
      ([SectorManager.manager_stays_well_formed]).
    - Managing backups: one backup per device, StartBackup and StopBackup on
      every branch; every operation is a run of the concurrent model to the
      state that [ManagerThreads.after_op] computes; the destructor waits for every backup and ends
      ([ManagerThreads.destructor_waits_for_backups],
      [ManagerThreads.teardown_ends]), but for a mutex that is unlocked too
      late ([ManagerThreads.mutex_outlives_manager]); the status a job ends
      with; that a request may name a device twice, and what is then lost
      ([FullBackup.duplicate_device_loses_data]).
    - Tracing: the marks are exactly those of the write records read; a
      flush ends, whatever the kernel adds meanwhile, if the file holds the
      payloads of its records ([TraceFlush.flush_stuck_in_payload] if it does
      not), and means that what was in the file is handled, but for one race
      ([TraceFlush.flush_can_miss_a_record]); tracers leak nothing.
    - The daemon: framing round trip and size bound, every request answered,
      the listener survives everything, starts and stops with its owner
      ([ListenerThread.listener_lifecycle], [ListenerThread.listener_stops]),
      unless a client keeps it waiting
      ([ListenerThread.silent_client_blocks_destructor]); main cancels the
      backups, waits for them and closes what it and the listener opened
      ([Dattod.daemon_cleans_up]).
    - What a client is told: DoBackup writes to its message as the sessions
      say ([Session.DoBackup_writes]); in every session the answers to
      status requests only advance, are final once they say so, and are true
      of the backup's thread ([Session.status_answers]); a job can be
      stopped exactly while its thread lives ([Session.stop_answers]); a
      device can be seen before it has its name
      ([Session.device_without_name_is_visible]).
    - The log: order kept, logging never waits for the disk, the destructor
      returns; a line that could not be written is lost without notice
      ([LogSink.failed_write_is_not_noticed]).
    - Remote devices: the greeting ([Nbd.negotiation_spec]); which
      descriptors are left open, on every path of the constructor and after
      the destructor, with the directory stream closed in each case
      ([NbdLife.nbd_device_descriptors]).
    - The NBD server: the child becomes the server or ends, and only it is
      signalled ([NbdServer.server_life_spec]).

    ** Bounds and fuel

    Loops over data recurse on the data.  Loops that wait for the outside
    (DoSync, the trace loop, the waiting loops) take fuel or the list of
    what the outside does; [OutOfFuel] is then a result of its own, and the
    theorems that claim a result prove that enough fuel gives it
    ([quiet_sync_completes]: one round more than there are marked sectors
    and rounds of waiting for the others; [drain_hands_out_everything]).
    Threads as step relations have bounds on their steps:
    [flush_terminates], with five steps and one per byte of payload for each
    record in the file or added meanwhile, and [listener_stops], with seven
    steps after Stop.  Integers are [Z] with the
    wrap-around of their type written out where the code computes with
    them; offsets and sizes are assumed to be those of a device below 2^63
    bytes where a theorem says so.

    ** Assumptions

    They are hypotheses of the theorems that need them, each satisfied by
    the theorem's witness: new descriptors are not in use ([fresh_fds]); the
    laws of the interval containers and of the ext bitmaps; in
    [no_change_lost], either that a write is on the disk before its trace is
    handled, or that writes land within the volatile seconds, the
    filesystem can be frozen, and no trace is handled between GetInterval
    and RemoveInterval.  The theorems on complete runs (of DoSync, a backup,
    a chain, the copy tool) assume that nobody writes and no call fails, and
    of the schedule that it is [undisturbed]; those on the ends of threads
    that the payloads of records are in the file, and that clients answer.
    [daemon_cleans_up] assumes that main's own calls work and that the
    builder returns or throws; the builder's calls have a history of their
    own, so it says nothing of their descriptors, of which
    [nbd_device_descriptors] and [synchronizer_releases_descriptors] do.
    ext2fs_get_block_bitmap_range, whose error code the program ignores, is
    taken to succeed.

    ** What is not modelled

    glog's initialisation and the text of log lines, protobuf's encoding (a
    parameter), and the Python front ends (src/dattocli.in,
    src/dattonet.in, src/dattolib), which only talk to the daemon over its
    socket.  The headers
    that declare interfaces without code have no definition of their own. *)

From stdpp Require Export base list strings gmap.
From Stdlib Require Export ZArith Lia.

#[global] Open Scope Z_scope.

(** ** Exceptions

    Every exception class of the program derives from [std::runtime_error]
    and only passes its message on; [std::out_of_range] is what the
    library's conversions throw.  A thrown exception is its class and the
    text [what()] returns. *)

Inductive exn_class :=
| CRuntimeError
| CBackupException
| CBlockDeviceException
| CNbdException
| CRemoteBlockDeviceException
| CDattodException
| CDeviceSynchronizerException
| CRequestListenerException
| CBlockTraceException
| CUnsyncedTrackingException
| COutOfRange.

#[export] Instance exn_class_eq_dec : EqDecision exn_class.
Proof. solve_decision. Defined.

Record exn := mk_exn { exn_cls : exn_class; what : string }.

#[export] Instance exn_eq_dec : EqDecision exn.
Proof. solve_decision. Defined.

Definition runtime_error (a_what : string) : exn := mk_exn CRuntimeError a_what.

Definition out_of_range (a_what : string) : exn := mk_exn COutOfRange a_what.

Definition BackupException (a_what : string) : exn :=
  mk_exn CBackupException a_what.

Definition BlockDeviceException (a_what : string) : exn :=
  mk_exn CBlockDeviceException a_what.

Definition NbdException (a_what : string) : exn :=
  mk_exn CNbdException a_what.

Definition RemoteBlockDeviceException (a_what : string) : exn :=
  mk_exn CRemoteBlockDeviceException a_what.

Definition DattodException (a_what : string) : exn :=
  mk_exn CDattodException a_what.

Definition DeviceSynchronizerException (a_what : string) : exn :=
  mk_exn CDeviceSynchronizerException a_what.

Definition RequestListenerException (a_what : string) : exn :=
  mk_exn CRequestListenerException a_what.

Definition BlockTraceException (a_what : string) : exn :=
  mk_exn CBlockTraceException a_what.

Definition UnsyncedTrackingException (a_what : string) : exn :=
  mk_exn CUnsyncedTrackingException a_what.

(** ** Effects

    A computation over a state [S] ends in one of five ways, and keeps the
    state it had reached: C++ does not roll back on [throw]. *)

Inductive outcome (A : Type) :=
| Ret (a : A)            (* normal return *)
| Throw (e : exn)        (* an exception in flight *)
| Abort (why : string)   (* glog CHECK failure, std::terminate: the process dies *)
| Undef (why : string)   (* undefined behaviour: null dereference, buffer overrun *)
| OutOfFuel.             (* the bound on loop iterations was used up *)
Arguments Ret {A} a.
Arguments Throw {A} e.
Arguments Abort {A} why.
Arguments Undef {A} why.
Arguments OutOfFuel {A}.

Definition M (S A : Type) : Type := S -> outcome A * S.

#[export] Instance M_ret {S} : MRet (M S) := fun A a s => (Ret a, s).

#[export] Instance M_bind {S} : MBind (M S) := fun A B k m s =>
  match m s with
  | (Ret a, s') => k a s'
  | (Throw e, s') => (Throw e, s')
  | (Abort w, s') => (Abort w, s')
  | (Undef w, s') => (Undef w, s')
  | (OutOfFuel, s') => (OutOfFuel, s')
  end.

Section Effects.
Context {S : Type}.

Definition throw {A} (e : exn) : M S A := fun s => (Throw e, s).

Definition abort {A} (why : string) : M S A := fun s => (Abort why, s).

Definition undef {A} (why : string) : M S A := fun s => (Undef why, s).

Definition out_of_fuel {A} : M S A := fun s => (OutOfFuel, s).

Definition get : M S S := fun s => (Ret s, s).

Definition gets {A} (f : S -> A) : M S A := fun s => (Ret (f s), s).

Definition put (s' : S) : M S unit := fun _ => (Ret tt, s').

Definition modify (f : S -> S) : M S unit := fun s => (Ret tt, f s).

(** glog's [CHECK_GT(a, b)]. *)
Definition check_gt (a b : Z) (why : string) : M S unit :=
  if b <? a then mret tt else abort why.

(** [try { m } catch (const std::exception &e) { h e }]. *)
Definition try_catch {A} (m : M S A) (h : exn -> M S A) : M S A := fun s =>
  match m s with
  | (Throw e, s') => h e s'
  | r => r
  end.

(** A range-based [for] over a container. *)
Fixpoint for_each {A} (l : list A) (body : A -> M S unit) : M S unit :=
  match l with
  | [] => mret tt
  | x :: l' => body x ;; for_each l' body
  end.
End Effects.

(** Running a component on its part of a larger state. *)
Definition zoom {S T A : Type} (view : S -> T) (upd : T -> S -> S)
    (m : M T A) : M S A := fun s =>
  let '(r, t) := m (view s) in (r, upd t s).

Definition final {S A : Type} (m : M S A) (s : S) : S := (m s).2.

Definition result {S A : Type} (m : M S A) (s : S) : outcome A := (m s).1.

(** ** Reasoning about computations *)

(** [wp m s Q E]: run on [s], [m] either returns a value and a state that
    satisfy [Q], or ends otherwise in a state that satisfies [E]. *)
Definition wp {S A : Type} (m : M S A) (s : S) (Q : A -> S -> Prop) (E : S -> Prop) : Prop :=
  match m s with
  | (Ret a, s') => Q a s'
  | (_, s') => E s'
  end.

(** The computation did not return. *)
Definition stops {A : Type} (r : outcome A) : Prop :=
  match r with Ret _ => False | _ => True end.

Lemma bind_unfold {S A B} (m : M S A) (k : A -> M S B) s :
  (m ≫= k) s =
    match m s with
    | (Ret a, s') => k a s'
    | (Throw e, s') => (Throw e, s')
    | (Abort w, s') => (Abort w, s')
    | (Undef w, s') => (Undef w, s')
    | (OutOfFuel, s') => (OutOfFuel, s')
    end.
Proof. done. Qed.

Lemma mret_unfold {S A} (a : A) (s : S) : (mret a : M S A) s = (Ret a, s).
Proof. done. Qed.

Lemma bind_Ret {S A B} (m : M S A) (k : A -> M S B) s a s' :
  m s = (Ret a, s') -> (m ≫= k) s = k a s'.
Proof. unfold mbind, M_bind. by intros ->. Qed.

Lemma bind_Throw {S A B} (m : M S A) (k : A -> M S B) s e s' :
  m s = (Throw e, s') -> (m ≫= k) s = (Throw e, s').
Proof. unfold mbind, M_bind. by intros ->. Qed.

(** Inversion of a sequence that returned: both halves returned. *)
Lemma bind_Ret_inv {S A B} (m : M S A) (k : A -> M S B) s b s'' :
  (m ≫= k) s = (Ret b, s'') ->
  exists a s', m s = (Ret a, s') /\ k a s' = (Ret b, s'').
Proof.
  unfold mbind, M_bind. destruct (m s) as [[a|e|w|w|] s']; naive_solver.
Qed.

(** The rule for sequencing, on the final state only: a property of the
    state that the first half establishes for every outcome and that the
    second half keeps. *)
Lemma bind_state_rule {S A B} (m : M S A) (k : A -> M S B) s (Q : S -> Prop) :
  Q (m s).2 -> (forall a s', m s = (Ret a, s') -> Q (k a s').2) ->
  Q ((m ≫= k) s).2.
Proof.
  unfold mbind, M_bind. intros H1 H2.
  destruct (m s) as [[a|e|w|w|] s'] eqn:E; cbn in *; auto.
Qed.

(** A loop body that keeps an invariant on every outcome keeps it over a
    whole [for]. *)
Lemma for_each_state_rule {S A} (l : list A) (body : A -> M S unit)
    (Q : S -> Prop) s :
  Q s -> (forall x s', x ∈ l -> Q s' -> Q (body x s').2) ->
  Q (for_each l body s).2.
Proof.
  revert s. induction l as [|x l IH]; intros s Hs Hb; cbn; [done|].
  apply bind_state_rule.
  - apply Hb; [by constructor|done].
  - intros a s' E. apply IH.
    + replace s' with (body x s).2 by (by rewrite E). apply Hb; [by constructor|done].
    + intros y s'' Hy. apply Hb. by constructor.
Qed.

(** ** Computations that keep a property of the state, however they end *)

Definition stable {S A} (P : S -> Prop) (m : M S A) : Prop := forall s, P s -> P (m s).2.

Section Stable.
Context {S : Type} (P : S -> Prop).

Lemma stable_bind {A B} (m : M S A) (k : A -> M S B) :
  stable P m -> (forall a, stable P (k a)) -> stable P (m ≫= k).
Proof.
  intros Hm Hk s Hs. apply bind_state_rule; [by apply Hm|]. intros a s' R.
  apply Hk. specialize (Hm s Hs). by rewrite R in Hm.
Qed.

Lemma stable_ret {A} (a : A) : stable P (mret a).
Proof. by intros s. Qed.

Lemma stable_throw {A} e : stable P (throw e : M S A).
Proof. by intros s. Qed.

Lemma stable_out_of_fuel {A} : stable P (out_of_fuel : M S A).
Proof. by intros s. Qed.

Lemma stable_gets {A} (f : S -> A) : stable P (gets f).
Proof. by intros s. Qed.

Lemma stable_get : stable P get.
Proof. by intros s. Qed.

Lemma stable_modify f : (forall s, P s -> P (f s)) -> stable P (modify f).
Proof. intros Hf s. apply Hf. Qed.

Lemma stable_for_each {A} (l : list A) (body : A -> M S unit) :
  (forall x, x ∈ l -> stable P (body x)) -> stable P (for_each l body).
Proof. intros Hb s Hs. apply (for_each_state_rule l body P); [done|]. intros x s' Hx. by apply Hb. Qed.

Lemma stable_zoom {T A} (view : S -> T) (set : T -> S -> S) (m : M T A) :
  (forall t s, P s -> P (set t s)) -> stable P (zoom view set m).
Proof. intros Hs s Hp. unfold zoom. destruct (m (view s)) as [r t]. by apply Hs. Qed.
End Stable.

(** The character at the end of a line. *)
Definition newline : string := String (Ascii.ascii_of_nat 10) EmptyString.

(** It returns or throws. *)
Definition returns {A} (o : outcome A) : Prop := match o with Ret _ | Throw _ => True | _ => False end.

(** ** Computations whose behaviour is defined *)

Definition defined {S A} (m : M S A) : Prop := forall s x, (m s).1 <> Undef x.

Section Defined.
Context {S : Type}.

Lemma defined_bind {A B} (m : M S A) (k : A -> M S B) : defined m -> (forall a, defined (k a)) -> defined (m ≫= k).
Proof.
  intros Hm Hk s x. unfold mbind, M_bind. specialize (Hm s).
  destruct (m s) as [[a|e|y|y|] s']; cbn in *; [apply Hk|done|done|by destruct (Hm y)|done].
Qed.

Lemma defined_ret {A} (a : A) : defined (mret a : M S A).
Proof. by intros s x. Qed.

Lemma defined_throw {A} e : defined (throw e : M S A).
Proof. by intros s x. Qed.

Lemma defined_try_catch {A} (m : M S A) k : defined m -> (forall e, defined (k e)) -> defined (try_catch m k).
Proof.
  intros Hm Hk s x. unfold try_catch. specialize (Hm s).
  destruct (m s) as [[a|e|y|y|] s']; cbn in *; [done|apply Hk|done|apply Hm|done].
Qed.

Lemma defined_for_each {A} (l : list A) (body : A -> M S unit) : (forall x, defined (body x)) -> defined (for_each l body).
Proof. intros Hb. induction l as [|y l IH]; cbn [for_each]; [apply defined_ret|]. by apply defined_bind. Qed.
End Defined.

Section Wp.
Context {S : Type}.

Lemma wp_bind {A B} (m : M S A) (k : A -> M S B) s Q E :
  wp m s (fun a s' => wp (k a) s' Q E) E -> wp (m ≫= k) s Q E.
Proof. unfold wp. rewrite bind_unfold. by destruct (m s) as [[]]. Qed.

Lemma wp_mono {A} (m : M S A) s (Q Q' : A -> S -> Prop) (E E' : S -> Prop) :
  wp m s Q E -> (forall a s', Q a s' -> Q' a s') -> (forall s', E s' -> E' s') -> wp m s Q' E'.
Proof. unfold wp. destruct (m s) as [[]]; auto. Qed.

Lemma wp_ret {A} (a : A) s (Q : A -> S -> Prop) E : Q a s -> wp (mret a) s Q E.
Proof. done. Qed.

Lemma wp_run {A} (m : M S A) s a s' (Q : A -> S -> Prop) E :
  m s = (Ret a, s') -> Q a s' -> wp m s Q E.
Proof. unfold wp. by intros ->. Qed.

(** For every outcome at once. *)
Lemma wp_final {A} (m : M S A) s (E : S -> Prop) : E (m s).2 -> wp m s (fun _ => E) E.
Proof. unfold wp. by destruct (m s) as [[]]. Qed.

Lemma wp_state {A} (m : M S A) s (E : S -> Prop) : wp m s (fun _ => E) E -> E (m s).2.
Proof. unfold wp. by destruct (m s) as [[]]. Qed.

Lemma wp_elim {A} (m : M S A) s Q E o s' :
  wp m s Q E -> m s = (o, s') ->
  (exists a, o = Ret a /\ Q a s') \/ ((forall a, o <> Ret a) /\ E s').
Proof. unfold wp. intros Hw Em. rewrite Em in Hw. destruct o; [left; eauto|right..]; by split. Qed.
End Wp.

Create HintDb agent.
Create Rewrite HintDb agent.
#[export] Hint Resolve bind_Ret bind_Throw : agent.
#[export] Hint Resolve defined_ret defined_throw : agent.
#[export] Hint Resolve stable_ret stable_throw stable_out_of_fuel stable_gets stable_get : agent.

(** Running the monad's operations on a state, one at a time. *)
Ltac run :=
  repeat first
    [ rewrite bind_unfold
    | rewrite mret_unfold
    | progress cbn [throw abort undef get gets put modify out_of_fuel fst snd] ].

Ltac case_bool :=
  match goal with
  | |- context [if ?b then _ else _] => destruct b eqn:?
  | H : context [if ?b then _ else _] |- _ => destruct b eqn:?
  end.

Lemma try_catch_Ret {S A} (m : M S A) h s a s' :
  m s = (Ret a, s') -> try_catch m h s = (Ret a, s').
Proof. unfold try_catch. by intros ->. Qed.

Lemma try_catch_Throw {S A} (m : M S A) h s e s' :
  m s = (Throw e, s') -> try_catch m h s = h e s'.
Proof. unfold try_catch. by intros ->. Qed.

Lemma check_gt_true {S} a b why (s : S) : b < a -> check_gt a b why s = (Ret tt, s).
Proof. intros H. unfold check_gt. by rewrite (proj2 (Z.ltb_lt _ _) H). Qed.

Lemma check_gt_false {S} a b why (s : S) : a <= b -> check_gt a b why s = (Abort why, s).
Proof. intros H. unfold check_gt. by rewrite (proj2 (Z.ltb_ge _ _) H). Qed.

Lemma for_each_cons {S A} (x : A) l (body : A -> M S unit) s :
  for_each (x :: l) body s = (body x ;; for_each l body) s.
Proof. done. Qed.

(** A predicate that every step keeps holds in every state reached. *)
Lemma rtc_invariant {A} (R : relation A) (P : A -> Prop) :
  (forall x y, R x y -> P x -> P y) -> forall x y, rtc R x y -> P x -> P y.
Proof. intros HR x y. induction 1; eauto. Qed.

Lemma filter_none {A} (P : A -> Prop) {Pdec : forall x, Decision (P x)} (l : list A) :
  (forall x, x ∈ l -> ~ P x) -> filter P l = [].
Proof.
  induction l as [|x l IH]; intros H; [done|]. rewrite filter_cons.
  destruct (decide (P x)) as [Hx|_].
  - exfalso. apply (H x); [constructor|done].
  - apply IH. intros y Hy. apply H. by constructor.
Qed.

(** Deleting by index takes away at most the element at the index. *)
Lemma list_delete_sub {A} (l : list A) k : delete k l ⊆ l.
Proof.
  intros x. rewrite delete_take_drop, elem_of_app. intros [H|H];
    apply list_elem_of_lookup in H as [j Hj].
  - apply lookup_take_Some in Hj as [Hj _]. by eapply list_elem_of_lookup_2.
  - rewrite lookup_drop in Hj. by eapply list_elem_of_lookup_2.
Qed.

Lemma list_elem_of_delete {A} (l : list A) k x y :
  l !! k = Some x -> y ∈ l -> y = x \/ y ∈ delete k l.
Proof.
  intros Hx [n Hn]%list_elem_of_lookup. destruct (decide (n = k)) as [->|Hne].
  { left. congruence. }
  right. apply list_elem_of_lookup. destruct (decide (n < k)%nat).
  - exists n. by rewrite list_lookup_delete_lt.
  - exists (n - 1)%nat. rewrite list_lookup_delete_ge by lia. by replace (S (n - 1)) with n by lia.
Qed.
