(* ===== verification/Machine.v ===== *)
(** * Machine integers, byte order and the macros of [block_device/tools.h]

    C integers are [Z] kept in range by an explicit wrap after every
    operation that can leave it.  Byte strings are lists of [Z] in
    [0, 256).  The host is little-endian, as x86 is. *)

From coqutil Require Import Z.prove_Zeq_bitwise.
From S2P Require Import Prelude.

(** ** Widths *)

Definition u16 (z : Z) : Z := z mod 2 ^ 16.
Definition u32 (z : Z) : Z := z mod 2 ^ 32.
Definition u64 (z : Z) : Z := z mod 2 ^ 64.

(** Two's complement reinterpretation at 32 and 64 bits. *)
Definition i32 (z : Z) : Z := (z + 2 ^ 31) mod 2 ^ 32 - 2 ^ 31.
Definition i64 (z : Z) : Z := (z + 2 ^ 63) mod 2 ^ 64 - 2 ^ 63.

Definition is_u32 (z : Z) : Prop := 0 <= z < 2 ^ 32.
Definition is_u64 (z : Z) : Prop := 0 <= z < 2 ^ 64.
Definition is_byte (z : Z) : Prop := 0 <= z < 256.

Lemma u32_id z : is_u32 z -> u32 z = z.
Proof. intros H. unfold u32. by apply Z.mod_small. Qed.

Lemma u64_id z : is_u64 z -> u64 z = z.
Proof. intros H. unfold u64. by apply Z.mod_small. Qed.

Lemma u32_range z : is_u32 (u32 z).
Proof. apply Z.mod_pos_bound. lia. Qed.

Lemma u64_range z : is_u64 (u64 z).
Proof. apply Z.mod_pos_bound. lia. Qed.

Lemma i32_id z : - 2 ^ 31 <= z < 2 ^ 31 -> i32 z = z.
Proof. intros H. unfold i32. rewrite Z.mod_small; lia. Qed.

Lemma i64_id z : - 2 ^ 63 <= z < 2 ^ 63 -> i64 z = z.
Proof. intros H. unfold i64. rewrite Z.mod_small; lia. Qed.

#[export] Hint Resolve u32_range u64_range : agent.

(** ** The macros of tools.h, at type [uint32_t] *)

Module Tools.

Definition swapbits16 (x : Z) : Z :=
  Z.lor (Z.land (Z.shiftr x 8) 0xff) (Z.shiftl (Z.land x 0xff) 8).

Definition letobe16 (x : Z) : Z := swapbits16 x.

Definition letobe32 (x : Z) : Z :=
  Z.lor (Z.lor (Z.lor
    (u32 (Z.shiftl (Z.land x 0xff) 24))
    (u32 (Z.shiftl (Z.land x 0xff00) 8)))
    (Z.shiftr (Z.land x 0xff0000) 8))
    (Z.land (Z.shiftr x 24) 0xff).

Definition betole16 (x : Z) : Z := swapbits16 x.

Definition betole32 (x : Z) : Z :=
  Z.lor (Z.lor (Z.lor
    (Z.land (Z.shiftr x 24) 0xff)
    (Z.land (u32 (Z.shiftl x 8)) 0xff0000))
    (Z.land (Z.shiftr x 8) 0xff00))
    (Z.land (u32 (Z.shiftl x 24)) 0xff000000).

(** [m * (((n - 1) / m) + 1)]; [n] unsigned 32-bit, so [n - 1] wraps at 0. *)
Definition my_roundup (n m : Z) : Z := u32 (m * (u32 (n - 1) / m + 1)).

Definition my_rounddown (n m : Z) : Z := n / m * m.

End Tools.

(** ** Bytes and byte order *)

Module Bytes.

(** The value of a host integer read from memory: little-endian. *)
Fixpoint le_value (bs : list Z) : Z :=
  match bs with
  | [] => 0
  | b :: bs' => b + 256 * le_value bs'
  end.

(** The bytes in memory of a host integer of [n] bytes. *)
Fixpoint le_bytes (n : nat) (z : Z) : list Z :=
  match n with
  | O => []
  | S n' => z mod 256 :: le_bytes n' (z / 256)
  end.

(** Network order: most significant byte first. *)
Definition be_value (bs : list Z) : Z := le_value (rev bs).
Definition be_bytes (n : nat) (z : Z) : list Z := rev (le_bytes n z).

(** Byte swaps of a 32-bit and of a 64-bit host integer. *)
Definition bswap (n : nat) (z : Z) : Z := le_value (rev (le_bytes n z)).

Definition ntohl (z : Z) : Z := bswap 4 z.
Definition htonl (z : Z) : Z := bswap 4 z.
Definition be64toh (z : Z) : Z := bswap 8 z.

Lemma length_le_bytes n z : length (le_bytes n z) = n.
Proof. revert z. induction n; intros; cbn; auto. Qed.

Lemma le_bytes_range n z : Forall is_byte (le_bytes n z).
Proof.
  revert z. induction n; intros; cbn; constructor; auto.
  apply Z.mod_pos_bound. lia.
Qed.

Lemma le_value_range bs :
  Forall is_byte bs -> 0 <= le_value bs < 256 ^ Z.of_nat (length bs).
Proof.
  induction 1 as [|b bs Hb _ IH]; cbn [le_value length]; [lia|].
  rewrite Nat2Z.inj_succ, Z.pow_succ_r by lia. unfold is_byte in Hb. lia.
Qed.

Lemma le_value_bytes n z : le_value (le_bytes n z) = z mod 256 ^ Z.of_nat n.
Proof.
  revert z. induction n as [|n IH]; intros z; [by rewrite Z.mod_1_r|].
  cbn [le_bytes le_value]. rewrite IH, Nat2Z.inj_succ, Z.pow_succ_r by lia.
  rewrite Z.rem_mul_r; [lia|lia|by apply Z.pow_pos_nonneg; lia].
Qed.

Lemma le_bytes_value bs :
  Forall is_byte bs -> le_bytes (length bs) (le_value bs) = bs.
Proof.
  induction 1 as [|b bs Hb _ IH]; cbn; [done|]. unfold is_byte in Hb. f_equal.
  - rewrite (Z.mul_comm 256), Z_mod_plus_full. apply Z.mod_small. lia.
  - by rewrite (Z.mul_comm 256), Z_div_plus, Z.div_small, Z.add_0_l by lia.
Qed.

(** Reading [n] bytes as a host integer and swapping it decodes network
    order. *)
Lemma bswap_le_value bs :
  Forall is_byte bs -> bswap (length bs) (le_value bs) = be_value bs.
Proof. intros H. unfold bswap, be_value. by rewrite le_bytes_value. Qed.

Lemma be_bytes_value n z : be_value (be_bytes n z) = z mod 256 ^ Z.of_nat n.
Proof. unfold be_value, be_bytes. by rewrite rev_involutive, le_value_bytes. Qed.

Lemma bswap_involutive n z :
  0 <= z < 256 ^ Z.of_nat n -> bswap n (bswap n z) = z.
Proof.
  intros Hz. unfold bswap.
  assert (Forall is_byte (rev (le_bytes n z))) as Hr
    by apply Forall_rev, le_bytes_range.
  rewrite <- (length_le_bytes n z) at 1. rewrite <- length_rev.
  rewrite le_bytes_value by done. rewrite rev_involutive, le_value_bytes.
  by apply Z.mod_small.
Qed.

(** The bytes in memory of the swapped integer are the network bytes. *)
Lemma le_bytes_bswap n z : le_bytes n (bswap n z) = be_bytes n z.
Proof.
  unfold bswap, be_bytes. rewrite <- (length_le_bytes n z) at 1.
  rewrite <- length_rev. apply le_bytes_value, Forall_rev, le_bytes_range.
Qed.

End Bytes.

(** ** Properties of the macros *)

Section ToolsProps.
Import Tools.

(** Converting a 32-bit value to big-endian with [letobe32] and back
    with [betole32] gives the value back. *)
Theorem betole32_letobe32 x : is_u32 x -> betole32 (letobe32 x) = x.
Proof.
  intros Hx. unfold is_u32 in Hx.
  rewrite <- (Z.mod_small x (2 ^ 32)) at 2 by done.
  unfold betole32, letobe32, u32. rewrite <- !Z.land_ones by lia.
  change 0xff with (Z.ones 8). change 0xff00 with (Z.shiftl (Z.ones 8) 8).
  change 0xff0000 with (Z.shiftl (Z.ones 8) 16).
  change 0xff000000 with (Z.shiftl (Z.ones 8) 24).
  prove_Zeq_bitwise.
Qed.
End ToolsProps.
