(* ===== verification/Icl.v ===== *)
(** * Sector intervals and the interval containers the agent uses

    [SectorInterval], [SectorSet] and [TimedSectorMap] are instances of
    Boost's interval container library (unsynced_sector_manager/
    sector_interval.h, sector_set.h, timed_sector_map.h).  An interval is a
    record with the source's two accessors.  The containers are Boost's
    code: here they are the operations and the documented laws of the type
    classes [IclMap] and [IclSet], and every component that uses a
    container is stated against these classes.  [IclRef] builds one
    concrete container that satisfies the laws. *)

From S2P Require Import Prelude Machine.

(** ** Intervals *)

(** [SectorInterval(start, end)] is [start, end): the end is exclusive. *)
Record SectorInterval := mkSI { lower : Z; upper : Z }.

#[export] Instance SectorInterval_eq_dec : EqDecision SectorInterval.
Proof. solve_decision. Defined.

#[export] Instance SectorInterval_elem_of : ElemOf Z SectorInterval :=
  fun x i => lower i <= x < upper i.

Definition in_iv (x : Z) (i : SectorInterval) : bool :=
  (lower i <=? x) && (x <? upper i).

(** [boost::icl::cardinality] of an interval: 0 when it is empty. *)
Definition iv_card (i : SectorInterval) : Z :=
  if upper i <=? lower i then 0 else upper i - lower i.

Lemma in_iv_spec x i : in_iv x i = true <-> x ∈ i.
Proof.
  unfold in_iv, elem_of, SectorInterval_elem_of.
  rewrite andb_true_iff, Z.leb_le, Z.ltb_lt. done.
Qed.

Lemma in_iv_false x i : in_iv x i = false <-> ~ x ∈ i.
Proof. rewrite <- in_iv_spec. by destruct (in_iv x i). Qed.

#[export] Instance in_iv_dec (x : Z) (i : SectorInterval) : Decision (x ∈ i).
Proof.
  destruct (in_iv x i) eqn:E; [left; by apply in_iv_spec|right; by apply in_iv_false].
Defined.

Lemma iv_card_nonneg i : 0 <= iv_card i.
Proof. unfold iv_card. destruct (Z.leb_spec (upper i) (lower i)); lia. Qed.

Ltac iv_lia :=
  unfold elem_of, SectorInterval_elem_of in *; cbn [lower upper fst snd] in *; lia.

(** ** Sequences of segments *)

Section Segments.
Context {A : Type}.
Implicit Types l : list (SectorInterval * A).

(** The value at a sector: that of the first segment that holds it. *)
Fixpoint seg_at l (x : Z) : option A :=
  match l with
  | [] => None
  | (i, v) :: l' => if in_iv x i then Some v else seg_at l' x
  end.

(** Ascending, disjoint and non-empty segments, none below [b]. *)
Fixpoint segs_from (b : Z) l : Prop :=
  match l with
  | [] => True
  | (i, _) :: l' => b <= lower i /\ lower i < upper i /\ segs_from (upper i) l'
  end.

Definition seg_wf l : Prop := exists b, segs_from b l.

(** The number of sectors the segments hold. *)
Fixpoint seg_total l : Z :=
  match l with
  | [] => 0
  | (i, _) :: l' => iv_card i + seg_total l'
  end.

Lemma segs_from_weaken b b' l : b' <= b -> segs_from b l -> segs_from b' l.
Proof. destruct l as [|[i v] l]; cbn; [done|]. intuition lia. Qed.

Lemma seg_at_below b l x : segs_from b l -> x < b -> seg_at l x = None.
Proof.
  revert b. induction l as [|[i v] l IH]; intros b; cbn; [done|].
  intros (H1 & H2 & H3) Hx. destruct (in_iv x i) eqn:E.
  - apply in_iv_spec in E. iv_lia.
  - apply (IH _ H3). lia.
Qed.

Lemma seg_at_elem b l i v x :
  segs_from b l -> (i, v) ∈ l -> x ∈ i -> seg_at l x = Some v.
Proof.
  revert b. induction l as [|[j w] l IH]; intros b Hl Hin Hx; cbn.
  { by apply not_elem_of_nil in Hin. }
  destruct Hl as (H1 & H2 & H3). apply elem_of_cons in Hin as [Hin|Hin].
  - injection Hin as <- <-. by rewrite (proj2 (in_iv_spec x i)).
  - destruct (in_iv x j) eqn:E; [|by apply (IH _ H3)].
    apply in_iv_spec in E. exfalso.
    assert (seg_at l x = None) as Hn by (apply (seg_at_below _ _ _ H3); iv_lia).
    pose proof (IH _ H3 Hin Hx). congruence.
Qed.

Lemma seg_at_Some l x v :
  seg_at l x = Some v -> exists i, (i, v) ∈ l /\ x ∈ i.
Proof.
  induction l as [|[i w] l IH]; cbn; [done|]. destruct (in_iv x i) eqn:E.
  - intros [= ->]. exists i. split; [constructor|by apply in_iv_spec].
  - intros H. destruct (IH H) as (j & ? & ?). exists j. split; [by constructor|done].
Qed.

Lemma seg_wf_bounds b l i v : segs_from b l -> (i, v) ∈ l -> b <= lower i < upper i.
Proof.
  revert b. induction l as [|[j w] l IH]; intros b Hl Hin.
  { by apply not_elem_of_nil in Hin. }
  destruct Hl as (H1 & H2 & H3). apply elem_of_cons in Hin as [Hin|Hin].
  - injection Hin as -> ->. lia.
  - pose proof (IH _ H3 Hin). lia.
Qed.

(** Two segments that start in order do not overlap. *)
Lemma segs_disjoint b l i v j w :
  segs_from b l -> (i, v) ∈ l -> (j, w) ∈ l -> lower i < lower j -> upper i <= lower j.
Proof.
  revert b. induction l as [|[k u] l IH]; intros b Hl Hi Hj Hlt.
  { by apply not_elem_of_nil in Hi. }
  destruct Hl as (H1 & H2 & H3).
  apply elem_of_cons in Hi as [[= -> ->]|Hi], Hj as [[= -> ->]|Hj].
  - lia.
  - by apply (seg_wf_bounds _ _ _ _ H3 Hj).
  - pose proof (seg_wf_bounds _ _ _ _ H3 Hi). lia.
  - by apply (IH _ H3).
Qed.

Lemma seg_total_nonneg l : 0 <= seg_total l.
Proof.
  induction l as [|[i v] l IH]; cbn; [lia|]. pose proof (iv_card_nonneg i). lia.
Qed.

Lemma seg_total_zero b l : segs_from b l -> seg_total l = 0 -> l = [].
Proof.
  destruct l as [|[i v] l]; cbn; [done|]. intros (H1 & H2 & H3).
  pose proof (seg_total_nonneg l). unfold iv_card.
  destruct (Z.leb_spec (upper i) (lower i)); lia.
Qed.

(** *** Counting sectors *)

(** How many of the [n] sectors from [b] on satisfy [P]. *)
Fixpoint count (P : Z -> bool) (b : Z) (n : nat) : Z :=
  match n with
  | O => 0
  | S n' => (if P b then 1 else 0) + count P (b + 1) n'
  end.

Lemma count_ext P Q b n :
  (forall x, b <= x < b + Z.of_nat n -> P x = Q x) -> count P b n = count Q b n.
Proof.
  revert b. induction n as [|n IH]; intros b H; cbn; [done|].
  rewrite (H b) by lia. f_equal. apply IH. intros. apply H. lia.
Qed.

Lemma count_app P b n m :
  count P b (n + m) = count P b n + count P (b + Z.of_nat n) m.
Proof.
  revert b. induction n as [|n IH]; intros b; cbn [count Nat.add].
  - by rewrite Z.add_0_r.
  - rewrite IH. rewrite Nat2Z.inj_succ. replace (b + 1 + Z.of_nat n)
      with (b + Z.succ (Z.of_nat n)) by lia. lia.
Qed.

Lemma count_const (c : bool) b n :
  count (fun _ => c) b n = if c then Z.of_nat n else 0.
Proof.
  revert b. induction n as [|n IH]; intros b; cbn [count]; [by destruct c|].
  rewrite IH. destruct c; lia.
Qed.

Lemma count_sub P Q b n :
  (forall x, Q x = true -> P x = true) ->
  count (fun x => P x && negb (Q x)) b n = count P b n - count Q b n.
Proof.
  intros HQ. revert b. induction n as [|n IH]; intros b; cbn; [done|].
  rewrite IH. specialize (HQ b). destruct (P b), (Q b); cbn; lia.
Qed.

Lemma count_interval i b n :
  lower i <= upper i -> b <= lower i -> upper i <= b + Z.of_nat n ->
  count (fun x => in_iv x i) b n = iv_card i.
Proof.
  intros H0 H1 H2.
  set (n1 := Z.to_nat (lower i - b)). set (n2 := Z.to_nat (upper i - lower i)).
  set (n3 := Z.to_nat (b + Z.of_nat n - upper i)).
  replace n with (n1 + (n2 + n3))%nat by lia. rewrite !count_app.
  rewrite (count_ext _ (fun _ => false) b n1),
    (count_ext _ (fun _ => true) _ n2), (count_ext _ (fun _ => false) _ n3);
    [rewrite !count_const; unfold iv_card; destruct (Z.leb_spec (upper i) (lower i)); lia
    | intros x Hx; unfold in_iv; lia ..].
Qed.

(** The total of well-formed segments is the number of sectors that have
    a value, counted over any range that holds them all. *)
Lemma seg_total_count b l n :
  segs_from b l -> (forall i v, (i, v) ∈ l -> upper i <= b + Z.of_nat n) ->
  seg_total l = count (fun x => bool_decide (is_Some (seg_at l x))) b n.
Proof.
  revert b n. induction l as [|[i v] l IH]; intros b n Hl Hu.
  { transitivity (count (fun _ => false) b n); [by rewrite count_const|].
    apply count_ext. intros x _. symmetry. apply bool_decide_eq_false. by intros [? ?]. }
  destruct Hl as (H1 & H2 & H3). cbn [seg_total].
  pose proof (Hu i v ltac:(constructor)) as Hi.
  set (n1 := Z.to_nat (upper i - b)). set (n2 := Z.to_nat (b + Z.of_nat n - upper i)).
  replace n with (n1 + n2)%nat by lia. rewrite count_app.
  replace (b + Z.of_nat n1) with (upper i) by lia.
  rewrite (IH (upper i) n2 H3); [f_equal|].
  - rewrite <- (count_interval i b n1) by lia. apply count_ext. intros x Hx.
    cbn [seg_at]. destruct (in_iv x i) eqn:E; [symmetry; by apply bool_decide_eq_true|].
    rewrite (seg_at_below _ _ _ H3) by lia.
    symmetry. apply bool_decide_eq_false. by intros [? ?].
  - apply count_ext. intros x Hx. cbn [seg_at].
    destruct (in_iv x i) eqn:E; [apply in_iv_spec in E; iv_lia|done].
  - intros j w Hj. specialize (Hu j w ltac:(by constructor)). lia.
Qed.
End Segments.

(** Two lists of segments bounded by a common range. *)
Lemma segs_common_range {A} (l1 l2 : list (SectorInterval * A)) b1 b2 :
  segs_from b1 l1 -> segs_from b2 l2 ->
  exists b n, segs_from b l1 /\ segs_from b l2 /\
    (forall i v, (i, v) ∈ l1 -> upper i <= b + Z.of_nat n) /\
    (forall i v, (i, v) ∈ l2 -> upper i <= b + Z.of_nat n).
Proof.
  intros H1 H2.
  assert (forall l : list (SectorInterval * A), exists u, forall i v, (i, v) ∈ l -> upper i <= u) as Hub.
  { induction l as [|[i v] l [u IH]].
    - exists 0. intros ? ? Hin. by apply not_elem_of_nil in Hin.
    - exists (Z.max u (upper i)). intros j w Hin. apply elem_of_cons in Hin as [[= -> ->]|Hin]; [lia|].
      specialize (IH _ _ Hin). lia. }
  destruct (Hub l1) as [u1 Hu1], (Hub l2) as [u2 Hu2].
  exists (Z.min b1 b2), (Z.to_nat (Z.max u1 u2 - Z.min b1 b2)).
  repeat split.
  - eapply segs_from_weaken; [|done]. lia.
  - eapply segs_from_weaken; [|done]. lia.
  - intros i v Hin. specialize (Hu1 _ _ Hin). lia.
  - intros i v Hin. specialize (Hu2 _ _ Hin). lia.
Qed.

(** Segments with the same sectors have the same total. *)
Lemma seg_total_ext {A} (l1 l2 : list (SectorInterval * A)) :
  seg_wf l1 -> seg_wf l2 ->
  (forall x, is_Some (seg_at l1 x) <-> is_Some (seg_at l2 x)) ->
  seg_total l1 = seg_total l2.
Proof.
  intros [b1 H1] [b2 H2] Hx.
  destruct (segs_common_range _ _ _ _ H1 H2) as (b & n & W1 & W2 & U1 & U2).
  rewrite (seg_total_count b l1 n), (seg_total_count b l2 n) by done.
  apply count_ext. intros x _. by apply bool_decide_ext.
Qed.

(** Removing one segment's sectors lowers the total by its length. *)
Lemma seg_total_remove {A} (l1 l2 : list (SectorInterval * A)) i v :
  seg_wf l1 -> seg_wf l2 -> (i, v) ∈ l1 ->
  (forall x, seg_at l2 x = if in_iv x i then None else seg_at l1 x) ->
  seg_total l2 = seg_total l1 - iv_card i.
Proof.
  intros [b1 H1] [b2 H2] Hin Hx.
  destruct (segs_common_range _ _ _ _ H1 H2) as (b & n & W1 & W2 & U1 & U2).
  rewrite (seg_total_count b l1 n), (seg_total_count b l2 n) by done.
  pose proof (seg_wf_bounds _ _ _ _ W1 Hin). pose proof (U1 _ _ Hin).
  rewrite <- (count_interval i b n) by lia.
  rewrite <- count_sub.
  - apply count_ext. intros x _. rewrite Hx. destruct (in_iv x i); cbn.
    + by rewrite andb_false_r.
    + by rewrite andb_true_r.
  - intros x E. apply in_iv_spec in E. apply bool_decide_eq_true.
    by rewrite (seg_at_elem _ _ _ _ _ W1 Hin E).
Qed.

(** Touching neighbours carry different values: otherwise the library
    would have joined them. *)
Fixpoint seg_joined {A} (l : list (SectorInterval * A)) : Prop :=
  match l with
  | (i, v) :: (((j, w) :: _) as l') => (upper i = lower j -> v <> w) /\ seg_joined l'
  | _ => True
  end.

Lemma segs_apart {A} b (l : list (SectorInterval * A)) i v j w :
  segs_from b l -> (i, v) ∈ l -> (j, w) ∈ l -> i = j \/ upper i <= lower j \/ upper j <= lower i.
Proof.
  revert b. induction l as [|[k u] l IH]; intros b Hs Hi Hin; [by apply not_elem_of_nil in Hi|].
  destruct Hs as (H1 & H2 & H3). apply elem_of_cons in Hi, Hin. destruct Hi as [Hi|Hi], Hin as [Hin|Hin].
  - left. congruence.
  - injection Hi as -> ->. pose proof (seg_wf_bounds _ _ _ _ H3 Hin). lia.
  - injection Hin as -> ->. pose proof (seg_wf_bounds _ _ _ _ H3 Hi). lia.
  - by eapply IH.
Qed.

(** Joined segments that touch have different values, wherever they are in
    the list. *)
Lemma seg_touching {A} b (l : list (SectorInterval * A)) i v j w :
  segs_from b l -> seg_joined l -> (i, v) ∈ l -> (j, w) ∈ l -> upper i = lower j -> v <> w.
Proof.
  revert b. induction l as [|[k u] l IH]; intros b Hs Hj Hi Hin; [by apply not_elem_of_nil in Hi|].
  destruct Hs as (H1 & H2 & H3).
  assert (seg_joined l) as Hj' by (destruct l as [|[k' u'] l]; [done|apply Hj]).
  apply elem_of_cons in Hi, Hin. intros E. destruct Hi as [Hi|Hi], Hin as [Hin|Hin].
  - injection Hi as -> ->. injection Hin as -> ->. lia.
  - injection Hi as -> ->. destruct l as [|[k' u'] l]; [by apply not_elem_of_nil in Hin|].
    apply elem_of_cons in Hin as [Hin|Hin]; [injection Hin as -> ->; by apply Hj|].
    destruct H3 as (H4 & H5 & H6). pose proof (seg_wf_bounds _ _ _ _ H6 Hin). lia.
  - injection Hin as -> ->. pose proof (seg_wf_bounds _ _ _ _ H3 Hi). lia.
  - exact (IH _ H3 Hj' Hi Hin E).
Qed.

(** ** [TimedSectorMap]: interval_map with [partial_absorber] and
    [inplace_max]

    The operations the agent uses: the empty map, [m += (i, v)],
    [m -= i], iteration over the segments, and [cardinality].  The laws
    are Boost's element-wise view of these operations.  [partial_absorber]
    does not store the identity element, which for [inplace_max<time_t>]
    is 0: the comment in AddInterval (unsynced_sector_store.cc:18)
    observes it. *)

Class IclMap (T : Type) := {
  im_empty : T;
  im_add : T -> SectorInterval -> Z -> T;
  im_sub : T -> SectorInterval -> T;
  im_segments : T -> list (SectorInterval * Z);
  im_card : T -> Z
}.

Definition im_at {T} `{!IclMap T} (m : T) (x : Z) : option Z :=
  seg_at (im_segments m) x.

Class IclMapLaws (T : Type) `{!IclMap T} : Prop := {
  im_wf (m : T) : seg_wf (im_segments m);
  im_joined (m : T) : seg_joined (im_segments m);
  im_nonzero (m : T) i v : (i, v) ∈ im_segments m -> v <> 0;
  im_empty_segments : im_segments (im_empty : T) = [];
  im_add_at (m : T) i v x : 0 <= v ->
    im_at (im_add m i v) x =
      if v =? 0 then im_at m x
      else if in_iv x i
      then Some (match im_at m x with Some w => Z.max w v | None => v end)
      else im_at m x;
  im_sub_at (m : T) i x :
    im_at (im_sub m i) x = if in_iv x i then None else im_at m x;
  im_card_total (m : T) : im_card m = seg_total (im_segments m)
}.

(** ** [SectorSet]: interval_set *)

Class IclSet (T : Type) := {
  is_empty : T;
  is_add : T -> SectorInterval -> T;
  is_sub : T -> SectorInterval -> T;
  is_intervals : T -> list SectorInterval;
  is_card : T -> Z
}.

Definition unit_segs (l : list SectorInterval) : list (SectorInterval * unit) :=
  (fun i => (i, tt)) <$> l.

Definition is_mem {T} `{!IclSet T} (s : T) (x : Z) : bool :=
  existsb (in_iv x) (is_intervals s).

Class IclSetLaws (T : Type) `{!IclSet T} : Prop := {
  is_wf (s : T) : seg_wf (unit_segs (is_intervals s));
  is_joined (s : T) : seg_joined (unit_segs (is_intervals s));
  is_empty_intervals : is_intervals (is_empty : T) = [];
  is_add_mem (s : T) i x : is_mem (is_add s i) x = is_mem s x || in_iv x i;
  is_sub_mem (s : T) i x : is_mem (is_sub s i) x = is_mem s x && negb (in_iv x i);
  is_card_total (s : T) : is_card s = seg_total (unit_segs (is_intervals s))
}.

(** ** Consequences of the laws *)

Section MapFacts.
Context {T : Type} `{!IclMap T, !IclMapLaws T}.
Implicit Types m : T.

Lemma im_empty_at x : im_at (im_empty : T) x = None.
Proof. unfold im_at. by rewrite im_empty_segments. Qed.

Lemma im_segment_at m i v x : (i, v) ∈ im_segments m -> x ∈ i -> im_at m x = Some v.
Proof. destruct (im_wf m) as [b Hb]. intros. by eapply seg_at_elem. Qed.

Lemma im_segment_nonempty m i v : (i, v) ∈ im_segments m -> lower i < upper i.
Proof. destruct (im_wf m) as [b Hb]. intros H. by apply (seg_wf_bounds _ _ _ _ Hb H). Qed.

(** A segment is all of a run of sectors with one value. *)
Lemma im_segment_maximal m i v :
  (i, v) ∈ im_segments m -> im_at m (lower i - 1) <> Some v /\ im_at m (upper i) <> Some v.
Proof.
  intros Hi. destruct (im_wf m) as [b Hb]. pose proof (im_joined m) as Hj. unfold im_at.
  pose proof (seg_wf_bounds _ _ _ _ Hb Hi).
  split; intros (j & Hin & Hx)%seg_at_Some; destruct (segs_apart _ _ _ _ _ _ Hb Hin Hi) as [->|[?|?]]; try iv_lia.
  - apply (seg_touching b _ j v i v Hb Hj Hin Hi); [iv_lia|done].
  - apply (seg_touching b _ i v j v Hb Hj Hi Hin); [iv_lia|done].
Qed.

Lemma im_card_nonneg m : 0 <= im_card m.
Proof. rewrite im_card_total. apply seg_total_nonneg. Qed.

(** Cardinality 0, no segment, and no sector are the same. *)
Lemma im_card_zero m : im_card m = 0 <-> im_segments m = [].
Proof.
  rewrite im_card_total. destruct (im_wf m) as [b Hb]. split.
  - by apply (seg_total_zero b).
  - by intros ->.
Qed.

Lemma im_card_zero_at m : im_card m = 0 -> forall x, im_at m x = None.
Proof. rewrite im_card_zero. unfold im_at. by intros -> x. Qed.

Lemma im_at_none_card m : (forall x, im_at m x = None) -> im_card m = 0.
Proof.
  intros H. apply im_card_zero. destruct (im_segments m) as [|[i v] l] eqn:E; [done|].
  assert ((i, v) ∈ im_segments m) as Hin by (rewrite E; constructor).
  pose proof (im_segment_nonempty _ _ _ Hin).
  specialize (H (lower i)).
  rewrite (im_segment_at _ _ _ _ Hin) in H; [done|]. iv_lia.
Qed.

Lemma im_card_remove m i v :
  (i, v) ∈ im_segments m -> im_card (im_sub m i) = im_card m - iv_card i.
Proof.
  intros H. rewrite !im_card_total.
  apply (seg_total_remove _ _ i v); auto using im_wf. intros x. apply im_sub_at.
Qed.

Lemma im_segment_card_pos m i v : (i, v) ∈ im_segments m -> 0 < iv_card i.
Proof.
  intros H. apply im_segment_nonempty in H. unfold iv_card.
  destruct (Z.leb_spec (upper i) (lower i)); lia.
Qed.
End MapFacts.

Section SetFacts.
Context {T : Type} `{!IclSet T, !IclSetLaws T}.
Implicit Types s : T.

Lemma is_empty_mem x : is_mem (is_empty : T) x = false.
Proof. unfold is_mem. by rewrite is_empty_intervals. Qed.

Lemma is_mem_spec s x : is_mem s x = true <-> exists i, i ∈ is_intervals s /\ x ∈ i.
Proof.
  unfold is_mem. rewrite existsb_exists. split.
  - intros (i & Hi & Hx). exists i. by rewrite list_elem_of_In, <- in_iv_spec.
  - intros (i & Hi & Hx). exists i. by rewrite <- list_elem_of_In, in_iv_spec.
Qed.

(** Adding every interval of a list. *)
Lemma is_add_all_mem (l : list SectorInterval) s x :
  is_mem (fold_left is_add l s) x = is_mem s x || existsb (in_iv x) l.
Proof.
  revert s. induction l as [|i l IH]; intros s; cbn; [by rewrite orb_false_r|].
  rewrite IH, is_add_mem. by rewrite orb_assoc.
Qed.
End SetFacts.

#[export] Hint Rewrite @im_empty_at @is_empty_mem using typeclasses eauto : agent.
