(* ===== verification/IclRef.v ===== *)
(** * A reference interval container

    The laws of [Icl] are assumptions about Boost.  This file builds a
    container that satisfies all of them, so that theorems stated against
    the classes can be run on concrete stores.  The container keeps the log
    of its updates; reading it out rebuilds the canonical segments: the
    end points of all intervals, sorted, cut the line into pieces on which
    the value is constant, and touching pieces with equal values are
    joined. *)

From stdpp Require Import sorting.
From S2P Require Import Prelude Machine Icl.

Lemma last_default {A} (c d e : A) rest :
  List.last (c :: rest) d = List.last (c :: rest) e.
Proof.
  revert c. induction rest as [|b rest IH]; intros c; [done|].
  change (List.last (b :: rest) d = List.last (b :: rest) e). apply IH.
Qed.

Lemma last_sorted_ge b rest : Sorted Z.le (b :: rest) -> b <= List.last (b :: rest) b.
Proof.
  revert b. induction rest as [|c rest IH]; intros b Hs; [cbn; lia|].
  apply Sorted_inv in Hs as [Hs Hhd]. apply HdRel_inv in Hhd. specialize (IH c Hs).
  change (List.last (b :: c :: rest) b) with (List.last (c :: rest) b).
  rewrite (last_default c b c). lia.
Qed.

(** ** Canonical segments of a piecewise constant function *)

Section Canonical.
Context {A : Type} `{!EqDecision A}.
Implicit Types (f : Z -> option A) (cuts : list Z) (l : list (SectorInterval * A)).

Fixpoint pieces f cuts : list (SectorInterval * A) :=
  match cuts with
  | a :: ((b :: _) as rest) =>
      match f a with
      | Some v => if a <? b then (mkSI a b, v) :: pieces f rest else pieces f rest
      | None => pieces f rest
      end
  | _ => []
  end.

Definition join_cons (i : SectorInterval) (v : A) l : list (SectorInterval * A) :=
  match l with
  | (j, w) :: r =>
      if decide (upper i = lower j /\ v = w)
      then (mkSI (lower i) (upper j), v) :: r
      else (i, v) :: l
  | [] => [(i, v)]
  end.

Fixpoint join l : list (SectorInterval * A) :=
  match l with
  | [] => []
  | (i, v) :: l' => join_cons i v (join l')
  end.

Lemma pieces_cons f a b rest :
  pieces f (a :: b :: rest) =
    match f a with
    | Some v => if a <? b then (mkSI a b, v) :: pieces f (b :: rest) else pieces f (b :: rest)
    | None => pieces f (b :: rest)
    end.
Proof. done. Qed.

Lemma pieces_from f a rest :
  Sorted Z.le (a :: rest) -> segs_from a (pieces f (a :: rest)).
Proof.
  revert a. induction rest as [|b rest IH]; intros a Hs; [done|].
  apply Sorted_inv in Hs as [Hs Hhd]. apply HdRel_inv in Hhd.
  specialize (IH b Hs). rewrite pieces_cons. destruct (f a) as [v|].
  - destruct (Z.ltb_spec a b); [|by eapply segs_from_weaken].
    cbn [segs_from lower upper]. repeat split; [lia|lia|done].
  - by eapply segs_from_weaken.
Qed.

(** Between two neighbouring cuts the function keeps its value. *)
Fixpoint constant_between f cuts : Prop :=
  match cuts with
  | a :: ((b :: _) as rest) =>
      (forall x, a <= x < b -> f x = f a) /\ constant_between f rest
  | _ => True
  end.

Lemma pieces_step f a b rest x :
  Sorted Z.le (b :: rest) ->
  seg_at (pieces f (a :: b :: rest)) x =
    if (a <=? x) && (x <? b) then f a else seg_at (pieces f (b :: rest)) x.
Proof.
  intros Hs. rewrite pieces_cons. pose proof (pieces_from f b rest Hs) as Hp.
  destruct (f a) as [v|]; [destruct (Z.ltb_spec a b)|]; cbn [seg_at].
  - done.
  - destruct (Z.leb_spec a x), (Z.ltb_spec x b); cbn; done || lia.
  - destruct (Z.leb_spec a x), (Z.ltb_spec x b); cbn; [|done..].
    by apply (seg_at_below b).
Qed.

Lemma pieces_at f a rest x :
  Sorted Z.le (a :: rest) -> constant_between f (a :: rest) ->
  seg_at (pieces f (a :: rest)) x =
    if (a <=? x) && (x <? List.last (a :: rest) a) then f x else None.
Proof.
  revert a. induction rest as [|b rest IH]; intros a Hs Hc.
  { cbn. destruct (Z.leb_spec a x), (Z.ltb_spec x a); cbn; done || lia. }
  apply Sorted_inv in Hs as [Hs Hhd]. apply HdRel_inv in Hhd.
  destruct Hc as [Hc1 Hc2]. specialize (IH b Hs Hc2).
  pose proof (last_sorted_ge b rest Hs) as Hlast.
  change (List.last (a :: b :: rest) a) with (List.last (b :: rest) a).
  rewrite (last_default b a b).
  rewrite pieces_step, IH by done.
  destruct (Z.leb_spec a x), (Z.ltb_spec x b), (Z.leb_spec b x),
    (Z.ltb_spec x (List.last (b :: rest) b)); cbn [andb]; try lia; try done.
  symmetry. apply Hc1. lia.
Qed.

Lemma join_from b l : segs_from b l -> segs_from b (join l).
Proof.
  revert b. induction l as [|[i v] l IH]; intros b; cbn; [done|].
  intros (H1 & H2 & H3). specialize (IH _ H3). unfold join_cons.
  destruct (join l) as [|[j w] r]; [by cbn|]. cbn in IH.
  destruct (decide _) as [[E ->]|]; cbn; intuition lia.
Qed.

Lemma join_at b l x : segs_from b l -> seg_at (join l) x = seg_at l x.
Proof.
  revert b. induction l as [|[i v] l IH]; intros b; cbn; [done|].
  intros (H1 & H2 & H3). rewrite <- (IH _ H3). pose proof (join_from _ _ H3) as Hj.
  unfold join_cons. destruct (join l) as [|[j w] r]; [done|]. cbn in Hj.
  destruct (decide _) as [[E ->]|]; cbn; [|done].
  unfold in_iv; cbn. repeat case_match; cbn in *; done || lia.
Qed.

Lemma join_cons_joined i v l : seg_joined l -> seg_joined (join_cons i v l).
Proof.
  destruct l as [|[j w] r]; cbn; [done|]. intros H.
  destruct (decide _) as [[E ->]|Hn]; cbn; [|split; [naive_solver|done]].
  destruct r as [|[k u] r]; [done|]. by destruct H.
Qed.

Lemma join_joined l : seg_joined (join l).
Proof. induction l as [|[i v] l IH]; cbn; [done|]. by apply join_cons_joined. Qed.

Lemma join_values (P : A -> Prop) l :
  (forall i v, (i, v) ∈ l -> P v) -> forall i v, (i, v) ∈ join l -> P v.
Proof.
  induction l as [|[j w] l IH]; intros H i v; cbn; [by intros ?%not_elem_of_nil|].
  assert (P w) as Hw by (apply (H j); constructor).
  assert (forall i v, (i, v) ∈ join l -> P v) as IH'
    by (apply IH; intros k u Hk; apply (H k); by constructor).
  unfold join_cons. destruct (join l) as [|[k u] r].
  - intros [[= -> ->]|?%not_elem_of_nil]%elem_of_cons; done.
  - destruct (decide _).
    + intros [[= -> ->]|Hin]%elem_of_cons; [done|]. apply (IH' i). by constructor.
    + intros [[= -> ->]|Hin]%elem_of_cons; [done|]. by apply (IH' i).
Qed.

Lemma pieces_values f cuts i v : (i, v) ∈ pieces f cuts -> exists x, f x = Some v.
Proof.
  induction cuts as [|a cuts IH]; [by intros ?%not_elem_of_nil|].
  destruct cuts as [|b rest]; [by intros ?%not_elem_of_nil|].
  rewrite pieces_cons. destruct (f a) as [w|] eqn:E; [destruct (a <? b)|]; auto.
  intros [[= -> ->]|Hin]%elem_of_cons; eauto.
Qed.
End Canonical.

(** ** The update log *)

Inductive log_op :=
| LAdd (i : SectorInterval) (v : Z)
| LSub (i : SectorInterval).

Definition op_interval (o : log_op) : SectorInterval :=
  match o with LAdd i _ => i | LSub i => i end.

(** The value at a sector; the newest update is at the head. *)
Fixpoint log_at (m : list log_op) (x : Z) : option Z :=
  match m with
  | [] => None
  | LAdd i v :: m' =>
      if v =? 0 then log_at m' x
      else if in_iv x i
      then Some (match log_at m' x with Some w => Z.max w v | None => v end)
      else log_at m' x
  | LSub i :: m' => if in_iv x i then None else log_at m' x
  end.

Definition log_points (m : list log_op) : list Z :=
  m ≫= fun o => [lower (op_interval o); upper (op_interval o)].

Definition log_cuts (m : list log_op) : list Z := merge_sort Z.le (log_points m).

Definition log_segments (m : list log_op) : list (SectorInterval * Z) :=
  join (pieces (log_at m) (log_cuts m)).

Lemma log_cuts_sorted m : Sorted Z.le (log_cuts m).
Proof. apply Sorted_merge_sort. exact _. Qed.

Lemma log_cuts_elem m x : x ∈ log_cuts m <-> x ∈ log_points m.
Proof. unfold log_cuts. by rewrite merge_sort_Permutation. Qed.

(** A point of the log separates two sectors on which it differs. *)
Lemma log_at_between m a x :
  a <= x -> (forall p, p ∈ log_points m -> ~ (a < p <= x)) -> log_at m x = log_at m a.
Proof.
  intros Hax. induction m as [|o m IH]; [done|]. intros Hp.
  assert (log_at m x = log_at m a) as IHm.
  { apply IH. intros p Hin. apply Hp. apply elem_of_app. by right. }
  assert (in_iv x (op_interval o) = in_iv a (op_interval o)) as Hiv.
  { pose proof (Hp (lower (op_interval o)) ltac:(constructor)).
    pose proof (Hp (upper (op_interval o)) ltac:(right; constructor)).
    unfold in_iv. lia. }
  destruct o; cbn in *; by rewrite IHm, Hiv.
Qed.

Lemma sorted_head_min a rest p :
  Sorted Z.le (a :: rest) -> p ∈ a :: rest -> a <= p.
Proof.
  intros Hs Hp. apply Sorted_StronglySorted in Hs; [|intros ? ? ?; lia].
  apply StronglySorted_inv in Hs as [_ Hall]. apply elem_of_cons in Hp as [->|Hp]; [lia|].
  rewrite Forall_forall in Hall. by apply Hall.
Qed.

Lemma constant_between_log m cuts :
  Sorted Z.le cuts ->
  (forall p b, p ∈ log_points m -> head cuts = Some b -> b <= p -> p ∈ cuts) ->
  constant_between (log_at m) cuts.
Proof.
  induction cuts as [|a cuts IH]; [done|]. destruct cuts as [|b rest]; [done|].
  intros Hs Hp. apply Sorted_inv in Hs as [Hs Hhd]. apply HdRel_inv in Hhd.
  split.
  - intros x Hx. apply log_at_between; [lia|]. intros p Hin Hpx.
    specialize (Hp p a Hin eq_refl ltac:(lia)).
    apply elem_of_cons in Hp as [->|Hp]; [lia|].
    pose proof (sorted_head_min b rest p Hs Hp). lia.
  - apply IH; [done|]. intros p c Hin [= ->] Hc.
    specialize (Hp p a Hin eq_refl ltac:(lia)). apply elem_of_cons in Hp as [->|Hp]; [|done].
    assert (a = c) as -> by lia. constructor.
Qed.

Lemma log_at_outside m x :
  (forall p, p ∈ log_points m -> x < p) \/ (forall p, p ∈ log_points m -> p <= x) ->
  log_at m x = None.
Proof.
  induction m as [|o m IH]; [done|]. intros H.
  assert (log_at m x = None) as Hm.
  { apply IH. destruct H as [H|H]; [left|right]; intros p Hp; apply H, elem_of_app; by right. }
  assert (in_iv x (op_interval o) = false) as Hiv.
  { unfold in_iv. destruct H as [H|H].
    - pose proof (H (lower (op_interval o)) ltac:(constructor)). lia.
    - pose proof (H (upper (op_interval o)) ltac:(right; constructor)). lia. }
  destruct o as [i v|i]; cbn in *; rewrite Hm, Hiv; [by destruct (v =? 0)|done].
Qed.

Lemma sorted_last_max a rest p :
  Sorted Z.le (a :: rest) -> p ∈ a :: rest -> p <= List.last (a :: rest) a.
Proof.
  revert a p. induction rest as [|b rest IH]; intros a p Hs Hp.
  - apply elem_of_cons in Hp as [->|Hp]; [cbn; lia|by apply not_elem_of_nil in Hp].
  - apply Sorted_inv in Hs as [Hs Hhd]. apply HdRel_inv in Hhd.
    change (List.last (a :: b :: rest) a) with (List.last (b :: rest) a).
    rewrite (last_default b a b). apply elem_of_cons in Hp as [->|Hp].
    + pose proof (last_sorted_ge b rest Hs). lia.
    + by apply IH.
Qed.

(** Reading the canonical segments gives the log's own value. *)
Lemma log_segments_wf m : exists b, segs_from b (pieces (log_at m) (log_cuts m)).
Proof.
  pose proof (log_cuts_sorted m) as Hs. destruct (log_cuts m) as [|a rest].
  - by exists 0.
  - exists a. by apply pieces_from.
Qed.

Lemma log_segments_at m x : seg_at (log_segments m) x = log_at m x.
Proof.
  unfold log_segments. destruct (log_segments_wf m) as [b Hb].
  rewrite (join_at b) by done. clear b Hb.
  pose proof (log_cuts_sorted m) as Hs. pose proof (log_cuts_elem m) as He.
  destruct (log_cuts m) as [|a rest] eqn:E.
  - cbn. symmetry. apply log_at_outside. left. intros p Hp. apply He in Hp.
    by apply not_elem_of_nil in Hp.
  - rewrite pieces_at; [|done|].
    + destruct (Z.leb_spec a x); cbn [andb]; [destruct (Z.ltb_spec x (List.last (a :: rest) a)); [done|]|];
        symmetry; apply log_at_outside; [right|left]; intros p Hp%He.
      * pose proof (sorted_last_max _ _ _ Hs Hp). lia.
      * pose proof (sorted_head_min _ _ _ Hs Hp). lia.
    + apply constant_between_log; [done|]. intros p c Hp _ _. by apply He.
Qed.

Lemma log_at_nonzero m x v : log_at m x = Some v -> v <> 0.
Proof.
  revert v. induction m as [|[i w|i] m IH]; intros v; cbn; [done| |].
  - destruct (Z.eqb_spec w 0); [apply IH|]. destruct (in_iv x i); [|apply IH].
    destruct (log_at m x) as [u|]; [|congruence]. specialize (IH u eq_refl).
    intros [= <-]. lia.
  - destruct (in_iv x i); [done|apply IH].
Qed.

(** ** The instances *)

Definition ref_map := list log_op.

#[export] Instance ref_map_ops : IclMap ref_map := {|
  im_empty := [];
  im_add := fun m i v => LAdd i v :: m;
  im_sub := fun m i => LSub i :: m;
  im_segments := log_segments;
  im_card := fun m => seg_total (log_segments m)
|}.

#[export] Instance ref_map_laws : IclMapLaws ref_map.
Proof.
  split.
  - intros m. destruct (log_segments_wf m) as [b Hb]. exists b. by apply join_from.
  - intros m. apply join_joined.
  - intros m. apply (join_values (fun v => v <> 0)). intros i v Hin.
    apply pieces_values in Hin as [x Hx]. exact (log_at_nonzero _ _ _ Hx).
  - done.
  - intros m i v x _. unfold im_at. cbn [im_segments im_add im_sub ref_map_ops]. by rewrite !log_segments_at.
  - intros m i x. unfold im_at. cbn [im_segments im_add im_sub ref_map_ops]. by rewrite !log_segments_at.
  - done.
Qed.

Definition ref_set := list log_op.

Definition to_unit (o : option Z) : option unit :=
  match o with Some _ => Some tt | None => None end.

(** A set is the map whose every sector has the value 1. *)
Definition ref_unit (m : list log_op) : list (SectorInterval * unit) :=
  join (pieces (fun x => to_unit (log_at m x)) (log_cuts m)).

#[export] Instance ref_set_ops : IclSet ref_set := {|
  is_empty := [];
  is_add := fun s i => LAdd i 1 :: s;
  is_sub := fun s i => LSub i :: s;
  is_intervals := fun s => (ref_unit s).*1;
  is_card := fun s => seg_total (ref_unit s)
|}.

Lemma unit_segs_fst (l : list (SectorInterval * unit)) : unit_segs l.*1 = l.
Proof.
  unfold unit_segs. rewrite <- list_fmap_compose.
  rewrite <- (list_fmap_id l) at 2. apply list_fmap_ext. by intros ? [? []] ?.
Qed.

Lemma constant_between_compose {A B} (g : option A -> option B) (f : Z -> option A) cuts :
  constant_between f cuts -> constant_between (fun x => g (f x)) cuts.
Proof.
  induction cuts as [|a cuts IH]; [done|]. destruct cuts as [|b rest]; [done|].
  intros [H1 H2]. split; [|by apply IH]. intros x Hx. by rewrite H1.
Qed.

Lemma ref_unit_wf m :
  exists b, segs_from b (pieces (fun x => to_unit (log_at m x)) (log_cuts m)).
Proof.
  pose proof (log_cuts_sorted m) as Hs. destruct (log_cuts m) as [|a rest].
  - by exists 0.
  - exists a. by apply pieces_from.
Qed.

Lemma ref_unit_at m x :
  seg_at (ref_unit m) x = to_unit (log_at m x).
Proof.
  unfold ref_unit. destruct (ref_unit_wf m) as [b Hb].
  rewrite (join_at b) by done. clear b Hb.
  pose proof (log_cuts_sorted m) as Hs. pose proof (log_cuts_elem m) as He.
  destruct (log_cuts m) as [|a rest] eqn:E.
  - cbn. rewrite log_at_outside; [done|]. left. intros p Hp. apply He in Hp.
    by apply not_elem_of_nil in Hp.
  - rewrite pieces_at; [|done|].
    + destruct (Z.leb_spec a x); cbn [andb]; [destruct (Z.ltb_spec x (List.last (a :: rest) a)); [done|]|];
        (rewrite log_at_outside; [done|]); [right|left]; intros p Hp%He.
      * pose proof (sorted_last_max _ _ _ Hs Hp). lia.
      * pose proof (sorted_head_min _ _ _ Hs Hp). lia.
    + apply (constant_between_compose to_unit).
      apply constant_between_log; [done|]. intros p c Hp _ _. by apply He.
Qed.

Lemma seg_at_existsb (l : list (SectorInterval * unit)) x :
  existsb (in_iv x) l.*1 = bool_decide (is_Some (seg_at l x)).
Proof.
  induction l as [|[i []] l IH]; cbn; [done|]. rewrite IH. by destruct (in_iv x i).
Qed.

#[export] Instance ref_set_laws : IclSetLaws ref_set.
Proof.
  split.
  - intros s. cbn. rewrite unit_segs_fst. destruct (ref_unit_wf s) as [b Hb].
    exists b. by apply join_from.
  - intros s. cbn. rewrite unit_segs_fst. apply join_joined.
  - done.
  - intros s i x. unfold is_mem. cbn [is_intervals is_add is_sub ref_set_ops].
    rewrite !seg_at_existsb, !ref_unit_at. cbn.
    by destruct (in_iv x i), (log_at s x).
  - intros s i x. unfold is_mem. cbn [is_intervals is_add is_sub ref_set_ops].
    rewrite !seg_at_existsb, !ref_unit_at. cbn.
    by destruct (in_iv x i), (log_at s x).
  - intros s. cbn. by rewrite unit_segs_fst.
Qed.

Example ref_map_run :
  im_segments (im_sub (im_add (im_add (im_empty : ref_map)
    (mkSI 1 10) 1000) (mkSI 5 20) 1000) (mkSI 3 4))
  = [(mkSI 1 3, 1000); (mkSI 4 20, 1000)].
Proof. vm_compute. reflexivity. Qed.
