(* ===== verification/SectorStore.v ===== *)
(** * The store of unsynced sectors

    Models unsynced_sector_manager/unsynced_sector_store.{h,cc}: which
    sectors of a device still have to be copied, when each was last
    written, which ones were handed out since the last backup, and the
    cursor that makes the intervals come out in order.  Every method holds
    the store's mutex for its whole body, so each is one atomic step. *)

From S2P Require Import Prelude Machine Icl IclRef.

Section Store.
Context {TM TS : Type} `{!IclMap TM, !IclSet TS}.

Record UnsyncedSectorStore := mkStore {
  volatile_seconds_ : Z;
  unsynced_sector_map_ : TM;
  synced_sector_set_ : TS;
  end_of_last_continuous_ : Z
}.

Definition new_UnsyncedSectorStore (volatile_seconds : Z) : UnsyncedSectorStore :=
  mkStore volatile_seconds im_empty is_empty 0.

Definition set_map (m : TM) (s : UnsyncedSectorStore) : UnsyncedSectorStore :=
  mkStore (volatile_seconds_ s) m (synced_sector_set_ s) (end_of_last_continuous_ s).

Definition set_synced (h : TS) (s : UnsyncedSectorStore) : UnsyncedSectorStore :=
  mkStore (volatile_seconds_ s) (unsynced_sector_map_ s) h (end_of_last_continuous_ s).

Definition set_cursor (c : Z) (s : UnsyncedSectorStore) : UnsyncedSectorStore :=
  mkStore (volatile_seconds_ s) (unsynced_sector_map_ s) (synced_sector_set_ s) c.

Definition AddInterval (sector_interval : SectorInterval) (epoch : Z)
    : M UnsyncedSectorStore unit :=
  vs ← gets volatile_seconds_;
  check_gt epoch vs "epoch > volatile_seconds_" ;;
  modify (fun s => set_map (im_add (unsynced_sector_map_ s) sector_interval epoch) s).

Definition AddNonVolatileInterval (sector_interval : SectorInterval)
    : M UnsyncedSectorStore unit :=
  modify (fun s => set_map (im_add (unsynced_sector_map_ s) sector_interval 1) s).

Definition RemoveInterval (sector_interval : SectorInterval)
    : M UnsyncedSectorStore unit :=
  modify (fun s => set_map (im_sub (unsynced_sector_map_ s) sector_interval) s) ;;
  modify (fun s => set_synced (is_add (synced_sector_set_ s) sector_interval) s).

(** The segment the loop at lines 48-57 stops at. *)
Definition next_past (s : UnsyncedSectorStore) : option (SectorInterval * Z) :=
  List.find (fun p => end_of_last_continuous_ s <? lower p.1)
            (im_segments (unsynced_sector_map_ s)).

(** The output parameter and the return value as a pair. *)
Definition GetInterval (epoch : Z) : M UnsyncedSectorStore (SectorInterval * bool) :=
  s ← get;
  check_gt epoch (volatile_seconds_ s) "epoch > volatile_seconds_" ;;
  '(output, is_volatile) ←
    match next_past s with
    | Some (i, t) => mret (i, epoch - volatile_seconds_ s <? t)
    | None =>
        if 0 <? im_card (unsynced_sector_map_ s)
        then match im_segments (unsynced_sector_map_ s) with
             | (i, t) :: _ => mret (i, epoch - volatile_seconds_ s <? t)
             | [] => undef "*begin() of an empty map"
             end
        else mret (mkSI 0 0, false)
    end;
  modify (set_cursor (upper output)) ;;
  mret (output, is_volatile).

Definition ClearIntervals : M UnsyncedSectorStore unit :=
  modify (set_map im_empty) ;; modify (set_synced is_empty).

Definition ClearSyncHistory : M UnsyncedSectorStore unit :=
  modify (set_synced is_empty).

Definition ReInsertSyncHistory : M UnsyncedSectorStore unit :=
  history ← gets (fun s => is_intervals (synced_sector_set_ s));
  for_each history (fun interval =>
    modify (fun s => set_map (im_add (unsynced_sector_map_ s) interval 0) s)) ;;
  modify (set_synced is_empty).

Definition UnsyncedSectorCount : M UnsyncedSectorStore Z :=
  gets (fun s => im_card (unsynced_sector_map_ s)).

(** ** What a store promises

    A store is the time of the last write of each unsynced sector, and
    the set of sectors handed out since the history was cleared. *)

Record store_view := mkView { v_unsynced : Z -> option Z; v_synced : Z -> bool }.

Definition view_of (s : UnsyncedSectorStore) : store_view :=
  mkView (im_at (unsynced_sector_map_ s)) (is_mem (synced_sector_set_ s)).

#[export] Instance view_equiv : Equiv store_view := fun a b =>
  (forall x, v_unsynced a x = v_unsynced b x) /\
  (forall x, v_synced a x = v_synced b x).

#[export] Instance view_equivalence : Equivalence (≡@{store_view}).
Proof.
  split.
  - by intros [].
  - intros a b [H1 H2]. by split.
  - intros a b c [H1 H2] [H3 H4]. split; intros x; congruence.
Qed.

Inductive store_op :=
| OpAddInterval (i : SectorInterval) (epoch : Z)
| OpAddNonVolatileInterval (i : SectorInterval)
| OpRemoveInterval (i : SectorInterval)
| OpGetInterval (epoch : Z)
| OpClearIntervals
| OpClearSyncHistory
| OpReInsertSyncHistory.

Definition run_op (o : store_op) : M UnsyncedSectorStore unit :=
  match o with
  | OpAddInterval i t => AddInterval i t
  | OpAddNonVolatileInterval i => AddNonVolatileInterval i
  | OpRemoveInterval i => RemoveInterval i
  | OpGetInterval t => GetInterval t ;; mret tt
  | OpClearIntervals => ClearIntervals
  | OpClearSyncHistory => ClearSyncHistory
  | OpReInsertSyncHistory => ReInsertSyncHistory
  end.

(** Marking an interval as written at a time: the later time wins. *)
Definition mark (f : Z -> option Z) (i : SectorInterval) (t : Z) : Z -> option Z :=
  fun x => if in_iv x i
           then Some (match f x with Some w => Z.max w t | None => t end)
           else f x.

(** What each operation is documented to do.  ReInsertSyncHistory "loads the
    synced intervals into the unsynced intervals", with the time the code
    gives them. *)
Definition spec_op (o : store_op) (v : store_view) : store_view :=
  match o with
  | OpAddInterval i t => mkView (mark (v_unsynced v) i t) (v_synced v)
  | OpAddNonVolatileInterval i => mkView (mark (v_unsynced v) i 1) (v_synced v)
  | OpRemoveInterval i =>
      mkView (fun x => if in_iv x i then None else v_unsynced v x)
             (fun x => v_synced v x || in_iv x i)
  | OpGetInterval _ => v
  | OpClearIntervals => mkView (fun _ => None) (fun _ => false)
  | OpClearSyncHistory => mkView (v_unsynced v) (fun _ => false)
  | OpReInsertSyncHistory =>
      mkView (fun x => if v_synced v x
                       then Some (match v_unsynced v x with Some w => w | None => 0 end)
                       else v_unsynced v x)
             (fun _ => false)
  end.

(** The CHECKs of the two operations that take a time.  ReInsertSyncHistory
    has no caller. *)
Definition op_allowed (vs : Z) (o : store_op) : Prop :=
  match o with
  | OpAddInterval _ t | OpGetInterval t => vs < t
  | OpReInsertSyncHistory => False
  | _ => True
  end.
End Store.

Arguments UnsyncedSectorStore : clear implicits.

(** ** Correctness *)

Section StoreProps.
Context {TM TS : Type} `{!IclMap TM, !IclMapLaws TM, !IclSet TS, !IclSetLaws TS}.
Abbreviation store := (UnsyncedSectorStore TM TS).
Implicit Types s : store.

Lemma AddInterval_run s i t :
  volatile_seconds_ s < t ->
  AddInterval i t s = (Ret tt, set_map (im_add (unsynced_sector_map_ s) i t) s).
Proof. intros H. unfold AddInterval. run. by rewrite check_gt_true. Qed.

Lemma RemoveInterval_run s i :
  RemoveInterval i s =
    (Ret tt, set_synced (is_add (synced_sector_set_ s) i)
               (set_map (im_sub (unsynced_sector_map_ s) i) s)).
Proof. done. Qed.

(** What GetInterval answers when the CHECK holds. *)
Definition interval_answer (s : store) (epoch : Z) : SectorInterval * bool :=
  match next_past s with
  | Some (i, t) => (i, epoch - volatile_seconds_ s <? t)
  | None =>
      match im_segments (unsynced_sector_map_ s) with
      | (i, t) :: _ => (i, epoch - volatile_seconds_ s <? t)
      | [] => (mkSI 0 0, false)
      end
  end.

Lemma GetInterval_run s epoch :
  volatile_seconds_ s < epoch ->
  GetInterval epoch s =
    (Ret (interval_answer s epoch), set_cursor (upper (interval_answer s epoch).1) s).
Proof.
  intros H. unfold GetInterval, interval_answer. run. rewrite check_gt_true by done. run.
  destruct (next_past s) as [[i t]|]; run; [done|].
  pose proof (im_card_zero (unsynced_sector_map_ s)) as Hz.
  pose proof (im_card_nonneg (unsynced_sector_map_ s)) as Hn.
  destruct (im_segments (unsynced_sector_map_ s)) as [|[i t] l].
  - rewrite (proj2 Hz eq_refl). done.
  - destruct (Z.ltb_spec 0 (im_card (unsynced_sector_map_ s))); [done|].
    assert (im_card (unsynced_sector_map_ s) = 0) as E by lia.
    apply Hz in E. done.
Qed.

Lemma next_past_Some s i t :
  next_past s = Some (i, t) ->
  (i, t) ∈ im_segments (unsynced_sector_map_ s) /\ end_of_last_continuous_ s < lower i.
Proof.
  unfold next_past. intros [H1 H2]%List.find_some. cbn in H2.
  apply list_elem_of_In in H1. split; [done|]. by apply Z.ltb_lt.
Qed.

Lemma find_first_past {A} b c (l : list (SectorInterval * A)) i t :
  segs_from b l -> List.find (fun p => c <? lower p.1) l = Some (i, t) ->
  forall j u, (j, u) ∈ l -> c < lower j -> lower i <= lower j.
Proof.
  revert b. induction l as [|[k w] l IH]; intros b; [done|]. cbn [List.find fst].
  intros (H1 & H2 & H3). destruct (Z.ltb_spec c (lower k)).
  - intros [= -> ->] j u Hin _. apply elem_of_cons in Hin as [[= -> ->]|Hin]; [lia|].
    pose proof (seg_wf_bounds _ _ _ _ H3 Hin). lia.
  - intros Hf j u Hin Hj. apply elem_of_cons in Hin as [[= -> ->]|Hin]; [lia|].
    by eapply IH.
Qed.

(** The answer is a segment of the map, when the map has any. *)
Lemma interval_answer_segment s epoch :
  im_segments (unsynced_sector_map_ s) <> [] ->
  exists t, ((interval_answer s epoch).1, t) ∈ im_segments (unsynced_sector_map_ s) /\
            (interval_answer s epoch).2 = (epoch - volatile_seconds_ s <? t).
Proof.
  unfold interval_answer. intros Hne. destruct (next_past s) as [[i t]|] eqn:E.
  - exists t. split; [|done]. by apply next_past_Some in E as [? _].
  - destruct (im_segments (unsynced_sector_map_ s)) as [|[i t] l]; [done|].
    exists t. split; [constructor|done].
Qed.

(** Which segment it is, when none begins at the cursor. *)
Lemma interval_answer_next s epoch i t b :
  interval_answer s epoch = (i, b) -> (i, t) ∈ im_segments (unsynced_sector_map_ s) ->
  (forall j u, (j, u) ∈ im_segments (unsynced_sector_map_ s) -> lower j <> end_of_last_continuous_ s) ->
  (end_of_last_continuous_ s <= lower i /\
   forall j u, (j, u) ∈ im_segments (unsynced_sector_map_ s) ->
     end_of_last_continuous_ s <= lower j -> lower i <= lower j) \/
  (head (im_segments (unsynced_sector_map_ s)) = Some (i, t) /\
   forall j u, (j, u) ∈ im_segments (unsynced_sector_map_ s) -> lower j < end_of_last_continuous_ s).
Proof.
  unfold interval_answer. intros E Hit Hne. destruct (next_past s) as [[k v]|] eqn:En.
  - injection E as -> _. destruct (next_past_Some _ _ _ En) as [Hin Hlt]. left. split; [lia|].
    intros j u Hj Hle. destruct (im_wf (unsynced_sector_map_ s)) as [b' Hb'].
    apply (find_first_past b' _ _ _ _ Hb' En j u Hj). specialize (Hne j u Hj). lia.
  - right. destruct (im_segments (unsynced_sector_map_ s)) as [|[k v] l] eqn:El; [by apply not_elem_of_nil in Hit|].
    injection E as -> _. rewrite <- El in *. assert ((i, v) ∈ im_segments (unsynced_sector_map_ s)) as Hv by (rewrite El; left).
    assert (v = t) as ->.
    { pose proof (im_segment_nonempty _ _ _ Hv). assert (lower i ∈ i) as Hx by iv_lia.
      pose proof (im_segment_at _ _ _ _ Hv Hx) as E1. rewrite (im_segment_at _ _ _ _ Hit Hx) in E1. by injection E1. }
    split; [by rewrite El|]. intros j u Hj. specialize (Hne j u Hj). unfold next_past in En. apply list_elem_of_In in Hj.
    pose proof (List.find_none _ _ En _ Hj) as Hf. cbn in Hf. apply Z.ltb_ge in Hf. lia.
Qed.

Lemma interval_answer_empty s epoch :
  im_segments (unsynced_sector_map_ s) = [] -> interval_answer s epoch = (mkSI 0 0, false).
Proof. unfold interval_answer, next_past. by intros ->. Qed.

(** The history never puts a sector back: the library absorbs time 0. *)
Lemma reinsert_map (l : list SectorInterval) s :
  exists s', for_each l (fun i => modify (fun s : store =>
               set_map (im_add (unsynced_sector_map_ s) i 0) s)) s = (Ret tt, s') /\
    (forall x, im_at (unsynced_sector_map_ s') x = im_at (unsynced_sector_map_ s) x) /\
    volatile_seconds_ s' = volatile_seconds_ s.
Proof.
  revert s. induction l as [|i l IH]; intros s; [by exists s|].
  destruct (IH (set_map (im_add (unsynced_sector_map_ s) i 0) s)) as (s' & H1 & H2 & H3).
  exists s'. rewrite for_each_cons. run. split_and!; [done| |done].
  intros x. rewrite H2. cbn. by rewrite im_add_at by lia.
Qed.

Lemma ReInsertSyncHistory_run s :
  exists s', ReInsertSyncHistory s = (Ret tt, s') /\
    (forall x, im_at (unsynced_sector_map_ s') x = im_at (unsynced_sector_map_ s) x) /\
    synced_sector_set_ s' = is_empty /\ volatile_seconds_ s' = volatile_seconds_ s.
Proof.
  unfold ReInsertSyncHistory. run.
  destruct (reinsert_map (is_intervals (synced_sector_set_ s)) s) as (s1 & -> & H & Hv).
  eexists. by split.
Qed.

Lemma run_op_simulates s o :
  0 <= volatile_seconds_ s -> op_allowed (volatile_seconds_ s) o ->
  exists s', run_op o s = (Ret tt, s') /\
    volatile_seconds_ s' = volatile_seconds_ s /\ view_of s' ≡ spec_op o (view_of s).
Proof.
  intros Hv Ha. destruct o as [i t|i|i|t| | |]; cbn in Ha.
  - eexists. split; [by apply AddInterval_run|]. split; [done|].
    split; intros x; cbn; [|done]. rewrite im_add_at by lia.
    destruct (Z.eqb_spec t 0); [lia|done].
  - eexists. split; [done|]. split; [done|]. split; intros x; cbn; [|done].
    by rewrite im_add_at by lia.
  - eexists. split; [done|]. split; [done|]. split; intros x; cbn.
    + apply im_sub_at.
    + apply is_add_mem.
  - cbn. eexists. split; [erewrite bind_Ret; [|by apply GetInterval_run]; done|].
    by split.
  - eexists. split; [done|]. split; [done|].
    split; intros x; cbn; [apply im_empty_at|apply is_empty_mem].
  - eexists. split; [done|]. split; [done|]. split; intros x; cbn; [done|apply is_empty_mem].
  - done.
Qed.

Lemma spec_op_proper o (v v' : store_view) : v ≡ v' -> spec_op o v ≡ spec_op o v'.
Proof.
  intros [H1 H2]. destruct o; split; intros x; cbn; unfold mark;
    rewrite ?H1, ?H2; done.
Qed.

(** C7: the store implements its abstract contract.  Every sequence of the
    operations that have a caller and respect the CHECKs on the time runs to
    its end, and the unsynced sectors with their write times and the set of
    handed-out sectors are those the specification computes.
    (ReInsertSyncHistory does not implement what the header says of it:
    [reinsert_breaks_its_contract].) *)
Theorem store_refines_spec s (ops : list store_op) :
  0 <= volatile_seconds_ s -> Forall (op_allowed (volatile_seconds_ s)) ops ->
  exists s', for_each ops run_op s = (Ret tt, s') /\
    view_of s' ≡ fold_left (fun v o => spec_op o v) ops (view_of s).
Proof.
  intros Hv Ha.
  assert (forall v, view_of s ≡ v -> exists s', for_each ops run_op s = (Ret tt, s') /\
    view_of s' ≡ fold_left (fun v o => spec_op o v) ops v) as H; [|by apply H].
  revert s Hv Ha. induction ops as [|o ops IH]; intros s Hv Ha v Hs; [eauto|].
  apply Forall_cons in Ha as [Ho Ha].
  destruct (run_op_simulates s o Hv Ho) as (s1 & R1 & E1 & V1).
  rewrite <- E1 in Hv, Ha. rewrite for_each_cons, bind_unfold, R1.
  apply (IH s1 Hv Ha). rewrite V1. by apply spec_op_proper.
Qed.

(** C8: GetInterval.  A time that fails the CHECK kills the process.
    Otherwise only the cursor moves, to the end of the answer.  An empty
    store answers [0, 0) and "not volatile".  A non-empty store answers one
    of its segments, all of a run of sectors last written at one time, and
    says whether that was in the last [volatile_seconds].  Unless a segment
    begins exactly at the cursor ([get_interval_skips_adjacent] says what
    happens then), it is the first one after the cursor, or the first of all
    when none is after it. *)
Theorem get_interval_spec s epoch :
  (epoch <= volatile_seconds_ s ->
     GetInterval epoch s = (Abort "epoch > volatile_seconds_", s)) /\
  (volatile_seconds_ s < epoch ->
     exists i b, GetInterval epoch s = (Ret (i, b), set_cursor (upper i) s) /\
     (im_card (unsynced_sector_map_ s) = 0 -> i = mkSI 0 0 /\ b = false) /\
     (im_card (unsynced_sector_map_ s) <> 0 ->
       exists t, (i, t) ∈ im_segments (unsynced_sector_map_ s) /\
         b = (epoch - volatile_seconds_ s <? t) /\
         (forall x, x ∈ i -> im_at (unsynced_sector_map_ s) x = Some t) /\
         im_at (unsynced_sector_map_ s) (lower i - 1) <> Some t /\
         im_at (unsynced_sector_map_ s) (upper i) <> Some t /\
         ((forall j u, (j, u) ∈ im_segments (unsynced_sector_map_ s) -> lower j <> end_of_last_continuous_ s) ->
          (end_of_last_continuous_ s <= lower i /\
           forall j u, (j, u) ∈ im_segments (unsynced_sector_map_ s) ->
             end_of_last_continuous_ s <= lower j -> lower i <= lower j) \/
          (head (im_segments (unsynced_sector_map_ s)) = Some (i, t) /\
           forall j u, (j, u) ∈ im_segments (unsynced_sector_map_ s) ->
             lower j < end_of_last_continuous_ s)))).
Proof.
  split; intros H.
  - unfold GetInterval. run. by rewrite check_gt_false.
  - rewrite GetInterval_run by done. destruct (interval_answer s epoch) as [i b] eqn:E.
    exists i, b. split; [done|]. split.
    + intros Hz%im_card_zero. rewrite interval_answer_empty in E by done. by inversion E.
    + intros Hz. destruct (interval_answer_segment s epoch) as (t & Hin & Hb); [by rewrite <- im_card_zero|].
      rewrite E in Hin, Hb. exists t. destruct (im_segment_maximal _ _ _ Hin).
      split_and!; [done|done|intros x; by apply im_segment_at|done|done|]. by apply (interval_answer_next s epoch i t b).
Qed.

(** ** Draining *)

(** One round of the synchronizer's work loop on the store: take an
    interval and remove it (device_synchronizer.cc:138-143). *)
Definition take (epoch : Z) : M store SectorInterval :=
  '(i, _) ← GetInterval epoch; RemoveInterval i ;; mret i.

Lemma take_run s epoch :
  volatile_seconds_ s < epoch ->
  im_card (unsynced_sector_map_ s) <> 0 ->
  exists i t s', take epoch s = (Ret i, s') /\
    (i, t) ∈ im_segments (unsynced_sector_map_ s) /\
    volatile_seconds_ s' = volatile_seconds_ s /\
    unsynced_sector_map_ s' = im_sub (unsynced_sector_map_ s) i /\
    synced_sector_set_ s' = is_add (synced_sector_set_ s) i.
Proof.
  intros Hv Hz. destruct (interval_answer_segment s epoch) as (t & Hin & Hb).
  { by rewrite <- im_card_zero. }
  destruct (interval_answer s epoch) as [i b] eqn:E. cbn in *.
  exists i, t. eexists. split.
  - unfold take. erewrite bind_Ret; [|by apply GetInterval_run]. rewrite E. done.
  - done.
Qed.

Fixpoint drain (fuel : nat) (epoch : Z) : M store (list SectorInterval) :=
  match fuel with
  | O => out_of_fuel
  | S fuel' =>
      n ← UnsyncedSectorCount;
      if n =? 0 then mret []
      else i ← take epoch; l ← drain fuel' epoch; mret (i :: l)
  end.

(** C9: taking and removing intervals empties a store.  With one round of
    fuel per unsynced sector plus one the loop ends, nothing is left
    unsynced, every sector that was unsynced lies in exactly one interval
    that was handed out and in the history, and no other sector was
    handed out. *)
Theorem drain_hands_out_everything s epoch fuel :
  volatile_seconds_ s < epoch ->
  (Z.to_nat (im_card (unsynced_sector_map_ s)) < fuel)%nat ->
  exists l s', drain fuel epoch s = (Ret l, s') /\
    (forall x, im_at (unsynced_sector_map_ s') x = None) /\
    (forall x, is_Some (im_at (unsynced_sector_map_ s) x) <-> exists i, i ∈ l /\ x ∈ i) /\
    (forall x, length (filter (fun i => x ∈ i) l) <= 1)%nat /\
    (forall x, is_mem (synced_sector_set_ s') x =
               is_mem (synced_sector_set_ s) x || existsb (in_iv x) l).
Proof.
  revert s. induction fuel as [|fuel IH]; intros s Hv Hf; [lia|]. cbn [drain].
  unfold UnsyncedSectorCount. run. destruct (Z.eqb_spec (im_card (unsynced_sector_map_ s)) 0) as [Hz|Hz].
  - exists [], s. pose proof (im_card_zero_at _ Hz) as Hn. split_and!; [done|done| |cbn; lia|].
    + intros x. rewrite Hn. split; [by intros []|].
      intros (i & Hi & _). by apply not_elem_of_nil in Hi.
    + intros x. cbn. by rewrite orb_false_r.
  - destruct (take_run s epoch Hv Hz) as (i & t & s1 & Ht & Hin & Hv1 & Hm1 & Hs1).
    destruct (IH s1) as (l & s' & Hd & Hnone & Hcov & Hone & Hsyn).
    { by rewrite Hv1. }
    { rewrite Hm1, (im_card_remove _ _ _ Hin).
      pose proof (im_segment_card_pos _ _ _ Hin). pose proof (im_card_nonneg (unsynced_sector_map_ s)). lia. }
    assert (forall x, is_Some (im_at (unsynced_sector_map_ s1) x) <->
              is_Some (im_at (unsynced_sector_map_ s) x) /\ x ∉ i) as H1.
    { intros x. rewrite Hm1, im_sub_at. destruct (in_iv x i) eqn:E.
      - apply in_iv_spec in E. split; [by intros []|]. by intros [_ []].
      - apply in_iv_false in E. split; [by intros ?|by intros [? _]]. }
    exists (i :: l), s'. split_and!; [|done| | |].
    + run. by rewrite Ht, bind_unfold, Hd.
    + intros x. split.
      * intros Hx. destruct (decide (x ∈ i)) as [Hi|Hi]; [exists i; split; [constructor|done]|].
        destruct (proj1 (Hcov x)) as (j & Hj & Hxj); [by apply H1|].
        exists j. split; [by constructor|done].
      * intros (j & Hj & Hxj). apply elem_of_cons in Hj as [->|Hj].
        { by rewrite (im_segment_at _ _ _ _ Hin Hxj). }
        apply H1, Hcov. eauto.
    + intros x. rewrite filter_cons. destruct (decide (x ∈ i)) as [Hi|Hi]; [|apply Hone].
      replace (filter (fun j => x ∈ j) l) with (@nil SectorInterval); [cbn; lia|].
      symmetry. apply filter_none. intros j Hj Hxj.
      assert (is_Some (im_at (unsynced_sector_map_ s1) x)) as Hs by (apply Hcov; eauto).
      by apply H1 in Hs as [_ Hs].
    + intros x. rewrite Hsyn, Hs1, is_add_mem. cbn. by rewrite orb_assoc.
Qed.

(** ReInsertSyncHistory, documented as loading the synced intervals
    into the unsynced ones when a backup stops or fails, leaves the
    unsynced sectors as they were and forgets the history: the sectors of
    the failed backup are lost to the next one. *)
Theorem reinsert_forgets_history s :
  exists s', ReInsertSyncHistory s = (Ret tt, s') /\
    (forall x, im_at (unsynced_sector_map_ s') x = im_at (unsynced_sector_map_ s) x) /\
    (forall x, is_mem (synced_sector_set_ s') x = false).
Proof.
  destruct (ReInsertSyncHistory_run s) as (s' & H1 & H2 & H3 & _).
  exists s'. split_and!; [done|done|]. intros x. rewrite H3. apply is_empty_mem.
Qed.

(** So it is not what the header says. *)
Lemma reinsert_breaks_its_contract s x :
  is_mem (synced_sector_set_ s) x = true -> im_at (unsynced_sector_map_ s) x = None ->
  ~ view_of (ReInsertSyncHistory s).2 ≡ spec_op OpReInsertSyncHistory (view_of s).
Proof.
  intros Hs Hu [H _]. destruct (ReInsertSyncHistory_run s) as (s' & R & E & _). rewrite R in H.
  specialize (H x). cbn in H. by rewrite E, Hs, Hu in H.
Qed.

(** The interval directly after the last one is skipped.  A segment
    that starts exactly at the cursor is not returned while another one
    starts further on, although the loop is documented to return the
    interval directly after the last interval returned. *)
Theorem get_interval_skips_adjacent s epoch i t j u :
  volatile_seconds_ s < epoch ->
  (i, t) ∈ im_segments (unsynced_sector_map_ s) -> lower i = end_of_last_continuous_ s ->
  (j, u) ∈ im_segments (unsynced_sector_map_ s) -> end_of_last_continuous_ s < lower j ->
  exists k b s', GetInterval epoch s = (Ret (k, b), s') /\ upper i <= lower k.
Proof.
  intros Hv Hi Hli Hj Hlj. rewrite GetInterval_run by done.
  destruct (interval_answer s epoch) as [k b] eqn:E. exists k, b. eexists. split; [done|].
  unfold interval_answer in E. destruct (next_past s) as [[k' t']|] eqn:En.
  - inversion E; subst. destruct (next_past_Some _ _ _ En) as [Hin Hlt].
    pose proof (im_segment_nonempty _ _ _ Hin).
    destruct (im_wf (unsynced_sector_map_ s)) as [b' Hb'].
    eapply segs_disjoint; [exact Hb'|exact Hi|exact Hin|lia].
  - unfold next_past in En. apply list_elem_of_In in Hj.
    pose proof (List.find_none _ _ En _ Hj) as Hf. cbn in Hf. apply Z.ltb_ge in Hf. lia.
Qed.
End StoreProps.

(** ** Runs on the reference containers *)

Section Examples.
(** A store with a recent write at [5, 10) next to an old one at [0, 5),
    and a third segment further on. *)
Definition sample_store : UnsyncedSectorStore ref_map ref_set :=
  mkStore 10 [LAdd (mkSI 20 30) 1; LAdd (mkSI 5 10) 1000; LAdd (mkSI 0 5) 1]
    [LAdd (mkSI 40 44) 1] 5.

Lemma store_refines_spec_witness :
  exists s', for_each [OpAddInterval (mkSI 3 8) 1005; OpGetInterval 1006;
                       OpRemoveInterval (mkSI 0 8); OpClearSyncHistory; OpRemoveInterval (mkSI 8 9)]
               run_op sample_store = (Ret tt, s') /\
    view_of s' ≡ fold_left (fun v o => spec_op o v)
      [OpAddInterval (mkSI 3 8) 1005; OpGetInterval 1006;
       OpRemoveInterval (mkSI 0 8); OpClearSyncHistory; OpRemoveInterval (mkSI 8 9)] (view_of sample_store).
Proof.
  apply (store_refines_spec sample_store); [cbn; lia|].
  repeat constructor; cbn; lia.
Defined.

Lemma get_interval_spec_witness :
  exists i b t, GetInterval 1006 (set_cursor 12 sample_store) = (Ret (i, b), set_cursor (upper i) sample_store) /\
    b = (996 <? t) /\ im_at (unsynced_sector_map_ sample_store) (upper i) <> Some t /\
    12 <= lower i /\ (12 <= 20 -> lower i <= 20).
Proof.
  destruct (proj2 (get_interval_spec (set_cursor 12 sample_store) 1006) ltac:(cbn; lia)) as (i & b & H & _ & Hne).
  destruct (Hne ltac:(vm_compute; discriminate)) as (t & _ & Hb & _ & _ & Hu & Hn).
  exists i, b, t. split; [exact H|]. split; [exact Hb|]. split; [exact Hu|].
  destruct Hn as [[Hle Hfirst]|[_ Hall]].
  - vm_compute. intros j u Hj. repeat apply elem_of_cons in Hj as [Hj|Hj]; [injection Hj as -> _; discriminate..|].
    by apply not_elem_of_nil in Hj.
  - split; [exact Hle|]. intros Hc. apply (Hfirst (mkSI 20 30) 1); [vm_compute; right; right; left|exact Hc].
  - exfalso. assert (20 < 12) as Hx by (apply (Hall (mkSI 20 30) 1); vm_compute; right; right; left). lia.
Defined.

Lemma drain_hands_out_everything_witness :
  exists l s', drain 21 1006 sample_store = (Ret l, s') /\
    (forall x, im_at (unsynced_sector_map_ s') x = None).
Proof.
  destruct (drain_hands_out_everything sample_store 1006 21) as (l & s' & H1 & H2 & _).
  - cbn; lia.
  - vm_compute. lia.
  - exists l, s'. split; [exact H1|exact H2].
Defined.

Example drain_run :
  result (drain 21 1006) sample_store = Ret [mkSI 20 30; mkSI 0 5; mkSI 5 10].
Proof. vm_compute. reflexivity. Qed.

Lemma reinsert_forgets_history_witness :
  exists s', ReInsertSyncHistory sample_store = (Ret tt, s') /\
    is_mem (synced_sector_set_ sample_store) 41 = true /\
    im_at (unsynced_sector_map_ s') 41 = None /\ is_mem (synced_sector_set_ s') 41 = false.
Proof.
  destruct (reinsert_forgets_history sample_store) as (s' & H1 & H2 & H3).
  exists s'. split; [exact H1|]. split; [vm_compute; reflexivity|].
  split; [rewrite H2; vm_compute; reflexivity|apply H3].
Defined.

Lemma get_interval_skips_adjacent_witness :
  exists k b s', GetInterval 1006 sample_store = (Ret (k, b), s') /\ 10 <= lower k.
Proof.
  apply (get_interval_skips_adjacent sample_store 1006 (mkSI 5 10) 1000 (mkSI 20 30) 1).
  - cbn; lia.
  - vm_compute. right. left.
  - reflexivity.
  - vm_compute. right. right. left.
  - vm_compute. reflexivity.
Defined.
End Examples.
