(* ===== verification/Posix.v ===== *)
(** * The operating system as an environment

    System calls and the C libraries the agent links are not part of the
    program.  A call is a typed request; an [Env] answers each request from
    the history of the requests before it, so a theorem that quantifies
    over every [Env] holds for every behaviour of the kernel, and one that
    needs the kernel to keep a rule states the rule as a hypothesis on the
    [Env].  A computation carries the history: theorems about which
    descriptors stay open, or in which order requests are made, are
    theorems about it. *)

From S2P Require Import Prelude Machine.

(** A C return value with the [errno] left behind. *)
Definition cret : Type := Z * Z.
Definition ret (r : cret) : Z := r.1.
Definition errno (r : cret) : Z := r.2.

Definition ENOENT : Z := 2.
Definition EWOULDBLOCK : Z := 11.
Definition EACCES : Z := 13.
Definition ENOTDIR : Z := 20.
Definition EINVAL : Z := 22.
Definition EBADR : Z := 53.

Inductive oflag := O_RDONLY | O_RDWR | O_CREAT | O_LARGEFILE | O_DIRECTORY | O_NONBLOCK.

Inductive file_type := S_IFBLK | S_IFREG | S_IFOTHER.

Record stat_buf := mkStat { st_type : file_type; st_rdev : Z }.

Inductive ioctl_req :=
| BLKGETSIZE64 | BLKBSZGET | BLKFLSBUF
| FIFREEZE | FITHAW
| BLKTRACESETUP (buf_size buf_nr act_mask : Z) | BLKTRACESTART | BLKTRACESTOP | BLKTRACETEARDOWN
| NBD_SET_BLKSIZE (n : Z) | NBD_SET_SIZE_BLOCKS (n : Z) | NBD_CLEAR_SOCK
| NBD_SET_TIMEOUT (n : Z) | NBD_SET_SOCK (fd : Z)
| NBD_DISCONNECT | NBD_CLEAR_QUE | NBD_DO_IT.

Definition SIGTERM : Z := 15.

Inductive sig_action := SIG_DFL | SIG_HANDLER.

(** The requests, each with the type of its answer.  [SFopen] answers the
    descriptor of the stream, or -1 for NULL, [SFdopen] whether there is a
    stream; [SExecl] and [SExeclp] answer whether the process image was
    replaced, in which case the caller does not go on; [SFgets] answers all
    that fgets returns on the stream, call by call, until it returns NULL. *)
Inductive sys : Type -> Type :=
| SOpen (path : string) (flags : list oflag) : sys cret
| SClose (fd : Z) : sys cret
| SIoctl (fd : Z) (req : ioctl_req) : sys cret
| SIoctlOut (fd : Z) (req : ioctl_req) : sys (cret * Z)
| SIoctlName (fd : Z) (req : ioctl_req) : sys (cret * string)
| SLstat (path : string) : sys (cret * stat_buf)
| SStat (path : string) : sys (cret * stat_buf)
| STime : sys Z
| SRealpath (path : string) : sys (option string * Z)
| SBlkidTag (tag path : string) : sys (option string)
| SProcMounts : sys (list string)
| SAccess (path : string) : sys cret
| SSystem (command : string) : sys Z
| SOpendir (path : string) : sys bool
| SReaddir (path : string) : sys (list string)
| SClosedir (path : string) : sys cret
| SGetaddrinfo (host port : string) : sys (Z * list Z)
| SSocket (family : Z) : sys cret
| SConnect (fd addr : Z) : sys cret
| SUnlink (path : string) : sys cret
| SBind (fd : Z) (path : string) : sys cret
| SListen (fd backlog : Z) : sys cret
| SPoll (fd timeout : Z) : sys cret
| SAccept (fd : Z) : sys cret
| SShutdown (fd : Z) : sys cret
| SRead (fd count : Z) : sys (cret * list Z)
| SRecvAll (fd count : Z) : sys (cret * list Z)
| SWrite (fd : Z) (bytes : list Z) : sys cret
| SFlock (fd : Z) : sys cret
| SFtruncate (fd len : Z) : sys cret
| SGetpid : sys Z
| SSigaction (signal : Z) (act : sig_action) : sys cret
| SPause : sys (list Z)
| SNprocs : sys Z
| SExt2Open (path : string) : sys Z
| SExt2ReadBitmaps : sys Z
| SExt2Close : sys Z
| SAddErrorTable : sys Z
| SRemoveErrorTable : sys Z
| SErrorMessage (code : Z) : sys string
| SGaiStrerror (code : Z) : sys string
| SDoTraceThread (fd cpu : Z) : sys unit
| SStopThread (cpu : Z) : sys unit
| SFlushThread (cpu : Z) : sys unit
| SSetaffinity (bits mask : Z) : sys cret
| SFopen (path : string) : sys cret
| SUmask (mask : Z) : sys Z
| SDaemon : sys cret
| SRand : sys Z
| SFork : sys cret
| SDup2 (oldfd newfd : Z) : sys cret
| SExecl (path : string) (args : list string) : sys bool
| SExit (code : Z) : sys unit
| SUsleep (micros : Z) : sys cret
| SKill (pid signal : Z) : sys cret
| SWait : sys cret
| SPipe : sys (cret * (Z * Z))
| SExeclp (file : string) (args : list string) : sys bool
| SFdopen (fd : Z) : sys bool
| SFgets (fd : Z) : sys (list (list Ascii.ascii))
| SWaitpid (pid : Z) : sys cret.

Inductive event := Ev (T : Type) (c : sys T) (r : T).
Arguments Ev {T} c r.

Definition history := list event.

Class Env := sys_env : history -> forall T : Type, sys T -> T.

(** An object of type [S] together with the history. *)
Abbreviation IO S := (M (S * history)).

Definition call {S T} `{!Env} (c : sys T) : IO S T := fun w =>
  (Ret (sys_env w.2 T c), (w.1, Ev c (sys_env w.2 T c) :: w.2)).

Definition field {S A} (f : S -> A) : IO S A := fun w => (Ret (f w.1), w).

Definition upd {S} (f : S -> S) : IO S unit := fun w => (Ret tt, (f w.1, w.2)).

(** Running a member or base object of [S]. *)
Definition on {S T A} (view : S -> T) (set : T -> S -> S) (m : IO T A) : IO S A := fun w =>
  let '(r, (t, h)) := m (view w.1, w.2) in (r, (set t w.1, h)).

(** What becomes of a process that may have forked: the parent returns from
    the function; the child runs another program, or has exited. *)
Inductive process (A : Type) := GoesOn (a : A) | Replaced | Exited (code : Z).
Arguments GoesOn {A} a.
Arguments Replaced {A}.
Arguments Exited {A} code.

(** ** Descriptors *)

(** The descriptors a history leaves open; the newest event is first. *)
Fixpoint open_fds (h : history) : gset Z :=
  match h with
  | [] => ∅
  | Ev c r :: h' =>
      match c in sys T return T -> gset Z with
      | SOpen _ _ => fun r => if 0 <=? ret r then {[ret r]} ∪ open_fds h' else open_fds h'
      | SSocket _ => fun r => if 0 <=? ret r then {[ret r]} ∪ open_fds h' else open_fds h'
      | SAccept _ => fun r => if 0 <=? ret r then {[ret r]} ∪ open_fds h' else open_fds h'
      | SFopen _ => fun r => if 0 <=? ret r then {[ret r]} ∪ open_fds h' else open_fds h'
      | SPipe => fun r => if ret r.1 =? 0 then {[r.2.1; r.2.2]} ∪ open_fds h' else open_fds h'
      | SClose fd => fun _ => open_fds h' ∖ {[fd]}
      | _ => fun _ => open_fds h'
      end r
  end.

Arguments open_fds : simpl never.

Lemma open_fds_close fd r h : open_fds (Ev (SClose fd) r :: h) = open_fds h ∖ {[fd]}.
Proof. done. Qed.

Lemma open_fds_ioctl fd q r h : open_fds (Ev (SIoctl fd q) r :: h) = open_fds h.
Proof. done. Qed.

Lemma open_fds_ioctl_out fd q r h : open_fds (Ev (SIoctlOut fd q) r :: h) = open_fds h.
Proof. done. Qed.

Lemma open_fds_ioctl_name fd q r h : open_fds (Ev (SIoctlName fd q) r :: h) = open_fds h.
Proof. done. Qed.

Lemma open_fds_stat p r h : open_fds (Ev (SStat p) r :: h) = open_fds h.
Proof. done. Qed.

Lemma open_fds_nprocs r h : open_fds (Ev SNprocs r :: h) = open_fds h.
Proof. done. Qed.

Lemma open_fds_thread fd k r h : open_fds (Ev (SDoTraceThread fd k) r :: h) = open_fds h.
Proof. done. Qed.

Lemma open_fds_join k r h : open_fds (Ev (SStopThread k) r :: h) = open_fds h.
Proof. done. Qed.

#[export] Hint Rewrite open_fds_close open_fds_ioctl open_fds_ioctl_out open_fds_ioctl_name
  open_fds_stat open_fds_nprocs open_fds_thread open_fds_join : agent.

(** The directory streams a history leaves open. *)
Fixpoint open_dirs (h : history) : nat :=
  match h with
  | [] => 0
  | Ev c r :: h' =>
      match c in sys T return T -> nat with
      | SOpendir _ => fun r => if r then S (open_dirs h') else open_dirs h'
      | SClosedir _ => fun _ => pred (open_dirs h')
      | _ => fun _ => open_dirs h'
      end r
  end.

(** How often a history closes a descriptor. *)
Fixpoint closes (fd : Z) (h : history) : nat :=
  match h with
  | [] => 0
  | Ev c r :: h' =>
      (match c with SClose fd' => if Z.eqb fd' fd then 1 else 0 | _ => 0 end + closes fd h')%nat
  end.

(** The kernel's rule for new descriptors: -1, or a number not in use. *)
Definition fresh_fds (env : Env) : Prop :=
  (forall h p f, let r := ret (env h _ (SOpen p f)) in r = -1 \/ (0 <= r /\ r ∉ open_fds h)) /\
  (forall h d, let r := ret (env h _ (SSocket d)) in r = -1 \/ (0 <= r /\ r ∉ open_fds h)) /\
  (forall h d, let r := ret (env h _ (SAccept d)) in r = -1 \/ (0 <= r /\ r ∉ open_fds h)) /\
  (forall h p, let r := ret (env h _ (SFopen p)) in r = -1 \/ (0 <= r /\ r ∉ open_fds h)).

(** Taking a computation's calls apart, one at a time. *)
Ltac io :=
  repeat first
    [ rewrite bind_unfold
    | rewrite mret_unfold
    | progress cbn [throw abort undef get gets put modify out_of_fuel fst snd
                    call field upd]
    | progress unfold sys_env ].

(** The system's answers are values: calls and fields are defined. *)
Lemma defined_call {S T} `{!Env} (c : sys T) : defined (call c : IO S T).
Proof. by intros w x. Qed.

Lemma defined_field {S A} (f : S -> A) : defined (field f : IO S A).
Proof. by intros w x. Qed.

Lemma defined_upd {S} (f : S -> S) : defined (upd f : IO S unit).
Proof. by intros w x. Qed.

Lemma defined_on {S T A} (view : S -> T) (set : T -> S -> S) (m : IO T A) : defined m -> defined (on view set m).
Proof. intros Hm [s h] x. unfold on. cbn [fst snd]. specialize (Hm (view s, h) x). by destruct (m (view s, h)) as [r [t h']]. Qed.

#[export] Hint Resolve defined_call defined_field defined_upd defined_on : agent.

Ltac defined :=
  repeat first
    [ solve [auto with agent]
    | apply defined_bind; [|intros ?]
    | apply defined_try_catch; [|intros ?]
    | apply defined_for_each; intros ?
    | case_bool
    | case_match ].

(** ** A quiet machine

    Every request fails or answers nothing; concrete environments override
    the requests they are about. *)
Definition quiet_env : Env := fun h T c =>
  match c in sys T return T with
  | SOpen _ _ | SClose _ | SIoctl _ _ | SAccess _ | SSocket _ | SConnect _ _ | SUnlink _
  | SBind _ _ | SListen _ _ | SPoll _ _ | SAccept _ | SShutdown _ | SWrite _ _ | SFlock _
  | SFtruncate _ _ | SClosedir _ | SSigaction _ _ | SSetaffinity _ _ | SFopen _ | SDaemon | SFork | SDup2 _ _
  | SUsleep _ | SKill _ _ | SWait | SWaitpid _ => (-1, EINVAL)
  | SPipe => (-1, EINVAL, (0, 0))
  | SIoctlOut _ _ => (-1, EINVAL, 0)
  | SIoctlName _ _ => (-1, EINVAL, "")
  | SLstat _ | SStat _ => (-1, ENOENT, mkStat S_IFOTHER 0)
  | STime | SSystem _ | SGetpid | SNprocs | SExt2Open _ | SExt2ReadBitmaps | SExt2Close | SAddErrorTable
  | SRemoveErrorTable | SRand => 0
  | SErrorMessage _ | SGaiStrerror _ => EmptyString
  | SUmask _ => 18
  | SExecl _ _ | SExeclp _ _ | SFdopen _ => false
  | SFgets _ => []
  | SRealpath _ => (None, ENOENT)
  | SBlkidTag _ _ => None
  | SProcMounts | SReaddir _ => []
  | SOpendir _ => false
  | SGetaddrinfo _ _ => (0, [])
  | SRead _ _ | SRecvAll _ _ => (-1, EINVAL, [])
  | SPause => []
  | SDoTraceThread _ _ | SStopThread _ | SFlushThread _ | SExit _ => tt
  end.

(** ** A machine on which everything works

    New descriptors are larger than all open ones; the one block device has
    a size of 8192 bytes in blocks of 1024 bytes. *)

Definition next_fd (used : gset Z) : Z :=
  foldr (fun a m => Z.max (a + 1) m) 3 (elements used).

Lemma next_fd_fresh used : 0 <= next_fd used /\ (next_fd used ∉ used).
Proof.
  unfold next_fd. rewrite <- elem_of_elements.
  assert (3 <= foldr (fun a m => Z.max (a + 1) m) 3 (elements used) /\
          forall x, x ∈ elements used -> x < foldr (fun a m => Z.max (a + 1) m) 3 (elements used))
    as [H1 H2].
  { induction (elements used) as [|a l [IH1 IH2]]; cbn.
    - split; [lia|]. intros x Hx. by apply not_elem_of_nil in Hx.
    - split; [lia|]. intros x Hx. apply elem_of_cons in Hx as [->|Hx]; [lia|].
      specialize (IH2 x Hx). lia. }
  split; [lia|]. intros Hx. apply H2 in Hx. lia.
Qed.

Definition working_env : Env := fun h T c =>
  match c in sys T return T with
  | SOpen _ _ | SSocket _ | SAccept _ | SFopen _ => (next_fd (open_fds h), 0)
  | SClose _ | SIoctl _ _ | SAccess _ | SConnect _ _ | SUnlink _ | SBind _ _ | SListen _ _
  | SShutdown _ | SFlock _ | SFtruncate _ _ | SClosedir _ | SSigaction _ _ | SSetaffinity _ _ | SDaemon
  | SDup2 _ _ | SUsleep _ | SKill _ _ => (0, 0)
  | SFork | SWait | SWaitpid _ => (4243, 0)
  | SPipe => (0, 0, (next_fd (open_fds h), next_fd (open_fds h) + 1))
  | SFdopen _ => true
  | SRand => 1234567
  | SWrite _ bytes => (Z.of_nat (length bytes), 0)
  | SPoll _ _ => (1, 0)
  | SIoctlOut _ BLKGETSIZE64 => (0, 0, 8192)
  | SIoctlOut _ _ => (0, 0, 1024)
  | SIoctlName _ _ => (0, 0, "sda1")
  | SLstat _ => (0, 0, mkStat S_IFBLK 2049)
  | SStat _ => (0, 0, mkStat S_IFREG 0)
  | STime => 1000
  | SGetpid => 4242
  | SNprocs => 2
  | SRealpath p => (Some p, 0)
  | SBlkidTag tag _ => Some (if String.eqb tag "TYPE" then "ext4" else "0000-1111")
  | SProcMounts => ["proc /proc proc rw 0 0"; "/dev/sda1 /home ext4 rw 0 0"]
  | SReaddir _ => ["."; ".."; "sda"; "nbd0"]
  | SOpendir _ => true
  | SGetaddrinfo _ _ => (0, [7])
  | SRead _ n => (n, 0, replicate (Z.to_nat n) 0)
  | SRecvAll _ n => (n, 0, replicate (Z.to_nat n) 0)
  | SPause => [15]
  | c' => quiet_env h _ c'
  end.

Lemma working_env_fresh : fresh_fds working_env.
Proof.
  unfold fresh_fds. cbn. split_and!; intros; right; apply next_fd_fresh.
Qed.
