(* ===== verification/BlockDevice.v ===== *)
(** * Block devices

    Models block_device/block_device.{h,cc}: a device is its path, the
    number and sizes [Init] reads from the kernel, and the descriptor of
    the one [Open] that may be outstanding. *)

From S2P Require Import Prelude Machine Posix.

Record BlockDevice := mkBlockDevice {
  path_ : string;
  dev_t_ : Z;
  device_size_bytes_ : Z;
  block_size_bytes_ : Z;
  fd_ : Z
}.

Definition set_dev_t (d : Z) (b : BlockDevice) : BlockDevice :=
  mkBlockDevice (path_ b) d (device_size_bytes_ b) (block_size_bytes_ b) (fd_ b).

Definition set_device_size (n : Z) (b : BlockDevice) : BlockDevice :=
  mkBlockDevice (path_ b) (dev_t_ b) n (block_size_bytes_ b) (fd_ b).

Definition set_block_size (n : Z) (b : BlockDevice) : BlockDevice :=
  mkBlockDevice (path_ b) (dev_t_ b) (device_size_bytes_ b) n (fd_ b).

Definition set_fd (fd : Z) (b : BlockDevice) : BlockDevice :=
  mkBlockDevice (path_ b) (dev_t_ b) (device_size_bytes_ b) (block_size_bytes_ b) fd.

Section Device.
Context {env : Env}.

(** The two size ioctls are not checked: whatever they leave in the output
    argument becomes the size. *)
Definition BlockDevice_Init : IO BlockDevice unit :=
  upd (set_fd (-1)) ;;
  path ← field path_;
  '(r, statbuf) ← call (SLstat path);
  if ret r <? 0 then throw (BlockDeviceException "Unable to stat path") else
  match st_type statbuf with
  | S_IFBLK =>
      upd (set_dev_t (st_rdev statbuf)) ;;
      fd ← call (SOpen path [O_RDONLY]);
      if ret fd <? 0 then
        throw (BlockDeviceException
          ("Error opening " +:+ path +:+ " read-only for ioctl() calls" +:+ newline))
      else
        '(_, size) ← call (SIoctlOut (ret fd) BLKGETSIZE64);
        upd (set_device_size (u64 size)) ;;
        '(_, bsize) ← call (SIoctlOut (ret fd) BLKBSZGET);
        upd (set_block_size (u32 bsize)) ;;
        call (SClose (ret fd)) ;;
        mret tt
  | _ => throw (BlockDeviceException "Not a block device")
  end.

Definition BlockDevice_Flush : IO BlockDevice unit :=
  path ← field path_;
  fd ← call (SOpen path [O_RDWR]);
  call (SIoctl (ret fd) BLKFLSBUF) ;;
  call (SClose (ret fd)) ;;
  mret tt.

Definition BlockDevice_Open : IO BlockDevice Z :=
  fd0 ← field fd_;
  if negb (fd0 =? -1) then throw (BlockDeviceException "Block device already open") else
  path ← field path_;
  fd ← call (SOpen path [O_RDWR; O_LARGEFILE]);
  upd (set_fd (ret fd)) ;;
  if ret fd <? 0 then throw (BlockDeviceException "Error opening block device")
  else mret (ret fd).

Definition BlockDevice_Close : IO BlockDevice unit :=
  fd ← field fd_;
  call (SClose fd) ;;
  upd (set_fd (-1)).

(** The destructor. *)
Definition BlockDevice_destroy : IO BlockDevice unit := BlockDevice_Close.

(** The constructor from a path; the fields start out uninitialised. *)
Definition new_BlockDevice (a_path : string) (garbage : BlockDevice) (h : history)
    : outcome unit * (BlockDevice * history) :=
  BlockDevice_Init
    (mkBlockDevice a_path (dev_t_ garbage) (device_size_bytes_ garbage)
                   (block_size_bytes_ garbage) (fd_ garbage), h).

(** A client's use of an initialised device. *)
Inductive dev_op := DOpen | DClose | DFlush.

Definition run_dev_op (o : dev_op) : IO BlockDevice unit :=
  match o with
  | DOpen => BlockDevice_Open ;; mret tt
  | DClose => BlockDevice_Close
  | DFlush => BlockDevice_Flush
  end.

(** Operations one after the other, each caller catching what it throws. *)
Definition run_dev_ops (ops : list dev_op) : IO BlockDevice unit :=
  for_each ops (fun o => try_catch (run_dev_op o) (fun _ => mret tt)).
End Device.

(** ** Properties *)

(** The device is closed after Init, however it ends, and keeps its path. *)
Lemma Init_closed {E : Env} b h :
  fd_ (BlockDevice_Init (b, h)).2.1 = -1 /\ path_ (BlockDevice_Init (b, h)).2.1 = path_ b.
Proof.
  unfold BlockDevice_Init. io. destruct (E h _ (SLstat _)) as [r st]. io. case_bool; [done|].
  destruct (st_type st); io; try done. case_bool; io; [done|].
  repeat match goal with |- context [E ?k ?T (SIoctlOut ?f ?q)] => destruct (E k T (SIoctlOut f q)); io end. done.
Qed.

Section DeviceProps.
Context {E : Env}.

Hypothesis fresh : fresh_fds E.

(** The descriptors a device holds open. *)
Definition held (b : BlockDevice) : gset Z := if fd_ b =? -1 then ∅ else {[fd_ b]}.

(** The device's descriptor is -1 or open, and everything open that was not
    open before the device existed is that descriptor. *)
Definition dev_inv (base : gset Z) (w : BlockDevice * history) : Prop :=
  open_fds w.2 = base ∪ held w.1 /\ (base ## held w.1) /\
  (fd_ w.1 = -1 \/ 0 <= fd_ w.1) /\ (forall fd, fd ∈ base -> 0 <= fd).

Lemma open_answer h p f :
  let r := ret (E h _ (SOpen p f)) in
  (r = -1 /\ open_fds (Ev (SOpen p f) (E h _ (SOpen p f)) :: h) = open_fds h) \/
  (0 <= r /\ (r ∉ open_fds h) /\
   open_fds (Ev (SOpen p f) (E h _ (SOpen p f)) :: h) = {[r]} ∪ open_fds h).
Proof.
  cbn zeta. unfold open_fds; fold open_fds.
  destruct (proj1 fresh h p f) as [Hr|[Hr Hn]].
  - left. by rewrite Hr.
  - right. destruct (Z.leb_spec 0 (ret (E h cret (SOpen p f)))); [done|lia].
Qed.

Lemma Open_run b h :
  fd_ b = -1 ->
  BlockDevice_Open (b, h) =
    let r := E h cret (SOpen (path_ b) [O_RDWR; O_LARGEFILE]) in
    (if ret r <? 0 then Throw (BlockDeviceException "Error opening block device")
     else Ret (ret r),
     (set_fd (ret r) b, Ev (SOpen (path_ b) [O_RDWR; O_LARGEFILE]) r :: h)).
Proof.
  intros Hfd. unfold BlockDevice_Open. io. rewrite Hfd. cbn [negb Z.eqb Pos.eqb]. io.
  by case_bool.
Qed.

Lemma Open_inv base w : dev_inv base w -> dev_inv base (BlockDevice_Open w).2.
Proof.
  destruct w as [b h]. intros Hinv. destruct (decide (fd_ b = -1)) as [Hfd|Hfd]; cycle 1.
  { unfold BlockDevice_Open. io. by destruct (Z.eqb_spec (fd_ b) (-1)). }
  rewrite Open_run by done. destruct Hinv as (H1 & H2 & H3 & H4).
  unfold dev_inv, held in *. cbn [fst snd fd_ set_fd] in *. rewrite Hfd in *. cbn [Z.eqb Pos.eqb] in *.
  destruct (open_answer h (path_ b) [O_RDWR; O_LARGEFILE]) as [[Hr Ho]|(Hr & Hn & Ho)]; rewrite Ho, H1.
  - rewrite Hr. split_and!; [done|set_solver|by left|done].
  - destruct (Z.eqb_spec (ret (E h cret (SOpen (path_ b) [O_RDWR; O_LARGEFILE]))) (-1)); [lia|].
    rewrite H1 in Hn. split_and!; [set_solver|set_solver|by right|done].
Qed.

Lemma Close_inv base w : dev_inv base w -> dev_inv base (BlockDevice_Close w).2.
Proof.
  destruct w as [b h]. intros (H1 & H2 & H3 & H4). unfold BlockDevice_Close. io.
  unfold dev_inv, held in *. cbn [fst snd fd_ set_fd] in *. autorewrite with agent. rewrite H1.
  split_and!; [|set_solver|by left|done].
  destruct (Z.eqb_spec (fd_ b) (-1)) as [Hfd|Hfd]; cbn.
  - rewrite Hfd. assert (-1 ∉ base) by (intros Hb; apply H4 in Hb; lia). set_solver.
  - set_solver.
Qed.

Lemma Flush_inv base w : dev_inv base w -> dev_inv base (BlockDevice_Flush w).2.
Proof.
  destruct w as [b h]. intros (H1 & H2 & H3 & H4). unfold BlockDevice_Flush. io.
  unfold dev_inv in *. cbn [fst snd] in *. autorewrite with agent.
  assert (forall fd, fd ∈ held b -> 0 <= fd) as H5.
  { unfold held. destruct (Z.eqb_spec (fd_ b) (-1)); set_solver. }
  destruct (open_answer h (path_ b) [O_RDWR]) as [[Hr Ho]|(Hr & Hn & Ho)];
    rewrite Ho; split_and!; try done.
  - rewrite Hr, H1. assert (-1 ∉ base) by (intros Hb; apply H4 in Hb; lia).
    assert (-1 ∉ held b) by (intros Hb; apply H5 in Hb; lia). set_solver.
  - rewrite H1 in *. set_solver.
Qed.

(** No sequence of Open, Close and Flush leaks or loses a descriptor:
    whatever the kernel answers and whichever calls throw, the descriptors
    open afterwards are the ones open before the device existed plus the
    one its [fd_] names, and none when [fd_] is -1. *)
Theorem device_ops_hold_one_descriptor base b h ops :
  open_fds h = base -> fd_ b = -1 -> (forall fd, fd ∈ base -> 0 <= fd) ->
  let w := (run_dev_ops ops (b, h)).2 in
  open_fds w.2 = base ∪ held w.1 /\ (fd_ w.1 = -1 \/ 0 <= fd_ w.1 /\ fd_ w.1 ∉ base).
Proof.
  intros Hb Hfd Hpos w.
  assert (dev_inv base w) as (H1 & H2 & H3 & H4).
  { unfold w, run_dev_ops. apply (for_each_state_rule ops _ (dev_inv base)).
    - unfold dev_inv, held. cbn. rewrite Hfd, Hb. split_and!; [set_solver|set_solver|by left|done].
    - intros o w' _ Hw'. unfold try_catch.
      assert (dev_inv base (run_dev_op o w').2) as Hi.
      { destruct o; cbn; [|by apply Close_inv|by apply Flush_inv].
        apply bind_state_rule; [by apply Open_inv|].
        intros fd w'' Eo. replace w'' with (BlockDevice_Open w').2 by (by rewrite Eo).
        by apply Open_inv. }
      by destruct (run_dev_op o w') as [[]]. }
  split; [done|]. unfold held in H2. destruct (Z.eqb_spec (fd_ w.1) (-1)); [by left|].
  right. split; [|set_solver]. by destruct H3.
Qed.

(** Open.  On a device that is already open it throws and makes no
    system call; a failed open leaves the device closed, so that a later
    Open can be tried; a successful one returns the descriptor it keeps. *)
Theorem device_open_spec b h :
  (fd_ b <> -1 ->
     BlockDevice_Open (b, h) = (Throw (BlockDeviceException "Block device already open"), (b, h))) /\
  (fd_ b = -1 ->
     exists r h', h' = Ev (SOpen (path_ b) [O_RDWR; O_LARGEFILE]) r :: h /\
       ((ret r = -1 /\ BlockDevice_Open (b, h) =
           (Throw (BlockDeviceException "Error opening block device"), (set_fd (-1) b, h'))) \/
        (0 <= ret r /\ BlockDevice_Open (b, h) = (Ret (ret r), (set_fd (ret r) b, h'))))).
Proof.
  split; intros H.
  - unfold BlockDevice_Open. io. by destruct (Z.eqb_spec (fd_ b) (-1)).
  - rewrite Open_run by done. cbn zeta.
    exists (E h cret (SOpen (path_ b) [O_RDWR; O_LARGEFILE])). eexists. split; [done|].
    destruct (open_answer h (path_ b) [O_RDWR; O_LARGEFILE]) as [[Hr _]|(Hr & _ & _)].
    + left. split; [done|]. by rewrite Hr.
    + right. split; [done|].
      by destruct (Z.ltb_spec (ret (E h cret (SOpen (path_ b) [O_RDWR; O_LARGEFILE]))) 0); [lia|].
Qed.

Lemma Init_run b h :
  (forall fd, fd ∈ open_fds h -> 0 <= fd) ->
  exists r b' h', BlockDevice_Init (b, h) = (r, (b', h')) /\
    open_fds h' = open_fds h /\ fd_ b' = -1 /\ path_ b' = path_ b /\
    (r = Ret tt \/ exists w, r = Throw (BlockDeviceException w)) /\
    (r = Ret tt -> st_type (E h _ (SLstat (path_ b))).2 = S_IFBLK /\
                   dev_t_ b' = st_rdev (E h _ (SLstat (path_ b))).2 /\
                   is_u64 (device_size_bytes_ b') /\ is_u32 (block_size_bytes_ b')).
Proof.
  intros Hpos.
  destruct (BlockDevice_Init (b, h)) as [o [b' h']] eqn:R.
  exists o, b', h'. split; [done|]. revert R. unfold BlockDevice_Init. io. cbn [path_ set_fd].
  destruct (E h _ (SLstat (path_ b))) as [r st]. cbn [fst snd].
  destruct (Z.ltb_spec (ret r) 0).
  { io. intros [= <- <- <-]. split_and!; try done. right. by eexists. }
  destruct (st_type st) eqn:Et.
  2, 3: io; intros [= <- <- <-]; split_and!; try done; right; by eexists.
  io. cbn [path_ set_dev_t set_fd].
  set (h1 := Ev (SLstat (path_ b)) (r, st) :: h).
  destruct (open_answer h1 (path_ b) [O_RDONLY]) as [[Hr Ho]|(Hr & Hn & Ho)].
  - rewrite Hr. cbn [Z.ltb Z.compare]. io. intros [= <- <- <-].
    rewrite Ho. split_and!; try done. right. by eexists.
  - destruct (Z.ltb_spec (ret (E h1 cret (SOpen (path_ b) [O_RDONLY]))) 0); [lia|]. io.
    repeat (case_match; io). intros [= <- <- <-]. autorewrite with agent. rewrite Ho.
    change (open_fds h1) with (open_fds h) in *.
    split_and!; try done; [set_solver|by left|].
    intros _. split_and!; [done|done|apply u64_range|apply u32_range].
Qed.
(** Constructing a device from a path either succeeds or throws a
    BlockDeviceException, and leaves no descriptor open on any path.  It
    succeeds only for a path that names a block device itself (symbolic
    links are refused), and then the device is closed and has that
    device's number. *)
Theorem device_constructor_spec a_path garbage h :
  (forall fd, fd ∈ open_fds h -> 0 <= fd) ->
  exists r b' h', new_BlockDevice a_path garbage h = (r, (b', h')) /\
    open_fds h' = open_fds h /\
    ((exists w, r = Throw (BlockDeviceException w)) \/
     (r = Ret tt /\ fd_ b' = -1 /\ path_ b' = a_path /\
      st_type (E h _ (SLstat a_path)).2 = S_IFBLK /\
      dev_t_ b' = st_rdev (E h _ (SLstat a_path)).2 /\
      is_u64 (device_size_bytes_ b') /\ is_u32 (block_size_bytes_ b'))).
Proof.
  intros Hpos. unfold new_BlockDevice.
  edestruct (Init_run (mkBlockDevice a_path (dev_t_ garbage) (device_size_bytes_ garbage)
    (block_size_bytes_ garbage) (fd_ garbage)) h Hpos) as (r & b' & h' & H1 & H2 & H3 & H4 & H5 & H6).
  exists r, b', h'. split_and!; [done|done|].
  destruct H5 as [->|H5]; [right|by left]. split_and!; [done|done|done|by apply H6..].
Qed.
End DeviceProps.

(** ** Runs on the working machine *)

Definition sample_device : BlockDevice := mkBlockDevice "/dev/sda1" 2049 8192 1024 (-1).

Lemma device_ops_hold_one_descriptor_witness :
  let w := (run_dev_ops (env := working_env) [DOpen; DFlush; DOpen; DClose; DOpen] (sample_device, [])).2 in
  open_fds w.2 = ∅ ∪ held w.1 /\ (fd_ w.1 = -1 \/ 0 <= fd_ w.1 /\ fd_ w.1 ∉ (∅ : gset Z)).
Proof.
  apply (device_ops_hold_one_descriptor (E := working_env) working_env_fresh ∅ sample_device []).
  - reflexivity.
  - reflexivity.
  - intros fd Hfd. by apply not_elem_of_empty in Hfd.
Defined.

Lemma device_open_spec_witness :
  BlockDevice_Open (env := working_env) (set_fd 5 sample_device, []) =
    (Throw (BlockDeviceException "Block device already open"), (set_fd 5 sample_device, [])).
Proof.
  apply (proj1 (device_open_spec (E := working_env) working_env_fresh (set_fd 5 sample_device) [])).
  cbn. lia.
Defined.

Lemma device_constructor_spec_witness :
  exists r b' h', new_BlockDevice (env := working_env) "/dev/sda1" sample_device [] = (r, (b', h')) /\
    open_fds h' = open_fds [].
Proof.
  destruct (device_constructor_spec (E := working_env) working_env_fresh "/dev/sda1" sample_device [])
    as (r & b' & h' & H1 & H2 & _).
  - intros fd Hfd. by apply not_elem_of_empty in Hfd.
  - exists r, b', h'. split; [exact H1|exact H2].
Defined.

Example device_run :
  result (BlockDevice_Open (env := working_env)) (sample_device, []) = Ret 3.
Proof. vm_compute. reflexivity. Qed.
