(* ===== verification/MountableDevice.v ===== *)
(** * Mountable devices and their factory

    Models block_device/mountable_block_device.{h,cc} (the mount table, the
    cached mount check, freezing and thawing), the freeze overrides of
    block_device/ext_mountable_block_device.{h,cc}, and
    block_device/block_device_factory.{h,cc}. *)

From S2P Require Import Prelude Machine Posix BlockDevice.

(** ** /proc/mounts *)

(** [std::string::find(' ', pos)] stored in an [int]: npos becomes -1. *)
Definition find_space (s : string) (pos : Z) : Z :=
  match String.index (Z.to_nat pos) " " s with
  | Some n => Z.of_nat n
  | None => -1
  end.

(** [std::string::substr(pos, len)]; a negative [int] length converts to a
    [size_t] longer than any string. *)
Definition substr (s : string) (pos len : Z) : string :=
  String.substring (Z.to_nat pos)
    (if len <? 0 then String.length s else Z.to_nat len) s.

(** The device path and the mount point of a line. *)
Definition split_mount_line (line_str : string) : string * string :=
  let first_space := find_space line_str 0 in
  let second_space := find_space line_str (first_space + 1) in
  (substr line_str 0 first_space,
   substr line_str (first_space + 1) (second_space - first_space - 1)).

(** The loop [while ((p = mount_point.find(4, p)) != npos)] that replaces
    four characters by a space and goes on behind it.  [find(4, p)] looks
    for the character with code 4; [skip] counts the characters of a match
    still to be dropped. *)
Definition EOT : Ascii.ascii := Ascii.ascii_of_nat 4.
Definition SPACE : Ascii.ascii := Ascii.ascii_of_nat 32.

Fixpoint unescape (skip : nat) (s : string) : string :=
  match s with
  | EmptyString => EmptyString
  | String c s' =>
      match skip with
      | S k => unescape k s'
      | O => if Ascii.eqb c EOT then String SPACE (unescape 3 s')
             else String c (unescape 0 s')
      end
  end.

(** [char line[1024]; mounts.getline(line, PATH_MAX)]: a line of 1024
    characters or more is written past the end of the buffer. *)
Definition LINE_BUFFER : nat := 1024.

Section MountTable.
Context {env : Env} {S : Type}.

Fixpoint read_mount_lines (lines : list string) (mounted_devices : gmap string string)
    : IO S (gmap string string) :=
  match lines with
  | [] => mret mounted_devices
  | line_str :: rest =>
      if (LINE_BUFFER <=? String.length line_str)%nat
      then undef "getline writes past line[1024]"
      else
        let '(path, mount_point) := split_mount_line line_str in
        '(real_path, error) ← call (SRealpath path);
        match real_path with
        | None =>
            if (error =? ENOENT) || (error =? EACCES) || (error =? ENOTDIR)
            then read_mount_lines rest mounted_devices
            else throw (BlockDeviceException "readlink")
        | Some rp =>
            read_mount_lines rest (<[rp := unescape 0 mount_point]> mounted_devices)
        end
  end.

(** The answer of [SProcMounts] are the lines of a file that could be
    opened and ends with a newline.  The stream is still good after the last
    newline, so the loop runs once more with an empty line. *)
Definition GetMountedDevices : IO S (gmap string string) :=
  lines ← call SProcMounts;
  read_mount_lines (lines ++ [""]) ∅.
End MountTable.

(** ** MountableBlockDevice *)

Record MountableBlockDevice := mkMBD {
  mb_base : BlockDevice;
  mount_file_descriptor_ : Z;
  mb_is_frozen_ : bool;
  last_mount_check_time_ : Z;
  last_mounted_result_ : bool
}.

Definition mb_path (d : MountableBlockDevice) : string := path_ (mb_base d).

Definition set_mb_base (b : BlockDevice) (d : MountableBlockDevice) : MountableBlockDevice :=
  mkMBD b (mount_file_descriptor_ d) (mb_is_frozen_ d)
    (last_mount_check_time_ d) (last_mounted_result_ d).

Definition set_mount_fd (fd : Z) (d : MountableBlockDevice) : MountableBlockDevice :=
  mkMBD (mb_base d) fd (mb_is_frozen_ d) (last_mount_check_time_ d) (last_mounted_result_ d).

Definition set_frozen (b : bool) (d : MountableBlockDevice) : MountableBlockDevice :=
  mkMBD (mb_base d) (mount_file_descriptor_ d) b (last_mount_check_time_ d) (last_mounted_result_ d).

Definition set_check_time (t : Z) (d : MountableBlockDevice) : MountableBlockDevice :=
  mkMBD (mb_base d) (mount_file_descriptor_ d) (mb_is_frozen_ d) t (last_mounted_result_ d).

Definition set_mounted (b : bool) (d : MountableBlockDevice) : MountableBlockDevice :=
  mkMBD (mb_base d) (mount_file_descriptor_ d) (mb_is_frozen_ d) (last_mount_check_time_ d) b.

Section Mountable.
Context {env : Env}.

(** The constructor: the base class first, then the members. *)
Definition new_MountableBlockDevice (a_path : string) (garbage : BlockDevice) (h : history)
    : outcome MountableBlockDevice * history :=
  match new_BlockDevice a_path garbage h with
  | (Ret _, (b, h')) => (Ret (mkMBD b (-1) false 0 false), h')
  | (Throw e, (_, h')) => (Throw e, h')
  | (Abort w, (_, h')) => (Abort w, h')
  | (Undef w, (_, h')) => (Undef w, h')
  | (OutOfFuel, (_, h')) => (OutOfFuel, h')
  end.

Definition IsMounted : IO MountableBlockDevice bool :=
  now ← call STime;
  last ← field last_mount_check_time_;
  (if 10 <? now - last then
     now' ← call STime;
     upd (set_check_time now') ;;
     mounted_devices ← GetMountedDevices;
     path ← field mb_path;
     upd (set_mounted (bool_decide (is_Some (mounted_devices !! path))))
   else mret tt) ;;
  field last_mounted_result_.

Definition GetMountPoint : IO MountableBlockDevice string :=
  mounted_devices ← GetMountedDevices;
  path ← field mb_path;
  match mounted_devices !! path with
  | None => throw (BlockDeviceException "Block device is not mounted")
  | Some mount_point => mret mount_point
  end.

Definition OpenMount : IO MountableBlockDevice Z :=
  mount_point ← GetMountPoint;
  fd ← call (SOpen mount_point [O_DIRECTORY; O_RDONLY]);
  upd (set_mount_fd (ret fd)) ;;
  if ret fd =? -1 then throw (BlockDeviceException "Opening mountpoint")
  else field mount_file_descriptor_.

Definition CloseMount : IO MountableBlockDevice unit :=
  fd ← field mount_file_descriptor_;
  call (SClose fd) ;;
  mret tt.

Definition Freeze : IO MountableBlockDevice unit :=
  mounted ← IsMounted;
  if mounted : bool then
    mount_fd ← OpenMount;
    ioctl_ret ← call (SIoctl mount_fd FIFREEZE);
    call (SClose mount_fd) ;;
    if negb (ret ioctl_ret =? 0) then throw (BlockDeviceException "FIFREEZE")
    else upd (set_frozen true)
  else mret tt.

Definition Thaw : IO MountableBlockDevice unit :=
  mounted ← IsMounted;
  (if mounted : bool then
     mount_fd ← OpenMount;
     ioctl_ret ← call (SIoctl mount_fd FITHAW);
     call (SClose mount_fd) ;;
     if negb (ret ioctl_ret =? 0) then throw (BlockDeviceException "FITHAW") else mret tt
   else mret tt) ;;
  upd (set_frozen false).

Definition GetUuid : IO MountableBlockDevice string :=
  path ← field mb_path;
  uuid ← call (SBlkidTag "UUID" path);
  match uuid with
  | None => throw (BlockDeviceException "Unable to probe block device UUID")
  | Some u => mret u
  end.

(** The destructor, then the base class's; exceptions of the body are
    caught. *)
Definition MountableBlockDevice_destroy : IO MountableBlockDevice unit :=
  try_catch
    (CloseMount ;;
     frozen ← field mb_is_frozen_;
     if frozen : bool then Thaw else mret tt)
    (fun _ => mret tt) ;;
  on mb_base set_mb_base BlockDevice_destroy.

(** ** ExtMountableBlockDevice: ext2 has no freeze *)

Definition Ext_Freeze (is_ext2_ : bool) : IO MountableBlockDevice unit :=
  if is_ext2_ then mret tt else Freeze.

Definition Ext_Thaw (is_ext2_ : bool) : IO MountableBlockDevice unit :=
  if is_ext2_ then mret tt else Thaw.

(** ** BlockDeviceFactory *)

(** An ExtMountableBlockDevice is its base and the flag. *)
Record ExtMountableBlockDevice := mkExt { ext_base : MountableBlockDevice; is_ext2_ : bool }.

Definition GetFilesystemFromPath (path : string) : IO unit string :=
  fs ← call (SBlkidTag "TYPE" path);
  match fs with
  | None => throw (BlockDeviceException "Unable to detect filesystem")
  | Some fs_str => mret fs_str
  end.

Definition GetPathFromUuid (uuid : string) : IO unit string :=
  '(real_path, _) ← call (SRealpath ("/dev/disk/by-uuid/" +:+ uuid));
  match real_path with
  | None => throw (BlockDeviceException "Unable to find block device for UUID")
  | Some p => mret p
  end.

Definition make_ext (path : string) (ext2 : bool) (garbage : BlockDevice)
    : IO unit ExtMountableBlockDevice := fun w =>
  match new_MountableBlockDevice path garbage w.2 with
  | (Ret d, h) => (Ret (mkExt d ext2), (tt, h))
  | (Throw e, h) => (Throw e, (tt, h))
  | (Abort x, h) => (Abort x, (tt, h))
  | (Undef x, h) => (Undef x, (tt, h))
  | (OutOfFuel, h) => (OutOfFuel, (tt, h))
  end.

Definition CreateMountableBlockDeviceFromPath (path : string) (garbage : BlockDevice)
    : IO unit ExtMountableBlockDevice :=
  fs ← GetFilesystemFromPath path;
  if String.eqb fs "ext4" || String.eqb fs "ext3" then make_ext path false garbage
  else if String.eqb fs "ext2" then make_ext path true garbage
  else throw (BlockDeviceException "Unknown filesystem").

Definition CreateMountableBlockDeviceFromUuid (uuid : string) (garbage : BlockDevice)
    : IO unit ExtMountableBlockDevice :=
  path ← GetPathFromUuid uuid;
  CreateMountableBlockDeviceFromPath path garbage.
End Mountable.

(** ** Lines of the mount table *)

Fixpoint no_char (c : Ascii.ascii) (s : string) : bool :=
  match s with
  | EmptyString => true
  | String a s' => negb (Ascii.eqb a c) && no_char c s'
  end.

Lemma unescape_id s : no_char EOT s = true -> unescape 0 s = s.
Proof.
  induction s as [|c s IH]; cbn; [done|]. intros [H1 H2]%andb_true_iff.
  destruct (Ascii.eqb c EOT); [done|]. by rewrite IH.
Qed.

Lemma sapp_nil b : "" +:+ b = b.
Proof. done. Qed.

Lemma sapp_cons x a b : String x a +:+ b = String x (a +:+ b).
Proof. done. Qed.

Lemma index_char c a b :
  no_char c a = true -> String.index 0 (String c "") (a +:+ String c b) = Some (String.length a).
Proof.
  induction a as [|x a IH]; intros H; rewrite ?sapp_nil, ?sapp_cons; cbn.
  - destruct (Ascii.ascii_dec c c); [by destruct b|done].
  - apply andb_true_iff in H as [H1 H2]. apply negb_true_iff, Ascii.eqb_neq in H1.
    destruct (Ascii.ascii_dec c x); [congruence|]. by rewrite IH.
Qed.

Lemma index_skip p a b k :
  String.index (String.length a + k) p (a +:+ b) =
    (fun n => (String.length a + n)%nat) <$> String.index k p b.
Proof.
  induction a as [|x a IH]; rewrite ?sapp_nil, ?sapp_cons; cbn.
  - by destruct (String.index k p b).
  - rewrite IH. by destruct (String.index k p b).
Qed.

Lemma substring_app_l a b : String.substring 0 (String.length a) (a +:+ b) = a.
Proof.
  induction a as [|x a IH]; rewrite ?sapp_nil, ?sapp_cons; cbn; [by destruct b|].
  by rewrite IH.
Qed.

Lemma substring_app_r a b k n :
  String.substring (String.length a + k) n (a +:+ b) = String.substring k n b.
Proof.
  induction a as [|x a IH]; rewrite ?sapp_nil, ?sapp_cons; cbn; [done|]. apply IH.
Qed.

(** A line "device mountpoint options" splits into its first two fields. *)
Lemma split_mount_line_fields dev mp rest :
  no_char SPACE dev = true -> no_char SPACE mp = true ->
  split_mount_line (dev +:+ String SPACE (mp +:+ String SPACE rest)) = (dev, mp).
Proof.
  intros Hd Hm. set (line := dev +:+ String SPACE (mp +:+ String SPACE rest)).
  assert (find_space line 0 = Z.of_nat (String.length dev)) as E1.
  { unfold find_space. change " " with (String SPACE ""). cbn [Z.to_nat].
    unfold line. by rewrite index_char. }
  assert (find_space line (Z.of_nat (String.length dev) + 1) =
          Z.of_nat (String.length dev + S (String.length mp))) as E2.
  { unfold find_space. change " " with (String SPACE "").
    replace (Z.to_nat _) with (String.length dev + 1)%nat by lia.
    unfold line. rewrite index_skip. cbn [String.index].
    by rewrite index_char. }
  unfold split_mount_line. rewrite E1, E2. f_equal; unfold substr.
  - destruct (Z.ltb_spec (Z.of_nat (String.length dev)) 0); [lia|].
    rewrite Nat2Z.id. apply substring_app_l.
  - destruct (Z.ltb_spec (Z.of_nat (String.length dev + S (String.length mp))
        - Z.of_nat (String.length dev) - 1) 0); [lia|].
    replace (Z.to_nat (Z.of_nat (String.length dev) + 1)) with (String.length dev + 1)%nat by lia.
    replace (Z.to_nat _) with (String.length mp) by lia.
    unfold line. rewrite substring_app_r. cbn [String.substring]. apply substring_app_l.
Qed.

Section MountableProps.
Context {E : Env}.
Implicit Types d : MountableBlockDevice.

(** GetMountPoint gives back the second field of the device's line of
    the mount table, character for character: as long as the field has no
    control character 4 nothing in it is decoded, so a mount point with a
    space comes back with the four characters the kernel writes for it
    (backslash 040), and no directory of that name exists. *)
Theorem mount_point_is_not_unescaped d h dev mp rest :
  E h _ SProcMounts = [dev +:+ String SPACE (mp +:+ String SPACE rest)] ->
  no_char SPACE dev = true -> no_char SPACE mp = true -> no_char EOT mp = true ->
  (String.length (dev +:+ String SPACE (mp +:+ String SPACE rest)) < LINE_BUFFER)%nat ->
  (forall h', E h' _ (SRealpath dev) = (Some (mb_path d), 0)) ->
  (forall h', E h' _ (SRealpath "") = (None, ENOENT)) ->
  exists h', GetMountPoint (d, h) = (Ret mp, (d, h')).
Proof.
  intros Hm Hd Hmp Heot Hlen Hr He. unfold GetMountPoint, GetMountedDevices. io.
  rewrite Hm. cbn [app read_mount_lines]. apply Nat.leb_gt in Hlen. rewrite Hlen.
  rewrite split_mount_line_fields by done. io. rewrite Hr. io.
  change (String.length "") with 0%nat. cbn [Nat.leb LINE_BUFFER].
  change (split_mount_line "") with ("", ""). cbv iota. io. rewrite He. io.
  cbn [Z.eqb orb ENOENT Pos.eqb]. io. rewrite lookup_insert_eq, unescape_id by done.
  io. by eexists.
Qed.

(** One line of the mount table of 1024 characters or more makes every
    lookup of a mount point undefined: getline is told the buffer is
    PATH_MAX long. *)
Theorem long_mount_line_overruns d h line rest :
  E h _ SProcMounts = line :: rest -> (LINE_BUFFER <= String.length line)%nat ->
  exists w h', GetMountPoint (d, h) = (Undef w, (d, h')).
Proof.
  intros Hm Hl. unfold GetMountPoint, GetMountedDevices. io. rewrite Hm. cbn [app read_mount_lines].
  apply Nat.leb_le in Hl. rewrite Hl. io. by eexists _, _.
Qed.

(** Reading the mount table changes neither the device nor the open
    descriptors. *)
Lemma read_mount_lines_frame {S} lines acc (s : S) h :
  exists o h', read_mount_lines lines acc (s, h) = (o, (s, h')) /\ open_fds h' = open_fds h.
Proof.
  revert acc h. induction lines as [|l lines IH]; intros acc h; cbn [read_mount_lines].
  { by eexists _, _. }
  case_bool; [by eexists _, _|]. destruct (split_mount_line l) as [p mp]. io.
  set (h1 := Ev (SRealpath p) _ :: h). change (open_fds h) with (open_fds h1).
  destruct (E h _ (SRealpath p)) as [[rp|] err]; [apply IH|]. cbn [fst snd].
  case_bool; [apply IH|]. by eexists _, _.
Qed.

Lemma GetMountedDevices_frame {S} (s : S) h :
  exists o h', GetMountedDevices (s, h) = (o, (s, h')) /\ open_fds h' = open_fds h.
Proof.
  unfold GetMountedDevices. io.
  set (h1 := Ev SProcMounts _ :: h). change (open_fds h) with (open_fds h1).
  apply read_mount_lines_frame.
Qed.

Lemma IsMounted_frame d h :
  exists o d' h', IsMounted (d, h) = (o, (d', h')) /\ open_fds h' = open_fds h /\
    mb_base d' = mb_base d /\ mb_is_frozen_ d' = mb_is_frozen_ d /\
    mount_file_descriptor_ d' = mount_file_descriptor_ d.
Proof.
  unfold IsMounted. io. set (h1 := Ev STime _ :: h). change (open_fds h) with (open_fds h1).
  case_bool; [|io; by eexists _, _, _]. io.
  set (h2 := Ev STime _ :: h1). change (open_fds h1) with (open_fds h2).
  destruct (GetMountedDevices_frame (set_check_time (E h1 Z STime) d) h2) as ([] & h3 & -> & Ho);
    io; by eexists _, _, _.
Qed.

(** The mount check is cached.  Within ten seconds of the last check
    IsMounted asks for nothing but the time and answers as before;
    after that it answers whether the path is in the mount table. *)
Theorem is_mounted_cached d h :
  (E h _ STime - last_mount_check_time_ d <= 10 ->
     IsMounted (d, h) = (Ret (last_mounted_result_ d), (d, Ev STime (E h _ STime) :: h))) /\
  (10 < E h _ STime - last_mount_check_time_ d ->
     forall b w, IsMounted (d, h) = (Ret b, w) ->
     exists t h1 (mounts : gmap string string) h2,
       GetMountedDevices (set_check_time t d, h1) = (Ret mounts, (set_check_time t d, h2)) /\
       b = bool_decide (is_Some (mounts !! mb_path d)) /\
       w = (set_mounted b (set_check_time t d), h2)).
Proof.
  unfold IsMounted. split.
  - intros H. io. destruct (Z.ltb_spec 10 (E h Z STime - last_mount_check_time_ d)); [lia|].
    by io.
  - intros H b w. io. destruct (Z.ltb_spec 10 (E h Z STime - last_mount_check_time_ d)); [|lia]. io.
    set (h1 := Ev STime (E h Z STime) :: h). set (t := E h1 Z STime).
    destruct (GetMountedDevices_frame (set_check_time t d) (Ev STime t :: h1)) as ([m| | | |] & h3 & Eq & _);
      rewrite Eq; io; intros [= <- <-].
    by eexists _, _, _, _.
Qed.

Lemma GetMountPoint_frame d h :
  exists o h', GetMountPoint (d, h) = (o, (d, h')) /\ open_fds h' = open_fds h.
Proof.
  unfold GetMountPoint. io.
  destruct (GetMountedDevices_frame d h) as ([m| | | |] & h' & -> & Ho); io; try by eexists _, _.
  case_match; by eexists _, _.
Qed.
End MountableProps.

Section FreezeProps.
Context {E : Env}.
Hypothesis fresh : fresh_fds E.
Implicit Types d : MountableBlockDevice.

(** OpenMount either throws and opens nothing, or returns a new
    descriptor, which the device keeps. *)
Lemma OpenMount_run d h :
  (forall fd, fd ∈ open_fds h -> 0 <= fd) ->
  exists o d' h', OpenMount (d, h) = (o, (d', h')) /\
    mb_base d' = mb_base d /\ mb_is_frozen_ d' = mb_is_frozen_ d /\
    ((exists fd, o = Ret fd /\ 0 <= fd /\ mount_file_descriptor_ d' = fd /\
        (fd ∉ open_fds h) /\ open_fds h' = {[fd]} ∪ open_fds h) \/
     (stops o /\ open_fds h' = open_fds h)).
Proof.
  intros Hpos. unfold OpenMount. io.
  destruct (GetMountPoint_frame d h) as ([mp| | | |] & h1 & -> & Ho); io;
    try (eexists _, _, _; split_and!; [done..|by right]).
  destruct (open_answer fresh h1 mp [O_DIRECTORY; O_RDONLY]) as [[Hr Hf]|(Hr & Hn & Hf)].
  - rewrite Hr. cbn [Z.eqb Pos.eqb]. io. eexists _, _, _. split_and!; [done..|].
    right. split; [done|]. by rewrite Hf.
  - destruct (Z.eqb_spec (ret (E h1 cret (SOpen mp [O_DIRECTORY; O_RDONLY]))) (-1)); [lia|]. io.
    eexists _, _, _. split_and!; [done..|]. left. eexists. split_and!; [done|done|done| |].
    + by rewrite <- Ho.
    + by rewrite Hf, Ho.
Qed.

Lemma Freeze_run d h :
  (forall fd, fd ∈ open_fds h -> 0 <= fd) ->
  exists o d' h', Freeze (d, h) = (o, (d', h')) /\ open_fds h' = open_fds h /\
    mb_base d' = mb_base d /\
    (mb_is_frozen_ d' = true -> mb_is_frozen_ d = true \/
       exists fd r r' h1, h' = Ev (SClose fd) r' :: Ev (SIoctl fd FIFREEZE) r :: h1 /\
         ret r = 0 /\ o = Ret tt /\ mount_file_descriptor_ d' = fd) /\
    (o = Ret tt -> mb_is_frozen_ d' = mb_is_frozen_ d -> mb_is_frozen_ d = false ->
       exists w, IsMounted (d, h) = (Ret false, w)).
Proof.
  intros Hpos. unfold Freeze. io.
  destruct (IsMounted_frame d h) as (o1 & d1 & h1 & -> & Ho & Hb & Hf & _).
  destruct o1 as [[]| | | |]; io.
  2: { eexists _, _, _. split_and!; [done..| |eauto]. intros Hd. left. congruence. }
  2-5: (eexists _, _, _; split_and!; [done..| |done]; intros Hd; left; congruence).
  destruct (OpenMount_run d1 h1) as (o2 & d2 & h2 & -> & Hb2 & Hf2 & Hc); [by rewrite Ho|].
  destruct Hc as [(fd & -> & Hfd & Hmd & Hn & Hop)|[Hs Hop]].
  2: { destruct o2; io; [done|..];
       (eexists _, _, _; split_and!; [done|congruence|congruence| |done]; intros Hd; left; congruence). }
  io. destruct (Z.eqb_spec (ret (E h2 cret (SIoctl fd FIFREEZE))) 0) as [Hz|Hz]; cbn [negb]; io.
  - eexists _, _, _. split; [done|]. cbn [fst snd]. autorewrite with agent. rewrite Hop, Ho.
    split_and!; [set_solver|cbn; congruence| |].
    + intros _. right. eexists _, _, _, _. by split_and!.
    + cbn. intros _ Hd1 Hd2. congruence.
  - eexists _, _, _. split; [done|]. cbn [fst snd]. autorewrite with agent. rewrite Hop, Ho.
    split_and!; [set_solver|congruence| |done]. intros Hd. left. congruence.
Qed.

(** Freezing an ext device.  On ext2 it is a no-op.  Otherwise, on a
    mounted device it freezes through a descriptor of the mount point and
    closes that descriptor again, and the device counts as frozen only if
    the FIFREEZE request succeeded; on a device that is not mounted it
    returns without freezing anything.  However it ends, it leaves the open
    descriptors as they were. *)
Theorem freeze_spec d h (is_ext2 : bool) :
  (forall fd, fd ∈ open_fds h -> 0 <= fd) ->
  exists o d' h', Ext_Freeze is_ext2 (d, h) = (o, (d', h')) /\ open_fds h' = open_fds h /\
    mb_base d' = mb_base d /\
    (is_ext2 = true -> o = Ret tt /\ d' = d /\ h' = h) /\
    (mb_is_frozen_ d' = true -> mb_is_frozen_ d = true \/
       exists fd r r' h1, h' = Ev (SClose fd) r' :: Ev (SIoctl fd FIFREEZE) r :: h1 /\
         ret r = 0 /\ o = Ret tt /\ is_ext2 = false) /\
    (o = Ret tt -> is_ext2 = false -> mb_is_frozen_ d' = mb_is_frozen_ d -> mb_is_frozen_ d = false ->
       exists w, IsMounted (d, h) = (Ret false, w)).
Proof.
  intros Hpos. unfold Ext_Freeze. destruct is_ext2.
  - eexists _, _, _. split; [done|]. split_and!; try done. by left.
  - destruct (Freeze_run d h Hpos) as (o & d' & h' & R & H1 & H2 & H3 & H4).
    exists o, d', h'. split_and!; [done..| |auto].
    intros Hd. destruct (H3 Hd) as [?|(fd & r & r' & h1 & ? & ? & ? & _)]; [by left|].
    right. by eexists _, _, _, _.
Qed.

(** A device that has been frozen once keeps the number of the mount
    descriptor it already closed, and its destructor closes that number
    again: if the process has opened something else in between and the
    kernel reused the number, the destructor closes that. *)
Theorem destructor_closes_twice d h d' h' :
  (forall fd, fd ∈ open_fds h -> 0 <= fd) ->
  mb_is_frozen_ d = false -> Freeze (d, h) = (Ret tt, (d', h')) -> mb_is_frozen_ d' = true ->
  (mount_file_descriptor_ d' ∉ open_fds h') /\
  forall h2, open_fds (final CloseMount (d', h2)).2 = open_fds h2 ∖ {[mount_file_descriptor_ d']}.
Proof.
  intros Hpos Hf R Hd'. destruct (Freeze_run d h Hpos) as (o & d1 & h1 & R1 & Ho & _ & Hz & _).
  rewrite R in R1. injection R1 as <- <- <-. split.
  - destruct (Hz Hd') as [?|(fd & r & r' & h1 & -> & _ & _ & ->)]; [congruence|].
    autorewrite with agent. set_solver.
  - intros h2. unfold final, CloseMount. by io.
Qed.

Lemma make_ext_Ret path b garbage h dev w :
  (forall fd, fd ∈ open_fds h -> 0 <= fd) ->
  make_ext path b garbage (tt, h) = (Ret dev, w) ->
  is_ext2_ dev = b /\ mb_path (ext_base dev) = path /\ mb_is_frozen_ (ext_base dev) = false /\
  open_fds w.2 = open_fds h.
Proof.
  intros Hpos. unfold make_ext, new_MountableBlockDevice, new_BlockDevice. cbn [snd].
  destruct (Init_run fresh (mkBlockDevice path (dev_t_ garbage) (device_size_bytes_ garbage)
    (block_size_bytes_ garbage) (fd_ garbage)) h Hpos) as (r & b' & h' & -> & H2 & H3 & H4 & _).
  destruct r; intros [= <- <-]. done.
Qed.

(** The factory.  The type blkid reports decides: ext3 and ext4 give a
    device that freezes, ext2 one that does not, and every other type,
    xfs included, is refused before the device is touched. *)
Theorem factory_by_filesystem path garbage h fs :
  E h _ (SBlkidTag "TYPE" path) = Some fs -> (forall fd, fd ∈ open_fds h -> 0 <= fd) ->
  (fs <> "ext2" -> fs <> "ext3" -> fs <> "ext4" ->
     CreateMountableBlockDeviceFromPath path garbage (tt, h) =
       (Throw (BlockDeviceException "Unknown filesystem"), (tt, Ev (SBlkidTag "TYPE" path) (Some fs) :: h))) /\
  (forall dev w, CreateMountableBlockDeviceFromPath path garbage (tt, h) = (Ret dev, w) ->
     (fs = "ext2" /\ is_ext2_ dev = true \/ (fs = "ext3" \/ fs = "ext4") /\ is_ext2_ dev = false) /\
     mb_path (ext_base dev) = path /\ mb_is_frozen_ (ext_base dev) = false /\
     open_fds w.2 = open_fds h).
Proof.
  intros Hfs Hpos. unfold CreateMountableBlockDeviceFromPath, GetFilesystemFromPath. split.
  - intros H2 H3 H4. io. rewrite Hfs. io. apply String.eqb_neq in H2, H3, H4.
    by rewrite H2, H3, H4.
  - intros dev w. io. rewrite Hfs. io. set (h1 := Ev (SBlkidTag "TYPE" path) (Some fs) :: h).
    change (open_fds h) with (open_fds h1) in *.
    destruct (String.eqb_spec fs "ext4") as [->|H4]; cbn [orb].
    { intros [-> Hp]%(make_ext_Ret _ _ _ _ _ _ Hpos). split; [right; auto|done]. }
    destruct (String.eqb_spec fs "ext3") as [->|H3]; cbn [orb].
    { intros [-> Hp]%(make_ext_Ret _ _ _ _ _ _ Hpos). split; [right; auto|done]. }
    destruct (String.eqb_spec fs "ext2") as [->|H2]; [|done].
    intros [-> Hp]%(make_ext_Ret _ _ _ _ _ _ Hpos). split; [left; auto|done].
Qed.
End FreezeProps.

(** ** Runs *)

(** The working machine with one line in the mount table. *)
Definition mounts_env (line : string) : Env := fun h T c =>
  match c in sys T return T with
  | SProcMounts => [line]
  | SRealpath p => if String.eqb p "" then (None, ENOENT) else (Some p, 0)
  | c' => working_env h _ c'
  end.

Lemma mounts_env_fresh line : fresh_fds (mounts_env line).
Proof. exact working_env_fresh. Qed.

Definition sample_mountable : MountableBlockDevice := mkMBD sample_device (-1) false 0 false.

(** The mount point "/mnt/a b" as the kernel prints it. *)
Lemma mount_point_is_not_unescaped_witness :
  exists h', GetMountPoint (env := mounts_env "/dev/sda1 /mnt/a\040b ext4 rw 0 0") (sample_mountable, []) =
    (Ret "/mnt/a\040b", (sample_mountable, h')).
Proof.
  apply (mount_point_is_not_unescaped (E := mounts_env "/dev/sda1 /mnt/a\040b ext4 rw 0 0")
    sample_mountable [] "/dev/sda1" "/mnt/a\040b" "ext4 rw 0 0").
  - reflexivity.
  - reflexivity.
  - reflexivity.
  - reflexivity.
  - apply Nat.ltb_lt. vm_compute. reflexivity.
  - intros h'. reflexivity.
  - intros h'. reflexivity.
Defined.

Fixpoint stars (n : nat) : string :=
  match n with O => EmptyString | S n' => String (Ascii.ascii_of_nat 42) (stars n') end.

Lemma long_mount_line_overruns_witness :
  exists w h', GetMountPoint (env := mounts_env (stars 1024)) (sample_mountable, []) =
    (Undef w, (sample_mountable, h')).
Proof.
  apply (long_mount_line_overruns (E := mounts_env (stars 1024)) sample_mountable [] (stars 1024) []).
  - reflexivity.
  - apply Nat.leb_le. vm_compute. reflexivity.
Defined.

Lemma is_mounted_cached_witness :
  IsMounted (env := working_env) (set_mounted true (set_check_time 995 sample_mountable), []) =
    (Ret true, (set_mounted true (set_check_time 995 sample_mountable), [Ev STime 1000])).
Proof.
  apply (proj1 (is_mounted_cached (E := working_env)
    (set_mounted true (set_check_time 995 sample_mountable)) [])).
  cbn. lia.
Defined.

Lemma no_fds_positive : forall fd : Z, fd ∈ open_fds [] -> 0 <= fd.
Proof. intros fd Hfd. by apply not_elem_of_empty in Hfd. Qed.

Lemma freeze_spec_witness :
  exists o d' h', Ext_Freeze (env := working_env) false (sample_mountable, []) = (o, (d', h')) /\
    open_fds h' = open_fds [].
Proof.
  destruct (freeze_spec (E := working_env) working_env_fresh sample_mountable [] false no_fds_positive)
    as (o & d' & h' & H1 & H2 & _).
  exists o, d', h'. split; [exact H1|exact H2].
Defined.

Example freeze_run :
  result (Freeze (env := working_env)) (sample_mountable, []) = Ret tt /\
  mb_is_frozen_ (final (Freeze (env := working_env)) (sample_mountable, [])).1 = true.
Proof. split; vm_compute; reflexivity. Qed.

(** The state the freeze leaves behind, as a term of its own. *)
Definition frozen_world : MountableBlockDevice * history :=
  final (Freeze (env := working_env)) (sample_mountable, []).

Lemma destructor_closes_twice_witness :
  (mount_file_descriptor_ frozen_world.1 ∉ open_fds frozen_world.2) /\
  forall h2, open_fds (final (CloseMount (env := working_env)) (frozen_world.1, h2)).2 =
    open_fds h2 ∖ {[mount_file_descriptor_ frozen_world.1]}.
Proof.
  apply (destructor_closes_twice (E := working_env) working_env_fresh sample_mountable []).
  - exact no_fds_positive.
  - reflexivity.
  - vm_compute. reflexivity.
  - vm_compute. reflexivity.
Defined.

(** The working machine with an xfs file system. *)
Definition xfs_env : Env := fun h T c =>
  match c in sys T return T with
  | SBlkidTag _ _ => Some "xfs"
  | c' => working_env h _ c'
  end.

Lemma factory_by_filesystem_witness :
  CreateMountableBlockDeviceFromPath (env := xfs_env) "/dev/sda1" sample_device (tt, []) =
    (Throw (BlockDeviceException "Unknown filesystem"), (tt, [Ev (SBlkidTag "TYPE" "/dev/sda1") (Some "xfs")])).
Proof.
  apply (factory_by_filesystem (E := xfs_env) working_env_fresh "/dev/sda1" sample_device [] "xfs").
  - reflexivity.
  - exact no_fds_positive.
  - discriminate.
  - discriminate.
  - discriminate.
Defined.
