(* ===== verification/StatusTracker.v ===== *)
(** * Status of the backup jobs

    Models backup_status_tracker/: the status messages of the jobs
    (BackupStatusTracker), the handler through which a backup changes its
    own message (BackupEventHandler), the counters of one device in it
    (SyncCountHandler) and the handler of the command-line tool, which
    prints (PrintingSyncCountHandler).  The messages are shared objects: a
    tracker, an event handler and a count handler hold pointers to the same
    message, so they live in a heap and handlers are addresses.  Every
    method holds the one mutex the tracker made, but for the constructor of
    the event handler and CreateSyncCountHandler, whose writes [Session]
    takes one by one. *)

From S2P Require Import Prelude Machine.

(** ** The messages *)

Inductive Status := NOT_STARTED | IN_PROGRESS | SUCCEEDED | CANCELLED | FAILED.

#[export] Instance Status_eq_dec : EqDecision Status.
Proof. solve_decision. Defined.

Record BlockDeviceStatus := mkDeviceStatus {
  bds_uuid : string;
  bytes_transferred : Z;
  bytes_unsynced : Z
}.

Record BackupStatusReply := mkReply {
  status : option Status;
  failure_message : option string;
  device_statuses : list BlockDeviceStatus
}.

Definition empty_reply : BackupStatusReply := mkReply None None [].

Definition set_status (s : Status) (r : BackupStatusReply) : BackupStatusReply :=
  mkReply (Some s) (failure_message r) (device_statuses r).

Definition set_failure_message (m : string) (r : BackupStatusReply) : BackupStatusReply :=
  mkReply (status r) (Some m) (device_statuses r).

Definition add_device_status (d : BlockDeviceStatus) (r : BackupStatusReply) : BackupStatusReply :=
  mkReply (status r) (failure_message r) (device_statuses r ++ [d]).

(** ** Count handlers

    What a synchronizer needs of its count handler, and the two classes
    that provide it. *)

Class CountHandler (H : Type) := {
  UpdateSyncedCount : Z -> M H unit;
  UpdateUnsyncedCount : Z -> M H unit
}.

(** An update returns: it neither throws nor stops the process. *)
Class CountHandlerLaws (H : Type) `{!CountHandler H} : Prop := {
  synced_returns : forall n s, exists s', UpdateSyncedCount n s = (Ret tt, s');
  unsynced_returns : forall n s, exists s', UpdateUnsyncedCount n s = (Ret tt, s')
}.

(** SyncCountHandler writes to the device's part of the message. *)
Definition SyncCountHandler_UpdateSyncedCount (num_synced : Z) : M BlockDeviceStatus unit :=
  modify (fun d => mkDeviceStatus (bds_uuid d) num_synced (bytes_unsynced d)).

Definition SyncCountHandler_UpdateUnsyncedCount (num_unsynced : Z) : M BlockDeviceStatus unit :=
  modify (fun d => mkDeviceStatus (bds_uuid d) (bytes_transferred d) num_unsynced).

#[export] Instance SyncCountHandler : CountHandler BlockDeviceStatus := {
  UpdateSyncedCount := SyncCountHandler_UpdateSyncedCount;
  UpdateUnsyncedCount := SyncCountHandler_UpdateUnsyncedCount
}.

#[export] Instance SyncCountHandler_laws : CountHandlerLaws BlockDeviceStatus.
Proof. split; intros n d; by eexists. Qed.

(** PrintingSyncCountHandler prints a line per number: the lines, oldest
    first, each its number and its text. *)
Definition printed := list (Z * string).

Definition new_PrintingSyncCountHandler (bytes_total : Z) : printed :=
  [(bytes_total, "total bytes")].

Definition Printing_UpdateSyncedCount (num_synced : Z) : M printed unit :=
  modify (fun out => out ++ [(num_synced, "synced bytes")]).

#[export] Instance PrintingSyncCountHandler : CountHandler printed := {
  UpdateSyncedCount := Printing_UpdateSyncedCount;
  UpdateUnsyncedCount := fun _ => mret tt
}.

#[export] Instance PrintingSyncCountHandler_laws : CountHandlerLaws printed.
Proof. split; intros n d; by eexists. Qed.

(** ** Tracker and event handlers *)

Record Tracker := mkTracker {
  reply_map_ : gmap string nat;          (* job UUID -> address *)
  replies : gmap nat BackupStatusReply;  (* the messages *)
  next_reply : nat
}.

Definition new_BackupStatusTracker : Tracker := mkTracker ∅ ∅ 0.

Definition update_reply (a : nat) (f : BackupStatusReply -> BackupStatusReply)
    : M Tracker unit :=
  modify (fun t => mkTracker (reply_map_ t) (alter f a (replies t)) (next_reply t)).

(** A copy of the message, or nullptr. *)
Definition GetReply (job_uuid : string) : M Tracker (option BackupStatusReply) :=
  gets (fun t => reply_map_ t !! job_uuid ≫= fun a => replies t !! a).

(** The handler (the address of its message), or nullptr for a job that
    already has one.  The handler's constructor sets NOT_STARTED. *)
Definition new_BackupEventHandler (reply : nat) : M Tracker nat :=
  update_reply reply (set_status NOT_STARTED) ;; mret reply.

Definition CreateEventHandler (job_uuid : string) : M Tracker (option nat) :=
  t ← get;
  match reply_map_ t !! job_uuid with
  | Some _ => mret None
  | None =>
      put (mkTracker (<[job_uuid := next_reply t]> (reply_map_ t))
                     (<[next_reply t := empty_reply]> (replies t)) (S (next_reply t))) ;;
      a ← new_BackupEventHandler (next_reply t);
      mret (Some a)
  end.

Definition BackupInProgress (a : nat) : M Tracker unit := update_reply a (set_status IN_PROGRESS).

Definition BackupCancelled (a : nat) : M Tracker unit := update_reply a (set_status CANCELLED).

Definition BackupSucceeded (a : nat) : M Tracker unit := update_reply a (set_status SUCCEEDED).

Definition BackupFailed (a : nat) (failure : string) : M Tracker unit :=
  update_reply a (set_status FAILED) ;; update_reply a (set_failure_message failure).

(** A count handler is the address of a message and the index of the
    device in it; its constructor sets the transferred bytes to 0. *)
Definition count_handler : Type := nat * nat.

Definition update_device (a index : nat) (f : BlockDeviceStatus -> BlockDeviceStatus) : M Tracker unit :=
  update_reply a (fun r => mkReply (status r) (failure_message r) (alter f index (device_statuses r))).

Definition new_SyncCountHandler (a index : nat) : M Tracker count_handler :=
  update_device a index (fun d => mkDeviceStatus (bds_uuid d) 0 (bytes_unsynced d)) ;;
  mret (a, index).

(** The entry is added before the device is asked for its UUID, which may
    throw. *)

Definition CreateSyncCountHandler (a : nat) (GetUuid : outcome string) : M Tracker count_handler :=
  t ← get;
  let index := length (default [] (device_statuses <$> replies t !! a)) in
  update_reply a (add_device_status (mkDeviceStatus "" 0 0)) ;;
  match GetUuid with
  | Ret uuid =>
      update_device a index (fun d => mkDeviceStatus uuid (bytes_transferred d) (bytes_unsynced d)) ;;
      new_SyncCountHandler a index
  | Throw e => throw e
  | Abort w => abort w
  | Undef w => undef w
  | OutOfFuel => out_of_fuel
  end.

(** A count handler's update, on the shared message. *)
Definition on_device (h : count_handler) (m : M BlockDeviceStatus unit) : M Tracker unit :=
  update_reply h.1 (fun r => mkReply (status r) (failure_message r)
    (alter (final m) h.2 (device_statuses r))).

(** ** Properties *)

(** The heap invariant: different jobs have different messages, each of
    them allocated. *)
Record tracker_inv (t : Tracker) : Prop := {
  ti_alloc : forall j a, reply_map_ t !! j = Some a -> is_Some (replies t !! a);
  ti_inj : forall j k a, reply_map_ t !! j = Some a -> reply_map_ t !! k = Some a -> j = k;
  ti_next : forall a, is_Some (replies t !! a) -> (a < next_reply t)%nat
}.

Lemma new_tracker_inv : tracker_inv new_BackupStatusTracker.
Proof.
  split; cbn.
  - intros j a H. by rewrite lookup_empty in H.
  - intros j k a H. by rewrite lookup_empty in H.
  - intros a [r H]. by rewrite lookup_empty in H.
Qed.

Lemma update_reply_inv a f t : tracker_inv t -> tracker_inv (update_reply a f t).2.
Proof.
  intros [H1 H2 H3]. split; cbn; [|done|].
  - intros j b Hj. rewrite lookup_alter_is_Some. eauto.
  - intros b. rewrite lookup_alter_is_Some. apply H3.
Qed.

Definition job_reply (t : Tracker) (j : string) : option BackupStatusReply :=
  reply_map_ t !! j ≫= fun a => replies t !! a.

(** Updating one job's message changes that message and no other job's. *)
Lemma update_reply_job t j a f :
  tracker_inv t -> reply_map_ t !! j = Some a ->
  job_reply (update_reply a f t).2 j = f <$> job_reply t j /\
  forall k, k <> j -> job_reply (update_reply a f t).2 k = job_reply t k.
Proof.
  intros Hinv Hj. unfold job_reply. cbn. rewrite Hj. cbn. split.
  - apply lookup_alter_eq.
  - intros k Hk. destruct (reply_map_ t !! k) as [b|] eqn:Eb; [|done]. cbn.
    apply lookup_alter_ne. intros ->. apply Hk. by eapply ti_inj.
Qed.

Lemma CreateEventHandler_run t j :
  tracker_inv t ->
  match reply_map_ t !! j with
  | Some _ => CreateEventHandler j t = (Ret None, t)
  | None => exists a t', CreateEventHandler j t = (Ret (Some a), t') /\ tracker_inv t' /\
      reply_map_ t' !! j = Some a /\ job_reply t' j = Some (set_status NOT_STARTED empty_reply) /\
      forall k, k <> j -> job_reply t' k = job_reply t k
  end.
Proof.
  intros Hinv. unfold CreateEventHandler. run. destruct (reply_map_ t !! j) as [b|] eqn:E; [done|].
  unfold new_BackupEventHandler. run.
  set (t1 := mkTracker _ _ _).
  assert (reply_map_ t1 !! j = Some (next_reply t)) as Hj by (unfold t1; cbn; apply lookup_insert_eq).
  assert (forall k, k <> j -> reply_map_ t1 !! k = reply_map_ t !! k) as Hk
    by (intros; unfold t1; cbn; by apply lookup_insert_ne).
  assert (forall k b, reply_map_ t !! k = Some b -> b <> next_reply t) as Hfresh.
  { intros k b Hb. apply (ti_alloc _ Hinv) in Hb. apply (ti_next _ Hinv) in Hb. lia. }
  assert (tracker_inv t1) as H1.
  { split.
    - intros k b. destruct (decide (k = j)) as [->|Hne].
      + rewrite Hj. intros [= <-]. unfold t1. cbn. rewrite lookup_insert_eq. eauto.
      + rewrite Hk by done. intros Hb. unfold t1. cbn.
        rewrite lookup_insert_ne by (symmetry; eauto). eauto using ti_alloc.
    - intros k l b. destruct (decide (k = j)) as [->|Hkj], (decide (l = j)) as [->|Hlj]; try done;
        rewrite ?Hj, ?Hk by done.
      + intros [= <-] Hb. by apply Hfresh in Hb.
      + intros Hb [= <-]. by apply Hfresh in Hb.
      + eauto using ti_inj.
    - intros b. unfold t1. cbn. destruct (decide (b = next_reply t)) as [->|]; [lia|].
      rewrite lookup_insert_ne by done. intros Hb%(ti_next _ Hinv). lia. }
  pose proof (update_reply_inv (next_reply t) (set_status NOT_STARTED) t1 H1) as H2.
  destruct (update_reply_job t1 j _ (set_status NOT_STARTED) H1 Hj) as [H3 H4].
  destruct (update_reply (next_reply t) (set_status NOT_STARTED) t1) as [r t2] eqn:E2.
  assert (r = Ret tt) as -> by (unfold update_reply in E2; by injection E2).
  cbn [snd] in *. eexists _, t2. split; [done|]. split; [done|]. split_and!.
  - unfold update_reply in E2. injection E2 as <-. done.
  - rewrite H3. unfold job_reply. rewrite Hj. cbn. unfold t1. cbn. by rewrite lookup_insert_eq.
  - intros k Hkj. rewrite H4 by done. unfold job_reply. rewrite Hk by done.
    destruct (reply_map_ t !! k) as [b|] eqn:Eb; [|done]. cbn. unfold t1. cbn.
    apply lookup_insert_ne. symmetry. eauto.
Qed.

(** Job isolation.  Creating a handler for a new job gives it a message
    of its own, NOT_STARTED with no devices, and disturbs no other job; for
    a job that already has one nothing changes and the answer is a null
    handler, not an exception. *)
Theorem event_handler_isolated t j :
  tracker_inv t ->
  (is_Some (reply_map_ t !! j) -> CreateEventHandler j t = (Ret None, t)) /\
  (reply_map_ t !! j = None ->
     exists a t', CreateEventHandler j t = (Ret (Some a), t') /\ tracker_inv t' /\
       result (GetReply j) t' = Ret (Some (mkReply (Some NOT_STARTED) None [])) /\
       (forall k, k <> j -> result (GetReply k) t' = result (GetReply k) t)).
Proof.
  intros Hinv. pose proof (CreateEventHandler_run t j Hinv) as H. split.
  - intros [a Ha]. by rewrite Ha in H.
  - intros E. rewrite E in H. destruct H as (a & t' & R & H1 & H2 & H3 & H4).
    exists a, t'. split_and!; [done|done|..]; unfold result, GetReply; cbn; fold (job_reply t' j).
    + by rewrite H3.
    + intros k Hk. fold (job_reply t' k) (job_reply t k). by rewrite H4.
Qed.

(** The end states.  Whatever a job's message said before, after
    BackupFailed a status request reads FAILED with the text of the
    failure, after BackupSucceeded and BackupCancelled it reads that state
    with the message otherwise as it was, and no other job's message has
    changed. *)
Theorem final_status_visible t j a r :
  tracker_inv t -> reply_map_ t !! j = Some a -> job_reply t j = Some r ->
  (forall msg, job_reply (final (BackupFailed a msg) t) j =
     Some (mkReply (Some FAILED) (Some msg) (device_statuses r))) /\
  job_reply (final (BackupSucceeded a) t) j =
     Some (mkReply (Some SUCCEEDED) (failure_message r) (device_statuses r)) /\
  job_reply (final (BackupCancelled a) t) j =
     Some (mkReply (Some CANCELLED) (failure_message r) (device_statuses r)) /\
  (forall msg k, k <> j -> job_reply (final (BackupFailed a msg) t) k = job_reply t k /\
     job_reply (final (BackupSucceeded a) t) k = job_reply t k /\
     job_reply (final (BackupCancelled a) t) k = job_reply t k).
Proof.
  intros Hinv Hj Hr.
  assert (forall f, job_reply (update_reply a f t).2 j = Some (f r)) as H1.
  { intros f. destruct (update_reply_job t j a f Hinv Hj) as [-> _]. by rewrite Hr. }
  assert (forall f k, k <> j -> job_reply (update_reply a f t).2 k = job_reply t k) as H2.
  { intros f k Hk. by apply (update_reply_job t j a f Hinv Hj). }
  assert (forall msg, final (BackupFailed a msg) t =
            (update_reply a (set_failure_message msg) (update_reply a (set_status FAILED) t).2).2)
    as Hf by done.
  assert (forall msg, let u := (update_reply a (set_status FAILED) t).2 in
            job_reply (update_reply a (set_failure_message msg) u).2 j =
              set_failure_message msg <$> job_reply u j /\
            forall k, k <> j -> job_reply (update_reply a (set_failure_message msg) u).2 k = job_reply u k)
    as H3 by (intros msg u; apply update_reply_job; [by apply update_reply_inv|done]).
  split_and!.
  - intros msg. rewrite Hf, (proj1 (H3 msg)), H1. done.
  - apply (H1 (set_status SUCCEEDED)).
  - apply (H1 (set_status CANCELLED)).
  - intros msg k Hk. rewrite Hf, (proj2 (H3 msg)) by done. split_and!; by apply H2.
Qed.

(** ** A run *)

Definition one_job : Tracker := final (CreateEventHandler "job") new_BackupStatusTracker.

Lemma one_job_inv : tracker_inv one_job.
Proof.
  destruct (CreateEventHandler_run new_BackupStatusTracker "job" new_tracker_inv) as (a & t' & R & H & _).
  unfold one_job, final. by rewrite R.
Qed.

Lemma event_handler_isolated_witness :
  CreateEventHandler "job" one_job = (Ret None, one_job).
Proof.
  apply (proj1 (event_handler_isolated one_job "job" one_job_inv)).
  exists 0%nat. reflexivity.
Defined.

Lemma final_status_visible_witness :
  job_reply (final (BackupFailed 0 "disk is gone") one_job) "job" =
    Some (mkReply (Some FAILED) (Some "disk is gone") []).
Proof.
  apply (proj1 (final_status_visible one_job "job" 0%nat (mkReply (Some NOT_STARTED) None [])
    one_job_inv eq_refl eq_refl)).
Defined.
