(* ===== verification/Coordinator.v ===== *)
(** * The backup coordinator

    Models backup/backup_coordinator.{h,cc}, backup/fake_backup_coordinator.h
    and backup_status_tracker/backup_error.h: the count of the workers that
    still have something to copy, cancellation, and the errors collected.
    Every method holds the coordinator's mutex, so each is one atomic step;
    the count is an [unsigned int].  The synchronizer uses a coordinator
    only through [Coordinator]. *)

From S2P Require Import Prelude Machine.

Record BackupError := mkError {
  error_text : string;
  error_source : string;
  error_trace : string
}.

#[export] Instance BackupError_eq_dec : EqDecision BackupError.
Proof. solve_decision. Defined.

(** What DeviceSynchronizer and Backup call. *)
Class Coordinator (C : Type) := {
  SignalFinished : M C unit;
  SignalMoreWorkToDo : M C bool;
  AddFatalError : BackupError -> M C unit;
  GetFatalErrors : M C (list BackupError);
  Cancel : M C unit;
  IsCancelled : M C bool;
  WaitUntilFinished : Z -> M C bool
}.

(** ** BackupCoordinator *)

Record BackupCoordinator := mkCoordinator {
  count_ : Z;
  cancelled_ : bool;
  fatal_errors_ : list BackupError
}.

Definition new_BackupCoordinator (num_workers : Z) : BackupCoordinator :=
  mkCoordinator (u32 num_workers) false [].

Definition BackupCoordinator_SignalFinished : M BackupCoordinator unit :=
  modify (fun c => mkCoordinator (u32 (count_ c - 1)) (cancelled_ c) (fatal_errors_ c)).

Definition BackupCoordinator_SignalMoreWorkToDo : M BackupCoordinator bool :=
  c ← get;
  if cancelled_ c || (count_ c =? 0) then mret false
  else put (mkCoordinator (u32 (count_ c + 1)) (cancelled_ c) (fatal_errors_ c)) ;; mret true.

Definition BackupCoordinator_AddFatalError (e : BackupError) : M BackupCoordinator unit :=
  modify (fun c => mkCoordinator (count_ c) true (fatal_errors_ c ++ [e])).

Definition BackupCoordinator_GetFatalErrors : M BackupCoordinator (list BackupError) :=
  gets fatal_errors_.

Definition BackupCoordinator_Cancel : M BackupCoordinator unit :=
  modify (fun c => mkCoordinator (count_ c) true (fatal_errors_ c)).

Definition BackupCoordinator_IsCancelled : M BackupCoordinator bool := gets cancelled_.

(** The answer of [wait_for]: the condition at the moment it returns. *)
Definition BackupCoordinator_WaitUntilFinished (timeout_millis : Z) : M BackupCoordinator bool :=
  check_gt timeout_millis 0 "timeout is not positive" ;;
  gets (fun c => (count_ c =? 0) || cancelled_ c).

#[export] Instance BackupCoordinator_ops : Coordinator BackupCoordinator := {
  SignalFinished := BackupCoordinator_SignalFinished;
  SignalMoreWorkToDo := BackupCoordinator_SignalMoreWorkToDo;
  AddFatalError := BackupCoordinator_AddFatalError;
  GetFatalErrors := BackupCoordinator_GetFatalErrors;
  Cancel := BackupCoordinator_Cancel;
  IsCancelled := BackupCoordinator_IsCancelled;
  WaitUntilFinished := BackupCoordinator_WaitUntilFinished
}.

(** ** FakeBackupCoordinator: it keeps nothing *)

Definition FakeBackupCoordinator := unit.

#[export] Instance FakeBackupCoordinator_ops : Coordinator FakeBackupCoordinator := {
  SignalFinished := mret tt;
  SignalMoreWorkToDo := mret false;
  AddFatalError := fun _ => mret tt;
  GetFatalErrors := throw (runtime_error "Not implemented");
  Cancel := mret tt;
  IsCancelled := mret false;
  WaitUntilFinished := fun _ => mret true
}.

(** What the other participants of a backup may do to the coordinator
    while one worker is between two of its own calls. *)
Inductive co_op := COFinished | COMore | COError (e : BackupError) | COCancel.

#[export] Instance co_op_eq_dec : EqDecision co_op.
Proof. solve_decision. Defined.

Definition run_co_op {C} `{!Coordinator C} (o : co_op) : M C unit :=
  match o with
  | COFinished => SignalFinished
  | COMore => SignalMoreWorkToDo ;; mret tt
  | COError e => AddFatalError e
  | COCancel => Cancel
  end.

(** A coordinator under which a worker gets to the end: it is not cancelled,
    and once the worker has signalled, at most [k] of its waits fail before
    one succeeds, in a state that satisfies [Q]. *)
Fixpoint waits_out {C} `{!Coordinator C} (Q : C -> Prop) (k : nat) (c : C) : Prop :=
  exists b c', WaitUntilFinished 500 c = (Ret b, c') /\
    if b : bool then Q c'
    else match k with
         | O => False
         | S k' => exists c'', IsCancelled c' = (Ret false, c'') /\ waits_out Q k' c''
         end.

Definition finishes_after {C} `{!Coordinator C} (Q : C -> Prop) (k : nat) (c : C) : Prop :=
  exists busy : C -> Prop, busy c /\
    forall c, busy c ->
      (exists c', IsCancelled c = (Ret false, c') /\ busy c') /\
      (exists c', SignalFinished c = (Ret tt, c') /\ waits_out Q k c').

Lemma one_worker_finishes : finishes_after (fun _ => True) 0 (new_BackupCoordinator 1).
Proof. exists (eq (new_BackupCoordinator 1)). split; [done|]. intros c <-. split; eexists; (split; [done|]); [done|by eexists _, _]. Qed.

Lemma fake_finishes : finishes_after (fun _ => True) 0 (tt : FakeBackupCoordinator).
Proof. exists (eq tt). split; [done|]. intros c <-. split; eexists; (split; [done|]); [done|by eexists _, _]. Qed.

(** ** The workers of a backup

    A worker is in the loop of DoSync with [was_done] false ([Working]) or
    true ([Done]), or has left the loop.  [refused] counts the calls of
    SignalMoreWorkToDo that answered false: DoSync does not look at the
    answer and goes on working. *)

Inductive worker := Working | Done | Left.

#[export] Instance worker_eq_dec : EqDecision worker.
Proof. solve_decision. Defined.

Record team := mkTeam { coord : BackupCoordinator; workers : list worker; refused : Z }.

Definition new_team (n : nat) : team :=
  mkTeam (new_BackupCoordinator (Z.of_nat n)) (replicate n Working) 0.

Inductive team_step : team -> team -> Prop :=
| TFinish i c ws r c' :
    ws !! i = Some Working -> BackupCoordinator_SignalFinished c = (Ret tt, c') ->
    team_step (mkTeam c ws r) (mkTeam c' (<[i := Done]> ws) r)
| TMore i c ws r c' b :
    ws !! i = Some Done -> BackupCoordinator_SignalMoreWorkToDo c = (Ret b, c') ->
    team_step (mkTeam c ws r) (mkTeam c' (<[i := Working]> ws) (if b then r else r + 1))
| TLeave i c ws r c' :
    ws !! i = Some Done -> BackupCoordinator_WaitUntilFinished 500 c = (Ret true, c') ->
    team_step (mkTeam c ws r) (mkTeam c' (<[i := Left]> ws) r)
| TQuit i c ws r c' :
    BackupCoordinator_IsCancelled c = (Ret true, c') ->
    team_step (mkTeam c ws r) (mkTeam c' (<[i := Left]> ws) r)
| TFail i e c ws r c' :
    BackupCoordinator_AddFatalError e c = (Ret tt, c') ->
    team_step (mkTeam c ws r) (mkTeam c' (<[i := Left]> ws) r)
| TCancel c ws r c' :
    BackupCoordinator_Cancel c = (Ret tt, c') ->
    team_step (mkTeam c ws r) (mkTeam c' ws r).

Definition is_working (w : worker) : bool := match w with Working => true | _ => false end.

Fixpoint working (ws : list worker) : Z :=
  match ws with
  | [] => 0
  | w :: ws' => (if is_working w then 1 else 0) + working ws'
  end.

Lemma working_insert ws i w w' :
  ws !! i = Some w ->
  working (<[i := w']> ws) = working ws - (if is_working w then 1 else 0) + (if is_working w' then 1 else 0).
Proof.
  revert i. induction ws as [|x ws IH]; intros [|i] H; cbn in H; try done.
  - injection H as ->. cbn. lia.
  - specialize (IH i H). change (<[S i:=w']> (x :: ws)) with (x :: <[i:=w']> ws).
    cbn [working]. lia.
Qed.

Lemma working_bounds ws : 0 <= working ws <= Z.of_nat (length ws).
Proof. induction ws as [|[] ws IH]; cbn [working is_working length]; lia. Qed.

Lemma working_replicate n : working (replicate n Working) = Z.of_nat n.
Proof. induction n as [|n IH]; cbn [replicate working is_working]; lia. Qed.

Lemma u32_minus x k : u32 (u32 x - k) = u32 (x - k).
Proof. unfold u32. by rewrite Zminus_mod_idemp_l. Qed.

Lemma u32_plus x k : u32 (u32 x + k) = u32 (x + k).
Proof. unfold u32. by rewrite Zplus_mod_idemp_l. Qed.

(** Until the backup is cancelled the count is the number of working
    workers, less the refused resumptions, as an unsigned number. *)
Definition team_inv (t : team) : Prop :=
  0 <= refused t /\
  (cancelled_ (coord t) = false -> count_ (coord t) = u32 (working (workers t) - refused t)).

Lemma team_step_inv t t' : team_step t t' -> team_inv t -> team_inv t'.
Proof.
  unfold team_inv. destruct 1 as
    [i c ws r c' Hi R|i c ws r c' b Hi R|i c ws r c' Hi R|i c ws r c' R|i e c ws r c' R|c ws r c' R];
    cbn [coord workers refused]; intros [Hr Hc].
  - injection R as <-. split; [done|]. cbn. intros Hn. rewrite Hc by done.
    rewrite (working_insert _ _ _ _ Hi). cbn. rewrite u32_minus. f_equal. lia.
  - unfold BackupCoordinator_SignalMoreWorkToDo in R. revert R. run.
    destruct (cancelled_ c) eqn:Ec; cbn [orb].
    { intros [= <- <-]. split; [lia|]. by rewrite Ec. }
    rewrite (working_insert _ _ _ _ Hi). cbn [is_working]. destruct (Z.eqb_spec (count_ c) 0) as [E|E].
    + intros [= <- <-]. split; [lia|]. intros _. rewrite Hc by done. f_equal. lia.
    + intros [= <- <-]. split; [lia|]. intros _. cbn. rewrite Hc by done. rewrite u32_plus. f_equal. lia.
  - injection R as Hw <-. split; [done|]. intros Hn. rewrite Hc by done.
    rewrite (working_insert _ _ _ _ Hi). cbn. f_equal. lia.
  - injection R as Hb <-. split; [done|]. congruence.
  - injection R as <-. by split.
  - injection R as <-. by split.
Qed.

Lemma team_inv_reach n t :
  (Z.of_nat n < 2 ^ 32) -> rtc team_step (new_team n) t -> team_inv t.
Proof.
  intros Hn H. apply (rtc_invariant team_step team_inv team_step_inv _ _ H).
  split; [done|]. intros _. cbn. by rewrite working_replicate, Z.sub_0_r.
Qed.

Lemma workers_bounded n t :
  rtc team_step (new_team n) t -> working (workers t) <= Z.of_nat n.
Proof.
  intros H. assert (length (workers t) = n) as <-.
  { apply (rtc_invariant team_step (fun t => length (workers t) = n)) with (new_team n); [|done|apply length_replicate].
    intros x y [] <-; cbn; by rewrite ?length_insert. }
  apply working_bounds.
Qed.

(** The count.  In every state a backup of [n] workers can reach before
    it is cancelled or fails, the coordinator's count is, modulo 2^32, the
    number of workers still working less the number of resumptions it
    refused. *)
Theorem count_tracks_workers n t :
  Z.of_nat n < 2 ^ 32 -> rtc team_step (new_team n) t -> cancelled_ (coord t) = false ->
  count_ (coord t) = u32 (working (workers t) - refused t).
Proof. intros Hn H. by apply (team_inv_reach n t Hn H). Qed.

Lemma not_working_all ws : working ws = 0 -> forall i, ws !! i <> Some Working.
Proof.
  intros H i Hi. pose proof (working_insert ws i Working Left Hi) as E. cbn in E.
  pose proof (working_bounds (<[i := Left]> ws)). lia.
Qed.

(** C15: finishing together.  As long as no resumption has been refused, a
    WaitUntilFinished that succeeds without a cancellation means that no
    worker has anything left to copy: the count has not wrapped and is
    exactly the number of working workers. *)
Theorem wait_means_all_done n t t' :
  Z.of_nat n < 2 ^ 32 -> rtc team_step (new_team n) t -> refused t = 0 ->
  cancelled_ (coord t) = false ->
  BackupCoordinator_WaitUntilFinished 500 (coord t) = (Ret true, t') ->
  forall i, workers t !! i <> Some Working.
Proof.
  intros Hn H Hr Hc Hw. apply not_working_all.
  destruct (team_inv_reach n t Hn H) as [_ Hcount]. specialize (Hcount Hc).
  pose proof (workers_bounded n t H). pose proof (working_bounds (workers t)).
  rewrite Hr, Z.sub_0_r, u32_id in Hcount by (unfold is_u32; lia).
  injection Hw as Hw _. rewrite Hc, orb_false_r in Hw. apply Z.eqb_eq in Hw. lia.
Qed.

(** The two workers of a backup: the first is done and its wait has timed
    out; the second finishes and leaves; the first finds new writes and
    resumes, is refused, and finishes again. *)
Definition stuck_team : team :=
  mkTeam (mkCoordinator (2 ^ 32 - 1) false []) [Done; Left] 1.

Lemma stuck_reachable : rtc team_step (new_team 2) stuck_team.
Proof.
  eapply rtc_l; [eapply (TFinish 0); reflexivity|].
  eapply rtc_l; [eapply (TFinish 1); reflexivity|].
  eapply rtc_l; [eapply (TLeave 1); reflexivity|].
  eapply rtc_l; [eapply (TMore 0 _ _ _ _ false); reflexivity|].
  eapply rtc_l; [eapply (TFinish 0); reflexivity|].
  apply rtc_refl.
Qed.

(** The ignored refusal.  Two workers can get to a state in which the
    one still in its loop has nothing left to copy, but the count is
    2^32 - 1: SignalFinished was called once more than the coordinator
    allowed.  From there no wait succeeds, so without a cancellation, a
    failure or further writes the backup never ends. *)
Theorem refused_resume_wraps_count :
  rtc team_step (new_team 2) stuck_team /\
  result (BackupCoordinator_WaitUntilFinished 500) (coord stuck_team) = Ret false /\
  (forall t', team_step stuck_team t' ->
     cancelled_ (coord t') = true \/
     (* the worker found new writes *)
     t' = mkTeam (mkCoordinator 0 false []) [Working; Left] 1).
Proof.
  split_and!; [exact stuck_reachable|done|].
  intros t' H. unfold stuck_team in H. inversion H; subst.
  - destruct i as [|[|]]; done.
  - right. unfold BackupCoordinator_SignalMoreWorkToDo in *.
    match goal with R : _ = (Ret b, c') |- _ => vm_compute in R; injection R as <- <- end.
    by destruct i as [|[|]].
  - match goal with R : _ = (Ret true, _) |- _ => discriminate R end.
  - match goal with R : _ = (Ret true, _) |- _ => discriminate R end.
  - left. match goal with R : _ = (Ret tt, _) |- _ => by injection R as <- end.
  - left. match goal with R : _ = (Ret tt, _) |- _ => by injection R as <- end.
Qed.

(** What a sequence of calls by any participants leaves. *)
Lemma co_ops_effect (ops : list co_op) (c : BackupCoordinator) :
  exists c', for_each ops run_co_op c = (Ret tt, c') /\
    fatal_errors_ c' = fatal_errors_ c ++
      omap (fun o => match o with COError e => Some e | _ => None end) ops /\
    cancelled_ c' = cancelled_ c || existsb (fun o =>
      match o with COError _ | COCancel => true | _ => false end) ops.
Proof.
  revert c. induction ops as [|o ops IH]; intros c.
  { exists c. cbn. by rewrite app_nil_r, orb_false_r. }
  assert (exists c1, run_co_op o c = (Ret tt, c1) /\
    fatal_errors_ c1 = fatal_errors_ c ++ (match o with COError e => [e] | _ => [] end) /\
    cancelled_ c1 = cancelled_ c || match o with COError _ | COCancel => true | _ => false end)
    as (c1 & R & E1 & E2).
  { destruct o; cbn; rewrite ?app_nil_r, ?orb_false_r, ?orb_true_r.
    - by eexists.
    - unfold BackupCoordinator_SignalMoreWorkToDo. run. case_bool; by eexists.
    - by eexists.
    - by eexists. }
  destruct (IH c1) as (c' & R' & H1 & H2). exists c'.
  rewrite for_each_cons, bind_unfold, R. split; [done|]. rewrite H1, H2, E1, E2.
  split; [|by cbn; rewrite orb_assoc]. rewrite <- app_assoc. f_equal. by destruct o.
Qed.

(** Errors and cancellation.  Cancellation is permanent, errors are kept
    in the order they were reported and none is dropped, whatever the
    participants do. *)
Theorem cancellation_is_permanent (ops : list co_op) (c : BackupCoordinator) :
  exists c', for_each ops run_co_op c = (Ret tt, c') /\
    fatal_errors_ c' = fatal_errors_ c ++
      omap (fun o => match o with COError e => Some e | _ => None end) ops /\
    cancelled_ c' = cancelled_ c || existsb (fun o =>
      match o with COError _ | COCancel => true | _ => false end) ops.
Proof. apply co_ops_effect. Qed.

(** ** Witnesses *)

Lemma count_tracks_workers_witness :
  count_ (coord stuck_team) = u32 (working (workers stuck_team) - refused stuck_team).
Proof.
  apply (count_tracks_workers 2 stuck_team); [reflexivity|exact stuck_reachable|reflexivity].
Defined.

Definition done_team : team := mkTeam (mkCoordinator 0 false []) [Done; Done] 0.

Lemma done_reachable : rtc team_step (new_team 2) done_team.
Proof.
  eapply rtc_l; [eapply (TFinish 0); reflexivity|]. eapply rtc_l; [eapply (TFinish 1); reflexivity|]. apply rtc_refl.
Qed.

Lemma wait_means_all_done_witness :
  workers done_team !! 1%nat = Some Done /\ workers done_team !! 1%nat <> Some Working.
Proof.
  split; [reflexivity|].
  exact (wait_means_all_done 2 done_team (coord done_team) eq_refl done_reachable eq_refl eq_refl eq_refl 1%nat).
Defined.
