(* ===== verification/FreezeHelper.v ===== *)
(** * Running while the filesystem is frozen

    Models freeze_helper/freeze_helper.{h,cc} twice.  [RunWhileFrozen] is
    the retry loop as a computation over any state, with the two calls it
    makes as arguments; the synchronizer instantiates them.  [Threads] is
    the interplay of BeginRequiredFreezeBlock with the thread it starts,
    one step per access to a shared variable: the thread freezes, tells the
    waiting caller, sleeps, and thaws behind the caller's back. *)

From S2P Require Import Prelude.

(** ** The retry loop *)

Section Retry.
Context {S A : Type} (BeginRequiredFreezeBlock : M S unit) (EndRequiredFreezeBlock : M S bool).

(** [attempts] more rounds are allowed.  The functions the code passes
    assign to captured variables; the value here is what the last round
    left in them. *)
Fixpoint run_attempts (attempts : nat) (to_run : M S A) : M S A :=
  match attempts with
  | O => throw (BlockDeviceException "Unable to read off of disk quickly enough")
  | Datatypes.S n =>
      BeginRequiredFreezeBlock ;;
      a ← to_run;
      frozen ← EndRequiredFreezeBlock;
      if frozen : bool then mret a else run_attempts n to_run
  end.

Definition RunWhileFrozen (to_run : M S A) : M S A := run_attempts 10 to_run.

Lemma run_attempts_state (Q : S -> Prop) n to_run s :
  (forall s, Q s -> Q (BeginRequiredFreezeBlock s).2) ->
  (forall s, Q s -> Q (to_run s).2) ->
  (forall s, Q s -> Q (EndRequiredFreezeBlock s).2) ->
  Q s -> Q (run_attempts n to_run s).2.
Proof.
  intros HB HR HE. revert s. induction n as [|n IH]; intros s Hs; [done|]. cbn [run_attempts].
  apply bind_state_rule; [by apply HB|]. intros u s1 E1.
  assert (Q s1) as H1 by (specialize (HB s Hs); by rewrite E1 in HB).
  apply bind_state_rule; [by apply HR|]. intros a s2 E2.
  assert (Q s2) as H2 by (specialize (HR s1 H1); by rewrite E2 in HR).
  apply bind_state_rule; [by apply HE|]. intros b s3 E3.
  assert (Q s3) as H3 by (specialize (HE s2 H2); by rewrite E3 in HE).
  destruct b; [done|by apply IH].
Qed.

(** A loop that returns ended with a round whose three calls returned and
    whose last one said "still frozen". *)
Lemma run_attempts_Ret (Q : S -> Prop) n to_run s a s' :
  (forall s, Q s -> Q (BeginRequiredFreezeBlock s).2) ->
  (forall s, Q s -> Q (to_run s).2) ->
  (forall s, Q s -> Q (EndRequiredFreezeBlock s).2) ->
  Q s -> run_attempts n to_run s = (Ret a, s') ->
  exists s0 s1 s2, Q s0 /\ Q s1 /\ Q s2 /\ BeginRequiredFreezeBlock s0 = (Ret tt, s1) /\
    to_run s1 = (Ret a, s2) /\ EndRequiredFreezeBlock s2 = (Ret true, s').
Proof.
  intros HB HR HE. revert s. induction n as [|n IH]; intros s Hs; [done|]. cbn [run_attempts].
  intros ([] & s1 & E1 & H)%bind_Ret_inv.
  assert (Q s1) as H1 by (specialize (HB s Hs); by rewrite E1 in HB).
  apply bind_Ret_inv in H as (x & s2 & E2 & H).
  assert (Q s2) as H2 by (specialize (HR s1 H1); by rewrite E2 in HR).
  apply bind_Ret_inv in H as (b & s3 & E3 & H).
  assert (Q s3) as H3 by (specialize (HE s2 H2); by rewrite E3 in HE).
  destruct b; [|by apply (IH s3)]. injection H as <- <-. by exists s, s1, s2.
Qed.

Lemma run_attempts_exhausted n to_run f g s :
  (forall s, BeginRequiredFreezeBlock s = (Ret tt, s)) ->
  (forall s, to_run s = (Ret (f s), g s)) ->
  (forall s, EndRequiredFreezeBlock s = (Ret false, s)) ->
  run_attempts n to_run s =
    (Throw (BlockDeviceException "Unable to read off of disk quickly enough"), Nat.iter n g s).
Proof.
  intros HB HR HE. revert s. induction n as [|n IH]; intros s; [done|]. cbn [run_attempts].
  run. rewrite HB, bind_unfold, HR, bind_unfold, HE, IH. by rewrite Nat.iter_succ_r.
Qed.

(** Giving up.  When the disk thaws during every round, RunWhileFrozen
    runs its argument exactly ten times and then throws; it does not loop
    on. *)
Theorem run_while_frozen_gives_up to_run f g s :
  (forall s, BeginRequiredFreezeBlock s = (Ret tt, s)) ->
  (forall s, to_run s = (Ret (f s), g s)) ->
  (forall s, EndRequiredFreezeBlock s = (Ret false, s)) ->
  RunWhileFrozen to_run s =
    (Throw (BlockDeviceException "Unable to read off of disk quickly enough"), Nat.iter 10 g s).
Proof. apply run_attempts_exhausted. Qed.
End Retry.

Lemma run_while_frozen_gives_up_witness :
  RunWhileFrozen (S := nat) (mret tt) (mret false) (modify S) 5%nat =
    (Throw (BlockDeviceException "Unable to read off of disk quickly enough"), 15%nat).
Proof.
  apply (run_while_frozen_gives_up (S := nat) (mret tt) (mret false) (modify S) (fun _ => tt) S 5%nat);
    intros; reflexivity.
Defined.

(** ** The two threads *)

Module Threads.

(** The owner of the helper, at the statements of RunWhileFrozen,
    BeginRequiredFreezeBlock and the destructor that touch shared state. *)
Inductive main_pc :=
| MIdle       (* constructed, nothing called yet *)
| MStart      (* if (is_frozen_) return; *)
| MJoin       (* unfreeze_thread_.join(), when joinable *)
| MSpawn      (* lock; did_freeze_ = was_error_ = false; start the thread *)
| MCond       (* while (!did_freeze_ && !was_error_), holding the lock *)
| MEnter      (* the condition was true; wait() has not been entered yet *)
| MWaiting    (* in wait(): the lock is released *)
| MRaise      (* if (was_error_) rethrow *)
| MRun        (* to_run() *)
| MEnd        (* while (!EndRequiredFreezeBlock()) *)
| MDone       (* returned *)
| MThrown     (* left by an exception *)
| MDestroy    (* the destructor: unfreeze_thread_.join(), when joinable *)
| MGone.      (* destroyed *)

Inductive thread_pc :=
| TNone       (* not started, or joined *)
| TFreeze | TDid | TSet | TNotify | TSleep | TClear | TThaw
| TErr | TNotifyErr | TEnd.

Record state := mkState {
  m_pc : main_pc;
  t_pc : thread_pc;
  attempts : nat;       (* freeze_attempts of the current call *)
  is_frozen_ : bool;
  did_freeze_ : bool;
  was_error_ : bool;
  fs_frozen : bool;     (* the filesystem *)
  thawed : bool         (* it was not frozen at some time since to_run started *)
}.

Definition init : state := mkState MIdle TNone 0 false false false false true.

(** No call is running: the owner may make one, or destroy the helper. *)
Definition at_rest (m : main_pc) : bool := match m with MIdle | MDone | MThrown => true | _ => false end.

Definition wake (p : main_pc) : main_pc := match p with MWaiting => MCond | _ => p end.

(** One step of either thread. *)
Inductive step : state -> state -> Prop :=
(* the owner *)
| S_call m t n fr did err fs th : at_rest m = true ->
    step (mkState m t n fr did err fs th) (mkState MStart t 1 fr did err fs th)
| S_destroy m t n fr did err fs th : at_rest m = true ->
    step (mkState m t n fr did err fs th) (mkState MDestroy t n fr did err fs th)
| S_join_end t n fr did err fs th : t = TNone \/ t = TEnd ->
    step (mkState MDestroy t n fr did err fs th) (mkState MGone TNone n fr did err fs th)
| S_already n t did err fs th :
    step (mkState MStart t n true did err fs th) (mkState MRun t n true did err fs (negb fs))
| S_begin n t did err fs th :
    step (mkState MStart t n false did err fs th) (mkState MJoin t n false did err fs th)
| S_join n t fr did err fs th : t = TNone \/ t = TEnd ->
    step (mkState MJoin t n fr did err fs th) (mkState MSpawn TNone n fr did err fs th)
| S_spawn n fr did err fs th :
    step (mkState MSpawn TNone n fr did err fs th) (mkState MCond TFreeze n fr false false fs th)
| S_cond_wait n t fr fs th :
    step (mkState MCond t n fr false false fs th) (mkState MEnter t n fr false false fs th)
| S_cond_go n t fr did err fs th : did || err = true ->
    step (mkState MCond t n fr did err fs th) (mkState MRaise t n fr did err fs th)
| S_wait n t fr did err fs th :
    step (mkState MEnter t n fr did err fs th) (mkState MWaiting t n fr did err fs th)
| S_raise n t fr did fs th :
    step (mkState MRaise t n fr did true fs th) (mkState MThrown t n fr did true fs th)
| S_go n t fr did fs th :
    step (mkState MRaise t n fr did false fs th) (mkState MRun t n fr did false fs (negb fs))
| S_run n t fr did err fs th :
    step (mkState MRun t n fr did err fs th) (mkState MEnd t n fr did err fs th)
| S_run_throws n t fr did err fs th :
    step (mkState MRun t n fr did err fs th) (mkState MThrown t n fr did err fs th)
| S_done n t did err fs th :
    step (mkState MEnd t n true did err fs th) (mkState MDone t n true did err fs th)
| S_again n t did err fs th : (n < 10)%nat ->
    step (mkState MEnd t n false did err fs th) (mkState MStart t (S n) false did err fs th)
| S_give_up n t did err fs th : (10 <= n)%nat ->
    step (mkState MEnd t n false did err fs th) (mkState MThrown t n false did err fs th)
(* the thread *)
| S_freeze m n fr did err fs th :
    step (mkState m TFreeze n fr did err fs th) (mkState m TDid n fr did err true th)
| S_freeze_fails m n fr did err fs th :
    step (mkState m TFreeze n fr did err fs th) (mkState m TErr n fr did err fs th)
| S_did m n fr did err fs th :
    step (mkState m TDid n fr did err fs th) (mkState m TSet n fr true err fs th)
| S_set m n fr did err fs th :
    step (mkState m TSet n fr did err fs th) (mkState m TNotify n true did err fs th)
| S_notify m n fr did err fs th :
    step (mkState m TNotify n fr did err fs th) (mkState (wake m) TSleep n fr did err fs th)
| S_sleep m n fr did err fs th :
    step (mkState m TSleep n fr did err fs th) (mkState m TClear n fr did err fs th)
| S_clear m n fr did err fs th :
    step (mkState m TClear n fr did err fs th) (mkState m TThaw n false did err fs th)
| S_thaw m n fr did err fs th :
    step (mkState m TThaw n fr did err fs th) (mkState m TEnd n fr did err false true)
| S_thaw_fails m n fr did err fs th :
    step (mkState m TThaw n fr did err fs th) (mkState m TErr n fr did err fs th)
| S_err m n fr did err fs th :
    step (mkState m TErr n fr did err fs th) (mkState m TNotifyErr n fr did true fs th)
| S_notify_err m n fr did err fs th :
    step (mkState m TNotifyErr n fr did err fs th) (mkState (wake m) TEnd n fr did err fs th).

(** Takes a step of a run, under any of the relations made of [step]. *)
Tactic Notation "run_step" uconstr(c) :=
  eapply rtc_l;
    [first [ by eapply c; auto | by left; eapply c; auto | split; [by eapply c; auto|done]
           | split; [by left; eapply c; auto|by intros []] ]|];
  cbn [wake].

(** A wake-up for no reason, which the standard allows [wait] to have. *)
Inductive spurious : state -> state -> Prop :=
| S_spurious n t fr did err fs th :
    spurious (mkState MWaiting t n fr did err fs th) (mkState MCond t n fr did err fs th).

Definition any_step (a b : state) : Prop := step a b \/ spurious a b.

(** The thread has frozen the filesystem and not yet begun to thaw it. *)
Definition holding (t : thread_pc) : bool :=
  match t with TDid | TSet | TNotify | TSleep | TClear => true | _ => false end.

Definition running (m : main_pc) : bool := match m with MRun | MEnd | MDone => true | _ => false end.

(** The caller waits for its thread to say something. *)
Definition pending (m : main_pc) : bool :=
  match m with MCond | MEnter | MWaiting => true | _ => false end.

(** The thread has not yet told the caller anything. *)
Definition silent (t : thread_pc) : bool := match t with TFreeze | TDid => true | _ => false end.

Record inv (s : state) : Prop := {
  i_flag : is_frozen_ s = true -> t_pc s = TNotify \/ t_pc s = TSleep \/ t_pc s = TClear;
  i_hold : holding (t_pc s) = true -> fs_frozen s = true;
  i_silent : silent (t_pc s) = true ->
    did_freeze_ s = false /\ was_error_ s = false /\ pending (m_pc s) = true;
  i_run : running (m_pc s) = true -> holding (t_pc s) = true -> thawed s = false;
  i_gone : m_pc s = MGone -> t_pc s = TNone
}.

Lemma init_inv : inv init.
Proof. by split. Qed.

Lemma flag_holding s : inv s -> is_frozen_ s = true -> holding (t_pc s) = true.
Proof. intros H Hf. by destruct (i_flag s H Hf) as [->|[->| ->]]. Qed.

(** Uses every implication whose premise is at hand. *)
Ltac forward_all :=
  repeat first
    [ match goal with
      | H : ?P -> _, H' : ?P |- _ => specialize (H H')
      | H : ?a = ?a -> _ |- _ => specialize (H eq_refl)
      end
    | progress destruct_and?
    | progress destruct_or?
    | progress subst
    | discriminate ].

Lemma step_inv s s' : inv s -> any_step s s' -> inv s'.
Proof.
  intros [H1 H2 H3 H4 H5] [H|H]; destruct H; cbn in *; split; cbn in *; intros; forward_all;
    try discriminate; auto.
  all: try (by destruct m).
  all: try (by destruct t; cbn in *; forward_all; auto).
  all: by destruct m; cbn in *; forward_all; auto.
Qed.

Lemma reach_inv s : rtc any_step init s -> inv s.
Proof. intros H. apply (rtc_invariant any_step inv) with init; eauto using step_inv, init_inv. Qed.

(** C13: frozen throughout.  Whenever RunWhileFrozen returns, the filesystem
    was frozen from before its last call of [to_run] began until after it
    ended, whatever the timing of the two threads: a thaw in between makes
    EndRequiredFreezeBlock answer false. *)
Theorem returns_only_if_frozen_throughout s s' :
  rtc any_step init s -> step s s' -> m_pc s = MEnd -> m_pc s' = MDone ->
  thawed s' = false /\ fs_frozen s' = true.
Proof.
  intros Hr Hst He Hd. apply reach_inv in Hr.
  destruct Hst; cbn in *; subst; try congruence.
  - pose proof (flag_holding _ Hr eq_refl) as Hh. split.
    + by apply (i_run _ Hr).
    + by apply (i_hold _ Hr).
  - done.
  - done.
Qed.

(** The caller is in wait(), the thread is gone. *)
Definition deadlocked : state := mkState MWaiting TEnd 1 false true false false true.

Lemma deadlocked_reachable : rtc step init deadlocked.
Proof.
  unfold init, deadlocked. run_step S_call. run_step S_begin. run_step S_join. run_step S_spawn. run_step S_cond_wait.
    run_step S_freeze. run_step S_did. run_step S_set. run_step S_notify. run_step S_wait. run_step S_sleep.
    run_step S_clear. run_step S_thaw. apply rtc_refl.
Qed.

(** The lost notification.  The thread notifies without holding the
    mutex, so it can do so after the caller has tested the condition and
    before it waits.  The caller then waits for a thread that has ended:
    a state from which no step is possible. *)
Theorem notification_can_be_lost :
  rtc step init deadlocked /\ (forall s', ~ step deadlocked s').
Proof.
  split; [exact deadlocked_reachable|]. intros s' H. unfold deadlocked in H. by inversion H.
Qed.

(** *** The destructor *)

(** Every thaw works. *)
Definition thaws (a b : state) : Prop := any_step a b /\ ~ (t_pc a = TThaw /\ t_pc b = TErr).

(** A frozen filesystem then has a thread that will thaw it. *)
Definition kept_frozen (s : state) : Prop := fs_frozen s = true -> holding (t_pc s) = true \/ t_pc s = TThaw.

Lemma thaws_kept s s' : inv s -> thaws s s' -> kept_frozen s -> kept_frozen s'.
Proof.
  intros Hi [H Hok] Hk. unfold kept_frozen in *.
  destruct H as [H|H]; destruct H; cbn in *; intros Hf; forward_all; try discriminate; auto.
Qed.

Lemma thaws_inv s : rtc thaws init s -> inv s /\ kept_frozen s.
Proof.
  intros H. apply (rtc_invariant thaws (fun s => inv s /\ kept_frozen s)) with init; [|done|by split; [apply init_inv|]].
  intros a b Hab [Hi Hk]. split; [eapply step_inv; [exact Hi|apply Hab]|by eapply thaws_kept].
Qed.

(** C14: nothing stays frozen.  When a FreezeHelper has been destroyed, after
    any number of calls of RunWhileFrozen that returned or threw, and with
    any timing of its threads, no thread of it is left and, if every thaw
    worked, the filesystem is not frozen. *)
Theorem destroyed_helper_has_thawed s :
  rtc thaws init s -> m_pc s = MGone ->
  t_pc s = TNone /\ is_frozen_ s = false /\ fs_frozen s = false /\ forall s', ~ any_step s s'.
Proof.
  intros [Hi Hk]%thaws_inv Hg. pose proof (i_gone s Hi Hg) as Ht. unfold kept_frozen in Hk.
  split; [done|]. pose proof (i_flag s Hi) as Hf. rewrite Ht in *. split_and!.
  - destruct (is_frozen_ s); [|done]. by destruct Hf as [|[|]].
  - destruct (fs_frozen s); [|done]. by destruct Hk.
  - intros s' [H|H]; destruct H; cbn in *; by subst.
Qed.

(** The steps the thread has left, and the join. *)
Definition to_go (s : state) : nat :=
  match m_pc s with
  | MGone => 0
  | _ =>
      match t_pc s with
      | TFreeze => 10 | TDid => 9 | TSet => 8 | TNotify => 7 | TSleep => 6 | TClear => 5 | TThaw => 4
      | TErr => 3 | TNotifyErr => 2 | TEnd | TNone => 1
      end
  end.

(** The destructor ends: it is never stuck, and after at most ten steps of
    the thread the helper is gone. *)
Theorem destructor_ends s :
  m_pc s = MDestroy ->
  (exists s', step s s') /\
  forall s', any_step s s' -> (m_pc s' = MDestroy \/ m_pc s' = MGone) /\ (to_go s' < to_go s)%nat.
Proof.
  destruct s as [m t n fr did err fs th]. cbn. intros ->. split.
  - destruct t; eexists; try (by constructor; auto).
  - intros s' [H|H]; inversion H; subst; cbn; try discriminate; destruct_or?; subst; (split; [by auto|lia]).
Qed.

(** A thaw that fails is reported to nobody: its exception is stored for a
    caller that is no longer waiting.  Here RunWhileFrozen returns, the
    helper is destroyed without an exception ever having left it, and the
    filesystem is still frozen. *)
Theorem failed_thaw_is_swallowed :
  exists s, rtc (fun a b => step a b /\ m_pc b <> MThrown) init s /\ m_pc s = MGone /\ fs_frozen s = true.
Proof.
  exists (mkState MGone TNone 1 false true true true false). split; [|done]. unfold init.
  run_step S_call. run_step S_begin. run_step S_join. run_step S_spawn. run_step S_freeze. run_step S_did.
    run_step S_set. run_step S_notify. run_step S_cond_go. run_step S_go. run_step S_run. run_step S_done.
    run_step S_destroy. run_step S_sleep. run_step S_clear. run_step S_thaw_fails. run_step S_err.
    run_step S_notify_err. run_step S_join_end. apply rtc_refl.
Qed.

Lemma returns_only_if_frozen_throughout_witness :
  exists s s', rtc any_step init s /\ step s s' /\ thawed s' = false /\ fs_frozen s' = true.
Proof.
  set (s := mkState MEnd TSleep 1 true true false true false).
  set (s' := mkState MDone TSleep 1 true true false true false).
  assert (rtc any_step init s) as H.
  { unfold init, s. run_step S_call. run_step S_begin. run_step S_join. run_step S_spawn. run_step S_cond_wait. run_step S_wait.
    run_step S_freeze. run_step S_did. run_step S_set. run_step S_notify. run_step S_cond_go. run_step S_go.
    run_step S_run. apply rtc_refl. }
  assert (step s s') as Hs by apply S_done.
  exists s, s'. split; [exact H|]. split; [exact Hs|].
  apply (returns_only_if_frozen_throughout s s' H Hs); reflexivity.
Defined.

Lemma destroyed_helper_has_thawed_witness :
  exists s, rtc thaws init s /\ m_pc s = MGone /\ fs_frozen s = false.
Proof.
  set (s := mkState MGone TNone 1 false true false false true).
  assert (rtc thaws init s) as H.
  { unfold init, s, thaws. run_step S_call. run_step S_begin. run_step S_join. run_step S_spawn. run_step S_freeze. run_step S_did.
    run_step S_set. run_step S_notify. run_step S_cond_go. run_step S_go. run_step S_run. run_step S_done.
    run_step S_destroy. run_step S_sleep. run_step S_clear. run_step S_thaw. run_step S_join_end. apply rtc_refl. }
  exists s. split; [exact H|]. split; [reflexivity|]. apply (destroyed_helper_has_thawed s H). reflexivity.
Defined.
End Threads.
