(* ===== verification/TraceHandler.v ===== *)
(** * Handling one trace record

    Models tracing/trace_handler.{h,cc}: what a record of the kernel's
    block trace does to the store of unsynced sectors. *)

From S2P Require Import Prelude Machine Icl IclRef SectorStore.

(** The fields of [struct blk_io_trace] the agent reads. *)
Record blk_io_trace := mkTrace {
  magic : Z;
  sector : Z;
  bytes : Z;
  action : Z;
  pdu_len : Z
}.

Definition BLK_TC_WRITE : Z := 2.
Definition BLK_TC_ACT (x : Z) : Z := Z.shiftl x 16.
Definition BLK_TC_QUEUE : Z := 16.
Definition BLK_IO_TRACE_MAGIC : Z := 0x65617400.
Definition BLK_IO_TRACE_VERSION : Z := 7.

Definition SECTOR_SIZE : Z := 512.

Section Handler.
Context {TM TS : Type} `{!IclMap TM, !IclSet TS}.

(** [now] is the answer of [time(NULL)]. *)
Definition AddTrace (trace_data : blk_io_trace) (now : Z) : M (UnsyncedSectorStore TM TS) unit :=
  if negb (Z.land (action trace_data) (BLK_TC_ACT BLK_TC_WRITE) =? 0) then
    if 0 <? bytes trace_data then
      let sectors_written := bytes trace_data / SECTOR_SIZE in
      let interval := mkSI (sector trace_data) (u64 (sector trace_data + sectors_written)) in
      AddInterval interval now
    else mret tt
  else mret tt.
End Handler.

(** The record the kernel writes for a write of whole sectors. *)
Definition write_trace (i : SectorInterval) : blk_io_trace :=
  mkTrace (Z.lor BLK_IO_TRACE_MAGIC BLK_IO_TRACE_VERSION) (lower i)
    (512 * (upper i - lower i)) (Z.lor (BLK_TC_ACT (Z.lor BLK_TC_WRITE BLK_TC_QUEUE)) 1) 0.

(** ** Properties *)

Section HandlerProps.
Context {TM TS : Type} `{!IclMap TM, !IclMapLaws TM, !IclSet TS, !IclSetLaws TS}.
Implicit Types s : UnsyncedSectorStore TM TS.

Definition is_write (t : blk_io_trace) : bool :=
  negb (Z.land (action t) (BLK_TC_ACT BLK_TC_WRITE) =? 0).

Lemma AddTrace_run s t now :
  volatile_seconds_ s < now ->
  AddTrace t now s =
    (Ret tt, if is_write t && (0 <? bytes t)
             then set_map (im_add (unsynced_sector_map_ s)
                    (mkSI (sector t) (u64 (sector t + bytes t / 512))) now) s
             else s).
Proof.
  intros H. unfold AddTrace, is_write. case_bool; [|done]. cbn [andb].
  case_bool; [|done]. by apply AddInterval_run.
Qed.

Lemma AddTrace_at s t now :
  0 <= volatile_seconds_ s < now -> is_u64 (sector t) -> 0 <= bytes t ->
  sector t + bytes t / 512 < 2 ^ 64 ->
  let s' := (AddTrace t now s).2 in
  volatile_seconds_ s' = volatile_seconds_ s /\ synced_sector_set_ s' = synced_sector_set_ s /\
  forall x, im_at (unsynced_sector_map_ s') x =
    if is_write t && in_iv x (mkSI (sector t) (sector t + bytes t / 512))
    then Some (match im_at (unsynced_sector_map_ s) x with Some w => Z.max w now | None => now end)
    else im_at (unsynced_sector_map_ s) x.
Proof.
  intros Hv Hs Hb Hu. cbn zeta. rewrite AddTrace_run by lia. cbn [snd].
  pose proof (Z.div_pos (bytes t) 512 Hb ltac:(lia)).
  destruct (is_write t) eqn:Ew; cbn [andb]; [|done].
  destruct (Z.ltb_spec 0 (bytes t)) as [Hp|Hp].
  - split_and!; [done..|]. intros x. cbn. rewrite im_add_at by lia.
    unfold is_u64 in Hs. rewrite u64_id by (unfold is_u64; lia).
    destruct (Z.eqb_spec now 0); [lia|]. done.
  - split_and!; [done..|]. intros x. replace (bytes t) with 0 by lia.
    destruct (in_iv x _) eqn:E; [|done]. apply in_iv_spec in E.
    rewrite Z.div_0_l in E by lia. iv_lia.
Qed.

(** One trace.  A write record marks as unsynced, with the current time
    or a later one they already had, exactly the whole sectors it covers
    and no others, and leaves the history alone; any other record changes
    nothing. *)
Theorem trace_marks_written_sectors s t now :
  0 <= volatile_seconds_ s < now -> is_u64 (sector t) -> 0 <= bytes t ->
  sector t + bytes t / 512 < 2 ^ 64 ->
  exists s', AddTrace t now s = (Ret tt, s') /\
    (is_write t = false -> s' = s) /\
    (is_write t = true -> forall x,
       im_at (unsynced_sector_map_ s') x =
         if decide (sector t <= x < sector t + bytes t / 512)
         then Some (match im_at (unsynced_sector_map_ s) x with Some w => Z.max w now | None => now end)
         else im_at (unsynced_sector_map_ s) x) /\
    (forall x, is_mem (synced_sector_set_ s') x = is_mem (synced_sector_set_ s) x).
Proof.
  intros Hv Hs Hb Hu. destruct (AddTrace_at s t now Hv Hs Hb Hu) as (_ & H2 & H3).
  pose proof (AddTrace_run s t now (proj2 Hv)) as R. rewrite R in H2, H3.
  eexists. split; [exact R|]. cbn [snd] in *. split_and!.
  - by intros ->.
  - intros Hw x. rewrite H3, Hw. cbn [andb]. case_decide as E.
    + by rewrite (proj2 (in_iv_spec _ _)).
    + by rewrite (proj2 (in_iv_false _ _)).
  - intros x. by rewrite H2.
Qed.

Lemma write_trace_is_write i : is_write (write_trace i) = true.
Proof. done. Qed.

(** A write of the sectors of an interval marks these sectors. *)
Lemma write_trace_at s i now :
  0 <= volatile_seconds_ s < now -> 0 <= lower i -> lower i <= upper i -> upper i < 2 ^ 64 ->
  let s' := (AddTrace (write_trace i) now s).2 in
  volatile_seconds_ s' = volatile_seconds_ s /\ synced_sector_set_ s' = synced_sector_set_ s /\
  forall x, im_at (unsynced_sector_map_ s') x = mark (im_at (unsynced_sector_map_ s)) i now x.
Proof.
  intros Hv H1 H2 H3.
  destruct (AddTrace_at s (write_trace i) now Hv) as (E1 & E2 & E3).
  - cbn. unfold is_u64. lia.
  - cbn [bytes write_trace]. lia.
  - cbn [bytes sector write_trace]. rewrite Z.mul_comm, Z.div_mul by lia. lia.
  - split_and!; [done..|]. intros x. rewrite E3, write_trace_is_write. cbn [andb bytes sector write_trace].
    rewrite Z.mul_comm, Z.div_mul by lia. unfold mark.
    replace (mkSI (lower i) (lower i + (upper i - lower i))) with i; [done|].
    destruct i as [l u]. cbn. f_equal. lia.
Qed.
End HandlerProps.

Lemma trace_marks_written_sectors_witness :
  exists s', AddTrace (TM := ref_map) (TS := ref_set) (write_trace (mkSI 8 16)) 1000
               (new_UnsyncedSectorStore 10) = (Ret tt, s') /\
    im_at (unsynced_sector_map_ s') 9 = Some 1000.
Proof.
  destruct (trace_marks_written_sectors (TM := ref_map) (TS := ref_set) (new_UnsyncedSectorStore 10)
    (write_trace (mkSI 8 16)) 1000) as (s' & R & _ & H & _).
  - cbn. lia.
  - cbn. unfold is_u64. lia.
  - cbn. lia.
  - vm_compute. reflexivity.
  - exists s'. split; [exact R|]. rewrite H by reflexivity. vm_compute. reflexivity.
Defined.
