(* ===== verification/DeviceSynchronizer.v ===== *)
(** * Synchronising a device while it is in use

    Models device_synchronizer/device_synchronizer.{h,cc}: copying the
    unsynced sectors of a mounted device to another device until nothing is
    left, while the source keeps being written to.

    The synchronizer shares the source's bytes, the store, the coordinator
    and the freeze flag with other threads and with the kernel.  The model
    is sequential code with a [sync] point before every access to something
    shared; at each of them an arbitrary schedule of environment actions
    runs: writes are queued (and traced), reach the disk, their traces
    reach the store, time passes, the freeze ends, other workers signal,
    I/O fails. *)

From S2P Require Import Prelude Machine Icl SectorStore Posix BlockDevice StatusTracker Coordinator.
From S2P Require Import FreezeHelper TraceHandler.

Definition ONE_MEGABYTE : Z := 1024 * 1024.
Definition SECONDS_BETWEEN_FLUSHES : Z := 5.

(** ** The shared state *)

(** A write between the block layer's queue and the disk; its data is given
    by byte offset on the device. *)
Record queued := mkQueued { q_iv : SectorInterval; q_data : Z -> Z; q_time : Z }.

Definition write_sectors (i : SectorInterval) (data disk : Z -> Z) : Z -> Z :=
  fun b => if in_iv (b / 512) i then data b else disk b.

(** What the copying is about. *)
Record Core (TM TS : Type) := mkCore {
  c_src : Z -> Z;                       (* bytes of the source device *)
  c_dst : Z -> Z;                       (* bytes of the destination device *)
  c_inflight : list queued;             (* writes not yet on the disk *)
  c_traces : list SectorInterval;       (* traces not yet handled *)
  c_store : UnsyncedSectorStore TM TS;  (* the store of the source device *)
  c_clock : Z;                          (* time(NULL) *)
  c_frozen : bool                       (* FreezeHelper::is_frozen_ *)
}.
Arguments mkCore {TM TS}.
Arguments c_src {TM TS}.
Arguments c_dst {TM TS}.
Arguments c_inflight {TM TS}.
Arguments c_traces {TM TS}.
Arguments c_store {TM TS}.
Arguments c_clock {TM TS}.
Arguments c_frozen {TM TS}.

(** Answers the environment forces on the next call of its kind. *)
Record Faults := mkFaults {
  f_read : option Z;
  f_write : option Z;
  f_freeze : bool;
  f_lost : bool    (* the wake-up of BeginRequiredFreezeBlock *)
}.

Definition no_faults : Faults := mkFaults None None false false.

Record World (TM TS C H : Type) := mkWorld {
  core : Core TM TS;
  coordinator : C;
  counts : H;
  source_device : BlockDevice;
  destination_device : BlockDevice;
  hist : history;
  faults : Faults;
  step_no : nat
}.
Arguments mkWorld {TM TS C H}.
Arguments core {TM TS C H}.
Arguments coordinator {TM TS C H}.
Arguments counts {TM TS C H}.
Arguments source_device {TM TS C H}.
Arguments destination_device {TM TS C H}.
Arguments hist {TM TS C H}.
Arguments faults {TM TS C H}.
Arguments step_no {TM TS C H}.

(** The places at which other threads and the kernel may act. *)
Inductive point :=
| PLoop | PCount | PFlush | PCountFrozen | PReport | PSignal | PWait | PMore
| PGet | PRemove | PRead | PWrite | PSynced | PFreeze | PFrozen | PEnd.

Inductive env_action :=
| EQueue (i : SectorInterval) (data : Z -> Z)   (* a write is queued and traced *)
| EWrite (i : SectorInterval) (data : Z -> Z)   (* the same, on the disk at once *)
| EComplete (k : nat)                           (* the k-th queued write reaches the disk *)
| EDeliver (k : nat)                            (* the k-th trace reaches the store *)
| ETick (seconds : nat)
| EExpire                                       (* the unfreeze thread clears is_frozen_ *)
| ECoordinator (o : co_op)                      (* another worker, or a cancellation *)
| EReadReturns (r : Z)
| EWriteReturns (r : Z)
| EFreezeFails
| EWakeLost.                                    (* the next notify comes before the wait *)

Section Sync.
Context {TM TS C H : Type} `{!IclMap TM, !IclSet TS, !Coordinator C, !CountHandler H} {env : Env}.

(** [freezable]: FIFREEZE on this filesystem drains and blocks writes;
    [latency]: a queued write is on the disk that many seconds later. *)
Context (freezable : bool) (latency : Z) (schedule : nat -> point -> list env_action).

Abbreviation core_t := (Core TM TS).
Abbreviation world := (World TM TS C H).

Definition set_core (c : core_t) (w : world) : world :=
  mkWorld c (coordinator w) (counts w) (source_device w) (destination_device w) (hist w)
    (faults w) (step_no w).

Definition set_coordinator (x : C) (w : world) : world :=
  mkWorld (core w) x (counts w) (source_device w) (destination_device w) (hist w)
    (faults w) (step_no w).

Definition set_counts (x : H) (w : world) : world :=
  mkWorld (core w) (coordinator w) x (source_device w) (destination_device w) (hist w)
    (faults w) (step_no w).

Definition set_source (x : BlockDevice * history) (w : world) : world :=
  mkWorld (core w) (coordinator w) (counts w) x.1 (destination_device w) x.2
    (faults w) (step_no w).

Definition set_destination (x : BlockDevice * history) (w : world) : world :=
  mkWorld (core w) (coordinator w) (counts w) (source_device w) x.1 x.2
    (faults w) (step_no w).

Definition set_faults (x : Faults) (w : world) : world :=
  mkWorld (core w) (coordinator w) (counts w) (source_device w) (destination_device w) (hist w)
    x (step_no w).

Definition bump (w : world) : world :=
  mkWorld (core w) (coordinator w) (counts w) (source_device w) (destination_device w) (hist w)
    (faults w) (S (step_no w)).

Definition on_core {A} (m : M core_t A) : M world A := zoom core set_core m.

Definition on_coordinator {A} (m : M C A) : M world A := zoom coordinator set_coordinator m.

Definition on_counts {A} (m : M H A) : M world A := zoom counts set_counts m.

Definition on_source {A} (m : IO BlockDevice A) : M world A :=
  zoom (fun w => (source_device w, hist w)) set_source m.

Definition on_destination {A} (m : IO BlockDevice A) : M world A :=
  zoom (fun w => (destination_device w, hist w)) set_destination m.

Definition on_store {A} (m : M (UnsyncedSectorStore TM TS) A) : M core_t A :=
  zoom c_store (fun s c => mkCore (c_src c) (c_dst c) (c_inflight c) (c_traces c) s
                             (c_clock c) (c_frozen c)) m.

(** ** The environment *)

(** Writes stay inside the device, and one request has less than 4 GB. *)
Definition write_allowed (size : Z) (i : SectorInterval) : bool :=
  (0 <=? lower i) && (lower i <? upper i) && (512 * upper i <=? size) &&
  (512 * (upper i - lower i) <? 2 ^ 32).

(** A freeze holds new writes back. *)
Definition held_back (c : core_t) : bool := freezable && c_frozen c.

Definition queue_write (i : SectorInterval) (data : Z -> Z) : M core_t unit :=
  modify (fun c => if held_back c then c else
    mkCore (c_src c) (c_dst c) (c_inflight c ++ [mkQueued i data (c_clock c)])
      (c_traces c ++ [i]) (c_store c) (c_clock c) (c_frozen c)).

Definition write_now (i : SectorInterval) (data : Z -> Z) : M core_t unit :=
  modify (fun c => if held_back c then c else
    mkCore (write_sectors i data (c_src c)) (c_dst c) (c_inflight c)
      (c_traces c ++ [i]) (c_store c) (c_clock c) (c_frozen c)).

Definition land_write (q : queued) (c : core_t) : core_t :=
  mkCore (write_sectors (q_iv q) (q_data q) (c_src c)) (c_dst c) (c_inflight c)
    (c_traces c) (c_store c) (c_clock c) (c_frozen c).

Definition set_inflight (l : list queued) (c : core_t) : core_t :=
  mkCore (c_src c) (c_dst c) l (c_traces c) (c_store c) (c_clock c) (c_frozen c).

Definition complete (k : nat) : M core_t unit :=
  modify (fun c => match c_inflight c !! k with
    | None => c
    | Some q => land_write q (set_inflight (delete k (c_inflight c)) c)
    end).

(** The trace thread takes a record and hands it to the TraceHandler. *)
Definition deliver (k : nat) : M core_t unit :=
  c ← get;
  match c_traces c !! k with
  | None => mret tt
  | Some i =>
      put (mkCore (c_src c) (c_dst c) (c_inflight c) (delete k (c_traces c)) (c_store c)
             (c_clock c) (c_frozen c)) ;;
      on_store (AddTrace (write_trace i) (c_clock c))
  end.

(** The queued writes that satisfy [P] reach the disk, oldest first. *)
Definition complete_if (P : queued -> bool) (c : core_t) : core_t :=
  foldl (fun c q => land_write q c)
    (set_inflight (List.filter (fun q => negb (P q)) (c_inflight c)) c)
    (List.filter P (c_inflight c)).

(** Time passes; what has been queued for [latency] seconds is written. *)
Definition tick (seconds : nat) : M core_t unit :=
  modify (fun c =>
    let now := c_clock c + Z.of_nat seconds in
    complete_if (fun q => q_time q + latency <=? now)
      (mkCore (c_src c) (c_dst c) (c_inflight c) (c_traces c) (c_store c) now (c_frozen c))).

Definition set_frozen_flag (b : bool) (c : core_t) : core_t :=
  mkCore (c_src c) (c_dst c) (c_inflight c) (c_traces c) (c_store c) (c_clock c) b.

Definition env_act (a : env_action) : M world unit :=
  size ← gets (fun w => device_size_bytes_ (source_device w));
  match a with
  | EQueue i data => if write_allowed size i then on_core (queue_write i data) else mret tt
  | EWrite i data => if write_allowed size i then on_core (write_now i data) else mret tt
  | EComplete k => on_core (complete k)
  | EDeliver k => on_core (deliver k)
  | ETick n => on_core (tick n)
  | EExpire => on_core (modify (set_frozen_flag false))
  | ECoordinator o => modify (fun w => set_coordinator (final (run_co_op o) (coordinator w)) w)
  | EReadReturns r => modify (fun w => set_faults (mkFaults (Some r) (f_write (faults w)) (f_freeze (faults w)) (f_lost (faults w))) w)
  | EWriteReturns r => modify (fun w => set_faults (mkFaults (f_read (faults w)) (Some r) (f_freeze (faults w)) (f_lost (faults w))) w)
  | EFreezeFails => modify (fun w => set_faults (mkFaults (f_read (faults w)) (f_write (faults w)) true (f_lost (faults w))) w)
  | EWakeLost => modify (fun w => set_faults (mkFaults (f_read (faults w)) (f_write (faults w)) (f_freeze (faults w)) true) w)
  end.

Definition sync (p : point) : M world unit :=
  n ← gets step_no;
  modify bump ;;
  for_each (schedule n p) env_act.

Definition time_NULL : M world Z := gets (fun w => c_clock (core w)).

(** ** Reading and writing blocks *)

(** [pread] on the descriptor of the source device: the number of bytes
    inside the device, unless the environment says otherwise, and the bytes
    of the device as they are now. *)
Definition pread (fd count offset : Z) : M world (Z * (Z -> Z)) :=
  w ← get;
  modify (set_faults (mkFaults None (f_write (faults w)) (f_freeze (faults w)) (f_lost (faults w)))) ;;
  let inside := Z.max 0 (Z.min count (device_size_bytes_ (source_device w) - offset)) in
  let r := match f_read (faults w) with
           | Some r => r
           | None => if (fd =? fd_ (source_device w)) && (0 <=? offset) then inside else -1
           end in
  mret (r, c_src (core w)).

Definition write_bytes (offset n : Z) (buf disk : Z -> Z) : Z -> Z :=
  fun b => if (offset <=? b) && (b <? offset + n) then buf b else disk b.

(** [pwrite] writes the bytes it says it wrote. *)
Definition pwrite (fd : Z) (buf : Z -> Z) (count offset : Z) : M world Z :=
  w ← get;
  modify (set_faults (mkFaults (f_read (faults w)) None (f_freeze (faults w)) (f_lost (faults w)))) ;;
  let inside := Z.max 0 (Z.min count (device_size_bytes_ (destination_device w) - offset)) in
  let r := match f_write (faults w) with
           | Some r => r
           | None => if (fd =? fd_ (destination_device w)) && (0 <=? offset) then inside else -1
           end in
  on_core (modify (fun c =>
    mkCore (c_src c) (write_bytes offset (Z.min count r) buf (c_dst c)) (c_inflight c)
      (c_traces c) (c_store c) (c_clock c) (c_frozen c))) ;;
  mret r.

Definition copy_block (source_fd destination_fd block_size_bytes offset : Z) : M world unit :=
  sync PRead ;;
  '(bytes_read, buf) ← pread source_fd block_size_bytes offset;
  if bytes_read =? -1 then throw (DeviceSynchronizerException "Error reading from source")
  else if negb (bytes_read =? block_size_bytes)
  then throw (DeviceSynchronizerException "Unexpected read result")
  else
    sync PWrite ;;
    bytes_written ← pwrite destination_fd buf bytes_read offset;
    if bytes_written =? -1 then throw (DeviceSynchronizerException "Error writing to destination")
    else if negb (bytes_written =? block_size_bytes)
    then throw (DeviceSynchronizerException "Unexpected read result")
    else mret tt.

(** ** The freeze helper of this synchronizer

    The thread's side (thaw after two seconds) is [EExpire].  The thread
    sets did_freeze_ and notifies without the mutex, so that its
    notification can fall between the caller's check and its wait
    ([EWakeLost]): the caller then waits for ever, which no amount of fuel
    changes.  The proof that the flag is only set while the filesystem is
    frozen, and that the notification can be lost, is in FreezeHelper. *)

Definition freeze (c : core_t) : core_t :=
  set_frozen_flag true (if freezable then complete_if (fun _ => true) c else c).

Definition BeginRequiredFreezeBlock : M world unit :=
  frozen ← gets (fun w => c_frozen (core w));
  if frozen : bool then mret tt else
    sync PFreeze ;;
    fails ← gets (fun w => f_freeze (faults w));
    modify (fun w => set_faults (mkFaults (f_read (faults w)) (f_write (faults w)) false (f_lost (faults w))) w) ;;
    if fails : bool then throw (BlockDeviceException "FIFREEZE") else
    on_core (modify freeze) ;;
    sync PFrozen ;;
    lost ← gets (fun w => f_lost (faults w));
    if lost : bool then out_of_fuel else mret tt.

Definition EndRequiredFreezeBlock : M world bool :=
  sync PEnd ;; gets (fun w => c_frozen (core w)).

Definition while_frozen {A} (to_run : M world A) : M world A :=
  RunWhileFrozen BeginRequiredFreezeBlock EndRequiredFreezeBlock to_run.

(** The helper's destructor, which also runs when an exception leaves the
    scope: it joins the thread, which thaws. *)
Definition with_freeze_helper {A} (m : M world A) : M world A := fun w =>
  let '(r, w') := m w in (r, set_core (set_frozen_flag false (core w')) w').

(** ** DoSync *)

Section Loop.
Context (source_fd destination_fd block_size_bytes sectors_per_block : Z).

(** The [for] loop over the blocks of an interval. *)
Fixpoint copy_interval (fuel : nat) (is_volatile : bool) (cardinality i offset : Z) : M world unit :=
  if i <? cardinality then
    match fuel with
    | O => out_of_fuel
    | Datatypes.S fuel' =>
        let copy_func := copy_block source_fd destination_fd block_size_bytes offset in
        (if is_volatile then while_frozen copy_func else copy_func) ;;
        copy_interval fuel' is_volatile cardinality (u64 (i + sectors_per_block))
          (i64 (offset + block_size_bytes))
    end
  else mret tt.

(** The [while] loop; the arguments are the variables that live across its
    rounds. *)
Fixpoint sync_loop (fuel : nat) (flush_time : Z) (was_done : bool) (total_bytes_sent : Z)
    : M world unit :=
  match fuel with
  | O => out_of_fuel
  | Datatypes.S fuel' =>
      sync PLoop ;;
      cancelled ← on_coordinator IsCancelled;
      if cancelled : bool then mret tt else
      sync PCount ;;
      unsynced_sector_count ← on_core (on_store UnsyncedSectorCount);
      '(flush_time, unsynced_sector_count) ←
        (if unsynced_sector_count <? ONE_MEGABYTE / SECTOR_SIZE then
           now ← time_NULL;
           flush_time ← (if SECONDS_BETWEEN_FLUSHES <? now - flush_time
                         then sync PFlush ;; time_NULL else mret flush_time);
           count ← while_frozen (sync PCountFrozen ;; on_core (on_store UnsyncedSectorCount));
           mret (flush_time, count)
         else mret (flush_time, unsynced_sector_count));
      sync PReport ;;
      on_counts (UpdateUnsyncedCount (u64 (unsynced_sector_count * SECTOR_SIZE))) ;;
      if (0 <? flush_time) && (unsynced_sector_count =? 0) then
        (if was_done then mret tt else sync PSignal ;; on_coordinator SignalFinished) ;;
        sync PWait ;;
        finished ← on_coordinator (WaitUntilFinished 500);
        if finished : bool then mret tt else sync_loop fuel' flush_time true total_bytes_sent
      else
        (if was_done then sync PMore ;; on_coordinator SignalMoreWorkToDo ;; mret tt else mret tt) ;;
        now ← time_NULL;
        sync PGet ;;
        '(to_sync_interval, is_volatile) ← on_core (on_store (GetInterval now));
        sync PRemove ;;
        on_core (on_store (RemoveInterval to_sync_interval)) ;;
        let offset := i64 (lower to_sync_interval * SECTOR_SIZE) in
        let cardinality := iv_card to_sync_interval in
        copy_interval (Z.to_nat cardinality) is_volatile cardinality 0 offset ;;
        let total := u64 (total_bytes_sent + cardinality * SECTOR_SIZE) in
        sync PSynced ;;
        on_counts (UpdateSyncedCount total) ;;
        sync_loop fuel' flush_time false total
  end.
End Loop.

Definition DoSync (fuel : nat) : M world unit :=
  source_fd ← on_source BlockDevice_Open;
  destination_fd ← on_destination BlockDevice_Open;
  with_freeze_helper (
    block_size_bytes ← gets (fun w => i32 (block_size_bytes_ (source_device w)));
    let sectors_per_block := i32 (u32 block_size_bytes / SECTOR_SIZE) in
    sync_loop source_fd destination_fd block_size_bytes sectors_per_block fuel 0 false 0 ;;
    on_source BlockDevice_Close ;;
    on_destination BlockDevice_Close).

(** The constructor's two checks, and the destructor. *)
Definition new_DeviceSynchronizer : M world unit :=
  w ← get;
  if dev_t_ (source_device w) =? dev_t_ (destination_device w)
  then throw (DeviceSynchronizerException "Refusing to synchronize a device with itself")
  else if device_size_bytes_ (destination_device w) <? device_size_bytes_ (source_device w)
  then throw (DeviceSynchronizerException "Destination device is too small")
  else mret tt.

Definition DeviceSynchronizer_destroy : M world unit :=
  on_source BlockDevice_Close ;; on_destination BlockDevice_Close.
End Sync.
