(* ===== verification/SyncSafety.v ===== *)
(** * No change is lost

    The safety of DoSync under every interleaving with the writes to the
    source device.  A sector is accounted for when the destination has its
    bytes, or when it is still marked: in the store of unsynced sectors or
    in a trace record that has not reached the store.  DoSync keeps every
    sector accounted for. *)

From S2P Require Import Prelude Machine Icl IclRef SectorStore Posix BlockDevice StatusTracker Coordinator.
From S2P Require Import FreezeHelper TraceHandler DeviceSynchronizer.

Section CoreFacts.
Context {TM TS : Type} `{!IclMap TM, !IclMapLaws TM, !IclSet TS, !IclSetLaws TS}.
Abbreviation core_t := (Core TM TS).
Implicit Types c : core_t.

(** ** Accounting *)

Definition at_ c (x : Z) : option Z := im_at (unsynced_sector_map_ (c_store c)) x.

Definition vs_ c : Z := volatile_seconds_ (c_store c).

Definition traced c (x : Z) : Prop := exists i, i ∈ c_traces c /\ x ∈ i.

(** Every write to the sector that is still on its way to the disk has a
    trace on its way to the store, or a mark that is at least as new. *)
Definition noted c (x : Z) : Prop :=
  forall q, q ∈ c_inflight c -> x ∈ q_iv q ->
    traced c x \/ exists t, at_ c x = Some t /\ q_time q <= t.

Definition marked c (x : Z) : Prop := traced c x \/ is_Some (at_ c x).

(** [g] has the source's bytes of a sector. *)
Definition agrees (g : Z -> Z) c (x : Z) : Prop := forall b, b / 512 = x -> g b = c_src c b.

Definition okg (g : Z -> Z) c (x : Z) : Prop := noted c x /\ (marked c x \/ agrees g c x).

(** The sector is accounted for. *)
Definition ok c (x : Z) : Prop := okg (c_dst c) c x.

(** Accounted for, or marked, or as it was when the device had the bytes of
    a function that [base] names. *)
Definition acct (base : (Z -> Z) -> Prop) c (x : Z) : Prop := ok c x \/ exists g, base g /\ okg g c x.

Lemma acct_noted base c x : acct base c x -> noted c x.
Proof. by intros [[? _]|(g & _ & ? & _)]. Qed.

Lemma noted_marked c x q : noted c x -> q ∈ c_inflight c -> x ∈ q_iv q -> marked c x.
Proof. intros H Hq Hx. destruct (H q Hq Hx) as [?|(t & ? & _)]; [by left|right; eauto]. Qed.

(** ** The invariant of the shared state *)

Context (freezable : bool) (latency size : Z) (instant : Prop).

Record cinv c : Prop := {
  ci_vs : 0 <= vs_ c < c_clock c;
  ci_time : forall q, q ∈ c_inflight c -> q_time q <= c_clock c < q_time q + latency;
  ci_traces : forall i, i ∈ c_traces c -> 0 <= lower i <= upper i /\ 512 * upper i <= size;
  ci_store : forall x, is_Some (at_ c x) -> 0 <= x /\ 512 * x < size;
  ci_frozen : freezable = true -> c_frozen c = true -> c_inflight c = [];
  ci_instant : instant -> c_inflight c = []
}.

Hypothesis size_small : 0 <= size <= 2 ^ 62.
Hypothesis latency_pos : 0 < latency.

(** What the environment may do to the state between two steps of the
    synchronizer. *)
Record evolves c c' : Prop := {
  ev_dst : c_dst c' = c_dst c;
  ev_synced : synced_sector_set_ (c_store c') = synced_sector_set_ (c_store c);
  ev_vs : vs_ c' = vs_ c;
  ev_clock : c_clock c <= c_clock c';
  ev_noted : forall x, noted c x -> noted c' x;
  ev_okg : forall g x, okg g c x -> okg g c' x
}.

#[export] Instance evolves_preorder : PreOrder evolves.
Proof.
  split.
  - intros c. split; auto; lia.
  - intros a b c [] []. split; [congruence|congruence|congruence|lia|auto|auto].
Qed.

(** Writes that were in flight reach the disk. *)
Lemma evolves_land c c' :
  c_dst c' = c_dst c -> c_traces c' = c_traces c -> c_store c' = c_store c ->
  c_clock c <= c_clock c' -> c_inflight c' ⊆ c_inflight c ->
  (forall b, c_src c' b = c_src c b \/ exists q, q ∈ c_inflight c /\ b / 512 ∈ q_iv q) ->
  evolves c c'.
Proof.
  intros Hd Ht Hs Hc Hi Hb.
  assert (forall x, noted c x -> noted c' x) as Hn.
  { intros x H q Hq Hx. unfold traced, at_. rewrite Ht, Hs. by apply H; [apply Hi|]. }
  assert (forall x, marked c x -> marked c' x) as Hm.
  { intros x. unfold marked, traced, at_. by rewrite Ht, Hs. }
  split; auto; [by rewrite Hs|by unfold vs_; rewrite Hs|].
  intros g x [H1 H2]. split; [by apply Hn|]. destruct H2 as [H2|H2]; [left; by apply Hm|].
  destruct (decide (Exists (fun q => x ∈ q_iv q) (c_inflight c))) as [E|E].
  - apply Exists_exists in E as (q & Hq & Hx). left. apply Hm. by eapply noted_marked.
  - right. intros b <-. rewrite H2 by done. destruct (Hb b) as [?|(q & Hq & Hx)]; [done|].
    exfalso. apply E, Exists_exists. by exists q.
Qed.

Lemma write_sectors_at i data disk b :
  write_sectors i data disk b = disk b \/ b / 512 ∈ i.
Proof. unfold write_sectors. destruct (in_iv (b / 512) i) eqn:E; [right; by apply in_iv_spec|by left]. Qed.

Lemma land_all_src (qs : list queued) c b :
  c_src (foldl (fun c q => land_write q c) c qs) b = c_src c b \/
  exists q, q ∈ qs /\ b / 512 ∈ q_iv q.
Proof.
  revert c. induction qs as [|q qs IH]; intros c; [by left|]. cbn [foldl].
  destruct (IH (land_write q c)) as [E|(r & Hr & Hx)].
  - rewrite E. cbn [land_write c_src].
    destruct (write_sectors_at (q_iv q) (q_data q) (c_src c) b) as [?|?]; [by left|].
    right. exists q. split; [constructor|done].
  - right. exists r. split; [by constructor|done].
Qed.

Lemma land_all_rest (qs : list queued) c :
  let c' := foldl (fun c q => land_write q c) c qs in
  c_dst c' = c_dst c /\ c_traces c' = c_traces c /\ c_store c' = c_store c /\
  c_clock c' = c_clock c /\ c_inflight c' = c_inflight c /\ c_frozen c' = c_frozen c.
Proof. revert c. induction qs as [|q qs IH]; intros c; [done|]. cbn. apply (IH (land_write q c)). Qed.

Lemma complete_if_rest P c :
  let c' := complete_if P c in
  c_dst c' = c_dst c /\ c_traces c' = c_traces c /\ c_store c' = c_store c /\
  c_clock c' = c_clock c /\ c_inflight c' = List.filter (fun q => negb (P q)) (c_inflight c) /\
  c_frozen c' = c_frozen c.
Proof.
  exact (land_all_rest (List.filter P (c_inflight c))
    (set_inflight (List.filter (fun q => negb (P q)) (c_inflight c)) c)).
Qed.

Lemma complete_if_src P c b :
  c_src (complete_if P c) b = c_src c b \/ exists q, q ∈ c_inflight c /\ b / 512 ∈ q_iv q.
Proof.
  unfold complete_if.
  destruct (land_all_src (List.filter P (c_inflight c))
    (set_inflight (List.filter (fun q => negb (P q)) (c_inflight c)) c) b) as [->|(q & Hq & Hx)]; [by left|].
  right. exists q. split; [|done]. apply list_elem_of_In, List.filter_In in Hq as [Hq _].
  by apply list_elem_of_In.
Qed.

Lemma complete_if_evolves P c : evolves c (complete_if P c).
Proof.
  destruct (complete_if_rest P c) as (H1 & H2 & H3 & H4 & H5 & H6).
  apply evolves_land; auto; [lia| |apply complete_if_src].
  rewrite H5. intros q Hq. apply list_elem_of_In, List.filter_In in Hq as [Hq _].
  by apply list_elem_of_In.
Qed.

(** A new write: its sectors get a trace at once. *)
Lemma evolves_new c c' i :
  c_dst c' = c_dst c -> c_traces c' = c_traces c ++ [i] -> c_store c' = c_store c ->
  c_clock c' = c_clock c ->
  (forall q, q ∈ c_inflight c' -> q ∈ c_inflight c \/ q_iv q = i) ->
  (forall b, c_src c' b = c_src c b \/ b / 512 ∈ i) ->
  evolves c c'.
Proof.
  intros Hd Ht Hs Hc Hi Hb.
  assert (forall x, traced c x -> traced c' x) as Htr.
  { intros x (j & Hj & Hx). exists j. rewrite Ht. split; [set_solver|done]. }
  assert (forall x, x ∈ i -> traced c' x) as Hnew.
  { intros x Hx. exists i. rewrite Ht. split; [set_solver|done]. }
  assert (forall x, noted c x -> noted c' x) as Hn.
  { intros x H q Hq Hx. destruct (Hi q Hq) as [Hq'|<-]; [|left; by apply Hnew].
    destruct (H q Hq' Hx) as [?|(t & ? & ?)]; [left; by apply Htr|right].
    exists t. unfold at_. by rewrite Hs. }
  split; auto; [by rewrite Hs|by unfold vs_; rewrite Hs|lia|].
  intros g x [H1 H2]. split; [by apply Hn|]. destruct (decide (x ∈ i)) as [Hx|Hx].
  { left. left. by apply Hnew. }
  destruct H2 as [[H2|H2]|H2].
  - left. left. by apply Htr.
  - left. right. unfold at_. by rewrite Hs.
  - right. intros b <-. rewrite H2 by done. by destruct (Hb b) as [?|?].
Qed.

Lemma queue_write_spec c i data :
  cinv c -> ~ instant -> write_allowed size i = true ->
  let c' := (queue_write freezable i data c).2 in
  evolves c c' /\ cinv c' /\ c_store c' = c_store c /\ c_frozen c' = c_frozen c.
Proof.
  intros Hc Hni Ha. cbn. destruct (held_back freezable c) eqn:Eh; [by split|].
  unfold write_allowed in Ha. apply andb_true_iff in Ha as [[[? ?]%andb_true_iff ?]%andb_true_iff ?].
  apply Z.leb_le in H, H1. apply Z.ltb_lt in H0, H2.
  split_and!; [|split|done|done].
  - eapply (evolves_new _ _ i); cbn; auto. intros q [Hq|Hq]%elem_of_app; [by left|right].
    by apply list_elem_of_singleton in Hq as ->.
  - apply Hc.
  - cbn. intros q [Hq|Hq]%elem_of_app; [by apply Hc|].
    apply list_elem_of_singleton in Hq as ->. cbn. lia.
  - cbn. intros j [Hj|Hj]%elem_of_app; [by apply Hc|].
    apply list_elem_of_singleton in Hj as ->. lia.
  - apply Hc.
  - cbn. intros Hf Hz. unfold held_back in Eh. by rewrite Hf, Hz in Eh.
  - done.
Qed.

Lemma write_now_spec c i data :
  cinv c -> write_allowed size i = true ->
  let c' := (write_now freezable i data c).2 in
  evolves c c' /\ cinv c' /\ c_store c' = c_store c /\ c_frozen c' = c_frozen c.
Proof.
  intros Hc Ha. cbn. destruct (held_back freezable c) eqn:Eh; [by split|].
  unfold write_allowed in Ha. apply andb_true_iff in Ha as [[[? ?]%andb_true_iff ?]%andb_true_iff ?].
  apply Z.leb_le in H, H1. apply Z.ltb_lt in H0, H2.
  split_and!; [|split|done|done]; try apply Hc.
  - eapply (evolves_new _ _ i); cbn; auto. intros b. apply write_sectors_at.
  - cbn. intros j [Hj|Hj]%elem_of_app; [by apply Hc|].
    apply list_elem_of_singleton in Hj as ->. lia.
Qed.

Lemma filter_sub (P : queued -> bool) l : List.filter P l ⊆ l.
Proof. intros q Hq. apply list_elem_of_In, List.filter_In in Hq as [Hq _]. by apply list_elem_of_In. Qed.

(** The invariant when writes have landed. *)
Lemma cinv_land c c' :
  cinv c -> c_traces c' = c_traces c -> c_store c' = c_store c -> c_clock c <= c_clock c' ->
  c_inflight c' ⊆ c_inflight c -> (forall q, q ∈ c_inflight c' -> c_clock c' < q_time q + latency) ->
  (c_frozen c' = true -> c_frozen c = true \/ c_inflight c' = []) ->
  cinv c'.
Proof.
  intros Hc Ht Hs Hcl Hi Hl Hf.
  assert (c_inflight c = [] -> c_inflight c' = []) as Hnil.
  { intros E. rewrite E in Hi. destruct (c_inflight c') as [|q l]; [done|].
    specialize (Hi q ltac:(left)). by apply not_elem_of_nil in Hi. }
  split; unfold vs_, at_; rewrite ?Ht, ?Hs; try apply Hc.
  - pose proof (ci_vs c Hc). unfold vs_ in *. lia.
  - intros q Hq. specialize (Hl q Hq). destruct (ci_time c Hc q (Hi q Hq)). lia.
  - intros Hz Hfr. destruct (Hf Hfr) as [Hfr'|?]; [|done]. by apply Hnil, (ci_frozen c Hc).
  - intros Hin. by apply Hnil, (ci_instant c Hc).
Qed.

Lemma complete_spec c k :
  cinv c -> let c' := (complete k c).2 in
  evolves c c' /\ cinv c' /\ c_store c' = c_store c /\ c_frozen c' = c_frozen c.
Proof.
  intros Hc. cbn. destruct (c_inflight c !! k) as [q|] eqn:E; [|by split].
  pose proof (list_delete_sub (c_inflight c) k) as Hsub.
  split_and!; [| |done|done].
  - apply evolves_land; cbn; auto; [lia|]. intros b.
    destruct (write_sectors_at (q_iv q) (q_data q) (c_src c) b) as [?|?]; [by left|right].
    exists q. split; [by eapply list_elem_of_lookup_2|done].
  - eapply cinv_land; cbn; eauto; [lia|]. intros p Hp. apply (ci_time c Hc). by apply Hsub.
Qed.

Lemma tick_spec c n :
  cinv c -> let c' := (tick latency n c).2 in
  evolves c c' /\ cinv c' /\ c_store c' = c_store c /\ c_frozen c' = c_frozen c.
Proof.
  intros Hc. unfold tick, modify. cbn [snd]. set (now := c_clock c + Z.of_nat n).
  set (c1 := mkCore _ _ _ _ _ now _). set (P := fun q => q_time q + latency <=? now).
  assert (evolves c c1) as He by (apply evolves_land; cbn; auto; unfold now; lia).
  destruct (complete_if_rest P c1) as (H1 & H2 & H3 & H4 & H5 & H6).
  split_and!; [| |done|done].
  - etrans; [exact He|apply complete_if_evolves].
  - eapply (cinv_land c); rewrite ?H2, ?H3, ?H4, ?H5, ?H6; cbn; auto.
    + unfold now. lia.
    + apply filter_sub.
    + intros q Hq. apply list_elem_of_In, List.filter_In in Hq as [_ Hq]. unfold P in Hq.
      apply negb_true_iff, Z.leb_gt in Hq. lia.
Qed.

Lemma expire_spec c :
  cinv c -> evolves c (set_frozen_flag false c) /\ cinv (set_frozen_flag false c).
Proof.
  intros Hc. split; [by apply evolves_land; cbn; auto; lia|].
  eapply cinv_land; cbn; eauto; [lia| |done]. intros q Hq. by apply (ci_time c Hc).
Qed.

Lemma freeze_evolves c :
  cinv c -> evolves c (freeze freezable c) /\ cinv (freeze freezable c) /\
    c_store (freeze freezable c) = c_store c.
Proof.
  intros Hc. unfold freeze. destruct freezable eqn:Ef.
  - destruct (complete_if_rest (fun _ => true) c) as (H1 & H2 & H3 & H4 & H5 & H6).
    assert (c_inflight (complete_if (fun _ => true) c) = []) as Hnil.
    { rewrite H5. clear. by induction (c_inflight c). }
    split_and!; [| |done].
    + transitivity (complete_if (fun _ => true) c); [apply complete_if_evolves|].
      apply evolves_land; cbn; auto; lia.
    + eapply (cinv_land c); cbn; rewrite ?H2, ?H3, ?H4, ?Hnil; auto; [lia|set_solver|].
      intros q Hq. by apply not_elem_of_nil in Hq.
  - split_and!; [by apply evolves_land; cbn; auto; lia| |done].
    destruct Hc. split; cbn; auto. by rewrite Ef.
Qed.

(** A trace reaches the store: the sectors get the present time. *)
Lemma deliver_spec c k :
  cinv c -> exists c', deliver k c = (Ret tt, c') /\
  evolves c c' /\ cinv c' /\ c_inflight c' = c_inflight c /\ c_frozen c' = c_frozen c.
Proof.
  intros Hc. unfold deliver. run. destruct (c_traces c !! k) as [i|] eqn:Ek; [|by exists c].
  run. unfold on_store, zoom.
  cbn [c_store c_src c_dst c_inflight c_traces c_clock c_frozen].
  pose proof (list_elem_of_lookup_2 _ _ _ Ek) as Hi. destruct (ci_traces c Hc i Hi) as [Hi1 Hi2].
  destruct (write_trace_at (c_store c) i (c_clock c) (ci_vs c Hc)) as (E1 & E2 & E3); [lia..|].
  pose proof (AddTrace_run (c_store c) (write_trace i) (c_clock c) (proj2 (ci_vs c Hc))) as R.
  destruct (AddTrace (write_trace i) (c_clock c) (c_store c)) as [o s'] eqn:Eo.
  injection R as -> Hs'. clear Hs'. cbn [snd] in *. eexists. split; [done|].
  assert (forall x, traced c x -> x ∉ i ->
    exists j, j ∈ delete k (c_traces c) /\ x ∈ j) as Htr.
  { intros x (j & Hj & Hx) Hxi. exists j. split; [|done].
    destruct (list_elem_of_delete (c_traces c) k i j Ek Hj) as [->|?]; done. }
  set (c' := mkCore _ _ _ _ s' _ _).
  assert (forall x, x ∈ i -> exists t, at_ c' x = Some t /\ c_clock c <= t) as Hin.
  { intros x Hx. unfold at_, c'. cbn. rewrite E3. unfold mark.
    rewrite (proj2 (in_iv_spec x i) Hx). destruct (im_at _ x); eexists; split; try done; lia. }
  assert (forall x, x ∉ i -> at_ c' x = at_ c x) as Hout.
  { intros x Hx. unfold at_, c'. cbn. rewrite E3. unfold mark.
    by rewrite (proj2 (in_iv_false x i) Hx). }
  assert (forall x, noted c x -> noted c' x) as Hn.
  { intros x H q Hq Hx. destruct (decide (x ∈ i)) as [Hxi|Hxi].
    - right. destruct (Hin x Hxi) as (t & ? & ?). exists t. split; [done|].
      pose proof (ci_time c Hc q Hq). lia.
    - destruct (H q Hq Hx) as [?|(t & ? & ?)]; [left; by apply Htr|right].
      exists t. by rewrite Hout. }
  split_and!; [|split|done|done].
  - split; auto; [apply Z.le_refl|]. intros g x [H1 H2]. split; [by apply Hn|].
    destruct (decide (x ∈ i)) as [Hxi|Hxi].
    { left. right. destruct (Hin x Hxi) as (t & -> & _). by eexists. }
    destruct H2 as [[H2|H2]|H2]; [left; left; by apply Htr| |by right].
    left. right. by rewrite Hout.
  - unfold vs_, c'. cbn. rewrite E1. apply Hc.
  - apply Hc.
  - cbn. intros j Hj. apply Hc. by eapply list_delete_sub.
  - intros x Hx. destruct (decide (x ∈ i)) as [Hxi|Hxi]; [iv_lia|].
    apply (ci_store c Hc). by rewrite <- Hout.
  - apply Hc.
  - apply Hc.
Qed.
End CoreFacts.

(** ** Steps of the environment between two steps of the program *)

Section WorldFacts.
Context {TM TS C H : Type} `{!IclMap TM, !IclMapLaws TM, !IclSet TS, !IclSetLaws TS}
  `{!Coordinator C, !CountHandler H, !CountHandlerLaws H} {env : Env}.
Context (freezable : bool) (latency : Z) (schedule : nat -> point -> list env_action) (size : Z).
Abbreviation world := (World TM TS C H).
Implicit Types w : world.

(** Every write is on the disk before its trace can be handled. *)
Definition instant : Prop := forall n p i data, EQueue i data ∉ schedule n p.

(** Writes may linger, but no longer than the [volatile_seconds] of the
    store; the filesystem can be frozen; and no trace is handled between
    GetInterval and RemoveInterval. *)
Definition disciplined (volatile_seconds : Z) : Prop :=
  freezable = true /\ latency <= volatile_seconds /\ (forall n k, EDeliver k ∉ schedule n PRemove).

(** [inst]: the schedule is one in which writes are instant, and none is in
    flight. *)
Context (inst : Prop).
Hypothesis inst_ok : inst -> instant.

Definition winv w : Prop :=
  cinv freezable latency size inst (core w) /\ device_size_bytes_ (source_device w) = size.

Definition same_devices w w' : Prop :=
  source_device w' = source_device w /\ destination_device w' = destination_device w /\
  hist w' = hist w.

(** What a synchronisation point does. *)
Record moves w w' : Prop := {
  mv_ev : evolves (core w) (core w');
  mv_inv : winv w';
  mv_dev : same_devices w w';
  mv_frozen : c_frozen (core w') = true -> c_frozen (core w) = true
}.

Hypothesis size_small : 0 <= size <= 2 ^ 62.
Hypothesis latency_pos : 0 < latency.

Lemma moves_refl w : winv w -> moves w w.
Proof. intros Hw. by split. Qed.

Lemma moves_trans w1 w2 w3 : moves w1 w2 -> moves w2 w3 -> moves w1 w3.
Proof.
  intros [? ? [? [? ?]] ?] [? ? [? [? ?]] ?]. split; [by etrans|done| |by auto].
  split_and!; congruence.
Qed.

Lemma moves_core w c :
  winv w -> evolves (core w) c -> cinv freezable latency size inst c ->
  (c_frozen c = true -> c_frozen (core w) = true) -> moves w (set_core c w).
Proof. intros [? ?] ? ? ?. by split. Qed.

Lemma env_act_moves n p a w :
  winv w -> a ∈ schedule n p ->
  exists w', env_act freezable latency a w = (Ret tt, w') /\ moves w w' /\
    ((forall k, a <> EDeliver k) -> c_store (core w') = c_store (core w)).
Proof.
  intros Hw Ha. pose proof Hw as [Hc Hs]. unfold env_act. run. rewrite Hs.
  destruct a as [i data|i data|k|k|s| |o|r|r| |].
  - destruct (write_allowed size i) eqn:E; [|by eexists; split; [done|]; split; [by apply moves_refl|]].
    assert (~ inst) as Hni by (intros Hin%inst_ok; by apply (Hin n p i data)).
    destruct (queue_write_spec freezable latency size inst size_small latency_pos (core w) i data Hc Hni E)
      as (H1 & H2 & H3 & H4).
    eexists. split; [done|]. split; [|by intros]. apply moves_core; auto. intros Hz. rewrite <- H4. exact Hz.
  - destruct (write_allowed size i) eqn:E; [|by eexists; split; [done|]; split; [by apply moves_refl|]].
    destruct (write_now_spec freezable latency size inst size_small latency_pos (core w) i data Hc E)
      as (H1 & H2 & H3 & H4).
    eexists. split; [done|]. split; [|by intros]. apply moves_core; auto. intros Hz. rewrite <- H4. exact Hz.
  - destruct (complete_spec freezable latency size inst (core w) k Hc) as (H1 & H2 & H3 & H4).
    eexists. split; [done|]. split; [|by intros]. apply moves_core; auto. intros Hz. rewrite <- H4. exact Hz.
  - destruct (deliver_spec freezable latency size inst size_small (core w) k Hc)
      as (c' & R & H1 & H2 & H3 & H4).
    unfold on_core, zoom. rewrite R. eexists. split; [done|]. split; [|by intros Hne; destruct (Hne k)].
    apply moves_core; auto. intros Hz. rewrite <- H4. exact Hz.
  - destruct (tick_spec freezable latency size inst (core w) s Hc) as (H1 & H2 & H3 & H4).
    eexists. split; [done|]. split; [|by intros]. apply moves_core; auto. intros Hz. rewrite <- H4. exact Hz.
  - destruct (expire_spec freezable latency size inst (core w) Hc) as [H1 H2].
    eexists. split; [done|]. split; [|by intros]. by apply moves_core.
  - eexists. split; [done|]. split; [|by intros]. by split.
  - eexists. split; [done|]. split; [|by intros]. by split.
  - eexists. split; [done|]. split; [|by intros]. by split.
  - eexists. split; [done|]. split; [|by intros]. by split.
  - eexists. split; [done|]. split; [|by intros]. by split.
Qed.

Lemma sync_moves p w :
  winv w ->
  exists w', sync freezable latency schedule p w = (Ret tt, w') /\ moves w w' /\
    ((forall n k, EDeliver k ∉ schedule n p) -> c_store (core w') = c_store (core w)).
Proof.
  intros Hw. unfold sync. run.
  assert (forall l w1, (forall a, a ∈ l -> a ∈ schedule (step_no w) p) -> winv w1 ->
    exists w', for_each l (env_act freezable latency) w1 = (Ret tt, w') /\ moves w1 w' /\
      ((forall k, EDeliver k ∉ l) -> c_store (core w') = c_store (core w1))) as Hl.
  { induction l as [|a l IH]; intros w1 Hsub Hw1.
    { eexists. split; [done|]. split; [by apply moves_refl|done]. }
    destruct (env_act_moves (step_no w) p a w1 Hw1) as (w2 & R2 & M2 & S2).
    { apply Hsub. constructor. }
    destruct (IH w2) as (w3 & R3 & M3 & S3); [|by apply M2|].
    { intros b Hb. apply Hsub. by constructor. }
    exists w3. rewrite for_each_cons, bind_unfold, R2. split_and!; [done|by eapply moves_trans|].
    intros Hd. rewrite S3, S2; [done|..].
    - intros k ->. apply (Hd k). constructor.
    - intros k Hk. apply (Hd k). by constructor. }
  destruct (Hl (schedule (step_no w) p) (bump w)) as (w' & R & Mv & Sv); [done|done|].
  exists w'. split_and!; [done| |].
  - destruct Mv as [? ? ? ?]. by split.
  - intros Hd. rewrite Sv; [done|]. intros k. apply Hd.
Qed.


(** ** Steps of the program that keep the sectors accounted for *)

Record prog w w' : Prop := {
  pr_inv : winv w';
  pr_dev : same_devices w w';
  pr_vs : vs_ (core w') = vs_ (core w);
  pr_clock : c_clock (core w) <= c_clock (core w');
  pr_synced : synced_sector_set_ (c_store (core w')) = synced_sector_set_ (c_store (core w));
  pr_noted : forall x, noted (core w) x -> noted (core w') x;
  pr_ok : forall x, ok (core w) x -> ok (core w') x;
  pr_okg : forall g x, okg g (core w) x -> okg g (core w') x
}.

Lemma prog_refl w : winv w -> prog w w.
Proof. intros Hw. split; auto; [done|lia]. Qed.

Lemma prog_trans w1 w2 w3 : prog w1 w2 -> prog w2 w3 -> prog w1 w3.
Proof.
  intros [? [? [? ?]] ? ? ? ? ? ?] [? [? [? ?]] ? ? ? ? ? ?].
  split; [done| |congruence|lia|congruence|auto|auto|auto]. split_and!; congruence.
Qed.

Lemma moves_prog w w' : moves w w' -> prog w w'.
Proof.
  intros [He Hi Hd Hf]. split; [done|done|apply He..| |apply He].
  intros x Hx. unfold ok. rewrite (ev_dst _ _ He). by apply He.
Qed.

(** Only the part of the world outside the core changes. *)
Lemma prog_core w w' :
  winv w -> core w' = core w -> same_devices w w' -> prog w w'.
Proof.
  intros [Hc Hs] E D. split; rewrite ?E; auto; [|lia]. split; [by rewrite E|].
  by rewrite (proj1 D).
Qed.

(** Writing [buf] to the destination. *)
Definition set_dst (g : Z -> Z) (c : Core TM TS) : Core TM TS :=
  mkCore (c_src c) g (c_inflight c) (c_traces c) (c_store c) (c_clock c) (c_frozen c).

Lemma write_dst_ok (c : Core TM TS) off n buf x :
  ok c x -> okg buf c x -> ok (set_dst (write_bytes off n buf (c_dst c)) c) x.
Proof.
  intros [H1 H2] [_ H3]. split; [exact H1|]. destruct H2 as [?|H2]; [by left|].
  destruct H3 as [?|H3]; [by left|]. right. intros b Hb. cbn. unfold write_bytes.
  case_bool; [by apply H3|by apply H2].
Qed.

Lemma write_dst_full (c : Core TM TS) off n buf x :
  off <= 512 * x -> 512 * x + 512 <= off + n -> okg buf c x ->
  ok (set_dst (write_bytes off n buf (c_dst c)) c) x.
Proof.
  intros Ho Hn [H1 H2]. split; [exact H1|]. destruct H2 as [?|H2]; [by left|].
  right. intros b Hb. cbn. unfold write_bytes.
  pose proof (Z.mul_div_le b 512 ltac:(lia)). pose proof (Z.mul_succ_div_gt b 512 ltac:(lia)).
  rewrite (proj2 (Z.leb_le off b)), (proj2 (Z.ltb_lt b (off + n))) by lia. cbn [andb].
  by apply H2.
Qed.

Lemma set_dst_inv g (c : Core TM TS) :
  cinv freezable latency size inst c -> cinv freezable latency size inst (set_dst g c).
Proof. intros []. by split. Qed.

(** The sectors of the block at [off]. *)
Definition in_block (off bs x : Z) : Prop := off <= 512 * x /\ 512 * x + 512 <= off + bs.

Lemma copy_block_spec sfd dfd bs off w :
  winv w ->
  exists o w', copy_block freezable latency schedule sfd dfd bs off w = (o, w') /\ prog w w' /\
    (c_frozen (core w') = true -> c_frozen (core w) = true) /\
    (o = Ret tt -> forall x, in_block off bs x -> noted (core w) x -> ok (core w') x).
Proof.
  intros Hw. unfold copy_block. rewrite bind_unfold.
  destruct (sync_moves PRead w Hw) as (w1 & -> & M1 & _). rewrite bind_unfold.
  unfold pread. run. set (w1' := set_faults _ w1).
  assert (prog w w1') as P1.
  { eapply prog_trans; [by apply moves_prog|]. by apply prog_core; [apply M1|..]. }
  set (r := match f_read (faults w1) with Some r => r | None => _ end).
  destruct (Z.eqb_spec r (-1)) as [_|_].
  { eexists _, _. split; [done|]. split_and!; [done|apply M1|done]. }
  destruct (Z.eqb_spec r bs) as [->|_]; cbn [negb].
  2: { eexists _, _. split; [done|]. split_and!; [done|apply M1|done]. }
  run. destruct (sync_moves PWrite w1' (pr_inv _ _ P1)) as (w2 & -> & M2 & _).
  unfold pwrite. run. unfold on_core, zoom. run.
  set (q3 := match f_write (faults w2) with Some r => r | None => _ end).
  set (n := Z.min bs q3). set (w3 := set_core _ _).
  set (buf := c_src (core w1)).
  assert (forall x, noted (core w) x -> okg buf (core w2) x) as Hbuf.
  { intros x Hx. apply (mv_ev _ _ M2). split; [by apply P1|]. right. by intros b _. }
  assert (core w3 = set_dst (write_bytes off n buf (c_dst (core w2))) (core w2)) as E3 by done.
  assert (prog w w3) as P3.
  { pose proof (prog_trans _ _ _ P1 (moves_prog _ _ M2)) as P2. destruct P2.
    split; rewrite ?E3; auto.
    - split; [rewrite E3; by apply set_dst_inv; apply M2|]. apply M2.
    - intros x Hx. apply write_dst_ok; [auto|]. apply Hbuf, Hx. }
  assert (c_frozen (core w3) = true -> c_frozen (core w) = true) as F3.
  { intros Hz. apply M1, M2, Hz. }
  destruct (Z.eqb_spec q3 (-1)) as [_|_]; [eexists _, _; split; [done|]; split_and!; [exact P3|exact F3|done]|].
  destruct (Z.eqb_spec q3 bs) as [Eq|_]; cbn [negb]; [|eexists _, _; split; [done|]; split_and!; [exact P3|exact F3|done]].
  eexists _, _. split; [done|]. split_and!; [done|done|].
  intros _ x [Hx1 Hx2] Hn. rewrite E3.
  assert (n = bs) as -> by (unfold n; rewrite Eq; lia).
  apply write_dst_full; [done|done|]. by apply Hbuf.
Qed.

Lemma Begin_prog w : winv w -> prog w (BeginRequiredFreezeBlock freezable latency schedule w).2.
Proof.
  intros Hw. unfold BeginRequiredFreezeBlock. rewrite bind_unfold. cbn [gets].
  destruct (c_frozen (core w)) eqn:Ef; [by apply prog_refl|]. rewrite bind_unfold.
  destruct (sync_moves PFreeze w Hw) as (w1 & -> & M1 & _). run.
  set (w1' := set_faults _ w1).
  assert (prog w w1') as P1.
  { eapply prog_trans; [by apply moves_prog|]. by apply prog_core; [apply M1|..]. }
  destruct (f_freeze (faults w1)); [done|]. run. unfold on_core, zoom. run.
  destruct (freeze_evolves freezable latency size inst size_small latency_pos (core w1'))
    as (E1 & E2 & E3); [apply (pr_inv _ _ P1)|].
  set (w2 := set_core _ w1').
  assert (prog w1' w2) as P2.
  { split; try apply E1; [split; [done|apply P1]|done|].
    intros x Hx. cbn [core w2 set_core]. unfold ok. rewrite (ev_dst _ _ E1). by apply E1. }
  run. destruct (sync_moves PFrozen w2 (pr_inv _ _ P2)) as (w3 & -> & M3 & _). run.
  assert (prog w w3) as P3; [|by destruct (f_lost (faults w3))].
  eapply prog_trans; [exact P1|]. eapply prog_trans; [exact P2|]. by apply moves_prog.
Qed.

Lemma End_spec w :
  winv w -> exists w' b, EndRequiredFreezeBlock freezable latency schedule w = (Ret b, w') /\
    prog w w' /\ (b = true -> c_frozen (core w) = true).
Proof.
  intros Hw. unfold EndRequiredFreezeBlock. rewrite bind_unfold.
  destruct (sync_moves PEnd w Hw) as (w1 & -> & M1 & _). run. eexists _, _. split; [done|].
  split; [by apply moves_prog|apply M1].
Qed.

Lemma End_prog w : winv w -> prog w (EndRequiredFreezeBlock freezable latency schedule w).2.
Proof. intros Hw. destruct (End_spec w Hw) as (w' & b & -> & P & _). done. Qed.

(** Steps that keep the accounting, run while frozen, keep it. *)
Lemma while_frozen_prog {A} (m : M world A) w :
  winv w -> (forall s, winv s -> prog s (m s).2) ->
  prog w (while_frozen freezable latency schedule m w).2.
Proof.
  intros Hw Hm. unfold while_frozen, RunWhileFrozen.
  apply run_attempts_state; [..|by apply prog_refl]; intros s Hs; (eapply prog_trans; [exact Hs|]).
  - apply Begin_prog, Hs.
  - apply Hm, Hs.
  - apply End_prog, Hs.
Qed.

(** What the last round copied was copied while nothing was in flight. *)
Lemma while_frozen_copy sfd dfd bs off w o w' :
  winv w -> freezable = true \/ inst ->
  while_frozen freezable latency schedule
    (copy_block freezable latency schedule sfd dfd bs off) w = (o, w') ->
  prog w w' /\ (o = Ret tt -> forall x, in_block off bs x -> ok (core w') x).
Proof.
  intros Hw Hfr R.
  assert (forall s, winv s -> prog s (copy_block freezable latency schedule sfd dfd bs off s).2) as Hc.
  { intros s Hs. destruct (copy_block_spec sfd dfd bs off s Hs) as (o1 & w1 & -> & P & _). done. }
  split.
  { pose proof (while_frozen_prog (copy_block freezable latency schedule sfd dfd bs off) w Hw Hc) as P.
    by rewrite R in P. }
  intros -> x Hx.
  edestruct (run_attempts_Ret (A := unit) (BeginRequiredFreezeBlock freezable latency schedule)
    (EndRequiredFreezeBlock freezable latency schedule) winv) as (s0 & s1 & s2 & I0 & I1 & I2 & RB & RC & RE);
    [..|exact Hw|exact R|].
  - intros s Hs. by apply Begin_prog.
  - intros s Hs. by apply (pr_inv _ _ (Hc s Hs)).
  - intros s Hs. by apply End_prog.
  - destruct (End_spec s2 I2) as (w3 & b & R3 & P3 & F3). rewrite RE in R3. injection R3 as <- <-.
    destruct (copy_block_spec sfd dfd bs off s1 I1) as (o1 & w1 & R1 & P1 & F1 & K1).
    rewrite RC in R1. injection R1 as <- <-. apply P3. apply K1; [done|done|].
    assert (c_inflight (core s1) = []) as Hnil.
    { destruct Hfr as [Hfr|Hin]; [|by apply (ci_instant _ _ _ _ _ (proj1 I1))].
      apply (ci_frozen _ _ _ _ _ (proj1 I1)); [done|]. by apply F1, F3. }
    intros q Hq. rewrite Hnil in Hq. by apply not_elem_of_nil in Hq.
Qed.

(** ** Copying an interval *)

Section Copying.
Context (sfd dfd bs spb : Z).
Hypothesis block_size : bs = 512 * spb.
Hypothesis spb_range : 1 <= spb < 2 ^ 22.

Lemma copy_interval_spec fuel vol lo n i w o w' :
  winv w -> freezable = true \/ inst -> 0 <= lo -> 512 * (lo + n) <= size + 512 -> 0 <= i ->
  copy_interval freezable latency schedule sfd dfd bs spb fuel vol n i (512 * (lo + i)) w = (o, w') ->
  prog w w' /\
  (o = Ret tt -> forall x, lo + i <= x < lo + n -> (vol = false -> noted (core w) x) -> ok (core w') x).
Proof.
  intros Hw Hfr Hlo Hn. revert i w Hw. induction fuel as [|fuel IH]; intros i w Hw Hi; cbn [copy_interval];
    destruct (Z.ltb_spec i n) as [Hlt|Hge].
  - intros [= <- <-]. split; [by apply prog_refl|done].
  - intros [= <- <-]. split; [by apply prog_refl|]. intros. lia.
  - rewrite bind_unfold.
    set (cp := if vol then while_frozen freezable latency schedule _ else _).
    destruct (cp w) as [o1 w1] eqn:E1.
    assert (prog w w1 /\ (o1 = Ret tt -> forall x, in_block (512 * (lo + i)) bs x ->
      (vol = false -> noted (core w) x) -> ok (core w1) x)) as [P1 K1].
    { unfold cp in E1. destruct vol.
      - destruct (while_frozen_copy _ _ _ _ _ _ _ Hw Hfr E1) as [P K]. split; [done|]. by intros; apply K.
      - destruct (copy_block_spec sfd dfd bs (512 * (lo + i)) w Hw) as (o2 & w2 & R2 & P2 & _ & K2).
        rewrite E1 in R2. injection R2 as -> ->. split; [done|]. intros Ho x Hx Hnx. by apply K2; auto. }
    destruct o1 as [[]|e|a|a|]; try (intros [= <- <-]; by split).
    replace (i64 (512 * (lo + i) + bs)) with (512 * (lo + (i + spb))) by (rewrite i64_id; lia).
    rewrite u64_id by (unfold is_u64; lia).
    intros R. destruct (IH (i + spb) w1 (pr_inv _ _ P1) ltac:(lia) R) as [P2 K2].
    split; [by eapply prog_trans|]. intros Ho x Hx Hv.
    destruct (Z.lt_ge_cases x (lo + (i + spb))) as [Hxi|Hxi].
    + apply P2. apply K1; [done| |done]. unfold in_block. lia.
    + apply K2; [done|lia|]. intros Hvol. by apply P1, Hv.
  - intros [= <- <-]. split; [by apply prog_refl|]. intros. lia.
Qed.
End Copying.

(** ** Taking an interval out of the store *)

Context (vs0 : Z) (base : (Z -> Z) -> Prop).
Hypothesis discipline : inst \/ disciplined vs0.

Definition set_store (s : UnsyncedSectorStore TM TS) w : world :=
  set_core (mkCore (c_src (core w)) (c_dst (core w)) (c_inflight (core w)) (c_traces (core w)) s
              (c_clock (core w)) (c_frozen (core w))) w.

Lemma on_store_Ret {A} (m : M (UnsyncedSectorStore TM TS) A) w a s' :
  m (c_store (core w)) = (Ret a, s') ->
  on_core (on_store m) w = (Ret a, set_store s' w).
Proof. intros E. unfold on_core, on_store, zoom. by rewrite E. Qed.

(** A store with the same sectors. *)
Lemma set_store_prog s' w :
  winv w -> unsynced_sector_map_ s' = unsynced_sector_map_ (c_store (core w)) ->
  synced_sector_set_ s' = synced_sector_set_ (c_store (core w)) ->
  volatile_seconds_ s' = volatile_seconds_ (c_store (core w)) -> prog w (set_store s' w).
Proof.
  intros [[] Hs] E1 E2 E3.
  assert (forall g x, okg g (core w) x -> okg g (core (set_store s' w)) x) as Hg.
  { intros g x [Hx1 Hx2]. split.
    - intros q Hq Hxq. unfold at_. cbn. rewrite E1. by apply Hx1.
    - unfold marked, at_. cbn. rewrite E1. exact Hx2. }
  split; cbn; auto; [|done|lia|..].
  - split; [|done]. split; cbn; auto; unfold vs_, at_; cbn; by rewrite ?E1, ?E3.
  - intros x Hx q Hq Hxq. unfold at_. cbn. rewrite E1. by apply Hx.
  - intros x. by apply Hg.
Qed.

Definition removed (i : SectorInterval) w : world :=
  set_store (set_synced (is_add (synced_sector_set_ (c_store (core w))) i)
    (set_map (im_sub (unsynced_sector_map_ (c_store (core w))) i) (c_store (core w)))) w.

Lemma removed_at i w x :
  at_ (core (removed i w)) x = if in_iv x i then None else at_ (core w) x.
Proof. apply im_sub_at. Qed.

Lemma removed_inv i w : winv w -> winv (removed i w).
Proof.
  intros [Hc Hs]. split; [|done]. destruct Hc. split; cbn; auto.
  intros x. unfold removed, set_store. change (at_ _ x) with (at_ (core (removed i w)) x).
  rewrite removed_at. case_bool; [|auto]. by intros [].
Qed.

Lemma removed_outside g i w x : x ∉ i -> okg g (core w) x -> okg g (core (removed i w)) x.
Proof.
  intros Hx%in_iv_false [H1 H2]. split.
  - intros q Hq Hxq. rewrite removed_at, Hx. by apply H1.
  - unfold marked. rewrite removed_at, Hx. exact H2.
Qed.

(** The interval handed out was not written lately: nothing on its way to
    its sectors is without a trace. *)
Lemma removed_noted i b now w1 w2 w x :
  winv w -> vs_ (core w) = vs0 -> now <= c_clock (core w) ->
  interval_answer (c_store (core w)) now = (i, b) -> b = false ->
  w1 = set_store (set_cursor (upper i) (c_store (core w))) w -> moves w1 w2 ->
  ((forall n k, EDeliver k ∉ schedule n PRemove) -> c_store (core w2) = c_store (core w1)) ->
  noted (core w) x -> x ∈ i -> noted (core (removed i w2)) x.
Proof.
  intros Hw Hvs Hnow Ha -> -> Mv Sv Hok Hx.
  destruct discipline as [Hin|(Hfz & Hlat & Hwin)].
  { intros q Hq. cbn in Hq. rewrite (ci_instant _ _ _ _ _ (proj1 (mv_inv _ _ Mv)) Hin) in Hq.
    by apply not_elem_of_nil in Hq. }
  specialize (Sv Hwin).
  assert (noted (core w2) x) as Hn2.
  { apply (mv_ev _ _ Mv). apply (pr_noted w); [by apply set_store_prog|exact Hok]. }
  destruct (im_segments (unsynced_sector_map_ (c_store (core w)))) as [|p l] eqn:Es.
  { rewrite interval_answer_empty in Ha by done. injection Ha as <-. iv_lia. }
  destruct (interval_answer_segment (c_store (core w)) now) as (t & Ht1 & Ht2); [by rewrite Es|].
  rewrite Ha in Ht1, Ht2. cbn [fst snd] in *. symmetry in Ht2. apply Z.ltb_ge in Ht2.
  assert (at_ (core w2) x = Some t) as Hat.
  { unfold at_. rewrite Sv. cbn. by apply (im_segment_at _ i). }
  intros q Hq Hxq. left. destruct (Hn2 q Hq Hxq) as [?|(t' & Ht' & Hle)]; [done|].
  exfalso. rewrite Hat in Ht'. injection Ht' as <-.
  pose proof (ci_time _ _ _ _ _ (proj1 (mv_inv _ _ Mv)) q Hq).
  pose proof (ev_clock _ _ (mv_ev _ _ Mv)) as Hck. cbn in Hck. unfold vs_ in Hvs. lia.
Qed.

(** ** The loop *)

Section Loop.
Context (w0 : world) (x : Z).

(** The sector is accounted for... *)
Lemma acct_prog w w' : prog w w' -> acct base (core w) x -> acct base (core w') x.
Proof. intros P [?|(g & Hb & ?)]; [left; by apply P|right; exists g; split; [done|by apply P]]. Qed.

Definition Good w : Prop :=
  winv w /\ same_devices w0 w /\ vs_ (core w) = vs0 /\ acct base (core w) x.

(** ... or has been handed out for copying. *)
Definition Handed w : Prop :=
  winv w /\ same_devices w0 w /\ vs_ (core w) = vs0 /\
  (acct base (core w) x \/ is_mem (synced_sector_set_ (c_store (core w))) x = true).

Lemma Good_Handed w : Good w -> Handed w.
Proof. unfold Good, Handed. intuition. Qed.

Lemma Good_prog w w' : Good w -> prog w w' -> Good w'.
Proof.
  intros (H1 & (D1 & D2 & D3) & H3 & H4) P. pose proof (acct_prog _ _ P H4).
  destruct P as [? (E1 & E2 & E3) ? ? ? ? ? ?].
  split_and!; [done| |congruence|auto]. split_and!; congruence.
Qed.

Lemma Handed_prog w w' : Handed w -> prog w w' -> Handed w'.
Proof.
  intros (H1 & (D1 & D2 & D3) & H3 & H4) P. pose proof (acct_prog _ _ P).
  destruct P as [? (E1 & E2 & E3) ? ? Es ? ? ?].
  split_and!; [done| |congruence|]. { split_and!; congruence. }
  rewrite Es. intuition.
Qed.

Lemma wp_sync p w (Q : unit -> world -> Prop) :
  winv w -> (forall w', moves w w' ->
    ((forall n k, EDeliver k ∉ schedule n p) -> c_store (core w') = c_store (core w)) -> Q tt w') ->
  wp (sync freezable latency schedule p) w Q Handed.
Proof.
  intros Hw HQ. destruct (sync_moves p w Hw) as (w' & R & Mv & Sv).
  eapply wp_run; [exact R|]. by apply HQ.
Qed.

Lemma wp_sync_good p w (Q : unit -> world -> Prop) :
  Good w -> (forall w', Good w' -> Q tt w') -> wp (sync freezable latency schedule p) w Q Handed.
Proof.
  intros Hw HQ. apply wp_sync; [apply Hw|]. intros w' Mv _. apply HQ.
  eapply Good_prog; [exact Hw|by apply moves_prog].
Qed.

Lemma wp_coordinator {A} (m : M C A) w (Q : A -> world -> Prop) :
  Good w -> (forall a w', Good w' -> Q a w') -> wp (on_coordinator m) w Q Handed.
Proof.
  intros Hw HQ. unfold wp, on_coordinator, zoom. destruct (m (coordinator w)) as [o c'].
  assert (Good (set_coordinator c' w)) as Hg.
  { eapply Good_prog; [exact Hw|]. by apply prog_core; [apply Hw|..]. }
  destruct o; [by apply HQ|by apply Good_Handed..].
Qed.

Lemma wp_counts (m : M H unit) w (Q : unit -> world -> Prop) :
  Good w -> (forall w', Good w' -> Q tt w') -> wp (on_counts m) w Q Handed.
Proof.
  intros Hw HQ. unfold wp, on_counts, zoom. destruct (m (counts w)) as [o c'].
  assert (Good (set_counts c' w)) as Hg.
  { eapply Good_prog; [exact Hw|]. by apply prog_core; [apply Hw|..]. }
  destruct o as [[]| | | |]; [by apply HQ|by apply Good_Handed..].
Qed.

Lemma wp_while_frozen {A} (m : M world A) w (Q : A -> world -> Prop) :
  Good w -> (forall s, winv s -> prog s (m s).2) -> (forall a w', Good w' -> Q a w') ->
  wp (while_frozen freezable latency schedule m) w Q Handed.
Proof.
  intros Hw Hm HQ. pose proof (while_frozen_prog m w (proj1 Hw) Hm) as P.
  eapply (wp_mono _ _ (fun _ => Good) _ Good); [|by intros; apply HQ|apply Good_Handed].
  apply wp_final. by eapply Good_prog.
Qed.

(** The intervals of a store lie inside the device. *)
Lemma answer_bounds w now i b :
  winv w -> interval_answer (c_store (core w)) now = (i, b) ->
  0 <= lower i <= upper i /\ 512 * upper i <= size + 512.
Proof.
  intros [Hc _] Ha. destruct (im_segments (unsynced_sector_map_ (c_store (core w)))) as [|p l] eqn:Es.
  { rewrite interval_answer_empty in Ha by done. injection Ha as <- <-. cbn. lia. }
  destruct (interval_answer_segment (c_store (core w)) now) as (t & Ht & _); [by rewrite Es|].
  rewrite Ha in Ht. cbn [fst] in Ht. pose proof (im_segment_nonempty _ _ _ Ht) as Hne.
  assert (forall y, y ∈ i -> 0 <= y /\ 512 * y < size) as Hb.
  { intros y Hy. apply (ci_store _ _ _ _ _ Hc). exists t. by apply (im_segment_at _ i). }
  destruct (Hb (lower i)); [iv_lia|]. destruct (Hb (upper i - 1)); [iv_lia|]. lia.
Qed.

Context (sfd dfd bs spb : Z).
Hypothesis block_size : bs = 512 * spb.
Hypothesis spb_range : 1 <= spb < 2 ^ 22.

Lemma freeze_or_instant : freezable = true \/ inst.
Proof. destruct discipline as [?|(? & _)]; [by right|by left]. Qed.

Lemma acct_removed i w : x ∉ i -> acct base (core w) x -> acct base (core (removed i w)) x.
Proof.
  intros Hx [?|(g & Hb & ?)]; [left; by apply (removed_outside (c_dst (core w)))|].
  right. exists g. split; [done|by apply removed_outside].
Qed.

(** One interval, from GetInterval to the last block. *)
Lemma wp_interval w now (Q : unit -> world -> Prop) k :
  Good w -> now <= c_clock (core w) -> vs0 < now ->
  (forall i w', Good w' -> wp (k i) w' Q Handed) ->
  wp ('(to_sync_interval, is_volatile) ← on_core (on_store (GetInterval now));
      sync freezable latency schedule PRemove ;;
      on_core (on_store (RemoveInterval to_sync_interval)) ;;
      let offset := i64 (lower to_sync_interval * SECTOR_SIZE) in
      let cardinality := iv_card to_sync_interval in
      copy_interval freezable latency schedule sfd dfd bs spb (Z.to_nat cardinality) is_volatile
        cardinality 0 offset ;;
      k to_sync_interval) w Q Handed.
Proof.
  intros Hw Hnow Hvs Hk. apply wp_bind.
  destruct (interval_answer (c_store (core w)) now) as [i b] eqn:Ea.
  assert (volatile_seconds_ (c_store (core w)) < now) as Hv.
  { destruct Hw as (_ & _ & Hv & _). unfold vs_ in Hv. lia. }
  eapply wp_run; [apply on_store_Ret; by apply GetInterval_run|]. rewrite Ea. cbn [fst].
  set (w1 := set_store _ w).
  assert (prog w w1) as P1 by (by apply set_store_prog; [apply Hw|..]).
  apply wp_bind, wp_sync; [apply P1|]. intros w2 Mv Sv. cbv beta.
  apply wp_bind. eapply wp_run; [by apply on_store_Ret, RemoveInterval_run|]. cbv beta.
  fold (removed i w2). set (w3 := removed i w2).
  assert (Good w2) as G2.
  { eapply Good_prog; [|by apply moves_prog]. by eapply Good_prog. }
  assert (Handed w3) as G3.
  { destruct G2 as (H1 & H2 & H3 & H4). split_and!; [by apply removed_inv|done|done|].
    destruct (decide (x ∈ i)) as [Hx|Hx]; [right|left; by apply acct_removed].
    cbn. rewrite is_add_mem, (proj2 (in_iv_spec x i) Hx). by rewrite orb_true_r. }
  destruct (answer_bounds w now i b (proj1 Hw) Ea) as [Hb1 Hb2]. cbn zeta. apply wp_bind.
  unfold SECTOR_SIZE. rewrite i64_id by lia.
  replace (lower i * 512) with (512 * (lower i + 0)) by lia.
  destruct (copy_interval freezable latency schedule sfd dfd bs spb (Z.to_nat (iv_card i)) b
    (iv_card i) 0 (512 * (lower i + 0)) w3) as [o w4] eqn:E4.
  assert (iv_card i = upper i - lower i) as Hcard.
  { unfold iv_card. destruct (Z.leb_spec (upper i) (lower i)); lia. }
  destruct (copy_interval_spec sfd dfd bs spb block_size spb_range (Z.to_nat (iv_card i)) b (lower i)
    (iv_card i) 0 w3 o w4 (proj1 G3) freeze_or_instant) as [P4 K4]; [lia|lia|lia|exact E4|].
  unfold wp. rewrite E4. destruct o as [[]| | | |]; try by eapply Handed_prog.
  apply Hk. destruct (decide (x ∈ i)) as [Hx|Hx].
  - assert (Handed w4) as (I1 & I2 & I3 & _) by (by eapply Handed_prog).
    split_and!; [done..|]. left. apply K4; [done|iv_lia|]. intros Hvol.
    eapply (removed_noted i b now w1 w2 w); eauto; [apply Hw|apply Hw|eapply acct_noted, Hw].
  - eapply Good_prog; [|exact P4]. destruct G2 as (H1 & H2 & H3 & H4).
    split_and!; [by apply removed_inv|done|done|by apply acct_removed].
Qed.

Lemma count_prog s :
  winv s -> prog s ((sync freezable latency schedule PCountFrozen ;;
                     on_core (on_store UnsyncedSectorCount)) s).2.
Proof.
  intros Hs. rewrite bind_unfold. destruct (sync_moves PCountFrozen s Hs) as (s' & -> & Mv & _).
  erewrite on_store_Ret by done. eapply prog_trans; [by apply moves_prog|].
  by apply set_store_prog; [apply Mv|..].
Qed.

(** Counting what is left again, with the filesystem frozen, when it is
    little. *)
Lemma wp_measure ft count0 w :
  Good w ->
  wp (if count0 <? ONE_MEGABYTE / SECTOR_SIZE then
        now ← time_NULL;
        flush_time ← (if SECONDS_BETWEEN_FLUSHES <? now - ft
                      then sync freezable latency schedule PFlush ;; time_NULL else mret ft);
        count ← while_frozen freezable latency schedule
          (sync freezable latency schedule PCountFrozen ;; on_core (on_store UnsyncedSectorCount));
        mret (flush_time, count)
      else mret (ft, count0)) w (fun _ => Good) Handed.
Proof.
  intros Hw. case_bool; [|by apply wp_ret]. apply wp_bind. eapply wp_run; [done|].
  apply wp_bind. eapply (wp_mono _ _ (fun _ => Good) _ Handed); [|clear w Hw|done].
  { case_bool; [|by apply wp_ret]. apply wp_bind, wp_sync_good; [done|]. intros w' Hw'. by eapply wp_run. }
  intros ft' w Hw. apply wp_bind, wp_while_frozen; [done|apply count_prog|].
  intros count w' Hw'. by apply wp_ret.
Qed.

Lemma wp_sync_loop fuel ft wd total w :
  Good w ->
  wp (sync_loop freezable latency schedule sfd dfd bs spb fuel ft wd total) w (fun _ => Good) Handed.
Proof.
  revert ft wd total w. induction fuel as [|fuel IH]; intros ft wd total w Hw.
  { by apply Good_Handed. }
  cbn [sync_loop]. apply wp_bind, wp_sync_good; [done|]. clear w Hw. intros w Hw.
  apply wp_bind, wp_coordinator; [done|]. clear w Hw. intros [] w Hw; [by apply wp_ret|].
  apply wp_bind, wp_sync_good; [done|]. clear w Hw. intros w Hw.
  apply wp_bind. eapply wp_run; [by apply on_store_Ret|].
  assert (Good (set_store (c_store (core w)) w)) as Hw1.
  { eapply Good_prog; [exact Hw|]. by apply set_store_prog; [apply Hw|..]. }
  clear Hw. revert Hw1. generalize (set_store (c_store (core w)) w) as w1.
  generalize (im_card (unsynced_sector_map_ (c_store (core w)))) as count0. clear w. intros count0 w Hw.
  apply wp_bind. eapply wp_mono; [by apply wp_measure|clear w Hw|done].
  intros [ft' count] w Hw. apply wp_bind, wp_sync_good; [done|]. clear w Hw. intros w Hw.
  apply wp_bind, wp_counts; [done|]. clear w Hw. intros w Hw. case_bool.
  - apply wp_bind. eapply (wp_mono _ _ (fun _ => Good) _ Handed); [|clear w Hw|done].
    { destruct wd; [by apply wp_ret|]. apply wp_bind, wp_sync_good; [done|]. intros w' Hw'.
      by apply wp_coordinator. }
    intros [] w Hw. apply wp_bind, wp_sync_good; [done|]. clear w Hw. intros w Hw.
    apply wp_bind, wp_coordinator; [done|]. clear w Hw. intros [] w Hw; [by apply wp_ret|by apply IH].
  - apply wp_bind. eapply (wp_mono _ _ (fun _ => Good) _ Handed); [|clear w Hw|done].
    { destruct wd; [|by apply wp_ret]. apply wp_bind, wp_sync_good; [done|]. intros w' Hw'.
      apply wp_bind, wp_coordinator; [done|]. intros b w'' Hw''. by apply wp_ret. }
    intros [] w Hw. apply wp_bind. eapply wp_run; [done|]. cbv beta.
    apply wp_bind, wp_sync; [apply Hw|]. intros w' Mv _. cbv beta.
    assert (vs0 < c_clock (core w)) as Hvs.
    { destruct Hw as ((Hc & _) & _ & <- & _). apply (ci_vs _ _ _ _ _ Hc). }
    apply (wp_interval w' (c_clock (core w)) _ (fun i =>
      sync freezable latency schedule PSynced ;;
      on_counts (UpdateSyncedCount (u64 (total + iv_card i * SECTOR_SIZE))) ;;
      sync_loop freezable latency schedule sfd dfd bs spb fuel ft' false
        (u64 (total + iv_card i * SECTOR_SIZE)))).
    + eapply Good_prog; [exact Hw|by apply moves_prog].
    + apply (mv_ev _ _ Mv).
    + done.
    + intros i w2 Hw2. cbn zeta. apply wp_bind, wp_sync_good; [done|]. intros w3 Hw3.
      apply wp_bind, wp_counts; [done|]. intros w4 Hw4. by apply IH.
Qed.
End Loop.

(** ** DoSync *)

Lemma Open_keeps_sizes (b : BlockDevice) (h : history) :
  let b' := (BlockDevice_Open (env := env) (b, h)).2.1 in
  device_size_bytes_ b' = device_size_bytes_ b /\ block_size_bytes_ b' = block_size_bytes_ b.
Proof. unfold BlockDevice_Open. io. case_bool; [done|]. io. by case_bool. Qed.

Lemma on_device_core {A} (m : IO BlockDevice A) w :
  core (on_source m w).2 = core w /\ core (on_destination m w).2 = core w.
Proof.
  unfold on_source, on_destination, zoom.
  destruct (m (source_device w, hist w)), (m (destination_device w, hist w)). done.
Qed.

(** What DoSync leaves: the state is as it should be, and the sector is
    accounted for, or at least recorded as handed out. *)
Definition left_ok (x : Z) w : Prop :=
  (cinv freezable latency size inst (core w) /\ vs_ (core w) = vs0) /\ acct base (core w) x.

Definition left_handed (x : Z) w : Prop :=
  (cinv freezable latency size inst (core w) /\ vs_ (core w) = vs0) /\
  (acct base (core w) x \/ is_mem (synced_sector_set_ (c_store (core w))) x = true).

(** A device operation, on every outcome. *)
Lemma wp_device {A} (P : Core TM TS -> Prop) (m : M world A) w (Q : A -> world -> Prop) E :
  core (m w).2 = core w -> P (core w) ->
  (forall a w', m w = (Ret a, w') -> P (core w') -> Q a w') ->
  (forall w', P (core w') -> E w') -> wp m w Q E.
Proof.
  intros Hc HP HQ HE. unfold wp. destruct (m w) as [o w'] eqn:Em. cbn in Hc. rewrite <- Hc in HP.
  destruct o; auto.
Qed.

Context (spb : Z).
Hypothesis spb_range : 1 <= spb < 2 ^ 22.

Lemma wp_DoSync fuel x w :
  winv w -> vs_ (core w) = vs0 -> block_size_bytes_ (source_device w) = 512 * spb ->
  acct base (core w) x ->
  wp (DoSync freezable latency schedule fuel) w (fun _ => left_ok x) (left_handed x).
Proof.
  intros Hw Hvs Hbs Hok. unfold DoSync.
  set (P := fun c : Core TM TS => (cinv freezable latency size inst c /\ vs_ c = vs0) /\ acct base c x).
  assert (forall w', P (core w') -> left_handed x w') as HE by (intros w' [? ?]; split; [done|by left]).
  assert (P (core w)) as HP by (split; [split; [apply Hw|done]|done]).
  apply wp_bind, (wp_device P); [by apply on_device_core|done| |exact HE].
  intros sfd w1 R1 H1.
  assert (winv w1 /\ block_size_bytes_ (source_device w1) = 512 * spb /\ vs_ (core w1) = vs0)
    as (I1 & B1 & V1).
  { pose proof (Open_keeps_sizes (source_device w) (hist w)) as [K1 K2].
    unfold on_source, zoom in R1.
    destruct (BlockDevice_Open (source_device w, hist w)) as [o [b h]]. cbn in K1, K2.
    injection R1 as -> <-. cbn. destruct Hw as [? Hs]. split_and!; [|congruence|done].
    split; [done|]. cbn. congruence. }
  apply wp_bind, (wp_device P); [by apply on_device_core|done| |exact HE].
  intros dfd w2 R2 H2.
  assert (core w2 = core w1 /\ source_device w2 = source_device w1) as [E2 D2].
  { unfold on_destination, zoom in R2.
    destruct (BlockDevice_Open (destination_device w1, hist w1)) as [o b]. by injection R2 as -> <-. }
  assert (Good w2 x w2) as G2.
  { split_and!; try done; rewrite ?E2; [|done|rewrite <- E2; apply H2]. destruct I1. split; [by rewrite E2|by rewrite D2]. }
  (* the loop and the two Closes, then the helper's destructor *)
  match goal with |- wp (with_freeze_helper ?m) _ _ _ => set (body := m) end.
  assert (wp body w2 (fun _ => left_ok x) (left_handed x)) as Hbody.
  { apply wp_bind. eapply wp_run; [done|]. cbn zeta. rewrite D2, B1.
    rewrite (i32_id (512 * spb)), (u32_id (512 * spb)) by (unfold is_u32; lia).
    unfold SECTOR_SIZE. rewrite Z.mul_comm, Z.div_mul, i32_id, Z.mul_comm by lia.
    apply wp_bind. eapply wp_mono; [apply (wp_sync_loop w2 x sfd dfd (512 * spb) spb eq_refl spb_range); exact G2| |].
    2: { intros s (Hi & _ & Hv & ?). split; [split; [apply Hi|done]|done]. }
    intros [] w3 (Hi3 & _ & Hv3 & H3).
    apply wp_bind, (wp_device P); [by apply on_device_core|split; [split; [apply Hi3|done]|done]| |exact HE].
    intros [] w4 _ H4.
    apply (wp_device P); [by apply on_device_core|done|done|exact HE]. }
  unfold wp, with_freeze_helper in *. destruct (body w2) as [o w3].
  assert (forall c : Core TM TS, cinv freezable latency size inst c /\ vs_ c = vs0 ->
    cinv freezable latency size inst (set_frozen_flag false c) /\ vs_ (set_frozen_flag false c) = vs0) as Hci.
  { intros c [Hc Hv]. split; [by apply expire_spec|done]. }
  assert (forall c : Core TM TS, acct base c x -> acct base (set_frozen_flag false c) x) as Hokf.
  { intros c [[Ha Hb]|(g & Hg & Ha & Hb)]; [left; by split|right; exists g; split; [done|by split]]. }
  destruct o; [destruct Hbody; split; [by apply Hci|by apply Hokf]|..];
    (destruct Hbody as [Hc [Hb|Hb]]; (split; [by apply Hci|]); [left; exact (Hokf _ Hb)|right; exact Hb]).
Qed.

End WorldFacts.

(** C1: no change is lost.  Take any schedule in which either every write is
    on the disk before its trace is handled, or: writes reach the disk
    within the store's [volatile_seconds], the filesystem can be frozen,
    and no trace is handled between GetInterval and RemoveInterval.  Then,
    whatever else happens and wherever it happens (writes, late or
    reordered traces, thaws, cancellation, other workers, failing or short
    reads and writes), a sector that was accounted for before DoSync is
    accounted for when it returns: the destination has the source's bytes
    or the sector is still marked as unsynced.  When DoSync ends in any
    other way, the sector is accounted for or recorded in the history of
    the sectors handed out. *)
Theorem no_change_lost {TM TS C H : Type} `{!IclMap TM, !IclMapLaws TM, !IclSet TS, !IclSetLaws TS}
    `{!Coordinator C, !CountHandler H, !CountHandlerLaws H} {env : Env}
    freezable latency schedule size vs0 spb fuel (w : World TM TS C H) o w' x :
  0 <= size <= 2 ^ 62 -> 0 < latency -> instant schedule \/ disciplined freezable latency schedule vs0 ->
  1 <= spb < 2 ^ 22 -> winv freezable latency size (instant schedule) w -> vs_ (core w) = vs0 ->
  block_size_bytes_ (source_device w) = 512 * spb ->
  ok (core w) x -> DoSync freezable latency schedule fuel w = (o, w') ->
  (o = Ret tt -> ok (core w') x) /\
  (ok (core w') x \/ is_mem (synced_sector_set_ (c_store (core w'))) x = true).
Proof.
  intros Hsize Hlat Hd Hspb Hw Hvs Hbs Hok R.
  assert (forall c : Core TM TS, acct (fun _ => False) c x <-> ok c x) as Ha.
  { intros c. split; [by intros [?|(g & [] & _)]|by left]. }
  apply Ha in Hok.
  destruct (wp_elim _ _ _ _ _ _ (wp_DoSync freezable latency schedule size (instant schedule) (fun H => H) Hsize Hlat vs0
    (fun _ => False) Hd spb Hspb fuel x w Hw Hvs Hbs Hok) R) as [(a & -> & _ & Hr)|[Hn [_ Hh]]].
  - apply Ha in Hr. split; [done|by left].
  - rewrite Ha in Hh. split; [|done]. intros ->. by destruct (Hn tt).
Qed.

(** ** Runs *)

(** A device of 16 sectors with blocks of 1024 bytes, whose first eight
    sectors are to be copied. *)
Definition sample_store : UnsyncedSectorStore ref_map ref_set :=
  final (AddNonVolatileInterval (mkSI 0 8)) (new_UnsyncedSectorStore 10).

Definition sample_world : World ref_map ref_set BackupCoordinator BlockDeviceStatus :=
  mkWorld (mkCore (fun b => b mod 251) (fun _ => 0) [] [] sample_store 1000 false)
    (new_BackupCoordinator 1) (mkDeviceStatus "0000-1111" 0 0)
    sample_device (mkBlockDevice "/dev/nbd0" 11008 8192 1024 (-1)) [] no_faults 0.

Lemma sample_at x : at_ (core sample_world) x = if in_iv x (mkSI 0 8) then Some 1 else None.
Proof.
  change (im_at (im_add (im_empty : ref_map) (mkSI 0 8) 1) x =
    if in_iv x (mkSI 0 8) then Some 1 else None).
  by rewrite im_add_at, im_empty_at by lia.
Qed.

Lemma sample_world_inv freezable latency inst : winv freezable latency 8192 inst sample_world.
Proof.
  split; [|done]. split; try done; try (intros ? H; by apply not_elem_of_nil in H).
  intros x. rewrite sample_at. destruct (in_iv x (mkSI 0 8)) eqn:E; [|by intros []].
  apply in_iv_spec in E. intros _. iv_lia.
Qed.

Lemma sample_world_ok x : 0 <= x < 8 -> ok (core sample_world) x.
Proof.
  intros Hx. split.
  - intros q Hq. by apply not_elem_of_nil in Hq.
  - left. right. rewrite sample_at, (proj2 (in_iv_spec _ _)); [by eexists|iv_lia].
Qed.

(** While the first block is read a write to sectors 2 and 3 is queued; it
    lands and its trace is handled while later blocks are copied. *)
Definition busy_schedule : nat -> point -> list env_action := fun n p =>
  match p with
  | PRead => if (n <? 12)%nat then [EQueue (mkSI 2 4) (fun _ => 7); ETick 1] else [EComplete 0; EDeliver 0]
  | PLoop => [EDeliver 0]
  | PReport => [EExpire]
  | _ => []
  end.

Lemma no_change_lost_witness :
  let r := DoSync (env := working_env) true 10 busy_schedule 20 sample_world in
  (r.1 = Ret tt -> ok (core r.2) 3) /\
  (ok (core r.2) 3 \/ is_mem (synced_sector_set_ (c_store (core r.2))) 3 = true).
Proof.
  apply (no_change_lost (env := working_env) true 10 busy_schedule 8192 10 2 20 sample_world _ _ 3).
  - lia.
  - lia.
  - right. split_and!; [reflexivity|lia|]. intros n k. apply not_elem_of_nil.
  - lia.
  - apply sample_world_inv.
  - reflexivity.
  - reflexivity.
  - apply sample_world_ok. lia.
  - apply surjective_pairing.
Defined.

(** The run above ends with the new data at the destination. *)
Example busy_run :
  let r := DoSync (env := working_env) true 10 busy_schedule 20 sample_world in
  r.1 = Ret tt /\ c_dst (core r.2) 1600 = 7 /\ c_dst (core r.2) 100 = 100 /\
  c_traces (core r.2) = [] /\ im_card (unsynced_sector_map_ (c_store (core r.2))) = 0.
Proof. vm_compute. split_and!; reflexivity. Qed.
