(* ===== verification/SyncFrames.v ===== *)
(** * What the steps of DoSync leave alone

    A property of the world that does not depend on the bytes, the store,
    the counters and the scheduled faults is kept by every step of DoSync
    but its calls on the devices and on the coordinator.  With it: the
    descriptors of a synchronizer. *)

From S2P Require Import Prelude Machine Icl IclRef SectorStore Posix BlockDevice StatusTracker Coordinator.
From S2P Require Import FreezeHelper TraceHandler DeviceSynchronizer SyncSafety.

Section Frame.
Context {TM TS C H : Type} `{!IclMap TM, !IclSet TS, !Coordinator C, !CountHandler H} {E : Env}.
Context (freezable : bool) (latency : Z) (schedule : nat -> point -> list env_action).
Abbreviation world := (World TM TS C H).
Implicit Types w : world.

Context (P : world -> Prop).
Hypothesis P_core : forall c w, P w -> P (set_core c w).
Hypothesis P_counts : forall h w, P w -> P (set_counts h w).
Hypothesis P_faults : forall f w, P w -> P (set_faults f w).
Hypothesis P_bump : forall w, P w -> P (bump w).
Hypothesis P_others : forall n p o c w, ECoordinator o ∈ schedule n p -> P w -> P (set_coordinator c w).

Lemma stable_core {A} (m : M (Core TM TS) A) : stable P (on_core m).
Proof. by apply stable_zoom. Qed.

Lemma stable_counts {A} (m : M H A) : stable P (on_counts m).
Proof. by apply stable_zoom. Qed.

Lemma stable_time : stable P time_NULL.
Proof. apply stable_gets. Qed.

Hint Resolve stable_core stable_counts stable_time : agent.

(** One structural step at a time. *)
Ltac frame :=
  repeat first
    [ solve [auto with agent]
    | apply stable_bind; [|intros ?]
    | match goal with |- stable _ (modify _) => apply stable_modify; intros ? ? end
    | case_bool
    | case_match ].

Lemma stable_sync p : stable P (sync freezable latency schedule p).
Proof.
  apply stable_bind; [auto with agent|]. intros n. apply stable_bind; [by apply stable_modify|]. intros _.
  apply stable_for_each. intros a Ha. unfold env_act. destruct a; frame. by eapply P_others.
Qed.

Hint Resolve stable_sync : agent.

Lemma stable_copy_block sfd dfd bs off : stable P (copy_block freezable latency schedule sfd dfd bs off).
Proof. unfold copy_block, pread, pwrite. frame. Qed.

Lemma stable_while_frozen {A} (m : M world A) : stable P m -> stable P (while_frozen freezable latency schedule m).
Proof.
  intros Hm w Hw. unfold while_frozen, RunWhileFrozen. apply run_attempts_state; [|exact Hm| |done].
  - change (stable P (BeginRequiredFreezeBlock freezable latency schedule)). unfold BeginRequiredFreezeBlock. frame.
  - change (stable P (EndRequiredFreezeBlock freezable latency schedule)). unfold EndRequiredFreezeBlock. frame.
Qed.

Lemma stable_copy_interval sfd dfd bs spb fuel vol n i off :
  stable P (copy_interval freezable latency schedule sfd dfd bs spb fuel vol n i off).
Proof.
  revert i off. induction fuel as [|fuel IH]; intros i off; cbn [copy_interval]; case_bool; auto with agent.
  apply stable_bind; [|auto]. destruct vol; [apply stable_while_frozen|]; apply stable_copy_block.
Qed.

(** Counting what is left. *)
Lemma stable_measure ft n :
  stable P (if n <? ONE_MEGABYTE / SECTOR_SIZE then
      now ← time_NULL;
      flush_time ← (if SECONDS_BETWEEN_FLUSHES <? now - ft
                    then sync freezable latency schedule PFlush ;; time_NULL else mret ft);
      count ← while_frozen freezable latency schedule
        (sync freezable latency schedule PCountFrozen ;; on_core (on_store UnsyncedSectorCount));
      mret (flush_time, count)
    else mret (ft, n)).
Proof. frame. Qed.

Lemma stable_with_freeze_helper {A} (m : M world A) : stable P m -> stable P (with_freeze_helper m).
Proof. intros Hm w Hw. unfold with_freeze_helper. specialize (Hm w Hw). destruct (m w). by apply P_core. Qed.

(** With a property that the calls on the coordinator keep too, the whole
    loop. *)
Lemma stable_sync_loop sfd dfd bs spb fuel ft wd total :
  stable P (on_coordinator IsCancelled) -> stable P (on_coordinator SignalFinished) ->
  stable P (on_coordinator SignalMoreWorkToDo) -> stable P (on_coordinator (WaitUntilFinished 500)) ->
  stable P (sync_loop freezable latency schedule sfd dfd bs spb fuel ft wd total).
Proof.
  intros Hc1 Hc2 Hc3 Hc4. revert ft wd total. induction fuel as [|fuel IH]; intros ft wd total; cbn [sync_loop]; [auto with agent|].
  repeat first [ solve [auto with agent] | apply stable_measure | apply stable_copy_interval
    | apply stable_bind; [|intros ?] | case_bool | case_match ].
Qed.
End Frame.

(** ** Descriptors *)

Section Descriptors.
Context {TM TS C H : Type} `{!IclMap TM, !IclSet TS, !Coordinator C, !CountHandler H} {E : Env}.
Context (freezable : bool) (latency : Z) (schedule : nat -> point -> list env_action).
Abbreviation world := (World TM TS C H).
Implicit Types w : world.
Hypothesis fresh : fresh_fds E.

(** Two devices that share the process's descriptors. *)
Definition both (base : gset Z) (s d : BlockDevice) (h : history) : Prop :=
  dev_inv (base ∪ held d) (s, h) /\ dev_inv (base ∪ held s) (d, h).

Lemma both_source base w s' h' :
  both base (source_device w) (destination_device w) (hist w) ->
  dev_inv (base ∪ held (destination_device w)) (s', h') ->
  both base s' (destination_device w) h'.
Proof.
  intros [H1 H2] H3. split; [done|].
  destruct H2 as (E1 & E2 & E3 & E4), H3 as (F1 & F2 & F3 & F4). unfold dev_inv. cbn in *.
  split_and!; [set_solver|set_solver|done|].
  intros fd [Hfd|Hfd]%elem_of_union; [apply F4; set_solver|].
  unfold held in Hfd. destruct (Z.eqb_spec (fd_ s') (-1)); [set_solver|].
  apply elem_of_singleton in Hfd as ->. by destruct F3.
Qed.

Lemma both_destination base w d' h' :
  both base (source_device w) (destination_device w) (hist w) ->
  dev_inv (base ∪ held (source_device w)) (d', h') ->
  both base (source_device w) d' h'.
Proof.
  intros [H1 H2] H3. split; [|done].
  destruct H1 as (E1 & E2 & E3 & E4), H3 as (F1 & F2 & F3 & F4). unfold dev_inv. cbn in *.
  split_and!; [set_solver|set_solver|done|].
  intros fd [Hfd|Hfd]%elem_of_union; [apply F4; set_solver|].
  unfold held in Hfd. destruct (Z.eqb_spec (fd_ d') (-1)); [set_solver|].
  apply elem_of_singleton in Hfd as ->. by destruct F3.
Qed.

Definition both_w base w : Prop := both base (source_device w) (destination_device w) (hist w).

Lemma both_on_source {A} base (m : IO BlockDevice A) w :
  (forall b v, dev_inv b v -> dev_inv b (m v).2) -> both_w base w -> both_w base (on_source m w).2.
Proof.
  intros Hm Hb. unfold on_source, zoom. pose proof (Hm _ _ (proj1 Hb)) as H1.
  destruct (m (source_device w, hist w)) as [o [s' h']]. by apply (both_source base w).
Qed.

Lemma both_on_destination {A} base (m : IO BlockDevice A) w :
  (forall b v, dev_inv b v -> dev_inv b (m v).2) -> both_w base w -> both_w base (on_destination m w).2.
Proof.
  intros Hm Hb. unfold on_destination, zoom. pose proof (Hm _ _ (proj2 Hb)) as H1.
  destruct (m (destination_device w, hist w)) as [o [s' h']]. by apply (both_destination base w).
Qed.

Lemma stable_loop base sfd dfd bs spb fuel :
  stable (both_w base) (sync_loop freezable latency schedule sfd dfd bs spb fuel 0 false 0).
Proof. apply stable_sync_loop; try done; by apply stable_zoom. Qed.

Lemma stable_close base : stable (both_w base) (on_source BlockDevice_Close ;; on_destination BlockDevice_Close).
Proof.
  apply stable_bind; [intros w; apply both_on_source, (Close_inv fresh)|]. intros _ w.
  apply both_on_destination, (Close_inv fresh).
Qed.

Lemma stable_DoSync base fuel : stable (both_w base) (DoSync freezable latency schedule fuel).
Proof.
  apply stable_bind; [intros w; apply both_on_source, (Open_inv fresh)|]. intros sfd.
  apply stable_bind; [intros w; apply both_on_destination, (Open_inv fresh)|]. intros dfd.
  apply stable_with_freeze_helper; [done|]. apply stable_bind; [apply stable_gets|]. intros bs. apply stable_bind; [apply stable_loop|]. intros _.
  apply stable_close.
Qed.

(** C32: no descriptor outlives a synchronizer.  For two closed devices,
    whatever the kernel answers, whatever happens during the run and
    however DoSync ends (return, exception, or stopped in the middle),
    after the synchronizer's destructor exactly the descriptors are open
    that were open before. *)
Theorem synchronizer_releases_descriptors fuel w :
  fd_ (source_device w) = -1 -> fd_ (destination_device w) = -1 ->
  (forall fd, fd ∈ open_fds (hist w) -> 0 <= fd) ->
  let w1 := final (DoSync freezable latency schedule fuel) w in
  let w2 := final DeviceSynchronizer_destroy w1 in
  open_fds (hist w2) = open_fds (hist w) /\
  fd_ (source_device w2) = -1 /\ fd_ (destination_device w2) = -1.
Proof.
  intros Hs Hd Hpos w1 w2. set (base := open_fds (hist w)).
  assert (both_w base w) as Hb.
  { unfold both_w, both, dev_inv, held. cbn. rewrite Hs, Hd. cbn [Z.eqb Pos.eqb]. fold base.
    split; (split_and!; [set_solver|set_solver|by left|]); intros fd Hfd; apply Hpos; set_solver. }
  assert (both_w base w1) as H1 by (by apply stable_DoSync).
  assert (fd_ (source_device w2) = -1 /\ fd_ (destination_device w2) = -1) as [F1 F2].
  { unfold w2, final, DeviceSynchronizer_destroy. rewrite bind_unfold.
    unfold BlockDevice_Close, on_source, on_destination, zoom. by io. }
  assert (both_w base w2) as [(E2 & _) _] by (by apply stable_close).
  split; [|done]. cbn in E2. unfold held in E2. rewrite F1, F2 in E2. set_solver.
Qed.
End Descriptors.

Lemma synchronizer_releases_descriptors_witness :
  let w1 := final (DoSync (env := working_env) true 10 busy_schedule 3) sample_world in
  let w2 := final (DeviceSynchronizer_destroy (env := working_env)) w1 in
  open_fds (hist w2) = open_fds (hist sample_world) /\
  fd_ (source_device w2) = -1 /\ fd_ (destination_device w2) = -1.
Proof.
  apply (synchronizer_releases_descriptors (E := working_env) true 10 busy_schedule working_env_fresh
    3 sample_world); [reflexivity|reflexivity|].
  intros fd Hfd. by apply not_elem_of_empty in Hfd.
Defined.
