(* ===== verification/SyncRuns.v ===== *)
(** * Complete and incomplete runs of DoSync

    When nobody but the program itself touches the devices, DoSync
    terminates and the destination has every sector it was to copy, while
    time passes and the freezes run out; and three schedules that show what
    the hypotheses are for. *)

From S2P Require Import Prelude Machine Icl IclRef SectorStore Posix BlockDevice StatusTracker Coordinator.
From S2P Require Import FreezeHelper TraceHandler DeviceSynchronizer SyncSafety.

(** ** A source that is left alone *)

(** The thread of the freeze helper thaws at step [n]. *)
Definition expires (schedule : nat -> point -> list env_action) (n : nat) : Prop :=
  exists p, EExpire ∈ schedule n p.

(** Nobody else writes and nothing fails: only time passes, and freezes run
    out.  A freeze lasts for [freeze_time_millis_], two seconds, and an
    attempt of RunWhileFrozen takes at most five steps (freeze, wake up,
    read, write, look at the flag): no two freezes run out within ten
    steps. *)
Record undisturbed (schedule : nat -> point -> list env_action) : Prop := {
  ud_actions : forall n p a, a ∈ schedule n p -> a = EExpire \/ exists seconds, a = ETick seconds;
  ud_freezes : forall n m, expires schedule n -> expires schedule m -> (n < m)%nat -> (n + 10 <= m)%nat
}.

Definition quiet_schedule : nat -> point -> list env_action := fun _ _ => [].

Lemma quiet_undisturbed : undisturbed quiet_schedule.
Proof. split; [by intros n p a ?%not_elem_of_nil|by intros n m [p ?%not_elem_of_nil]]. Qed.

(** A second passes at every step, and every thirteenth a freeze runs out. *)
Definition clock_schedule : nat -> point -> list env_action := fun n _ =>
  ETick 1 :: if decide (n mod 13 = 5)%nat then [EExpire] else [].

Lemma clock_expires n : expires clock_schedule n -> (n mod 13 = 5)%nat.
Proof.
  intros [p Hp]. unfold clock_schedule in Hp. apply elem_of_cons in Hp as [?|Hp]; [done|].
  destruct (decide (n mod 13 = 5)%nat); [done|by apply not_elem_of_nil in Hp].
Qed.

Lemma clock_undisturbed : undisturbed clock_schedule.
Proof.
  split.
  - intros n p a. unfold clock_schedule. rewrite elem_of_cons. intros [->|Ha]; [eauto|left].
    destruct (decide (n mod 13 = 5)%nat); [by apply list_elem_of_singleton|by apply not_elem_of_nil in Ha].
  - intros n m Hn%clock_expires Hm%clock_expires Hlt.
    pose proof (Nat.div_mod_eq n 13). pose proof (Nat.div_mod_eq m 13). lia.
Qed.

Section Quiet.
Context {TM TS C H : Type} `{!IclMap TM, !IclMapLaws TM, !IclSet TS, !IclSetLaws TS}
  `{!Coordinator C, !CountHandler H, !CountHandlerLaws H} {env : Env}.
Context (freezable : bool) (latency : Z) (schedule : nat -> point -> list env_action).
Hypothesis left_alone : undisturbed schedule.
Abbreviation world := (World TM TS C H).
Implicit Types w : world.

Context (sfd dfd spb size clock : Z).
Hypothesis spb_range : 1 <= spb < 2 ^ 22.
Hypothesis size_small : 0 <= size <= 2 ^ 62.

(** Nothing goes wrong and every sector to copy has its block inside the
    device; [clock] is when it began. *)
Record calm w : Prop := {
  ca_faults : faults w = no_faults;
  ca_traces : c_traces (core w) = [];
  ca_inflight : c_inflight (core w) = [];
  ca_clock : clock <= c_clock (core w);
  ca_sfd : fd_ (source_device w) = sfd;
  ca_dfd : fd_ (destination_device w) = dfd;
  ca_size : device_size_bytes_ (source_device w) = size;
  ca_dsize : size <= device_size_bytes_ (destination_device w);
  ca_store : forall x, is_Some (at_ (core w) x) -> 0 <= x /\ 512 * (x + spb) <= size;
  ca_vs : 0 <= vs_ (core w) < clock
}.

(** A step that copies or waits. *)
Definition idle w w' : Prop :=
  calm w' /\ c_store (core w') = c_store (core w) /\ counts w' = counts w /\
  source_device w' = source_device w /\ destination_device w' = destination_device w /\
  hist w' = hist w /\ coordinator w' = coordinator w /\ (forall b, c_src (core w') b = c_src (core w) b).

Lemma idle_refl w : calm w -> idle w w.
Proof. by split. Qed.

Lemma idle_trans w1 w2 w3 : idle w1 w2 -> idle w2 w3 -> idle w1 w3.
Proof.
  intros (? & ? & ? & ? & ? & ? & ? & ?) (? & ? & ? & ? & ? & ? & ? & ?). split_and!; try congruence.
Qed.

(** A step that only waits. *)
Definition pause w w' : Prop := idle w w' /\ c_dst (core w') = c_dst (core w).

Lemma pause_refl w : calm w -> pause w w.
Proof. by split; [apply idle_refl|]. Qed.

Lemma pause_trans w1 w2 w3 : pause w1 w2 -> pause w2 w3 -> pause w1 w3.
Proof. intros [? ?] [? ?]. split; [by eapply idle_trans|congruence]. Qed.

(** The flag of the freeze changes only where a freeze runs out; [k] bounds
    the number of steps. *)
Definition lasts (k : nat) w w' : Prop :=
  (step_no w <= step_no w' <= step_no w + k)%nat /\
  (c_frozen (core w') = c_frozen (core w) \/
   exists n, (step_no w <= n < step_no w')%nat /\ expires schedule n).

Lemma lasts_refl w : lasts 0 w w.
Proof. split; [lia|by left]. Qed.

Lemma lasts_trans j k w1 w2 w3 : lasts j w1 w2 -> lasts k w2 w3 -> lasts (j + k) w1 w3.
Proof.
  intros [H1 [E1|(n & Hn & He)]] [H2 [E2|(m & Hm & He')]].
  - split; [lia|left; congruence].
  - split; [lia|right; exists m; split; [lia|done]].
  - split; [lia|right; exists n; split; [lia|done]].
  - split; [lia|right; exists n; split; [lia|done]].
Qed.

Lemma quiet_act n p a w :
  calm w -> a ∈ schedule n p ->
  exists w', env_act freezable latency a w = (Ret tt, w') /\ pause w w' /\ step_no w' = step_no w /\
    (c_frozen (core w') = c_frozen (core w) \/ expires schedule n).
Proof.
  intros Hw Ha. pose proof (ca_inflight w Hw) as Hi. unfold env_act. run.
  destruct (ud_actions _ left_alone _ _ _ Ha) as [->|[sec ->]]; unfold on_core, zoom; run; eexists;
    (split; [done|]); (split; [|split; [done|]]).
  - split; [|done]. split; [|done]. destruct Hw. by split.
  - right. by exists p.
  - unfold complete_if. cbn [c_inflight]. rewrite Hi. cbn. split; [|done]. split; [|done]. destruct Hw. split; auto; cbn; lia.
  - left. unfold complete_if. cbn [c_inflight]. by rewrite Hi.
Qed.

Lemma quiet_sync p w :
  calm w -> exists w', sync freezable latency schedule p w = (Ret tt, w') /\ pause w w' /\ lasts 1 w w'.
Proof.
  intros Hw. unfold sync. run. set (n := step_no w).
  assert (forall l w1, (forall a, a ∈ l -> a ∈ schedule n p) -> calm w1 ->
    exists w', for_each l (env_act freezable latency) w1 = (Ret tt, w') /\ pause w1 w' /\ step_no w' = step_no w1 /\
      (c_frozen (core w') = c_frozen (core w1) \/ expires schedule n)) as Hl.
  { induction l as [|a l IH]; intros w1 Hin H1; cbn [for_each].
    - exists w1. split_and!; [done|by apply pause_refl|done|by left].
    - destruct (quiet_act n p a w1 H1) as (w2 & R2 & P2 & S2 & F2); [apply Hin; left|].
      destruct (IH w2) as (w3 & R3 & P3 & S3 & F3); [intros b Hb; apply Hin; by right|apply P2|].
      exists w3. rewrite bind_unfold, R2. split_and!; [done|by eapply pause_trans|congruence|].
      destruct F2 as [F2|?], F3 as [F3|?]; auto. left. congruence. }
  assert (pause w (bump w)) as Pb by (split; [|done]; split; [|done]; destruct Hw; by split).
  destruct (Hl (schedule n p) (bump w)) as (w' & R & P & S' & F); [done|apply Pb|].
  exists w'. split; [done|]. split; [exact (pause_trans _ _ _ Pb P)|]. cbn in S'. split; [lia|].
  destruct F as [F|F]; [by left|right]. exists n. split; [unfold n; lia|done].
Qed.

(** Runs the program up to and over its next [sync]. *)
Ltac pass w1 P1 L1 H0 :=
  run;
  match goal with |- context [sync _ _ _ ?p ?w] => destruct (quiet_sync p w H0) as (w1 & -> & P1 & L1) end;
  run.

Lemma set_faults_pause w : calm w -> pause w (set_faults no_faults w).
Proof. intros []. split; [|done]. split; [|done]. by split. Qed.

Lemma quiet_copy_block off w :
  calm w -> 0 <= off -> off + 512 * spb <= size ->
  exists w', copy_block freezable latency schedule sfd dfd (512 * spb) off w = (Ret tt, w') /\
    idle w w' /\ lasts 2 w w' /\
    forall b, c_dst (core w') b = write_bytes off (512 * spb) (c_src (core w)) (c_dst (core w)) b.
Proof.
  intros Hw Ho Hs. unfold copy_block. pass w1 P1 L1 Hw. destruct P1 as [I1 D1]. pose proof (proj1 I1) as C1.
  unfold pread. run. rewrite (ca_faults w1 C1).
  cbn [f_read f_write f_freeze f_lost no_faults]. rewrite (ca_sfd w1 C1), Z.eqb_refl, (proj2 (Z.leb_le 0 off) Ho), (ca_size w1 C1).
  cbn [andb]. replace (Z.max 0 (Z.min (512 * spb) (size - off))) with (512 * spb) by lia.
  destruct (Z.eqb_spec (512 * spb) (-1)); [lia|]. rewrite Z.eqb_refl. cbn [negb].
  change (mkFaults None None false false) with no_faults.
  pass w2 P2 L2 (proj1 (proj1 (set_faults_pause w1 C1))). destruct P2 as [I2 D2]. pose proof (proj1 I2) as C2.
  unfold pwrite. run. rewrite (ca_faults w2 C2).
  cbn [f_write f_read f_freeze f_lost no_faults].
  rewrite (ca_dfd w2 C2), Z.eqb_refl, (proj2 (Z.leb_le 0 off) Ho). cbn [andb].
  pose proof (ca_dsize w2 C2).
  replace (Z.max 0 (Z.min (512 * spb) (device_size_bytes_ (destination_device w2) - off)))
    with (512 * spb) by lia.
  unfold on_core, zoom. run.
  destruct (Z.eqb_spec (512 * spb) (-1)); [lia|]. rewrite Z.eqb_refl. cbn [negb].
  eexists. split; [done|]. rewrite Z.min_id. split_and!.
  - eapply idle_trans; [exact I1|]. eapply idle_trans; [apply set_faults_pause, C1|]. eapply idle_trans; [exact I2|].
    split; [|done]. destruct C2. by split.
  - exact (lasts_trans 1 1 _ _ _ L1 L2).
  - intros b. cbn [core c_dst set_core set_faults]. cbn. rewrite D2. cbn. rewrite D1. unfold write_bytes.
    case_bool; [|done]. by destruct I1 as (_ & _ & _ & _ & _ & _ & _ & ->).
Qed.

Lemma freeze_pause w :
  calm w -> pause w (set_core (freeze freezable (core w)) w).
Proof.
  intros Hw. pose proof (ca_inflight w Hw) as Hi. unfold freeze, complete_if. destruct freezable; rewrite ?Hi; cbn;
    (split; [|done]); (split; [|done]); destruct Hw; by split.
Qed.

(** BeginRequiredFreezeBlock: the filesystem is frozen afterwards, or its
    freeze has run out already. *)
Lemma quiet_begin w :
  calm w -> exists w', BeginRequiredFreezeBlock freezable latency schedule w = (Ret tt, w') /\ pause w w' /\
    (step_no w <= step_no w' <= step_no w + 2)%nat /\
    (c_frozen (core w') = true \/ exists n, (step_no w <= n < step_no w')%nat /\ expires schedule n).
Proof.
  intros Hw. unfold BeginRequiredFreezeBlock. run. destruct (c_frozen (core w)) eqn:Ef.
  { exists w. split_and!; [done|by apply pause_refl|lia|lia|by left]. }
  pass w1 P1 L1 Hw. pose proof (proj1 (proj1 P1)) as C1. rewrite (ca_faults w1 C1).
  cbn [f_freeze f_read f_write f_lost no_faults]. change (mkFaults None None false false) with no_faults.
  pose proof (set_faults_pause w1 C1) as P2. run. unfold on_core, zoom. run.
  pose proof (freeze_pause _ (proj1 (proj1 P2))) as P3.
  pass w4 P4 L4 (proj1 (proj1 P3)). rewrite (ca_faults w4 (proj1 (proj1 P4))). cbn [f_lost no_faults]. run.
  exists w4. split; [done|]. split.
  { eapply pause_trans; [exact P1|]. eapply pause_trans; [exact P2|]. by eapply pause_trans. }
  destruct L1 as [L1 _], L4 as [L4 F4]. cbn [step_no set_core set_faults core] in L4, F4.
  split; [lia|]. destruct F4 as [F4|(n & Hn & He)]; [left; by rewrite F4|right; exists n; split; [lia|done]].
Qed.

(** Something that takes at most two steps succeeds in the first attempt or
    in the second: if the freeze ran out during the first, the one made for
    the second lasts. *)
Lemma quiet_while_frozen {A} (m : M world A) (P : world -> Prop) (R : A -> world -> Prop) w :
  calm w -> P w ->
  (forall w1 w2, pause w1 w2 -> P w1 -> P w2) -> (forall a w1 w2, pause w1 w2 -> R a w1 -> R a w2) ->
  (forall w1, calm w1 -> P w1 ->
     exists a w2, m w1 = (Ret a, w2) /\ idle w1 w2 /\ lasts 2 w1 w2 /\ P w2 /\ R a w2) ->
  exists a w', while_frozen freezable latency schedule m w = (Ret a, w') /\ idle w w' /\ R a w'.
Proof.
  intros Hw HP SP SR Hm. unfold while_frozen, RunWhileFrozen.
  assert (forall n w, calm w -> P w -> exists a w' b,
    run_attempts (BeginRequiredFreezeBlock freezable latency schedule) (EndRequiredFreezeBlock freezable latency schedule) (S n) m w =
      (if b : bool then (Ret a, w') else run_attempts (BeginRequiredFreezeBlock freezable latency schedule)
         (EndRequiredFreezeBlock freezable latency schedule) n m w') /\
    idle w w' /\ P w' /\ R a w' /\ (step_no w <= step_no w' <= step_no w + 5)%nat /\
    (b = true \/ exists k, (step_no w <= k < step_no w')%nat /\ expires schedule k)) as Ht.
  { clear w Hw HP. intros n w Hw HP. cbn [run_attempts]. destruct (quiet_begin w Hw) as (w1 & RB & P1 & S1 & F1).
    pose proof (proj1 (proj1 P1)) as C1. destruct (Hm w1 C1 (SP _ _ P1 HP)) as (a & w2 & R2 & I2 & [S2 F2] & HP2 & HR2).
    rewrite bind_unfold, RB, bind_unfold, R2, bind_unfold. unfold EndRequiredFreezeBlock.
    pass w3 P3 L3 (proj1 I2). destruct L3 as [S3 F3]. exists a, w3, (c_frozen (core w3)).
    split; [by destruct (c_frozen (core w3))|]. split_and!; [|by eapply SP|by eapply SR|lia|lia|].
    { eapply idle_trans; [apply P1|]. eapply idle_trans; [exact I2|]. apply P3. }
    destruct F1 as [F1|(k & Hk & He)]; [|right; exists k; split; [lia|done]].
    destruct F2 as [F2|(k & Hk & He)]; [|right; exists k; split; [lia|done]].
    destruct F3 as [F3|(k & Hk & He)]; [left; congruence|right; exists k; split; [lia|done]]. }
  destruct (Ht 9%nat w Hw HP) as (a & w1 & b & E1 & I1 & P1 & R1 & S1 & F1). rewrite E1.
  destruct b; [by exists a, w1|]. destruct F1 as [?|(k1 & Hk1 & He1)]; [done|].
  destruct (Ht 8%nat w1 (proj1 I1) P1) as (a2 & w2 & b & E2 & I2 & P2 & R2 & S2 & F2). rewrite E2.
  destruct b; [exists a2, w2; split; [done|]; split; [by eapply idle_trans|done]|].
  destruct F2 as [?|(k2 & Hk2 & He2)]; [done|]. exfalso.
  pose proof (ud_freezes _ left_alone k1 k2 He1 He2). lia.
Qed.

(** One block of the loop, volatile or not. *)
Lemma quiet_one_block (vol : bool) off w :
  calm w -> 0 <= off -> off + 512 * spb <= size ->
  exists w', (if vol then while_frozen freezable latency schedule
      (copy_block freezable latency schedule sfd dfd (512 * spb) off)
      else copy_block freezable latency schedule sfd dfd (512 * spb) off) w = (Ret tt, w') /\ idle w w' /\
    forall b, c_dst (core w') b = write_bytes off (512 * spb) (c_src (core w)) (c_dst (core w)) b.
Proof.
  intros Hw Ho Hs. destruct vol.
  - set (target := write_bytes off (512 * spb) (c_src (core w)) (c_dst (core w))).
    destruct (quiet_while_frozen (copy_block freezable latency schedule sfd dfd (512 * spb) off)
      (fun w1 => (forall b, c_src (core w1) b = c_src (core w) b) /\
                 forall b, c_dst (core w1) b = c_dst (core w) b \/ c_dst (core w1) b = target b)
      (fun _ w1 => forall b, c_dst (core w1) b = target b) w Hw)
      as ([] & w' & R & I & HR); [by split; [|left]| | | |by exists w'].
    + intros w1 w2 [I ->] [Hsrc Hd]. split; [|done]. intros b.
      destruct I as (_ & _ & _ & _ & _ & _ & _ & ->). apply Hsrc.
    + by intros _ w1 w2 [_ ->].
    + intros w1 C1 [Hsrc Hd]. destruct (quiet_copy_block off w1 C1 Ho Hs) as (w2 & R2 & I2 & L2 & D2).
      assert (forall b, c_dst (core w2) b = target b) as Ht.
      { intros b. rewrite D2. specialize (Hd b). unfold target, write_bytes in *. case_bool; [apply Hsrc|by destruct Hd]. }
      exists tt, w2. split_and!; auto. intros b. destruct I2 as (_ & _ & _ & _ & _ & _ & _ & ->). apply Hsrc.
  - destruct (quiet_copy_block off w) as (w2 & R2 & I2 & _ & D2); [done..|]. by exists w2.
Qed.

(** The number of blocks that cover [k] sectors. *)
Definition blocks (k : Z) : Z := Z.max 0 ((k + spb - 1) / spb).

Lemma blocks_step k : 0 < k -> blocks k = 1 + blocks (k - spb) /\ 0 <= blocks (k - spb).
Proof.
  intros Hk. unfold blocks. replace (k - spb + spb - 1) with (k - 1) by lia.
  replace (k + spb - 1) with (k - 1 + 1 * spb) by lia. rewrite Z.div_add by lia.
  pose proof (Z.div_pos (k - 1) spb). lia.
Qed.

Lemma blocks_none k : k <= 0 -> blocks k = 0.
Proof.
  intros Hk. unfold blocks. apply Z.max_l. apply Z.lt_succ_r. apply Z.div_lt_upper_bound; lia.
Qed.

Lemma write_bytes_join o n m (buf disk : Z -> Z) b :
  0 <= n -> 0 <= m -> write_bytes (o + n) m buf (write_bytes o n buf disk) b = write_bytes o (n + m) buf disk b.
Proof.
  intros Hn Hm. unfold write_bytes.
  destruct (Z.leb_spec (o + n) b), (Z.ltb_spec b (o + n + m)), (Z.leb_spec o b), (Z.ltb_spec b (o + n)),
    (Z.ltb_spec b (o + (n + m))); cbn; try done; lia.
Qed.

Lemma quiet_copy_interval fuel vol lo n i w :
  calm w -> 0 <= lo -> 0 <= i -> (n <= i + Z.of_nat fuel) ->
  (0 < n -> 512 * (lo + n - 1 + spb) <= size) ->
  exists w', copy_interval freezable latency schedule sfd dfd (512 * spb) spb fuel vol n i
      (512 * (lo + i)) w = (Ret tt, w') /\ idle w w' /\
    forall b, c_dst (core w') b =
      write_bytes (512 * (lo + i)) (512 * spb * blocks (n - i)) (c_src (core w)) (c_dst (core w)) b.
Proof.
  intros Hw Hlo Hi Hn Hb. revert i w Hw Hi Hn.
  induction fuel as [|fuel IH]; intros i w Hw Hi Hn; cbn [copy_interval]; destruct (Z.ltb_spec i n) as [Hlt|Hge]; try lia.
  1, 3: exists w; (split; [done|]); (split; [by apply idle_refl|]); intros b; rewrite blocks_none by lia;
    unfold write_bytes; by destruct (Z.leb_spec (512 * (lo + i)) b), (Z.ltb_spec b (512 * (lo + i) + 512 * spb * 0)); cbn; [lia|..].
  destruct (quiet_one_block vol (512 * (lo + i)) w) as (w1 & R1 & I1 & D1); [done|lia|lia|].
  rewrite bind_unfold, R1, u64_id, i64_id by (unfold is_u64; lia).
  replace (512 * (lo + i) + 512 * spb) with (512 * (lo + (i + spb))) by lia.
  destruct (IH (i + spb) w1) as (w2 & R2 & I2 & D2); [apply I1|lia|lia|].
  exists w2. split; [done|]. split; [by eapply idle_trans|]. intros b. rewrite D2.
  destruct (blocks_step (n - i)) as [-> Hnn]; [lia|]. replace (n - (i + spb)) with (n - i - spb) by lia.
  replace (512 * spb * (1 + blocks (n - i - spb))) with (512 * spb + 512 * spb * blocks (n - i - spb)) by ring.
  rewrite <- write_bytes_join by nia. replace (512 * (lo + (i + spb))) with (512 * (lo + i) + 512 * spb) by ring.
  unfold write_bytes at 1 2. rewrite D1. by destruct I1 as (_ & _ & _ & _ & _ & _ & _ & ->).
Qed.


Lemma on_coordinator_run {A} (m : M C A) w o c' :
  m (coordinator w) = (o, c') -> on_coordinator m w = (o, set_coordinator c' w).
Proof. intros E. unfold on_coordinator, zoom. by rewrite E. Qed.

Lemma on_counts_run {A} (m : M H A) w o h' :
  m (counts w) = (o, h') -> on_counts m w = (o, set_counts h' w).
Proof. intros E. unfold on_counts, zoom. by rewrite E. Qed.

Definition card w : Z := im_card (unsynced_sector_map_ (c_store (core w))).

Lemma set_store_idle (s' : UnsyncedSectorStore TM TS) w :
  calm w -> unsynced_sector_map_ s' = unsynced_sector_map_ (c_store (core w)) ->
  volatile_seconds_ s' = volatile_seconds_ (c_store (core w)) -> calm (set_store s' w).
Proof.
  intros [] E1 E2. split; cbn; auto; unfold at_, vs_; cbn; by rewrite ?E1, ?E2.
Qed.

Lemma quiet_count w :
  calm w ->
  exists w', while_frozen freezable latency schedule
      (sync freezable latency schedule PCountFrozen ;;
       on_core (on_store UnsyncedSectorCount)) w = (Ret (card w), w') /\ idle w w'.
Proof.
  intros Hw.
  destruct (quiet_while_frozen (sync freezable latency schedule PCountFrozen ;;
    on_core (on_store UnsyncedSectorCount)) (fun w1 => c_store (core w1) = c_store (core w)) (fun a _ => a = card w) w Hw)
    as (a & w' & R & I & ->); [done| |done| |by exists w'].
  - intros w1 w2 [(_ & -> & _) _]. done.
  - intros w1 C1 E1. pass w2 P2 L2 C1. erewrite on_store_Ret by done. destruct P2 as [I2 _].
    assert (c_store (core w2) = c_store (core w)) as E2 by (rewrite <- E1; apply I2).
    eexists _, _. split; [done|]. split_and!; [|split; [destruct L2; cbn; lia|apply L2]|done|unfold card; by rewrite E2].
    eapply idle_trans; [exact I2|]. split; [|done]. by apply set_store_idle; [apply I2|..].
Qed.

(** Taking an interval out of the store and copying it. *)
Lemma quiet_interval w now (k : SectorInterval -> M world unit) :
  calm w -> 0 < card w -> clock <= now ->
  exists i w', 0 < iv_card i /\ calm w' /\ card w' = card w - iv_card i /\ counts w' = counts w /\
    source_device w' = source_device w /\ destination_device w' = destination_device w /\
    hist w' = hist w /\ coordinator w' = coordinator w /\ (forall b, c_src (core w') b = c_src (core w) b) /\
    ('(to_sync_interval, is_volatile) ← on_core (on_store (GetInterval now));
     sync freezable latency schedule PRemove ;;
     on_core (on_store (RemoveInterval to_sync_interval)) ;;
     let offset := i64 (lower to_sync_interval * SECTOR_SIZE) in
     let cardinality := iv_card to_sync_interval in
     copy_interval freezable latency schedule sfd dfd (512 * spb) spb (Z.to_nat cardinality)
       is_volatile cardinality 0 offset ;;
     k to_sync_interval) w = k i w'.
Proof.
  intros Hw Hcard Hnow. set (s := c_store (core w)).
  destruct (interval_answer s now) as [i b] eqn:Ea.
  assert (im_segments (unsynced_sector_map_ s) <> []) as Hne.
  { intros E. apply im_card_zero in E. unfold card in Hcard. fold s in Hcard. lia. }
  destruct (interval_answer_segment s now Hne) as (t & Ht & _). rewrite Ea in Ht. cbn [fst] in Ht.
  pose proof (im_segment_nonempty _ _ _ Ht) as Hlt. pose proof (im_segment_card_pos _ _ _ Ht) as Hpos.
  assert (forall y, y ∈ i -> 0 <= y /\ 512 * (y + spb) <= size) as Hin.
  { intros y Hy. apply (ca_store w Hw). exists t. by apply (im_segment_at _ i). }
  destruct (Hin (lower i)) as [Hb1 _]; [iv_lia|]. destruct (Hin (upper i - 1)) as [_ Hb2]; [iv_lia|].
  assert (iv_card i = upper i - lower i) as Hc.
  { unfold iv_card. destruct (Z.leb_spec (upper i) (lower i)); lia. }
  rewrite bind_unfold. erewrite on_store_Ret by (apply GetInterval_run; pose proof (ca_vs w Hw); unfold vs_ in *; lia).
  fold s. rewrite Ea. cbn [fst]. set (w1 := set_store _ w).
  assert (calm w1) as C1 by (by apply set_store_idle).
  pass w1' P1 L1 C1. destruct P1 as [I1 _].
  erewrite on_store_Ret by apply RemoveInterval_run. fold (removed i w1').
  set (w2 := removed i w1'). cbn zeta. unfold SECTOR_SIZE. rewrite i64_id by lia.
  assert (calm w2) as C2.
  { destruct I1 as [[] _]. split; auto. intros y. unfold w2. rewrite removed_at.
    case_bool; [by intros []|auto]. }
  replace (lower i * 512) with (512 * (lower i + 0)) by lia.
  destruct (quiet_copy_interval (Z.to_nat (iv_card i)) b (lower i) (iv_card i) 0 w2) as (w3 & R3 & I3 & _);
    [done|lia|lia|lia|lia|].
  rewrite bind_unfold, R3. exists i, w3. destruct I3 as (I31 & I32 & I33 & I34 & I35 & I36 & I37 & I38).
  destruct I1 as (I11 & I12 & I13 & I14 & I15 & I16 & I17 & I18).
  split_and!; [done|done| |..].
  - unfold card. rewrite I32. cbn. rewrite I12. by apply (im_card_remove _ i t).
  - rewrite I33. exact I13.
  - rewrite I34. exact I14.
  - rewrite I35. exact I15.
  - rewrite I36. exact I16.
  - rewrite I37. exact I17.
  - intros y. rewrite I38. apply I18.
  - done.
Qed.

(** The coordinator while the worker copies, once it has signalled, and when
    it is let go. *)
Context (busy Q : C -> Prop) (k : nat).
Hypothesis busy_goes_on : forall c, busy c -> exists c', IsCancelled c = (Ret false, c') /\ busy c'.
Hypothesis busy_signals : forall c, busy c -> exists c', SignalFinished c = (Ret tt, c') /\ waits_out Q k c'.
Hypothesis late : SECONDS_BETWEEN_FLUSHES < clock.

(** What the counters show: [shows b t h] holds of the handler's state when
    [t] bytes have been sent, and [b] says whether that has been reported. *)
Context (shows : bool -> Z -> H -> Prop).
Hypothesis shows_unsynced : forall b t n h h',
  shows b t h -> UpdateUnsyncedCount n h = (Ret tt, h') -> shows b t h'.
Hypothesis shows_synced : forall b t t' h h',
  shows b t h -> UpdateSyncedCount t' h = (Ret tt, h') -> shows true t' h'.

(** What a finished run leaves. *)
Record finished w (reported : bool) (total : Z) w' : Prop := {
  fi_card : card w' = 0;
  fi_traces : c_traces (core w') = [];
  fi_inflight : c_inflight (core w') = [];
  fi_src : forall b, c_src (core w') b = c_src (core w) b;
  fi_coord : Q (coordinator w');
  fi_devices : source_device w' = source_device w /\ destination_device w' = destination_device w /\
               hist w' = hist w;
  fi_counts : exists h, UpdateUnsyncedCount 0 h = (Ret tt, counts w') /\
    shows (if card w =? 0 then reported else true)
      (if card w =? 0 then total else u64 (total + 512 * card w)) h
}.

(** A step that may also have told the counters something. *)
Definition steady w w' : Prop :=
  calm w' /\ card w' = card w /\ source_device w' = source_device w /\
  destination_device w' = destination_device w /\ hist w' = hist w /\
  (forall b, c_src (core w') b = c_src (core w) b).

Lemma idle_steady w w' : idle w w' -> steady w w'.
Proof. intros (? & E & ? & ? & ? & ? & ? & ?). split_and!; auto. unfold card. by rewrite E. Qed.

Lemma steady_trans w1 w2 w3 : steady w1 w2 -> steady w2 w3 -> steady w1 w3.
Proof. intros (? & ? & ? & ? & ? & ?) (? & ? & ? & ? & ? & ?). split_and!; congruence || auto. Qed.

(** Deciding whether to flush, and counting again. *)
Lemma quiet_measure ft w :
  calm w -> 0 <= ft ->
  exists w' ft', (if card w <? ONE_MEGABYTE / SECTOR_SIZE then
      now ← time_NULL;
      flush_time ← (if SECONDS_BETWEEN_FLUSHES <? now - ft
                    then sync freezable latency schedule PFlush ;; time_NULL else mret ft);
      count ← while_frozen freezable latency schedule
        (sync freezable latency schedule PCountFrozen ;; on_core (on_store UnsyncedSectorCount));
      mret (flush_time, count)
    else mret (ft, card w)) w = (Ret (ft', card w), w') /\ idle w w' /\
    0 <= ft' /\ (card w = 0 -> 0 < ft').
Proof.
  intros Hw Hft. destruct (Z.ltb_spec (card w) (ONE_MEGABYTE / SECTOR_SIZE)) as [Hs|Hs].
  2: { exists w, ft. split_and!; [done|by apply idle_refl|done|]. intros E. rewrite E in Hs. by vm_compute in Hs. }
  run. unfold time_NULL. run. pose proof (ca_clock w Hw) as Hk. unfold SECONDS_BETWEEN_FLUSHES in late |- *.
  assert (exists ft' w1, (if 5 <? c_clock (core w) - ft
      then sync freezable latency schedule PFlush ;; gets (fun w => c_clock (core w))
      else mret ft) w = (Ret ft', w1) /\ idle w w1 /\ 0 < ft') as (ft' & w1 & R1 & I1 & F1).
  { destruct (Z.ltb_spec 5 (c_clock (core w) - ft)).
    - pass w1 P1 L1 Hw. exists (c_clock (core w1)), w1. split_and!; [done|apply P1|].
      pose proof (ca_clock w1 (proj1 (proj1 P1))). lia.
    - exists ft, w. split_and!; [done|by apply idle_refl|lia]. }
  rewrite R1. run. destruct (quiet_count w1 (proj1 I1)) as (w2 & R2 & I2). rewrite R2.
  exists w2, ft'. split_and!; [|by eapply idle_trans|lia|done].
  unfold card. by rewrite (proj1 (proj2 I1)).
Qed.

(** Waiting for the others, and the rest of a round after the report of what
    is left. *)
Definition wait_rest (fuel : nat) (total flush_time : Z) : M world unit :=
  sync freezable latency schedule PWait ;;
  finished ← on_coordinator (WaitUntilFinished 500);
  if finished : bool then mret tt
  else sync_loop freezable latency schedule sfd dfd (512 * spb) spb fuel flush_time true total.

Definition round_rest (was_done : bool) (fuel : nat) (total flush_time unsynced_sector_count : Z) : M world unit :=
  if (0 <? flush_time) && (unsynced_sector_count =? 0) then
    (if was_done then mret tt
     else sync freezable latency schedule PSignal ;; on_coordinator SignalFinished) ;;
    wait_rest fuel total flush_time
  else
    (if was_done then sync freezable latency schedule PMore ;; on_coordinator SignalMoreWorkToDo ;; mret tt
     else mret tt) ;;
    now ← time_NULL;
    sync freezable latency schedule PGet ;;
    '(to_sync_interval, is_volatile) ← on_core (on_store (GetInterval now));
    sync freezable latency schedule PRemove ;;
    on_core (on_store (RemoveInterval to_sync_interval)) ;;
    let offset := i64 (lower to_sync_interval * SECTOR_SIZE) in
    let cardinality := iv_card to_sync_interval in
    copy_interval freezable latency schedule sfd dfd (512 * spb) spb (Z.to_nat cardinality)
      is_volatile cardinality 0 offset ;;
    let total' := u64 (total + cardinality * SECTOR_SIZE) in
    sync freezable latency schedule PSynced ;;
    on_counts (UpdateSyncedCount total') ;;
    sync_loop freezable latency schedule sfd dfd (512 * spb) spb fuel flush_time false total'.

(** A round of the loop up to the report of what is left; [rest] is the
    rest of the round. *)
Lemma quiet_head ft w c' (rest : Z -> Z -> M world unit) :
  calm w -> 0 <= ft -> IsCancelled (coordinator w) = (Ret false, c') ->
  exists w' ft', steady w w' /\ coordinator w' = c' /\ 0 <= ft' /\ (card w = 0 -> 0 < ft') /\
    UpdateUnsyncedCount (u64 (card w * SECTOR_SIZE)) (counts w) = (Ret tt, counts w') /\
    (sync freezable latency schedule PLoop ;;
     cancelled ← on_coordinator IsCancelled;
     if cancelled : bool then mret tt else
     sync freezable latency schedule PCount ;;
     unsynced_sector_count ← on_core (on_store UnsyncedSectorCount);
     '(flush_time, unsynced_sector_count) ←
       (if unsynced_sector_count <? ONE_MEGABYTE / SECTOR_SIZE then
          now ← time_NULL;
          flush_time ← (if SECONDS_BETWEEN_FLUSHES <? now - ft
                        then sync freezable latency schedule PFlush ;; time_NULL else mret ft);
          count ← while_frozen freezable latency schedule
            (sync freezable latency schedule PCountFrozen ;; on_core (on_store UnsyncedSectorCount));
          mret (flush_time, count)
        else mret (ft, unsynced_sector_count));
     sync freezable latency schedule PReport ;;
     on_counts (UpdateUnsyncedCount (u64 (unsynced_sector_count * SECTOR_SIZE))) ;;
     rest flush_time unsynced_sector_count) w = rest ft' (card w) w'.
Proof.
  intros Hw Hft Hcan. pass w0 P0 L0 Hw. destruct P0 as [I0 _].
  assert (coordinator w0 = coordinator w) as O0 by apply I0. rewrite <- O0 in Hcan.
  rewrite (on_coordinator_run _ w0 _ _ Hcan).
  assert (calm (set_coordinator c' w0)) as C0 by (destruct I0 as [[] _]; by split).
  pass w0' P0' L0' C0. destruct P0' as [I0' _]. erewrite on_store_Ret by done. set (w1 := set_store _ w0').
  assert (steady w w1 /\ counts w1 = counts w /\ coordinator w1 = c' /\
    im_card (unsynced_sector_map_ (c_store (core w0'))) = card w) as (S1 & N1 & O1 & K1).
  { apply idle_steady in I0 as S0. apply idle_steady in I0' as S0'. split_and!.
    - eapply steady_trans; [exact S0|]. eapply steady_trans; [|eapply steady_trans; [exact S0'|]]; (split; [|done]).
      + done.
      + by apply set_store_idle; [apply I0'|..].
    - cbn. destruct I0 as (_ & _ & N & _), I0' as (_ & _ & N' & _). cbn in N'. congruence.
    - cbn. by destruct I0' as (_ & _ & _ & _ & _ & _ & O' & _).
    - unfold card. destruct I0 as (_ & N & _), I0' as (_ & N' & _). cbn in N'. by rewrite N', N. }
  rewrite K1. clear K1. clearbody w1. destruct S1 as (C1 & K1 & S1). rewrite <- K1.
  destruct (quiet_measure ft w1 C1 Hft) as (w2 & ft' & R2 & I2 & F2 & Z2). run. rewrite R2.
  pass w3 P3 L3 (proj1 I2). destruct P3 as [I3 _]. pose proof (idle_trans _ _ _ I2 I3) as I4.
  destruct (unsynced_returns (u64 (card w1 * SECTOR_SIZE)) (counts w3)) as [h' Hh].
  rewrite (on_counts_run _ _ _ _ Hh).
  exists (set_counts h' w3), ft'. split_and!; [| |done|done| |done].
  - eapply steady_trans; [by split|]. eapply steady_trans; [by apply idle_steady|].
    split; [|done]. destruct I4 as [[] _]. by split.
  - cbn. destruct I4 as (_ & _ & _ & _ & _ & _ & -> & _). done.
  - cbn [counts set_counts] in *. rewrite <- N1, <- Hh. by rewrite (proj1 (proj2 (proj2 I4))).
Qed.

Lemma quiet_round was_done fuel ft total w c' :
  calm w -> 0 <= ft -> IsCancelled (coordinator w) = (Ret false, c') ->
  exists w' ft', steady w w' /\ coordinator w' = c' /\ 0 <= ft' /\ (card w = 0 -> 0 < ft') /\
    UpdateUnsyncedCount (u64 (card w * SECTOR_SIZE)) (counts w) = (Ret tt, counts w') /\
    sync_loop freezable latency schedule sfd dfd (512 * spb) spb (S fuel) ft was_done total w =
      round_rest was_done fuel total ft' (card w) w'.
Proof. exact (quiet_head ft w c' (round_rest was_done fuel total)). Qed.

Lemma steady_finished w w1 reported total w' :
  steady w w1 -> finished w1 reported total w' -> finished w reported total w'.
Proof.
  intros (_ & K & D1 & D2 & D3 & B) []. split; auto.
  - intros b. by rewrite fi_src0, B.
  - by rewrite <- D1, <- D2, <- D3.
  - by rewrite <- K.
Qed.

(** A call on the coordinator, between two steps. *)
Lemma coordinator_steady w w1 c : pause w w1 -> steady w (set_coordinator c w1).
Proof.
  intros [I _]. eapply steady_trans; [by apply idle_steady|]. split; [|done]. destruct I as [[] _]. by split.
Qed.

(** The worker has signalled and nothing is left: it waits, round after
    round, until it is let go. *)
Lemma quiet_wait n fuel ft reported total w h :
  calm w -> 0 < ft -> card w = 0 -> waits_out Q n (coordinator w) -> (n <= fuel)%nat ->
  UpdateUnsyncedCount 0 h = (Ret tt, counts w) -> shows reported total h ->
  exists w', wait_rest fuel total ft w = (Ret tt, w') /\ finished w reported total w'.
Proof.
  revert fuel ft w h. induction n as [|n IH]; intros fuel ft w h Hw Hft E0 (b & c' & Rw & Hb) Hle Hu Hsh;
    unfold wait_rest; pass w0 P0 L0 Hw;
    (assert (coordinator w0 = coordinator w) as O0 by apply P0); rewrite <- O0 in Rw;
    rewrite (on_coordinator_run _ w0 _ _ Rw); pose proof (coordinator_steady w w0 c' P0) as S1; (destruct b; run).
  1, 3: eexists; split; [done|]; eapply steady_finished; [exact S1|]; split; cbn; try done; try apply S1;
    [by rewrite <- E0; apply S1|exists h; unfold card; cbn; destruct P0 as [(_ & -> & -> & _) _]; unfold card in E0; by rewrite E0].
  - done.
  - destruct Hb as (c'' & Rc & Hc''). destruct fuel as [|fuel]; [lia|]. set (w1 := set_coordinator c' w0) in *.
    assert (counts w1 = counts w) as N1 by (cbn; apply P0).
    destruct (quiet_round true fuel ft total w1 c'') as (w2 & ft' & S2 & O2 & _ & Z2 & U2 & ->);
      [apply S1|lia|done|].
    assert (card w1 = 0) as E1 by (rewrite <- E0; apply S1). rewrite E1 in *. specialize (Z2 eq_refl).
    unfold round_rest. rewrite (proj2 (Z.ltb_lt 0 ft') Z2). cbn [andb Z.eqb]. run.
    destruct (IH fuel ft' w2 (counts w1)) as (w' & R' & F'); [apply S2|done| |by rewrite O2|lia|done|rewrite N1; by eauto|].
    + by rewrite (proj1 (proj2 S2)).
    + exists w'. split; [done|]. eapply steady_finished; [|exact F']. exact (steady_trans _ _ _ S1 S2).
Qed.

(** Nothing is left: the worker signals, and waits. *)
Lemma quiet_last ft reported total fuel w :
  calm w -> busy (coordinator w) -> 0 <= ft -> card w = 0 -> (k <= fuel)%nat ->
  shows reported total (counts w) ->
  exists w', sync_loop freezable latency schedule sfd dfd (512 * spb) spb (S fuel) ft false total w =
      (Ret tt, w') /\ finished w reported total w'.
Proof.
  intros Hw Hbusy Hft E0 Hk HR. destruct (busy_goes_on _ Hbusy) as (c1 & Rc & Hb1).
  destruct (quiet_round false fuel ft total w c1 Hw Hft Rc) as (w1 & ft' & S1 & O1 & _ & Z1 & N1 & ->).
  specialize (Z1 E0). unfold round_rest. rewrite E0, (proj2 (Z.ltb_lt 0 ft') Z1). cbn [andb Z.eqb].
  pass w1' P1 L1 (proj1 S1). assert (coordinator w1' = coordinator w1) as O1' by apply P1.
  rewrite <- O1, <- O1' in Hb1. destruct (busy_signals _ Hb1) as (c2 & Rs & Hwait).
  rewrite (on_coordinator_run _ w1' _ _ Rs). run. pose proof (coordinator_steady w1 w1' c2 P1) as S2.
  set (w2 := set_coordinator c2 w1') in *.
  destruct (quiet_wait k fuel ft' reported total w2 (counts w)) as (w' & R' & F'); try done.
  - apply S2.
  - rewrite (proj1 (proj2 S2)), (proj1 (proj2 S1)). done.
  - rewrite E0 in N1. assert (counts w2 = counts w1) as -> by (cbn; apply P1). exact N1.
  - exists w'. split; [done|]. eapply steady_finished; [|exact F']. by eapply steady_trans.
Qed.

(** Something is left: one interval is copied, and the next round follows. *)
Lemma quiet_more ft total fuel w :
  calm w -> busy (coordinator w) -> 0 <= ft -> 0 < card w ->
  exists i ft' w' h, busy (coordinator w') /\ 0 < iv_card i /\ 0 <= ft' /\ calm w' /\ card w' = card w - iv_card i /\
    source_device w' = source_device w /\ destination_device w' = destination_device w /\
    hist w' = hist w /\ (forall b, c_src (core w') b = c_src (core w) b) /\
    UpdateUnsyncedCount (u64 (card w * SECTOR_SIZE)) (counts w) = (Ret tt, h) /\
    UpdateSyncedCount (u64 (total + iv_card i * SECTOR_SIZE)) h = (Ret tt, counts w') /\
    sync_loop freezable latency schedule sfd dfd (512 * spb) spb (S fuel) ft false total w =
      sync_loop freezable latency schedule sfd dfd (512 * spb) spb fuel ft' false
        (u64 (total + iv_card i * SECTOR_SIZE)) w'.
Proof.
  intros Hw Hbusy Hft Hc. destruct (busy_goes_on _ Hbusy) as (c1 & Rc & Hb1).
  destruct (quiet_round false fuel ft total w c1 Hw Hft Rc)
    as (w1 & ft' & (C1 & K1 & D1 & D2 & D3 & B1) & O1 & F1 & _ & N1 & ->).
  unfold round_rest. rewrite (proj2 (Z.eqb_neq (card w) 0)) by lia. rewrite andb_false_r.
  run. unfold time_NULL. run. pose proof (ca_clock w1 C1) as Hnow. generalize dependent (c_clock (core w1)). intros now Hnow.
  destruct (quiet_sync PGet w1 C1) as (w2 & -> & [I2 _] & _). cbv beta iota.
  assert (card w2 = card w) as K2 by (rewrite <- K1; apply (idle_steady _ _ I2)).
  destruct (quiet_interval w2 now (fun i =>
    sync freezable latency schedule PSynced ;;
    on_counts (UpdateSyncedCount (u64 (total + iv_card i * SECTOR_SIZE))) ;;
    sync_loop freezable latency schedule sfd dfd (512 * spb) spb fuel ft' false
      (u64 (total + iv_card i * SECTOR_SIZE))))
    as (i & w4 & Hi & C4 & K4 & N4 & D41 & D42 & D43 & O4 & B4 & R4); [apply I2|lia|done|].
  cbv zeta in R4. rewrite R4. clear R4. pass w5 P5 L5 C4. destruct P5 as [I5 _].
  destruct (synced_returns (u64 (total + iv_card i * SECTOR_SIZE)) (counts w5)) as [h' Hh].
  rewrite (on_counts_run _ _ _ _ Hh).
  destruct I2 as (_ & _ & N2 & D21 & D22 & D23 & O2 & B2), I5 as (C5 & E5 & N5 & D51 & D52 & D53 & O5 & B5).
  exists i, ft', (set_counts h' w5), (counts w1). rewrite N5, N4, N2 in Hh. cbn.
  split_and!; try done; try congruence.
  all: first [by destruct C5; split|unfold card in *; cbn; rewrite E5; lia|intros b; by rewrite B5, B4, B2, B1].
Qed.

Lemma quiet_loop fuel ft reported total w :
  calm w -> busy (coordinator w) -> 0 <= ft -> card w + Z.of_nat k < Z.of_nat fuel ->
  shows reported total (counts w) ->
  exists w', sync_loop freezable latency schedule sfd dfd (512 * spb) spb fuel ft false total w =
      (Ret tt, w') /\ finished w reported total w'.
Proof.
  revert ft reported total w. induction fuel as [|fuel IH]; intros ft reported total w Hw Hbusy Hft Hcard HR.
  { pose proof (im_card_nonneg (unsynced_sector_map_ (c_store (core w)))). unfold card in *. lia. }
  destruct (decide (card w = 0)) as [E0|E0]; [apply quiet_last; auto; lia|].
  pose proof (im_card_nonneg (unsynced_sector_map_ (c_store (core w)))) as Hnn. fold (card w) in Hnn.
  destruct (quiet_more ft total fuel w) as (i & ft' & w1 & h & Hb1 & Hi & F1 & C1 & K1 & D1 & D2 & D3 & B1 & U1 & U2 & ->);
    [done|done|done|lia|].
  destruct (IH ft' true (u64 (total + iv_card i * SECTOR_SIZE)) w1) as (w6 & R6 & []);
    [done|done|done|lia|by eauto|].
  exists w6. split; [done|]. split; auto.
  - intros b. by rewrite fi_src0, B1.
  - destruct fi_devices0 as (X1 & X2 & X3). split_and!; congruence.
  - destruct fi_counts0 as (h0 & U0 & S0). exists h0. split; [done|].
    rewrite (proj2 (Z.eqb_neq (card w) 0)) by done. rewrite K1 in S0.
    destruct (Z.eqb_spec (card w - iv_card i) 0) as [E|E]; unfold SECTOR_SIZE in S0.
    + replace (512 * card w) with (iv_card i * 512) by lia. done.
    + replace (u64 (total + 512 * card w)) with (u64 (u64 (total + iv_card i * 512) + 512 * (card w - iv_card i)));
        [done|]. unfold u64. rewrite Zplus_mod_idemp_l. f_equal. lia.
Qed.

(** *** A worker signals by itself

    [P] holds of the coordinator once the worker has signalled, whatever it
    is told when it waits. *)
Context (P : C -> Prop).
Hypothesis signal_made : forall c, busy c -> exists c', SignalFinished c = (Ret tt, c') /\ P c'.
Hypothesis signal_kept : forall c, P c ->
  (exists b c', WaitUntilFinished 500 c = (Ret b, c') /\ P c') /\ exists c', IsCancelled c = (Ret false, c') /\ P c'.

Lemma quiet_hold fuel ft total w :
  calm w -> 0 < ft -> card w = 0 -> P (coordinator w) -> P (coordinator (wait_rest fuel total ft w).2).
Proof.
  revert ft w. induction fuel as [|fuel IH]; intros ft w Hw Hft E0 HP; unfold wait_rest; pass w0 P0 L0 Hw.
  all: assert (coordinator w0 = coordinator w) as O0 by apply P0; rewrite <- O0 in HP.
  all: destruct (signal_kept _ HP) as [(b & c' & Rw & HP') _]; rewrite (on_coordinator_run _ w0 _ _ Rw).
  all: pose proof (coordinator_steady w w0 c' P0) as S1; destruct b; run; [done|].
  - done.
  - set (w1 := set_coordinator c' w0) in *. destruct (signal_kept _ HP') as [_ (c'' & Rc & HP'')].
    destruct (quiet_round true fuel ft total w1 c'') as (w2 & ft' & S2 & O2 & _ & Z2 & _ & ->); [apply S1|lia|done|].
    assert (card w1 = 0) as E1 by (rewrite <- E0; apply S1). rewrite E1 in *. specialize (Z2 eq_refl).
    unfold round_rest. rewrite (proj2 (Z.ltb_lt 0 ft') Z2). cbn [andb Z.eqb]. run.
    apply (IH ft' w2); [apply S2|done| |by rewrite O2]. by rewrite (proj1 (proj2 S2)).
Qed.

Lemma quiet_signals fuel ft total w :
  calm w -> busy (coordinator w) -> 0 <= ft -> card w < Z.of_nat fuel ->
  P (coordinator (sync_loop freezable latency schedule sfd dfd (512 * spb) spb fuel ft false total w).2).
Proof.
  revert ft total w. induction fuel as [|fuel IH]; intros ft total w Hw Hbusy Hft Hcard.
  all: pose proof (im_card_nonneg (unsynced_sector_map_ (c_store (core w)))) as Hnn; fold (card w) in Hnn.
  { lia. }
  destruct (decide (card w = 0)) as [E0|E0].
  - destruct (busy_goes_on _ Hbusy) as (c1 & Rc & Hb1).
    destruct (quiet_round false fuel ft total w c1 Hw Hft Rc) as (w1 & ft' & S1 & O1 & _ & Z1 & _ & ->).
    specialize (Z1 E0). unfold round_rest. rewrite E0, (proj2 (Z.ltb_lt 0 ft') Z1). cbn [andb Z.eqb].
    pass w1' P1 L1 (proj1 S1). assert (coordinator w1' = coordinator w1) as O1' by apply P1.
    rewrite <- O1, <- O1' in Hb1. destruct (signal_made _ Hb1) as (c2 & Rs & HP).
    rewrite (on_coordinator_run _ w1' _ _ Rs). run. pose proof (coordinator_steady w1 w1' c2 P1) as S2.
    apply quiet_hold; [apply S2|done| |done]. rewrite (proj1 (proj2 S2)), (proj1 (proj2 S1)). done.
  - destruct (quiet_more ft total fuel w) as (i & ft' & w1 & h & Hb1 & Hi & F1 & C1 & K1 & _ & _ & _ & _ & _ & _ & ->);
      [done|done|done|lia|].
    apply IH; [done|done|done|lia].
Qed.
End Quiet.

(** A synchronizer that is ready to run, on a machine that works: the
    devices are closed and large enough, opening works, no write is under
    way, and every sector to copy has its block inside the device. *)
Record prepared {TM TS C H : Type} `{!IclMap TM, !IclSet TS} (env : Env) (spb size : Z)
    (w : World TM TS C H) : Prop := {
  re_size : 0 <= size <= 2 ^ 62;
  re_spb : 1 <= spb < 2 ^ 22;
  re_open : forall h p f, 0 <= ret (env h _ (SOpen p f));
  re_sfd : fd_ (source_device w) = -1;
  re_dfd : fd_ (destination_device w) = -1;
  re_source : device_size_bytes_ (source_device w) = size;
  re_destination : size <= device_size_bytes_ (destination_device w);
  re_block : block_size_bytes_ (source_device w) = 512 * spb;
  re_faults : faults w = no_faults;
  re_traces : c_traces (core w) = [];
  re_inflight : c_inflight (core w) = [];
  re_vs : 0 <= vs_ (core w) < c_clock (core w);
  re_late : SECONDS_BETWEEN_FLUSHES < c_clock (core w);
  re_store : forall x, is_Some (at_ (core w) x) -> 0 <= x /\ 512 * (x + spb) <= size
}.

(** And its coordinator lets it go after at most [k] waits that fail. *)
Definition ready {TM TS C H : Type} `{!IclMap TM, !IclSet TS, !Coordinator C} (env : Env) (spb size : Z)
    (Q : C -> Prop) (k : nat) (w : World TM TS C H) : Prop :=
  prepared env spb size w /\ finishes_after Q k (coordinator w).

Section QuietRun.
Context {TM TS C H : Type} `{!IclMap TM, !IclMapLaws TM, !IclSet TS, !IclSetLaws TS}
  `{!Coordinator C, !CountHandler H, !CountHandlerLaws H} {env : Env}.
Context (freezable : bool) (latency : Z) (schedule : nat -> point -> list env_action).
Hypothesis left_alone : undisturbed schedule.
Context (spb size : Z) (Q : C -> Prop) (k : nat).
Context (shows : bool -> Z -> H -> Prop).
Hypothesis shows_unsynced : forall b t n h h',
  shows b t h -> UpdateUnsyncedCount n h = (Ret tt, h') -> shows b t h'.
Hypothesis shows_synced : forall b t t' h h',
  shows b t h -> UpdateSyncedCount t' h = (Ret tt, h') -> shows true t' h'.
Implicit Types w : World TM TS C H.

(** DoSync opens both devices and goes into its loop. *)
Lemma DoSync_opens w :
  prepared env spb size w ->
  exists sfd dfd w2, calm sfd dfd spb size (c_clock (core w)) w2 /\
    coordinator w2 = coordinator w /\ core w2 = core w /\ counts w2 = counts w /\
    forall fuel, DoSync freezable latency schedule fuel w =
      with_freeze_helper (sync_loop freezable latency schedule sfd dfd (512 * spb) spb fuel 0 false 0 ;;
        on_source BlockDevice_Close ;; on_destination BlockDevice_Close) w2.
Proof.
  intros [Hsize Hspb Hopen Hs1 Hs2 Hsz Hdz Hbs Hf Htr Hfl Hvs Hlate Hst].
  pose proof (Open_run (source_device w) (hist w) Hs1) as O1. cbn zeta in O1.
  set (r1 := env _ _ _) in O1. pose proof (Hopen _ _ _ : 0 <= ret r1) as Hr1.
  rewrite (proj2 (Z.ltb_ge (ret r1) 0) Hr1) in O1.
  match type of O1 with _ = (_, (_, ?h)) => pose proof (Open_run (destination_device w) h Hs2) as O2 end. cbn zeta in O2.
  set (r2 := env _ _ _) in O2. pose proof (Hopen _ _ _ : 0 <= ret r2) as Hr2.
  rewrite (proj2 (Z.ltb_ge (ret r2) 0) Hr2) in O2.
  exists (ret r1), (ret r2). eexists. split_and!; cycle 4.
  { intros fuel. unfold DoSync. rewrite bind_unfold. unfold on_source at 1, zoom. rewrite O1.
    rewrite bind_unfold. unfold on_destination at 1, zoom. cbn [destination_device set_source hist fst snd]. rewrite O2.
    unfold with_freeze_helper. rewrite bind_unfold. cbn [gets]. cbn zeta.
    change (block_size_bytes_ (source_device _)) with (block_size_bytes_ (source_device w)).
    rewrite Hbs, (i32_id (512 * spb)), (u32_id (512 * spb)) by (unfold is_u32; lia).
    replace (512 * spb / SECTOR_SIZE) with spb by (unfold SECTOR_SIZE; rewrite Z.mul_comm, Z.div_mul; lia).
    rewrite (i32_id spb) by lia. reflexivity. }
  all: by split.
Qed.

(** DoSync around the loop: the devices are opened before and closed
    after. *)
Lemma quiet_DoSync fuel w :
  ready env spb size Q k w -> card w + Z.of_nat k < Z.of_nat fuel -> shows false 0 (counts w) ->
  exists w', DoSync freezable latency schedule fuel w = (Ret tt, w') /\ Q (coordinator w') /\
    c_traces (core w') = [] /\ card w' = 0 /\ (forall b, c_src (core w') b = c_src (core w) b) /\
    fd_ (source_device w') = -1 /\ fd_ (destination_device w') = -1 /\
    exists h, UpdateUnsyncedCount 0 h = (Ret tt, counts w') /\
      (if card w =? 0 then shows false 0 h else shows true (u64 (512 * card w)) h).
Proof.
  intros [Hp (busy & Hbusy & Hgo)] Hfuel Hshow. pose proof Hp as [Hsize Hspb _ _ _ _ _ _ _ _ _ _ Hlate _].
  destruct (DoSync_opens w Hp) as (sfd & dfd & w2 & Hc & O2 & K2 & U2 & ->).
  rewrite <- O2 in Hbusy. rewrite <- U2 in Hshow. assert (card w2 = card w) as Ec by (unfold card; by rewrite K2).
  rewrite <- Ec in Hfuel.
  destruct (quiet_loop freezable latency schedule left_alone sfd dfd spb size (c_clock (core w)) Hspb Hsize busy Q k
    (fun c Hc => proj1 (Hgo c Hc)) (fun c Hc => proj2 (Hgo c Hc)) Hlate shows shows_unsynced shows_synced fuel 0 false 0 w2 Hc Hbusy (Z.le_refl 0) Hfuel Hshow)
    as (w3 & R3 & []).
  unfold with_freeze_helper. rewrite bind_unfold, R3. unfold BlockDevice_Close, on_source, on_destination, zoom. io.
  eexists. split; [done|]. cbn. rewrite <- K2. split_and!; auto.
  destruct fi_counts0 as (h & U & Hsh). exists h. split; [done|].
  rewrite Ec in Hsh. by destruct (Z.eqb_spec (card w) 0).
Qed.

(** A worker that is prepared signals by itself: [P] holds of the
    coordinator when DoSync has used its rounds up or returned, whatever the
    coordinator answered while it waited. *)
Lemma DoSync_signals (busy P : C -> Prop) fuel w :
  prepared env spb size w -> card w < Z.of_nat fuel -> busy (coordinator w) ->
  (forall c, busy c -> exists c', IsCancelled c = (Ret false, c') /\ busy c') ->
  (forall c, busy c -> exists c', SignalFinished c = (Ret tt, c') /\ P c') ->
  (forall c, P c ->
    (exists b c', WaitUntilFinished 500 c = (Ret b, c') /\ P c') /\ exists c', IsCancelled c = (Ret false, c') /\ P c') ->
  P (coordinator (DoSync freezable latency schedule fuel w).2).
Proof.
  intros Hp Hfuel Hbusy Hgo Hsig Hkept. pose proof Hp as [Hsize Hspb Hopen Hs1 Hs2 Hsz Hdz Hbs Hf Htr Hfl Hvs Hlate Hst].
  destruct (DoSync_opens w Hp) as (sfd & dfd & w2 & Hc & O2 & K2 & _ & Ed). rewrite (Ed fuel).
  assert (card w2 = card w) as Ec by (unfold card; by rewrite K2).
  assert (P (coordinator (sync_loop freezable latency schedule sfd dfd (512 * spb) spb fuel 0 false 0 w2).2)) as HP.
  { apply (quiet_signals freezable latency schedule left_alone sfd dfd spb size (c_clock (core w)) Hspb Hsize busy Hgo Hlate P
      Hsig Hkept fuel 0 0 w2 Hc); [by rewrite O2|lia|by rewrite Ec]. }
  unfold with_freeze_helper. rewrite bind_unfold.
  destruct (sync_loop freezable latency schedule sfd dfd (512 * spb) spb fuel 0 false 0 w2) as [[[]|?|?|?|] w3]; exact HP.
Qed.

(** A prepared synchronizer satisfies the invariant of the safety proof. *)
Lemma prepared_inv inst (w : World TM TS C H) : prepared env spb size w -> winv freezable latency size inst w.
Proof.
  intros [Hsize Hspb _ _ _ Hsz Hdz Hbs _ Htr Hfl Hvs Hlate Hst].
  split; [|done]. split; auto; rewrite ?Htr, ?Hfl.
  - intros q Hq. by apply not_elem_of_nil in Hq.
  - intros q Hq. by apply not_elem_of_nil in Hq.
  - intros y Hy. apply Hst in Hy. lia.
Qed.

Lemma quiet_instant : instant schedule.
Proof. intros n p i d Hi. by destruct (ud_actions _ left_alone _ _ _ Hi) as [?|[? ?]]. Qed.

(** Every sector that was accounted for, or unchanged since a base image, is
    then settled: the destination has it, or it is as in the image. *)
Lemma quiet_settles base fuel w w' x :
  0 < latency -> prepared env spb size w -> DoSync freezable latency schedule fuel w = (Ret tt, w') ->
  c_traces (core w') = [] -> card w' = 0 -> acct base (core w) x ->
  agrees (c_dst (core w')) (core w') x \/ exists g, base g /\ agrees g (core w') x.
Proof.
  intros Hlat Hp R T' K' Hx.
  pose proof (wp_DoSync freezable latency schedule size (instant schedule) (fun H => H) (re_size _ _ _ _ Hp) Hlat
    (vs_ (core w)) base (or_introl quiet_instant) spb (re_spb _ _ _ _ Hp) fuel x w (prepared_inv _ _ Hp) eq_refl
    (re_block _ _ _ _ Hp) Hx) as Hok.
  unfold wp in Hok. rewrite R in Hok. destruct Hok as [_ Hok].
  assert (~ marked (core w') x) as Hm.
  { intros [(i & Hi & _)|Hm]; [rewrite T' in Hi; by apply not_elem_of_nil in Hi|].
    unfold at_ in Hm. rewrite (im_card_zero_at _ K') in Hm. by destruct Hm. }
  destruct Hok as [[_ [?|?]]|(g & Hg & _ & [?|?])]; [done|by left|done|right; eauto].
Qed.

(** And the destination has been given everything, and keeps what it had. *)
Lemma quiet_copies fuel w :
  0 < latency -> ready env spb size Q k w -> card w + Z.of_nat k < Z.of_nat fuel -> shows false 0 (counts w) ->
  exists w', DoSync freezable latency schedule fuel w = (Ret tt, w') /\ Q (coordinator w') /\ card w' = 0 /\
    (forall x, is_Some (at_ (core w) x) \/ agrees (c_dst (core w)) (core w) x -> agrees (c_dst (core w')) (core w') x) /\
    (forall b, c_src (core w') b = c_src (core w) b) /\
    fd_ (source_device w') = -1 /\ fd_ (destination_device w') = -1 /\
    exists h, UpdateUnsyncedCount 0 h = (Ret tt, counts w') /\
      (if card w =? 0 then shows false 0 h else shows true (u64 (512 * card w)) h).
Proof.
  intros Hlat Hr Hfuel Hshow. destruct (quiet_DoSync fuel w Hr Hfuel Hshow) as (w' & R & HQ & T' & K' & B' & X1 & X2 & X3).
  exists w'. split_and!; auto. intros x Hx. destruct Hr as [Hp _].
  destruct (quiet_settles (fun _ => False) fuel w w' x Hlat Hp R T' K') as [?|(g & [] & _)]; [|done].
  left. split; [|destruct Hx; [left; by right|by right]].
  intros q Hq. rewrite (re_inflight _ _ _ _ Hp) in Hq. by apply not_elem_of_nil in Hq.
Qed.
End QuietRun.

(** The counters of a job's status message. *)
Definition status_shows (reported : bool) (total : Z) (d : BlockDeviceStatus) : Prop :=
  reported = true -> bytes_transferred d = total.


Lemma sample_ready : ready working_env 2 8192 (fun _ => True) 0 sample_world.
Proof.
  split; [split|exact one_worker_finishes]; try reflexivity; try (cbn; lia).
  - intros h p f. apply next_fd_fresh.
  - intros x. rewrite sample_at. destruct (in_iv x (mkSI 0 8)) eqn:E; [|by intros []].
    apply in_iv_spec in E. intros _. iv_lia.
Qed.


(** Three of the eight sectors, in blocks of two. *)
Definition open_world : World ref_map ref_set BackupCoordinator BlockDeviceStatus :=
  mkWorld (core sample_world) (coordinator sample_world) (counts sample_world)
    (mkBlockDevice "/dev/sda1" 2049 8192 1024 3) (mkBlockDevice "/dev/nbd0" 11008 8192 1024 4) [] no_faults 0.

Lemma open_calm : calm 3 4 2 8192 1000 open_world.
Proof.
  split; try done; try (cbn; lia). intros x. change (at_ (core open_world) x) with (at_ (core sample_world) x).
  rewrite sample_at. destruct (in_iv x (mkSI 0 8)) eqn:E; [|by intros []]. apply in_iv_spec in E. intros _. iv_lia.
Qed.


(** What the hypotheses exclude.  A freeze that runs out in every attempt
    makes DoSync throw, and a lost wake-up makes it wait for ever: nothing
    is written and no call fails in either run. *)
Theorem freezes_too_short :
  (DoSync (env := working_env) true 10 (fun _ p => match p with PEnd => [EExpire] | _ => [] end) 9 sample_world).1 =
    Throw (BlockDeviceException "Unable to read off of disk quickly enough") /\
  forall fuel, (DoSync (env := working_env) true 10 (fun _ p => match p with PFrozen => [EWakeLost] | _ => [] end)
    (S fuel) sample_world).1 = OutOfFuel.
Proof. split; [vm_compute; reflexivity|]. intros fuel. vm_compute. reflexivity. Qed.

(** ** Two ways to finish with stale data *)

(** A write is queued and traced right after GetInterval handed out its
    sectors, and is still in the queue while they are copied. *)
Definition window_schedule : nat -> point -> list env_action := fun _ p =>
  match p with
  | PRemove => [EQueue (mkSI 2 4) (fun _ => 7); EDeliver 0]
  | PSynced => [EComplete 0]
  | PReport => [EExpire]
  | _ => []
  end.

(** The race between GetInterval and RemoveInterval.  If a trace reaches
    the store between these two calls of DoSync, RemoveInterval deletes its
    mark together with the interval; when the write it announced reaches
    the disk after the interval was copied, the change is lost.  In this
    run DoSync returns normally, nothing is queued, no trace is pending
    and the store is empty, yet the destination has old bytes of a sector
    that was traced. *)
Theorem trace_between_get_and_remove_is_lost :
  let r := DoSync (env := working_env) true 10 window_schedule 20 sample_world in
  r.1 = Ret tt /\ c_inflight (core r.2) = [] /\ c_traces (core r.2) = [] /\
  card r.2 = 0 /\ c_src (core r.2) 1024 = 7 /\ c_dst (core r.2) 1024 = 20.
Proof. vm_compute. split_and!; reflexivity. Qed.

(** The device is written to before the last freeze, and the trace is still
    in the kernel's buffer when the sectors are counted. *)
Definition pending_schedule : nat -> point -> list env_action := fun n p =>
  match p with
  | PLoop => if (n =? 0)%nat then [] else [EWrite (mkSI 2 4) (fun _ => 7)]
  | PReport => [EExpire]
  | _ => []
  end.

(** Traces still in the kernel's buffers.  The call that would flush the
    tracer before the final count is commented out.  In this run a write
    reaches the disk before the last freeze, its trace is not delivered,
    DoSync counts no unsynced sector and reports the backup as finished:
    the destination lacks data that was on the disk when it was frozen.
    The sector stays accounted for by its pending trace. *)
Theorem pending_trace_is_not_waited_for :
  let r := DoSync (env := working_env) true 10 pending_schedule 20 sample_world in
  r.1 = Ret tt /\ count_ (coordinator r.2) = 0 /\ c_traces (core r.2) = [mkSI 2 4] /\
  c_src (core r.2) 1024 = 7 /\ c_dst (core r.2) 1024 = 20.
Proof. vm_compute. split_and!; reflexivity. Qed.
