(* ===== verification/BackupChain.v ===== *)
(** * A chain of backups

    What a user of the agent relies on is not one run of DoSync but their
    sequence: a full backup and then incremental ones, with the device in
    use before, during and after each of them.  The life of a device is a
    step relation; every step keeps each sector accounted for, with respect
    to the sectors in use at the full backup and to the bytes the device
    had then. *)

From S2P Require Import Prelude Machine Icl IclRef SectorStore Posix BlockDevice StatusTracker Coordinator.
From S2P Require Import FreezeHelper TraceHandler DeviceSynchronizer SyncSafety SyncRuns.

Section Chain.
Context {TM TS C H : Type} `{!IclMap TM, !IclMapLaws TM, !IclSet TS, !IclSetLaws TS}
  `{!Coordinator C, !CountHandler H, !CountHandlerLaws H} {env : Env}.
Context (freezable : bool) (latency size spb vs0 : Z).
Abbreviation world := (World TM TS C H).
Implicit Types (c : Core TM TS) (w : world).

(** [inst]: all through the device's life, writes are on the disk before
    their traces are handled; otherwise they may linger, under the
    discipline of [SyncSafety]. *)
Context (inst : Prop).

(** A synchronizer's world with the device as its source. *)
Definition on_device w : Prop :=
  device_size_bytes_ (source_device w) = size /\ block_size_bytes_ (source_device w) = 512 * spb.

(** Something happens to the device while no backup runs, or a backup runs
    and returns: its DoSync has copied everything, or was cancelled. *)
Inductive life_step : Core TM TS -> Core TM TS -> Prop :=
| LifeAct a w w' :
    on_device w -> (inst -> forall i data, a <> EQueue i data) ->
    env_act freezable latency a w = (Ret tt, w') -> life_step (core w) (core w')
| LifeBackup schedule fuel w w' :
    on_device w -> (inst -> instant schedule) -> inst \/ disciplined freezable latency schedule vs0 ->
    DoSync freezable latency schedule fuel w = (Ret tt, w') -> life_step (core w) (core w').

Hypothesis size_small : 0 <= size <= 2 ^ 62.
Hypothesis latency_pos : 0 < latency.
Hypothesis spb_range : 1 <= spb < 2 ^ 22.

(** ** The invariant of a chain

    [used] are the sectors the full backup was to copy, [image] the bytes
    the device had when it was prepared. *)
Record chain_inv (used : Z -> Prop) (image : Z -> Z) c : Prop := {
  ch_inv : cinv freezable latency size inst c;
  ch_vs : vs_ c = vs0;
  ch_used : forall x, used x -> ok c x;
  ch_rest : forall x, acct (eq image) c x
}.

(** Preparing a full backup, with nothing on its way to the disk,
    establishes it. *)
Lemma chain_starts used c :
  cinv freezable latency size inst c -> vs_ c = vs0 -> c_inflight c = [] -> (forall x, used x -> marked c x) ->
  chain_inv used (c_src c) c.
Proof.
  intros Hc Hv Hi Hu.
  assert (forall x, noted c x) as Hn by (intros x q Hq; rewrite Hi in Hq; by apply not_elem_of_nil in Hq).
  split; [done|done|..].
  - intros x Hx. split; [apply Hn|left; by apply Hu].
  - intros x. right. exists (c_src c). split; [done|]. split; [apply Hn|]. right. by intros b _.
Qed.

Lemma life_step_inv used image c c' : life_step c c' -> chain_inv used image c -> chain_inv used image c'.
Proof.
  intros Hstep [Hc Hv Hu Hr]. destruct Hstep as [a w w' [Hs _] Ha R|schedule fuel w w' [Hs Hb] Hi Hd R].
  - assert (inst -> instant (fun _ _ => [a])) as Hi.
    { intros Hin n p i d E%list_elem_of_singleton. by apply (Ha Hin i d). }
    destruct (env_act_moves (C := C) (H := H) freezable latency (fun _ _ => [a]) size inst Hi size_small latency_pos 0 PLoop a w
      (conj Hc Hs)) as (w2 & R2 & M & _); [left|].
    rewrite R in R2. injection R2 as <-. destruct M as [E [Hc' _] _ _]. split.
    + done.
    + by rewrite (ev_vs _ _ E).
    + intros x Hx. unfold ok. rewrite (ev_dst _ _ E). by apply E, Hu.
    + intros x. destruct (Hr x) as [Hok|(g & Hg & Hok)].
      * left. unfold ok. rewrite (ev_dst _ _ E). by apply E.
      * right. exists g. split; [done|by apply E].
  - assert (forall base x, acct base (core w) x ->
      (cinv freezable latency size inst (core w') /\ vs_ (core w') = vs0) /\ acct base (core w') x) as HD.
    { intros base x Hx. pose proof (wp_DoSync freezable latency schedule size inst Hi size_small latency_pos vs0 base Hd
        spb spb_range fuel x w (conj Hc Hs) Hv Hb Hx) as Hwp. unfold wp in Hwp. by rewrite R in Hwp. }
    split; [apply (HD (eq image) 0), Hr|apply (HD (eq image) 0), Hr| |intros x; apply HD, Hr].
    intros x Hx. destruct (HD (fun _ => False) x) as [_ [?|(g & [] & _)]]; [|done]. left. by apply Hu.
Qed.

End Chain.

(** ** A chain: a full backup while the device is in use, then another write *)

Definition chain_device : BlockDevice := mkBlockDevice "/dev/sda1" 2049 8192 512 (-1).

(** The next backup of the device, with everything but the device new. *)
Definition next_backup (c : Core ref_map ref_set) : World ref_map ref_set BackupCoordinator BlockDeviceStatus :=
  mkWorld c (new_BackupCoordinator 1) (mkDeviceStatus "0000-1111" 0 0) chain_device
    (mkBlockDevice "/dev/nbd0" 11008 8192 512 (-1)) [] no_faults 0.

Lemma core_next c : core (next_backup c) = c.
Proof. reflexivity. Qed.

Definition after_full := DoSync (env := working_env) true 10 busy_schedule 60 (next_backup (core sample_world)).

Definition after_write :=
  env_act true 10 (EWrite (mkSI 10 12) (fun _ => 9)) (next_backup (core after_full.2)).

Definition after_trace := env_act true 10 (EDeliver 0) (next_backup (core after_write.2)).

(** Writes may linger in this life: they land within the ten seconds. *)
Lemma busy_disciplined : disciplined true 10 busy_schedule 10.
Proof. split_and!; [done|lia|]. intros n k. apply not_elem_of_nil. Qed.

(** A pair, from its first component. *)
Lemma pair_fst {A B} (p : A * B) a : p.1 = a -> p = (a, p.2).
Proof. destruct p. by intros <-. Qed.

Abbreviation sample_life :=
  (life_step (C := BackupCoordinator) (H := BlockDeviceStatus) (env := working_env) true 10 8192 1 10 False).

Lemma life_act a c w : env_act true 10 a (next_backup c) = (Ret tt, w) -> sample_life c (core w).
Proof. intros E. apply (LifeAct true 10 8192 1 10 False a (next_backup c) w); [by split|by intros []|exact E]. Qed.

Lemma life_backup c w :
  DoSync (env := working_env) true 10 busy_schedule 60 (next_backup c) = (Ret tt, w) -> sample_life c (core w).
Proof.
  intros E. apply (LifeBackup true 10 8192 1 10 False busy_schedule 60 (next_backup c) w);
    [by split|by intros []|right; apply busy_disciplined|exact E].
Qed.

Lemma full_returns : after_full = (Ret tt, after_full.2).
Proof. apply pair_fst. vm_compute. reflexivity. Qed.

Lemma write_returns : after_write = (Ret tt, after_write.2).
Proof. apply pair_fst. vm_compute. reflexivity. Qed.

Lemma trace_returns : after_trace = (Ret tt, after_trace.2).
Proof. apply pair_fst. vm_compute. reflexivity. Qed.

Lemma chain_life : rtc sample_life (core sample_world) (core after_trace.2).
Proof.
  apply (rtc_l _ _ (core after_full.2)); [exact (life_backup _ _ full_returns)|].
  apply (rtc_l _ _ (core after_write.2)); [exact (life_act (EWrite (mkSI 10 12) (fun _ => 9)) (core after_full.2) after_write.2 write_returns)|].
  apply rtc_once. exact (life_act (EDeliver 0) (core after_write.2) after_trace.2 trace_returns).
Qed.

Lemma sample_marked x : 0 <= x < 8 -> marked (core sample_world) x.
Proof. intros Hx. right. rewrite sample_at, (proj2 (in_iv_spec _ _)); [by eexists|iv_lia]. Qed.

(** What [ready] asks of the device, once its traces are handled. *)
Lemma next_ready used image c :
  chain_inv true 10 8192 10 False used image c -> c_traces c = [] -> c_inflight c = [] ->
  Z.max 10 SECONDS_BETWEEN_FLUSHES < c_clock c ->
  ready working_env 1 8192 (fun _ => True) 0 (next_backup c).
Proof.
  intros [Hc Hv _ _] Ht Hi Hk. split; [split|exact one_worker_finishes]; try done.
  - intros h p f. apply next_fd_fresh.
  - cbn. rewrite Hv. lia.
  - cbn. lia.
  - intros x Hx%(ci_store _ _ _ _ _ Hc). cbn in Hx. lia.
Qed.

Lemma chain_ready : ready working_env 1 8192 (fun _ => True) 0 (next_backup (core after_trace.2)).
Proof.
  apply (next_ready (fun x => 0 <= x < 8) (c_src (core sample_world))); [|vm_compute; reflexivity..].
  apply (rtc_invariant sample_life (chain_inv true 10 8192 10 False _ _)) with (x := core sample_world).
  - apply (life_step_inv (C := BackupCoordinator) (H := BlockDeviceStatus) (env := working_env)); lia.
  - exact chain_life.
  - apply chain_starts; [apply (sample_world_inv true 10 False)|done|done|apply sample_marked].
Qed.

