(* ===== verification/Tracing.v ===== *)
(** * Block tracing

    Models tracing/device_tracer.{h,cc} (starting and stopping the kernel's
    block trace of a device) and tracing/cpu_tracer.{h,cc} (the thread that
    reads one CPU's records and hands them to the TraceHandler). *)

From S2P Require Import Prelude Machine Icl IclRef SectorStore TraceHandler Posix BlockDevice.

(** ** SkipNonseekableFD

    [answers] are what the calls of [read] return; when they are used up
    the loop is still waiting. *)

Fixpoint SkipNonseekableFD {S} (answers : list Z) (amount_to_skip : Z) : M S unit :=
  if 0 <? amount_to_skip then
    match answers with
    | [] => out_of_fuel
    | read_bytes :: answers' =>
        if read_bytes =? -1 then throw (BlockTraceException "Couldn't read file descriptor")
        else SkipNonseekableFD answers' (amount_to_skip - read_bytes)
    end
  else mret tt.

(** ** CpuTracer::DoTrace *)

(** One round of the loop: the values the round reads from its
    surroundings. *)
Record round := mkRound {
  r_stop : bool;            (* stop_trace_ *)
  r_poll : Z;               (* poll() *)
  r_flush : bool;           (* FlushBuffer was called since the last round *)
  r_read : Z;               (* read() *)
  r_trace : blk_io_trace;   (* the record read *)
  r_now : Z;                (* time(NULL) *)
  r_skip : list Z           (* the reads of SkipNonseekableFD *)
}.

Inductive exit_reason := XStop | XPoll | XRead | XMagic | XHandler | XSkip.

Section CpuTracer.
Context {TM TS : Type} `{!IclMap TM, !IclSet TS}.

(** The thread's state: the store behind the handler, and the flag. *)
Record TraceThread := mkThread {
  tt_store : UnsyncedSectorStore TM TS;
  flush_buffers_ : bool
}.

Definition set_tt_store (s : UnsyncedSectorStore TM TS) (t : TraceThread) : TraceThread :=
  mkThread s (flush_buffers_ t).

Definition set_flush (b : bool) (t : TraceThread) : TraceThread :=
  mkThread (tt_store t) b.

(** The [while] loop. *)
Fixpoint trace_loop (rounds : list round) : M TraceThread exit_reason :=
  match rounds with
  | [] => out_of_fuel
  | r :: rest =>
      if r_stop r then mret XStop
      else if r_poll r <? 0 then mret XPoll
      else
        modify (fun t => if r_flush r then set_flush true t else t) ;;
        flush ← gets flush_buffers_;
        if (r_poll r =? 0) && negb flush then trace_loop rest
        else if r_read r =? -1 then mret XRead
        else if r_read r =? 0 then modify (set_flush false) ;; trace_loop rest
        else if negb (magic (r_trace r) =? Z.lor BLK_IO_TRACE_MAGIC BLK_IO_TRACE_VERSION)
        then mret XMagic
        else
          added ← try_catch (zoom tt_store set_tt_store (AddTrace (r_trace r) (r_now r)) ;; mret true)
                            (fun _ => mret false);
          if negb added then mret XHandler
          else if negb (pdu_len (r_trace r) =? 0) then
            skipped ← try_catch (SkipNonseekableFD (r_skip r) (pdu_len (r_trace r)) ;; mret true)
                                (fun _ => mret false);
            if skipped : bool then trace_loop rest else mret XSkip
          else trace_loop rest
  end.
End CpuTracer.
Arguments TraceThread : clear implicits.

(** ** DeviceTracer *)

Definition BLKTRACE_BUFFER_SIZE : Z := 1024.
Definition BLKTRACE_NUM_SUBBUFFERS : Z := 10.
Definition BLKTRACE_MASK : Z := BLK_TC_QUEUE.
Definition DEBUG_FS_PATH : string := "/sys/kernel/debug".

(** A CpuTracer, from outside: its number and descriptor. *)
Record CpuTracer := mkCpu { cpu_num_ : Z; trace_fd_ : Z }.

Record DeviceTracer := mkDT {
  block_dev_fd_ : Z;
  num_cpus_ : Z;
  trace_name_ : string;
  cpu_tracers_ : list CpuTracer
}.

(** [std::to_string] of a CPU number. *)
Fixpoint digits (fuel : nat) (n : Z) (acc : string) : string :=
  match fuel with
  | O => acc
  | S fuel' =>
      let acc' := String (Ascii.ascii_of_nat (48 + Z.to_nat (n mod 10))) acc in
      if n / 10 =? 0 then acc' else digits fuel' (n / 10) acc'
  end.

Definition to_string (n : Z) : string := digits 20 n "".

Section DeviceTracing.
Context {env : Env}.

(** CPU_ALLOC gives a mask of whole 64-bit words, and CPU_SET_S does nothing
    beyond it.  A failure is only logged. *)
Definition cpu_mask_bits (num_cpus : Z) : Z := 64 * ((num_cpus + 63) / 64).

Definition cpu_mask (num_cpus cpu : Z) : Z :=
  if cpu <? cpu_mask_bits num_cpus then Z.shiftl 1 cpu else 0.

Definition LockOnCPU {S} (cpu : Z) : IO S unit :=
  num_cpus ← call SNprocs;
  call (SSetaffinity (cpu_mask_bits num_cpus) (cpu_mask num_cpus cpu)) ;;
  mret tt.

Definition DoTrace {TM TS} `{!IclMap TM, !IclSet TS} (t : CpuTracer) (rounds : list round)
    : IO (TraceThread TM TS) exit_reason :=
  LockOnCPU (cpu_num_ t) ;;
  x ← zoom fst (fun thread w => (thread, w.2)) (trace_loop rounds);
  call (SClose (trace_fd_ t)) ;;
  mret x.

(** The constructor opens the file and starts the thread. *)
Definition new_CpuTracer (trace_path : string) (cpu : Z) : IO DeviceTracer CpuTracer :=
  fd ← call (SOpen trace_path [O_RDONLY; O_NONBLOCK]);
  if ret fd =? -1 then throw (BlockTraceException "Open trace_path") else
  call (SDoTraceThread (ret fd) cpu) ;;
  mret (mkCpu cpu (ret fd)).

(** The destructor: stop_trace_, join; the thread closes the descriptor on
    its way out. *)
Definition CpuTracer_destroy (t : CpuTracer) : IO DeviceTracer unit :=
  call (SStopThread (cpu_num_ t)) ;;
  call (SClose (trace_fd_ t)) ;;
  mret tt.

Definition BeginBlockTrace : IO DeviceTracer string :=
  fd ← field block_dev_fd_;
  '(r, name) ← call (SIoctlName fd (BLKTRACESETUP BLKTRACE_BUFFER_SIZE BLKTRACE_NUM_SUBBUFFERS BLKTRACE_MASK));
  if ret r <? 0 then throw (BlockTraceException "BLKTRACESETUP") else
  r2 ← call (SIoctl fd BLKTRACESTART);
  if ret r2 <? 0 then throw (BlockTraceException "BLKTRACESTART") else
  mret name.

Definition CleanupBlockTrace : IO DeviceTracer unit :=
  fd ← field block_dev_fd_;
  if negb (fd =? -1) then
    r ← call (SIoctl fd BLKTRACESTOP);
    if ret r <? 0 then throw (BlockTraceException "Unable to stop blocktrace") else
    r2 ← call (SIoctl fd BLKTRACETEARDOWN);
    if ret r2 <? 0 then throw (BlockTraceException "Unable to teardown blocktrace") else
    mret tt
  else mret tt.

Definition GetTracePath (cpu_num : Z) : IO DeviceTracer string :=
  name ← field trace_name_;
  let trace_path := DEBUG_FS_PATH +:+ "/block/" +:+ name +:+ "/trace" +:+ to_string cpu_num in
  '(r, stat_buf) ← call (SStat trace_path);
  if ret r =? -1 then throw (BlockTraceException "Error during stat") else
  match st_type stat_buf with
  | S_IFREG => mret trace_path
  | _ => throw (BlockTraceException ("Bad trace path: " +:+ trace_path))
  end.

(** [for (int i = 0; i < num_cpus_; ++i)]; [left] rounds are left. *)
Fixpoint start_cpu_tracers (left : nat) (i : Z) : IO DeviceTracer unit :=
  match left with
  | O => mret tt
  | S left' =>
      trace_path ← GetTracePath i;
      t ← new_CpuTracer trace_path i;
      upd (fun d => mkDT (block_dev_fd_ d) (num_cpus_ d) (trace_name_ d) (cpu_tracers_ d ++ [t])) ;;
      start_cpu_tracers left' (i + 1)
  end.

Definition start_tracing : IO DeviceTracer unit :=
  name ← BeginBlockTrace;
  upd (fun d => mkDT (block_dev_fd_ d) (num_cpus_ d) name (cpu_tracers_ d)) ;;
  n ← field num_cpus_;
  start_cpu_tracers (Z.to_nat n) 0.

(** Destroying the vector of tracers. *)
Definition clear_cpu_tracers : IO DeviceTracer unit :=
  ts ← field cpu_tracers_;
  for_each ts CpuTracer_destroy ;;
  upd (fun d => mkDT (block_dev_fd_ d) (num_cpus_ d) (trace_name_ d) []).

(** The constructor.  When its body throws, the members constructed before
    (the vector of tracers) are destroyed. *)
Definition new_DeviceTracer (block_dev_path : string) : IO DeviceTracer unit :=
  fd ← call (SOpen block_dev_path [O_RDONLY; O_NONBLOCK]);
  upd (fun _ => mkDT (ret fd) 0 "" []) ;;
  if ret fd <? 0 then throw (BlockTraceException "Unable to open device for tracing") else
  n ← call SNprocs;
  upd (fun d => mkDT (block_dev_fd_ d) n (trace_name_ d) (cpu_tracers_ d)) ;;
  try_catch start_tracing (fun e =>
    try_catch CleanupBlockTrace (fun _ => mret tt) ;;
    d ← field block_dev_fd_;
    call (SClose d) ;;
    clear_cpu_tracers ;;
    throw e).

(** A thread per CPU sets flush_buffers_ and waits until it is cleared. *)
Definition FlushBuffers : IO DeviceTracer unit :=
  ts ← field cpu_tracers_;
  for_each ts (fun t => call (SFlushThread (cpu_num_ t))).

Definition DeviceTracer_destroy : IO DeviceTracer unit :=
  try_catch
    (clear_cpu_tracers ;;
     CleanupBlockTrace ;;
     fd ← field block_dev_fd_;
     call (SClose fd) ;;
     mret tt)
    (fun _ => mret tt).
End DeviceTracing.

(** A tracing thread runs on its own CPU and on no other. *)
Lemma cpu_mask_exact num_cpus cpu i :
  0 <= cpu < num_cpus -> 0 <= i -> Z.testbit (cpu_mask num_cpus cpu) i = (i =? cpu).
Proof.
  intros Hc Hi. unfold cpu_mask, cpu_mask_bits.
  rewrite (proj2 (Z.ltb_lt _ _)) by (pose proof (Z.div_mod (num_cpus + 63) 64); pose proof (Z.mod_pos_bound (num_cpus + 63) 64); lia).
  rewrite Z.shiftl_1_l. destruct (Z.eqb_spec i cpu) as [->|]; [apply Z.pow2_bits_true; lia|].
  apply Z.pow2_bits_false. lia.
Qed.

(** ** The reading thread *)

(** A trailing payload that ends early.  While [read] keeps returning 0
    (the trace file has nothing more to give), SkipNonseekableFD asks again
    without end: however many answers it has been given, it has not
    returned, and the tracing thread can neither be stopped nor flushed. *)
Theorem skip_never_returns_at_end_of_file {S : Type} (n : nat) amount (s : S) :
  0 < amount -> SkipNonseekableFD (replicate n 0) amount s = (OutOfFuel, s).
Proof.
  intros Ha. induction n as [|n IH]; cbn.
  - by rewrite (proj2 (Z.ltb_lt _ _) Ha).
  - by rewrite (proj2 (Z.ltb_lt _ _) Ha), Z.sub_0_r.
Qed.

Lemma skip_never_returns_at_end_of_file_witness :
  SkipNonseekableFD (replicate 3 0) 64 tt = (OutOfFuel, tt).
Proof. apply (skip_never_returns_at_end_of_file 3 64 tt). lia. Defined.

Section ThreadProps.
Context {TM TS : Type} `{!IclMap TM, !IclMapLaws TM, !IclSet TS, !IclSetLaws TS}.
Implicit Types t : TraceThread TM TS.

Definition has_mark t (x : Z) : Prop := is_Some (im_at (unsynced_sector_map_ (tt_store t)) x).

(** The rounds that read a record, [flush] being flush_buffers_ before them:
    poll has announced one, or it timed out and a flush is under way. *)
Fixpoint records_read (flush : bool) (rounds : list round) : list round :=
  match rounds with
  | [] => []
  | r :: rest =>
      let flush' := flush || r_flush r in
      if r_stop r || (r_poll r <? 0) then []
      else if (0 <? r_poll r) || flush' then
        if r_read r =? -1 then []
        else if r_read r =? 0 then records_read false rest
        else r :: records_read flush' rest
      else records_read flush' rest
  end.

Definition trace_sane (r : round) : Prop :=
  is_u64 (sector (r_trace r)) /\ 0 <= bytes (r_trace r) /\
  sector (r_trace r) + bytes (r_trace r) / 512 < 2 ^ 64.

Definition covers (r : round) (x : Z) : Prop :=
  is_write (r_trace r) = true /\ sector (r_trace r) <= x < sector (r_trace r) + bytes (r_trace r) / 512.

Lemma add_marks t r x :
  0 <= volatile_seconds_ (tt_store t) < r_now r -> trace_sane r ->
  let s' := (AddTrace (r_trace r) (r_now r) (tt_store t)).2 in
  AddTrace (r_trace r) (r_now r) (tt_store t) = (Ret tt, s') /\
  volatile_seconds_ s' = volatile_seconds_ (tt_store t) /\
  (is_Some (im_at (unsynced_sector_map_ s') x) <-> covers r x \/ has_mark t x).
Proof.
  intros Hv (H1 & H2 & H3). cbn zeta.
  destruct (AddTrace_at (tt_store t) (r_trace r) (r_now r) Hv H1 H2 H3) as (E1 & _ & E3).
  rewrite (AddTrace_run _ _ _ (proj2 Hv)) in *. split_and!; [done|exact E1|].
  rewrite E3. unfold covers, has_mark. destruct (is_write (r_trace r)); cbn [andb].
  - destruct (in_iv x _) eqn:E; [apply in_iv_spec in E|apply in_iv_false in E].
    + split; [intros _; left; split; [done|iv_lia]|by eexists].
    + split; [by right|]. intros [[_ Hx]|?]; [destruct E; iv_lia|by auto].
  - split; [by right|]. intros [[? _]|?]; done.
Qed.

(** SkipNonseekableFD does not touch the store. *)
Lemma skip_state {S} answers amount (s : S) : exists o, SkipNonseekableFD answers amount s = (o, s).
Proof. revert amount. induction answers as [|a l IH]; intros k; cbn; case_bool; eauto. case_bool; eauto. Qed.

Lemma trace_loop_marks rounds t t' :
  trace_loop rounds t = (Ret XStop, t') -> 0 <= volatile_seconds_ (tt_store t) ->
  (forall r, r ∈ records_read (flush_buffers_ t) rounds -> volatile_seconds_ (tt_store t) < r_now r /\ trace_sane r) ->
  forall x, has_mark t' x <-> has_mark t x \/ exists r, r ∈ records_read (flush_buffers_ t) rounds /\ covers r x.
Proof.
  revert t. induction rounds as [|r rest IH]; intros t R Hv Hs x; [done|]. cbn [trace_loop records_read] in *.
  destruct (r_stop r); cbn [orb] in *.
  { injection R as <-. split; [by left|]. intros [?|(r' & Hr & _)]; [done|by apply not_elem_of_nil in Hr]. }
  destruct (Z.ltb_spec (r_poll r) 0); [done|]. revert R. run. set (t1 := if r_flush r then set_flush true t else t).
  assert (tt_store t1 = tt_store t /\ flush_buffers_ t1 = flush_buffers_ t || r_flush r) as [E1 F1].
  { unfold t1. destruct (r_flush r); cbn; [by rewrite orb_true_r|by rewrite orb_false_r]. }
  rewrite <- F1 in Hs |- *. rewrite <- E1 in Hv, Hs.
  assert (has_mark t1 x <-> has_mark t x) as <- by (unfold has_mark; by rewrite E1). clearbody t1. clear E1 F1.
  replace ((r_poll r =? 0) && negb (flush_buffers_ t1)) with (negb ((0 <? r_poll r) || flush_buffers_ t1))
    by (destruct (Z.eqb_spec (r_poll r) 0), (Z.ltb_spec 0 (r_poll r)), (flush_buffers_ t1); try done; lia).
  destruct ((0 <? r_poll r) || flush_buffers_ t1); cbn [negb]; [|intros R; by apply IH].
  destruct (r_read r =? -1); [done|]. destruct (r_read r =? 0).
  { run. intros R. apply (IH _ R Hv Hs). }
  case_bool; [done|]. run. unfold try_catch, zoom. destruct (Hs r ltac:(constructor)) as [Hn Ht].
  destruct (add_marks t1 r x (conj Hv Hn) Ht) as (Ra & Va & Ma). run. rewrite Ra. run. cbn [negb].
  set (t2 := set_tt_store _ t1).
  assert (trace_loop rest t2 = (Ret XStop, t') -> has_mark t' x <->
    has_mark t1 x \/ exists r', r' ∈ r :: records_read (flush_buffers_ t1) rest /\ covers r' x) as Hgo.
  { intros R. rewrite (IH t2 R); [|exact (eq_ind_r (fun v => 0 <= v) Hv Va)|].
    - change (has_mark t2 x) with (is_Some (im_at (unsynced_sector_map_ (AddTrace (r_trace r) (r_now r) (tt_store t1)).2) x)).
      rewrite Ma. setoid_rewrite elem_of_cons. cbn [flush_buffers_ t2 set_tt_store]. naive_solver.
    - cbn [t2 tt_store set_tt_store flush_buffers_]. rewrite Va. intros r' Hr'. apply Hs. by right. }
  case_bool; [|exact Hgo]. run. destruct (skip_state (r_skip r) (pdu_len (r_trace r)) t2) as [o Ro].
  run. rewrite Ro. by destruct o.
Qed.

(** C22: nothing read is dropped.  When the tracing thread ends because it
    was told to stop, the sectors marked in the store are those that were
    marked before and every sector of every write record it has read, those
    read in a flush after poll had timed out included, whatever polls,
    flushes and other records came between.  It has bound itself to its own
    CPU first, and has closed its descriptor, once, at the end. *)
Theorem stopped_thread_handled_everything {E : Env} (c : CpuTracer) rounds t h t' h' :
  DoTrace (env := E) c rounds (t, h) = (Ret XStop, (t', h')) -> 0 <= volatile_seconds_ (tt_store t) ->
  (forall r, r ∈ records_read (flush_buffers_ t) rounds -> volatile_seconds_ (tt_store t) < r_now r /\ trace_sane r) ->
  (forall x, has_mark t' x <->
     has_mark t x \/ exists r, r ∈ records_read (flush_buffers_ t) rounds /\ covers r x) /\
  exists num_cpus bound closed,
    h' = [Ev (SClose (trace_fd_ c)) closed;
          Ev (SSetaffinity (cpu_mask_bits num_cpus) (cpu_mask num_cpus (cpu_num_ c))) bound; Ev SNprocs num_cpus] ++ h.
Proof.
  intros R Hv Hs. unfold DoTrace, LockOnCPU, zoom in R. revert R. io. cbn [fst].
  destruct (trace_loop rounds t) as [[y|?|?|?|] t1] eqn:R1; try done. io. cbn [fst snd].
  intros [= -> <- <-]. split; [by apply trace_loop_marks|]. by eexists _, _, _.
Qed.
End ThreadProps.

Definition good_round : round :=
  mkRound false 1 false 48 (write_trace (mkSI 8 16)) 1000 [].

(** Poll times out, and FlushBuffer has been called. *)
Definition flush_round : round :=
  mkRound false 0 true 48 (write_trace (mkSI 32 40)) 1000 [].

Definition stop_round : round := mkRound true 0 false 0 (write_trace (mkSI 0 0)) 1000 [].

Definition fresh_thread : TraceThread ref_map ref_set := mkThread (new_UnsyncedSectorStore 10) false.

Lemma stopped_thread_handled_everything_witness :
  let t' := (final (DoTrace (env := quiet_env) (mkCpu 1 7) [good_round; flush_round; stop_round]) (fresh_thread, [])).1 in
  has_mark t' 9 /\ has_mark t' 33.
Proof.
  destruct (stopped_thread_handled_everything (E := quiet_env) (mkCpu 1 7) [good_round; flush_round; stop_round] fresh_thread []
    (final (DoTrace (env := quiet_env) (mkCpu 1 7) [good_round; flush_round; stop_round]) (fresh_thread, [])).1
    (final (DoTrace (env := quiet_env) (mkCpu 1 7) [good_round; flush_round; stop_round]) (fresh_thread, [])).2) as [H _].
  - reflexivity.
  - cbn. lia.
  - intros r Hr. repeat apply elem_of_cons in Hr as [->|Hr]; [..|by apply not_elem_of_nil in Hr];
      (split; [reflexivity|]; repeat split; try reflexivity; cbn; lia).
  - split; apply H; right.
    + exists good_round. split; [left|]. split; [reflexivity|]. split; [by vm_compute|by vm_compute].
    + exists flush_round. split; [right; left|]. split; [reflexivity|]. split; [by vm_compute|by vm_compute].
Defined.

(** ** Descriptors of a device tracer *)

Section TracerProps.
Context {E : Env}.
Hypothesis fresh : fresh_fds E.

Definition cpu_fds (d : DeviceTracer) : gset Z := list_to_set (trace_fd_ <$> cpu_tracers_ d).

(** The tracer's descriptors are the device's and one per started CPU. *)
Definition dt_inv (base : gset Z) (w : DeviceTracer * history) : Prop :=
  open_fds w.2 = base ∪ {[block_dev_fd_ w.1]} ∪ cpu_fds w.1 /\
  0 <= block_dev_fd_ w.1 /\ (block_dev_fd_ w.1 ∉ base ∪ cpu_fds w.1) /\ (base ## cpu_fds w.1).

Lemma cpu_fds_snoc fd n nm ts t : cpu_fds (mkDT fd n nm (ts ++ [t])) = cpu_fds (mkDT fd n nm ts) ∪ {[trace_fd_ t]}.
Proof. unfold cpu_fds. cbn. rewrite fmap_app, list_to_set_app_L. cbn. set_solver. Qed.

Lemma start_cpu_tracers_inv base n i w :
  dt_inv base w -> dt_inv base (start_cpu_tracers n i w).2 /\
    block_dev_fd_ (start_cpu_tracers n i w).2.1 = block_dev_fd_ w.1.
Proof.
  revert i w. induction n as [|n IH]; intros i [d h] Hi; cbn [start_cpu_tracers]; [by split|].
  destruct (GetTracePath i (d, h)) as [o [d1 h1]] eqn:R1.
  assert (d1 = d /\ open_fds h1 = open_fds h) as [-> E1].
  { revert R1. unfold GetTracePath. io. case_match. io. case_bool; [by intros [= _ <- <-]|].
    case_match; by intros [= _ <- <-]. }
  assert (dt_inv base (d, h1)) as H1 by (unfold dt_inv in *; cbn in *; by rewrite E1).
  rewrite bind_unfold, R1. destruct o as [path|e|e|e|]; try by split.
  unfold new_CpuTracer. io.
  destruct (open_answer fresh h1 path [O_RDONLY; O_NONBLOCK]) as [[Hr Ho]|(Hr & Hn & Ho)].
  - rewrite Hr. cbn [Z.eqb Pos.eqb]. io. unfold dt_inv in *. cbn in *. by rewrite Ho.
  - destruct (Z.eqb_spec (ret (E h1 cret (SOpen path [O_RDONLY; O_NONBLOCK]))) (-1)); [lia|]. io.
    set (r := ret (E h1 cret (SOpen path [O_RDONLY; O_NONBLOCK]))) in *.
    match goal with |- dt_inv _ (start_cpu_tracers n _ ?w).2 /\ _ => destruct (IH (i + 1) w) as [A B] end.
    + unfold dt_inv in *. cbn [fst snd block_dev_fd_] in *. destruct H1 as (I1 & I2 & I3 & I4).
      rewrite cpu_fds_snoc. cbn [trace_fd_].
      replace (cpu_fds (mkDT (block_dev_fd_ d) (num_cpus_ d) (trace_name_ d) (cpu_tracers_ d)))
        with (cpu_fds d) by done.
      autorewrite with agent. rewrite Ho, I1. rewrite I1 in Hn.
      split_and!; [set_solver|done|set_solver|set_solver].
    + by rewrite B.
Qed.

Lemma start_tracing_inv base w :
  dt_inv base w -> dt_inv base (start_tracing w).2 /\ block_dev_fd_ (start_tracing w).2.1 = block_dev_fd_ w.1.
Proof.
  destruct w as [d h]. intros Hi. unfold start_tracing.
  destruct (BeginBlockTrace (d, h)) as [o [d1 h1]] eqn:R1.
  assert (d1 = d /\ open_fds h1 = open_fds h) as [-> E1].
  { revert R1. unfold BeginBlockTrace. io. case_match. io. case_bool; [by intros [= _ <- <-]|]. io.
    case_bool; by intros [= _ <- <-]. }
  assert (dt_inv base (d, h1)) as H1 by (unfold dt_inv in *; cbn in *; by rewrite E1).
  rewrite bind_unfold, R1. destruct o as [name|e|e|e|]; try by split. io.
  match goal with |- dt_inv _ (start_cpu_tracers ?n ?i ?w).2 /\ _ => destruct (start_cpu_tracers_inv base n i w) as [A B] end.
  - exact H1.
  - split; [exact A|exact B].
Qed.

Lemma cleanup_run (d : DeviceTracer) h :
  exists o h', CleanupBlockTrace (d, h) = (o, (d, h')) /\ open_fds h' = open_fds h /\
    (o = Ret tt \/ exists e, o = Throw e).
Proof.
  unfold CleanupBlockTrace. io. case_bool; [|by eexists _, _; split; [done|]; split; [done|left]].
  io. case_bool; [eexists _, _; split; [done|]; split; [done|right; by eexists]|]. io.
  case_bool; [eexists _, _; split; [done|]; split; [done|right; by eexists]|].
  eexists _, _. split; [done|]. split; [done|by left].
Qed.

Lemma clear_run (d : DeviceTracer) h :
  exists h', clear_cpu_tracers (d, h) =
    (Ret tt, (mkDT (block_dev_fd_ d) (num_cpus_ d) (trace_name_ d) [], h')) /\
    open_fds h' = open_fds h ∖ cpu_fds d.
Proof.
  unfold clear_cpu_tracers. io.
  assert (forall ts h, exists h', for_each ts CpuTracer_destroy (d, h) = (Ret tt, (d, h')) /\
    open_fds h' = open_fds h ∖ list_to_set (trace_fd_ <$> ts)) as Hl.
  { intros ts. induction ts as [|t ts IH]; intros h0; cbn [for_each].
    - exists h0. split; [done|]. cbn. set_solver.
    - assert (exists h1, CpuTracer_destroy t (d, h0) = (Ret tt, (d, h1)) /\
        open_fds h1 = open_fds h0 ∖ {[trace_fd_ t]}) as (h1 & R1 & E1).
      { unfold CpuTracer_destroy. io. eexists. split; [done|]. by autorewrite with agent. }
      destruct (IH h1) as (h2 & R2 & E2). exists h2. rewrite bind_unfold, R1.
      split; [exact R2|]. rewrite E2, E1. cbn. set_solver. }
  destruct (Hl (cpu_tracers_ d) h) as (h' & R & Eh). rewrite R. io. by eexists.
Qed.

(** C34: constructing a device tracer.  If any step fails (opening the device,
    the two ioctls, a missing or unreadable trace file of any CPU), the
    constructor throws and no descriptor it opened stays open; if it
    succeeds, the tracer holds the device and one file per CPU and nothing
    else. *)
Theorem tracer_constructor_leaks_nothing path garbage h :
  (forall fd, fd ∈ open_fds h -> 0 <= fd) ->
  exists o d h', new_DeviceTracer path (garbage, h) = (o, (d, h')) /\
    ((exists e, o = Throw e) -> open_fds h' = open_fds h) /\
    (o = Ret tt -> open_fds h' = open_fds h ∪ {[block_dev_fd_ d]} ∪ cpu_fds d).
Proof.
  intros Hpos. unfold new_DeviceTracer. io.
  destruct (open_answer fresh h path [O_RDONLY; O_NONBLOCK]) as [[Hr Ho]|(Hr & Hn & Ho)].
  { rewrite Hr. cbn [Z.ltb Z.compare]. io. eexists _, _, _. split; [done|]. by rewrite Ho. }
  set (r := ret (E h cret (SOpen path [O_RDONLY; O_NONBLOCK]))) in *.
  rewrite (proj2 (Z.ltb_ge r 0) Hr). io.
  match goal with |- context [try_catch start_tracing _ ?w] =>
    destruct (start_tracing_inv (open_fds h) w) as [Hi Hd]; [|destruct (start_tracing w) as [o [d h']] eqn:R] end.
  { unfold dt_inv, cpu_fds. cbn. autorewrite with agent. rewrite Ho. split_and!; [set_solver|done|set_solver|set_solver]. }
  cbn [fst snd block_dev_fd_] in Hi, Hd. destruct Hi as (I1 & I2 & I3 & I4). cbn [fst snd] in *.
  destruct o as [[]|e|e|e|].
  1, 3, 4, 5: unfold try_catch; rewrite R; eexists _, _, _; split; [done|];
    split; [by intros [? ?]|auto; done].
  - rewrite (try_catch_Throw _ _ _ _ _ R), bind_unfold. destruct (cleanup_run d h') as (o2 & h2 & R2 & E2 & Ho2).
    assert (try_catch CleanupBlockTrace (fun _ => mret tt) (d, h') = (Ret tt, (d, h2))) as ->.
    { unfold try_catch. rewrite R2. by destruct Ho2 as [->|[e' ->]]. }
    io. match goal with |- context [clear_cpu_tracers ?w] =>
      assert (exists h4, clear_cpu_tracers w =
        (Ret tt, (mkDT (block_dev_fd_ d) (num_cpus_ d) (trace_name_ d) [], h4)) /\
        open_fds h4 = open_fds w.2 ∖ cpu_fds d) as (h4 & R4 & E4) by apply clear_run end.
    rewrite R4. io. eexists _, _, _. split; [done|]. split; [|done]. intros _. rewrite E4. cbn [snd]. autorewrite with agent.
    rewrite E2, I1. assert (block_dev_fd_ d ∉ open_fds h) by set_solver. set_solver.
Qed.

(** Destroying a device tracer.  The files of the CPUs are always closed;
    the descriptor of the device itself only when the kernel accepts both
    BLKTRACESTOP and BLKTRACETEARDOWN: otherwise the exception skips the
    close, and the descriptor stays open for the life of the process. *)
Theorem tracer_destructor_spec base d h :
  dt_inv base (d, h) ->
  exists d' h', DeviceTracer_destroy (d, h) = (Ret tt, (d', h')) /\
    ((result (CleanupBlockTrace) (final clear_cpu_tracers (d, h)) = Ret tt -> open_fds h' = base) /\
     (result (CleanupBlockTrace) (final clear_cpu_tracers (d, h)) <> Ret tt ->
        open_fds h' = base ∪ {[block_dev_fd_ d]})).
Proof.
  intros (I1 & I2 & I3 & I4). cbn [fst snd] in *. unfold DeviceTracer_destroy, try_catch.
  destruct (clear_run d h) as (h1 & R1 & E1). rewrite bind_unfold, R1. unfold final, result. rewrite R1. cbn [snd].
  destruct (cleanup_run (mkDT (block_dev_fd_ d) (num_cpus_ d) (trace_name_ d) []) h1) as (o & h2 & R2 & E2 & Ho).
  rewrite bind_unfold, R2. cbn [fst]. destruct Ho as [->|[e ->]].
  - io. cbn. eexists _, _. split; [done|]. split; [|done]. intros _. autorewrite with agent.
    rewrite E2, E1, I1. set_solver.
  - io. eexists _, _. split; [done|]. split; [done|]. intros _. rewrite E2, E1, I1. set_solver.
Qed.
End TracerProps.

Lemma tracer_constructor_leaks_nothing_witness :
  exists o d h', new_DeviceTracer (env := working_env) "/dev/sda1" (mkDT 0 0 "" [], []) = (o, (d, h')) /\
    (o = Ret tt -> open_fds h' = open_fds [] ∪ {[block_dev_fd_ d]} ∪ cpu_fds d).
Proof.
  destruct (tracer_constructor_leaks_nothing (E := working_env) working_env_fresh "/dev/sda1" (mkDT 0 0 "" []) [])
    as (o & d & h' & R & _ & H).
  - intros fd Hfd. by apply not_elem_of_empty in Hfd.
  - exists o, d, h'. split; [exact R|exact H].
Defined.

Definition traced_device : DeviceTracer * history :=
  final (new_DeviceTracer (env := working_env) "/dev/sda1") (mkDT 0 0 "" [], []).

Lemma tracer_destructor_spec_witness :
  exists d' h', DeviceTracer_destroy (env := working_env) traced_device = (Ret tt, (d', h')) /\
    (result (CleanupBlockTrace (env := working_env))
       (final (clear_cpu_tracers (env := working_env)) traced_device) = Ret tt -> open_fds h' = ∅).
Proof.
  destruct (tracer_destructor_spec (E := working_env) working_env_fresh ∅ traced_device.1 traced_device.2)
    as (d' & h' & R & H & _).
  - vm_compute. split_and!; [reflexivity|discriminate|by intros ?|by intros ? ?].
  - exists d', h'. split; [exact R|exact H].
Defined.
