(* ===== verification/TraceFlush.v ===== *)
(** * Flushing a tracing thread

    Models the protocol between CpuTracer::FlushBuffer, StopTrace and the
    loop of DoTrace (tracing/cpu_tracer.cc) at the granularity of their
    accesses to the two atomic flags and to the trace file.  [Tracing] has
    the same loop as a function of what each round reads; here the kernel
    that fills the file and the thread that flushes run in between, and
    SkipNonseekableFD reads the payload of a record in as many pieces as the
    file gives. *)

From S2P Require Import Prelude.

(** Where the tracing thread is. *)
Inductive trace_pc :=
| TLoop                    (* the condition of the while *)
| TPolled (ready : bool)   (* poll returned, with or without a record *)
| TRead                    (* about to read *)
| TNothing                 (* read returned 0: about to clear flush_buffers_ *)
| TGot (id : nat)          (* a record in the local [trace] *)
| TSkip (left : nat)       (* in SkipNonseekableFD, with amount_to_skip bytes to go *)
| TDone.                   (* past the loop: the descriptor is closed *)

(** Where the thread that calls FlushBuffer is. *)
Inductive flush_pc := FIdle | FWaiting | FReturned.

(** The records are numbered by the kernel.  [traced] is all it has put in
    the file, [handled] what AddTrace has got, [asked] what had been traced
    when FlushBuffer was last called, and [raced] that the tracing thread
    was then between reading 0 and clearing the flag.  [missing] is how many
    bytes of the payload of the last record are not in the file yet. *)
Record flush_state := mkFlush {
  fl_trace : trace_pc;
  fl_caller : flush_pc;
  stop_flag : bool;
  flush_flag : bool;
  buffer : list nat;
  handled : list nat;
  traced : list nat;
  asked : list nat;
  raced : bool;
  missing : nat
}.

Definition is_nothing (t : trace_pc) : bool := match t with TNothing => true | _ => false end.

Section Flush.
(** [pdu_len] of each record. *)
Context (pdu : nat -> nat).

(** How many of the [left] bytes of the payload the file holds.  The payload
    that is being skipped is that of the last record when no other follows. *)
Definition held (left : nat) (buffer : list nat) (missing : nat) : nat :=
  match buffer with [] => left - missing | _ => left end.

(** A step of the tracing thread in which nothing fails. *)
Inductive trace_step : flush_state -> flush_state -> Prop :=
| trace_poll ready c fl b h l a r m :   (* poll may also time out with records in the file *)
    trace_step (mkFlush TLoop c false fl b h l a r m) (mkFlush (TPolled ready) c false fl b h l a r m)
| trace_continue c st b h l a r m :   (* poll_val == 0 && !flush_buffers_ *)
    trace_step (mkFlush (TPolled false) c st false b h l a r m) (mkFlush TLoop c st false b h l a r m)
| trace_timeout_flush c st b h l a r m :
    trace_step (mkFlush (TPolled false) c st true b h l a r m) (mkFlush TRead c st true b h l a r m)
| trace_ready c st fl b h l a r m :
    trace_step (mkFlush (TPolled true) c st fl b h l a r m) (mkFlush TRead c st fl b h l a r m)
| trace_read_nothing c st fl h l a r m :
    trace_step (mkFlush TRead c st fl [] h l a r m) (mkFlush TNothing c st fl [] h l a r m)
| trace_clear c st fl b h l a r m :
    trace_step (mkFlush TNothing c st fl b h l a r m) (mkFlush TLoop c st false b h l a r m)
| trace_read c st fl id b h l a r m :
    trace_step (mkFlush TRead c st fl (id :: b) h l a r m) (mkFlush (TGot id) c st fl b h l a r m)
| trace_add c st fl id b h l a r m :
    pdu id = 0%nat ->
    trace_step (mkFlush (TGot id) c st fl b h l a r m) (mkFlush TLoop c st fl b (h ++ [id]) l a r m)
| trace_add_payload c st fl id b h l a r m :   (* pdu_len is not 0 *)
    pdu id <> 0%nat ->
    trace_step (mkFlush (TGot id) c st fl b h l a r m) (mkFlush (TSkip (pdu id)) c st fl b (h ++ [id]) l a r m)
| trace_skip k left c st fl b h l a r m :   (* read gives [k] bytes *)
    (0 < k <= Nat.min left 512)%nat -> (k <= held left b m)%nat ->
    trace_step (mkFlush (TSkip left) c st fl b h l a r m) (mkFlush (TSkip (left - k)) c st fl b h l a r m)
| trace_skip_nothing left c st fl b h l a r m :   (* read gives 0, and the loop asks again *)
    (0 < left)%nat -> held left b m = 0%nat ->
    trace_step (mkFlush (TSkip left) c st fl b h l a r m) (mkFlush (TSkip left) c st fl b h l a r m)
| trace_skipped c st fl b h l a r m :
    trace_step (mkFlush (TSkip 0) c st fl b h l a r m) (mkFlush TLoop c st fl b h l a r m).

(** The steps that leave the loop: told to stop, and the failures. *)
Inductive exit_step : flush_state -> flush_state -> Prop :=
| exit_stop c fl b h l a r m :
    exit_step (mkFlush TLoop c true fl b h l a r m) (mkFlush TDone c true fl b h l a r m)
| exit_poll c fl b h l a r m :
    exit_step (mkFlush TLoop c false fl b h l a r m) (mkFlush TDone c false fl b h l a r m)
| exit_read c st fl b h l a r m :
    exit_step (mkFlush TRead c st fl b h l a r m) (mkFlush TDone c st fl b h l a r m)
| exit_record c st fl id b h l a r m :   (* bad magic, or AddTrace threw *)
    exit_step (mkFlush (TGot id) c st fl b h l a r m) (mkFlush TDone c st fl b h l a r m)
| exit_skip left c st fl b h l a r m :
    exit_step (mkFlush (TSkip left) c st fl b h l a r m) (mkFlush TDone c st fl b h l a r m).

(** FlushBuffer, the kernel, and the first line of StopTrace. *)
Inductive other_step : flush_state -> flush_state -> Prop :=
| flush_request t c st fl b h l a r m :
    c <> FWaiting ->
    other_step (mkFlush t c st fl b h l a r m) (mkFlush t FWaiting st true b h l l (is_nothing t) m)
| flush_return t st b h l a r m :
    other_step (mkFlush t FWaiting st false b h l a r m) (mkFlush t FReturned st false b h l a r m)
| kernel_traces id lacks t c st fl b h l a r :   (* after all of the record before it *)
    (lacks <= pdu id)%nat ->
    other_step (mkFlush t c st fl b h l a r 0) (mkFlush t c st fl (b ++ [id]) h (l ++ [id]) a r lacks)
| kernel_payload k t c st fl b h l a r m :
    other_step (mkFlush t c st fl b h l a r m) (mkFlush t c st fl b h l a r (m - k))
| stop_request t c st fl b h l a r m :
    other_step (mkFlush t c st fl b h l a r m) (mkFlush t c true fl b h l a r m).

Definition flush_step (s s' : flush_state) : Prop := trace_step s s' \/ exit_step s s' \/ other_step s s'.

Definition flush_init : flush_state := mkFlush TLoop FIdle false false [] [] [] [] false 0.

(** ** Invariant *)

(** The record read and not yet handled. *)
Definition in_hand (s : flush_state) : list nat := match fl_trace s with TGot id => [id] | _ => [] end.

(** The records before [asked] are handled once the flag is down, or about
    to be taken down by a thread that saw the file empty after the call. *)
Definition answered (s : flush_state) : bool :=
  match fl_caller s with
  | FIdle => false
  | FWaiting => negb (flush_flag s) || is_nothing (fl_trace s)
  | FReturned => true
  end.

Record flush_inv (s : flush_state) : Prop := mkFlushInv {
  fi_all : fl_trace s <> TDone -> traced s = handled s ++ in_hand s ++ buffer s;
  fi_asked : asked s `prefix_of` traced s;
  fi_answered : raced s = false -> answered s = true -> asked s `prefix_of` handled s
}.

Lemma trace_step_inv s s' : trace_step s s' -> flush_inv s -> flush_inv s'.
Proof.
  intros Hst [I1 I2 I3]. destruct Hst; split; cbn in *; intros; unfold answered in *; cbn in *; try done.
  all: try (rewrite I1 by done; by simplify_list_eq).
  all: try (by apply prefix_app_r, I3).
  all: try (by apply I3; [|destruct c; rewrite ?orb_true_r]).
  - rewrite I1 in I2 by done. by rewrite app_nil_r in I2.
Qed.

Lemma flush_step_inv s s' : flush_step s s' -> flush_inv s -> flush_inv s'.
Proof.
  intros [Hst|[Hst|Hst]]; [by apply trace_step_inv|..]; intros [I1 I2 I3];
    destruct Hst; split; cbn in *; intros; unfold answered, in_hand in *; cbn in *.
  all: try done; try (by apply I1); try (by apply I3).
  - congruence.
  - rewrite I1 by done. by simplify_list_eq.
  - by apply prefix_app_r.
Qed.

Lemma flush_reachable_inv s : rtc flush_step flush_init s -> flush_inv s.
Proof.
  intros Hr. by apply (rtc_invariant flush_step flush_inv flush_step_inv _ _ Hr); split.
Qed.

(** C23: what FlushBuffer promises.  In every interleaving of the tracing
    thread, the kernel and the callers, when FlushBuffer returns, every
    record the kernel had put in the file before the call has been handed
    to the TraceHandler, in order; unless the call fell between the
    thread's reading 0 and its clearing the flag. *)
Theorem flush_means_handled s :
  rtc flush_step flush_init s -> fl_caller s = FReturned -> raced s = false ->
  asked s `prefix_of` handled s.
Proof.
  intros Hr%flush_reachable_inv Hc Hn. apply (fi_answered _ Hr Hn). unfold answered. by rewrite Hc.
Qed.

(** ** Termination *)

(** Steps of the thread for a record: poll, the two tests, read, AddTrace,
    and one read per byte of the payload at worst. *)
Definition record_steps (ids : list nat) : nat := foldr (fun id n => 5 + pdu id + n)%nat 0%nat ids.

Lemma record_steps_app l1 l2 : record_steps (l1 ++ l2) = (record_steps l1 + record_steps l2)%nat.
Proof. unfold record_steps. induction l1 as [|x l IH]; cbn [app foldr]; [done|]. rewrite IH. lia. Qed.

(** The payload of the record that is being handled. *)
Definition payload_left (s : flush_state) : nat :=
  match fl_trace s with TGot id => pdu id | TSkip n => n | _ => 0 end.

(** Steps of the thread until it clears the flag. *)
Definition flush_measure (s : flush_state) : nat :=
  (record_steps (buffer s) + payload_left s +
   match fl_trace s with
   | TLoop => 4 | TPolled _ => 3 | TRead => 2 | TNothing => 1 | TGot _ => 6 | TSkip _ => 5 | TDone => 0
   end)%nat.

(** A flush is under way: nothing has failed, nobody stops the thread, and
    the payloads of the records are in the file. *)
Definition flushing (s : flush_state) : Prop :=
  flush_flag s = true /\ fl_trace s <> TDone /\ stop_flag s = false /\ missing s = 0%nat.

(** While it is, with [n] steps of the thread and the records [ids] traced
    meanwhile. *)
Inductive flush_run : nat -> list nat -> flush_state -> flush_state -> Prop :=
| flush_run_here s : flush_run 0 [] s s
| flush_run_thread n ids s1 s2 s3 :
    trace_step s1 s2 -> flushing s2 -> flush_run n ids s2 s3 -> flush_run (S n) ids s1 s3
| flush_run_other n new ids s1 s2 s3 :
    other_step s1 s2 -> flushing s2 -> traced s2 = traced s1 ++ new -> flush_run n ids s2 s3 ->
    flush_run n (new ++ ids) s1 s3.

Lemma trace_step_measure s s' :
  trace_step s s' -> flushing s -> flushing s' -> (flush_measure s' < flush_measure s)%nat.
Proof.
  unfold flushing, flush_measure, payload_left, record_steps. destruct 1; cbn; intros (? & ? & ? & Hm) (? & _); subst; try done; try lia.
  unfold held in *. destruct b; lia.
Qed.

Lemma other_step_measure s s' new :
  other_step s s' -> flushing s -> flushing s' -> traced s' = traced s ++ new ->
  (flush_measure s' = flush_measure s + record_steps new)%nat.
Proof.
  unfold flushing, flush_measure, payload_left. destruct 1; cbn -[record_steps]; intros (? & ? & ? & Hm) (? & ? & ? & ?) Ht; try done;
    (apply (app_inv_head (A := nat)) in Ht as <- || (rewrite <- (app_nil_r l) in Ht at 1; apply app_inv_head in Ht as <-)).
  all: rewrite ?record_steps_app; unfold record_steps; cbn; lia.
Qed.

Lemma trace_step_progress s : flushing s -> exists s', trace_step s s'.
Proof.
  destruct s as [t c st fl b h l a r m]; unfold flushing; cbn. intros (-> & Ht & -> & ->).
  destruct t as [|[]| | |id|n|]; [..|done].
  - eexists. by apply (trace_poll true).
  - eexists. constructor.
  - eexists. constructor.
  - destruct b; eexists; constructor.
  - eexists. constructor.
  - destruct (decide (pdu id = 0%nat)); eexists; by constructor.
  - destruct n as [|n]; [eexists; apply trace_skipped|]. eexists. apply (trace_skip 1); [lia|]. unfold held. destruct b; lia.
Qed.

(** C24: a flush ends.  While no call fails, nobody stops the thread and the
    file holds the payloads of its records, the thread can always take a
    step; and before it clears the flag FlushBuffer waits for, it takes no
    more than six steps, one for each byte of the payload it is skipping, and
    five and one for each byte of the payload for every record in the file
    and every record the kernel adds meanwhile. *)
Theorem flush_terminates n ids s s' :
  flushing s -> flush_run n ids s s' ->
  (n <= record_steps (buffer s ++ ids) + payload_left s + 6)%nat /\ exists s1, trace_step s' s1.
Proof.
  intros Hs Hr.
  assert (n + flush_measure s' <= flush_measure s + record_steps ids /\ flushing s')%nat as [Hm Hf].
  { induction Hr as [s|n ids s1 s2 s3 Hst Hf Hr IH|n new ids s1 s2 s3 Hst Hf Ht Hr IH]; [split; [lia|done]|..];
      destruct (IH Hf) as [Hm Hf3]; (split; [|done]).
    - pose proof (trace_step_measure _ _ Hst Hs Hf). lia.
    - rewrite record_steps_app. pose proof (other_step_measure _ _ _ Hst Hs Hf Ht). lia. }
  split; [|by apply trace_step_progress]. rewrite record_steps_app. unfold flush_measure in Hm. destruct (fl_trace s); lia.
Qed.

(** When the file does not hold all of the payload the thread is skipping,
    and nothing more comes, it reads 0 for ever: every step it takes leaves
    it where it is, with the flag up. *)
Lemma flush_stuck_in_payload s s' left :
  fl_trace s = TSkip left -> (0 < left)%nat -> held left (buffer s) (missing s) = 0%nat -> rtc trace_step s s' -> s' = s.
Proof.
  intros Ht Hl Hh Hr.
  assert (forall s1, s1 = s -> forall s2, trace_step s1 s2 -> s2 = s) as Hone.
  { intros s1 -> s2 Hst. destruct Hst; cbn in *; try done; injection Ht as <-; first [lia|done]. }
  induction Hr as [|s1 s2 s3 H1 H2 IH]; [done|].
  rewrite (Hone s1 eq_refl s2 H1) in *. by apply IH.
Qed.

(** ** Where the promise ends *)

Lemma flush_done_stuck s s' :
  flush_step s s' -> fl_trace s = TDone /\ fl_caller s = FWaiting /\ flush_flag s = true ->
  fl_trace s' = TDone /\ fl_caller s' = FWaiting /\ flush_flag s' = true.
Proof. intros [H|[H|H]]; destruct H; cbn; naive_solver. Qed.

(** The flush of a thread that has left its loop (a failed poll or
    read, a record with a bad magic number, an exception of the handler)
    never returns, whatever happens afterwards: nobody clears the flag. *)
Theorem flush_of_ended_thread_hangs s s' :
  fl_trace s = TDone -> fl_caller s = FWaiting -> flush_flag s = true ->
  rtc flush_step s s' -> fl_caller s' = FWaiting.
Proof.
  intros Ht Hc Hf Hr. by apply (rtc_invariant _ _ flush_done_stuck _ _ Hr).
Qed.

End Flush.

(** ** Runs *)

(** Every even record has a payload of three bytes. *)
Definition sample_pdu (id : nat) : nat := if Nat.even id then 3 else 0.

Abbreviation sample_step := (flush_step sample_pdu).

(** Two records are in the file when FlushBuffer is called. *)
Definition two_traced : flush_state := mkFlush TLoop FWaiting false true [1; 2]%nat [] [1; 2]%nat [1; 2]%nat false 0.

Definition two_flushed : flush_state := mkFlush TLoop FReturned false false [] [1; 2]%nat [1; 2]%nat [1; 2]%nat false 0.

(** One step, by the constructor that fits. *)
Ltac flush_thread := eapply rtc_l; [left; constructor|].
Ltac flush_other := eapply rtc_l; [right; right; by constructor|].

Lemma two_traced_reachable : rtc sample_step flush_init two_traced.
Proof.
  eapply rtc_l; [right; right; by apply (kernel_traces _ 1 0)|].
  eapply rtc_l; [right; right; apply (kernel_traces _ 2 0); lia|].
  eapply rtc_l; [right; right; by apply flush_request|]. done.
Qed.

Lemma two_traced_flushed : rtc sample_step two_traced two_flushed.
Proof.
  eapply rtc_l; [left; apply (trace_poll _ false)|]. do 2 flush_thread.
  eapply rtc_l; [left; by apply trace_add|].
  eapply rtc_l; [left; apply (trace_poll _ true)|]. do 2 flush_thread.
  eapply rtc_l; [left; by apply trace_add_payload|].
  eapply rtc_l; [left; apply (trace_skip _ 2); cbn; lia|].
  eapply rtc_l; [left; apply (trace_skip _ 1); cbn; lia|].
  eapply rtc_l; [left; apply trace_skipped|].
  eapply rtc_l; [left; apply (trace_poll _ false)|]. do 3 flush_thread. flush_other. done.
Qed.

Lemma flush_means_handled_witness : [1; 2]%nat `prefix_of` handled two_flushed.
Proof.
  apply (flush_means_handled sample_pdu two_flushed).
  - exact (rtc_trans _ _ _ two_traced_reachable two_traced_flushed).
  - reflexivity.
  - reflexivity.
Defined.

(** The thread polls, and the kernel adds a third record. *)
Definition third_traced : flush_state :=
  mkFlush (TPolled false) FWaiting false true [1; 2; 3]%nat [] [1; 2; 3]%nat [1; 2]%nat false 0.

Lemma flush_terminates_witness :
  (1 <= record_steps sample_pdu [1; 2; 3] + 6)%nat /\ exists s1, trace_step sample_pdu third_traced s1.
Proof.
  apply (flush_terminates sample_pdu 1 [3]%nat two_traced third_traced).
  - split; [reflexivity|]. split; [discriminate|]. split; reflexivity.
  - eapply flush_run_thread; [apply (trace_poll _ false)|split; [reflexivity|]; split; [discriminate|]; split; reflexivity|].
    apply (flush_run_other _ 0 [3]%nat []) with (s2 := third_traced); [by apply (kernel_traces _ 3 0)|
      split; [reflexivity|]; split; [discriminate|]; split; reflexivity|reflexivity|apply flush_run_here].
Defined.

(** The thread of [two_traced] after a failed poll. *)
Definition ended : flush_state := mkFlush TDone FWaiting false true [1; 2]%nat [] [1; 2]%nat [1; 2]%nat false 0.

Lemma ended_reachable : rtc sample_step flush_init ended.
Proof. eapply rtc_r; [exact two_traced_reachable|]. right. left. constructor. Qed.

Lemma flush_of_ended_thread_hangs_witness : rtc sample_step flush_init ended /\ fl_caller ended = FWaiting.
Proof. split; [exact ended_reachable|]. apply (flush_of_ended_thread_hangs sample_pdu ended ended); reflexivity. Defined.

(** The race is real.  The thread reads 0; a record is traced and
    FlushBuffer is called; the thread clears the flag and FlushBuffer
    returns, with the record still in the file. *)
Theorem flush_can_miss_a_record :
  exists s, rtc sample_step flush_init s /\ fl_caller s = FReturned /\ asked s = [1%nat] /\ handled s = [].
Proof.
  exists (mkFlush TLoop FReturned false false [1]%nat [] [1]%nat [1]%nat true 0). split; [|done].
  eapply rtc_l; [left; apply (trace_poll _ true)|]. do 2 flush_thread.
  eapply rtc_l; [right; right; by apply (kernel_traces _ 1 0)|].
  eapply rtc_l; [right; right; by apply flush_request|]. flush_thread. flush_other. done.
Qed.
