(* ===== verification/SectorManager.v ===== *)
(** * The manager of stores and tracers

    Models unsynced_sector_manager/unsynced_sector_manager.{h,cc}: one store
    per device, shared by the device's tracer and by every synchronizer
    that copies the device, and at most one tracer per device.  Stores are
    shared objects: the manager keeps their addresses, and [operator[]] of
    its maps creates null entries. *)

From S2P Require Import Prelude Machine Icl IclRef SectorStore TraceHandler Posix BlockDevice Tracing.

Definition VOLATILE_SECONDS : Z := 10.

(** A tracer with the store its TraceHandler was made with. *)
Record tracer_entry := mkEntry { tr_tracer : DeviceTracer; tr_store : nat }.

Section Manager.
Context {TM TS : Type} `{!IclMap TM, !IclSet TS} {env : Env}.

Record UnsyncedSectorManager := mkManager {
  store_map_ : gmap Z (option nat);
  tracer_map_ : gmap Z (option tracer_entry);
  stores : gmap nat (UnsyncedSectorStore TM TS);
  next_store : nat
}.

Definition new_UnsyncedSectorManager : UnsyncedSectorManager := mkManager ∅ ∅ ∅ 0.

Definition set_store_map (m : gmap Z (option nat)) (s : UnsyncedSectorManager) : UnsyncedSectorManager :=
  mkManager m (tracer_map_ s) (stores s) (next_store s).

Definition set_tracer_map (m : gmap Z (option tracer_entry)) (s : UnsyncedSectorManager)
    : UnsyncedSectorManager := mkManager (store_map_ s) m (stores s) (next_store s).

(** [map[key]] on a map of pointers: the pointer, a null one being stored
    when there is no entry. *)
Definition index_tracer (dev : Z) : IO UnsyncedSectorManager (option tracer_entry) :=
  m ← field tracer_map_;
  match m !! dev with
  | Some p => mret p
  | None => upd (set_tracer_map (<[dev := None]> m)) ;; mret None
  end.

Definition index_store (dev : Z) : IO UnsyncedSectorManager (option nat) :=
  m ← field store_map_;
  match m !! dev with
  | Some p => mret p
  | None => upd (set_store_map (<[dev := None]> m)) ;; mret None
  end.

(** [std::make_shared<UnsyncedSectorStore>(VOLATILE_SECONDS)]. *)
Definition make_store : IO UnsyncedSectorManager nat :=
  a ← field next_store;
  upd (fun s => mkManager (store_map_ s) (tracer_map_ s)
         (<[a := new_UnsyncedSectorStore VOLATILE_SECONDS]> (stores s)) (S a)) ;;
  mret a.

Definition GetStore (device : BlockDevice) : IO UnsyncedSectorManager nat :=
  p ← index_store (dev_t_ device);
  (match p with
   | Some _ => mret tt
   | None =>
       a ← make_store;
       upd (fun s => set_store_map (<[dev_t_ device := Some a]> (store_map_ s)) s)
   end) ;;
  m ← field store_map_;
  match m !! dev_t_ device with
  | Some (Some a) => mret a
  | _ => undef "null store"
  end.

(** The tracer's handler keeps the address of the store. *)
Definition CreateDeviceTracer (path : string) (store : nat) : IO UnsyncedSectorManager tracer_entry :=
  fun w =>
    match new_DeviceTracer path (mkDT (-1) 0 "" [], w.2) with
    | (Ret _, (d, h)) => (Ret (mkEntry d store), (w.1, h))
    | (Throw e, (_, h)) => (Throw e, (w.1, h))
    | (Abort x, (_, h)) => (Abort x, (w.1, h))
    | (Undef x, (_, h)) => (Undef x, (w.1, h))
    | (OutOfFuel, (_, h)) => (OutOfFuel, (w.1, h))
    end.

Definition StartTracer (device : BlockDevice) : IO UnsyncedSectorManager unit :=
  t ← index_tracer (dev_t_ device);
  match t with
  | Some _ => throw (UnsyncedTrackingException "Already tracing block device")
  | None =>
      store ← GetStore device;
      device_tracer ← CreateDeviceTracer (path_ device) store;
      upd (fun s => set_store_map (<[dev_t_ device := Some store]> (store_map_ s)) s) ;;
      upd (fun s => set_tracer_map (<[dev_t_ device := Some device_tracer]> (tracer_map_ s)) s)
  end.

(** Assigning nullptr destroys the tracer that was there. *)
Definition StopTracer (device : BlockDevice) : IO UnsyncedSectorManager unit :=
  old ← index_tracer (dev_t_ device);
  upd (fun s => set_tracer_map (<[dev_t_ device := None]> (tracer_map_ s)) s) ;;
  match old with
  | None => mret tt
  | Some t => on (fun _ => tr_tracer t) (fun _ s => s) DeviceTracer_destroy
  end.

Definition FlushTracer (device : BlockDevice) : IO UnsyncedSectorManager unit :=
  m ← field tracer_map_;
  match m !! dev_t_ device with
  | None => mret tt
  | Some None => undef "FlushBuffers on a null tracer"
  | Some (Some t) => on (fun _ => tr_tracer t) (fun _ s => s) FlushBuffers
  end.

Definition IsTracing (device : BlockDevice) : IO UnsyncedSectorManager bool :=
  m ← field tracer_map_;
  match m !! dev_t_ device with
  | Some (Some _) => mret true
  | _ => mret false
  end.
End Manager.
Arguments UnsyncedSectorManager : clear implicits.

(** ** Properties *)

Section ManagerProps.
Context {TM TS : Type} `{!IclMap TM, !IclSet TS} {E : Env}.
Abbreviation manager := (UnsyncedSectorManager TM TS).
Implicit Types s : manager.

(** Every device's store exists, no two devices share one, and a device's
    tracer feeds the device's store; every store has the ten-second
    volatility. *)
Record mgr_inv s : Prop := {
  mi_alloc : forall d a, store_map_ s !! d = Some (Some a) -> is_Some (stores s !! a);
  mi_inj : forall d e a, store_map_ s !! d = Some (Some a) -> store_map_ s !! e = Some (Some a) -> d = e;
  mi_next : forall a, is_Some (stores s !! a) -> (a < next_store s)%nat;
  mi_traced : forall d t, tracer_map_ s !! d = Some (Some t) -> store_map_ s !! d = Some (Some (tr_store t));
  mi_volatile : forall a st, stores s !! a = Some st -> volatile_seconds_ st = VOLATILE_SECONDS
}.

Lemma new_manager_inv : mgr_inv new_UnsyncedSectorManager.
Proof.
  split; cbn.
  - intros d a H. by rewrite lookup_empty in H.
  - intros d e a H. by rewrite lookup_empty in H.
  - intros a [x H]. by rewrite lookup_empty in H.
  - intros d t H. by rewrite lookup_empty in H.
  - intros a st H. by rewrite lookup_empty in H.
Qed.

Lemma no_tracer_inv s d : mgr_inv s -> mgr_inv (set_tracer_map (<[d := None]> (tracer_map_ s)) s).
Proof.
  intros []. split; try done. cbn. intros e t. destruct (decide (e = d)) as [->|].
  - by rewrite lookup_insert_eq.
  - rewrite lookup_insert_ne by done. auto.
Qed.

(** The store of a device, when it has one. *)
Definition store_of s (dev : Z) : option nat := store_map_ s !! dev ≫= id.

Lemma GetStore_known s h b a :
  store_map_ s !! dev_t_ b = Some (Some a) -> GetStore b (s, h) = (Ret a, (s, h)).
Proof. intros Ha. unfold GetStore, index_store. io. rewrite Ha. io. by rewrite Ha. Qed.

Lemma GetStore_new s h b :
  store_of s (dev_t_ b) = None ->
  exists s', GetStore b (s, h) = (Ret (next_store s), (s', h)) /\
    store_map_ s' = <[dev_t_ b := Some (next_store s)]> (store_map_ s) /\
    stores s' = <[next_store s := new_UnsyncedSectorStore VOLATILE_SECONDS]> (stores s) /\
    next_store s' = S (next_store s) /\ tracer_map_ s' = tracer_map_ s.
Proof.
  intros Hn. unfold GetStore, index_store, make_store. io. unfold store_of in Hn.
  destruct (store_map_ s !! dev_t_ b) as [[a|]|] eqn:Es; [done|..]; io; cbn [store_map_ set_store_map next_store];
    rewrite lookup_insert_eq; eexists; (split; [done|]); cbn; [done|].
  by rewrite insert_insert_eq.
Qed.

Lemma GetStore_run s h b :
  mgr_inv s ->
  exists a s', GetStore b (s, h) = (Ret a, (s', h)) /\ mgr_inv s' /\
    store_map_ s' !! dev_t_ b = Some (Some a) /\
    (forall d, d <> dev_t_ b -> store_of s' d = store_of s d) /\
    (forall c, is_Some (stores s !! c) -> stores s' !! c = stores s !! c) /\
    (store_of s (dev_t_ b) = None -> stores s !! a = None /\
       stores s' !! a = Some (new_UnsyncedSectorStore VOLATILE_SECONDS)) /\
    tracer_map_ s' = tracer_map_ s.
Proof.
  intros Hi. destruct (store_of s (dev_t_ b)) as [a|] eqn:Eo.
  - assert (store_map_ s !! dev_t_ b = Some (Some a)) as Es.
    { unfold store_of in Eo. destruct (store_map_ s !! dev_t_ b) as [[?|]|]; cbn in Eo; congruence. }
    exists a, s. rewrite (GetStore_known s h b a Es). by split_and!.
  - destruct (GetStore_new s h b Eo) as (s' & R & E1 & E2 & E3 & E4).
    assert (stores s !! next_store s = None) as Hfresh.
    { destruct (stores s !! next_store s) eqn:En; [|done].
      assert (next_store s < next_store s)%nat by (apply (mi_next s Hi); by rewrite En). lia. }
    exists (next_store s), s'. split_and!; auto.
    + split; rewrite ?E1, ?E2, ?E3, ?E4.
      * intros d a. destruct (decide (d = dev_t_ b)) as [->|].
        -- rewrite lookup_insert_eq. intros [= <-]. rewrite lookup_insert_eq. eauto.
        -- rewrite lookup_insert_ne by done. intros Ha%(mi_alloc s Hi).
           destruct (decide (a = next_store s)) as [->|]; [rewrite lookup_insert_eq; eauto|].
           by rewrite lookup_insert_ne.
      * assert (forall d a, store_map_ s !! d = Some (Some a) -> a <> next_store s) as Hne.
        { intros d a Ha%(mi_alloc s Hi)%(mi_next s Hi). lia. }
        intros d e a. destruct (decide (d = dev_t_ b)) as [->|], (decide (e = dev_t_ b)) as [->|]; try done;
          rewrite ?lookup_insert_eq, ?lookup_insert_ne by done.
        -- intros [= <-] H2. by apply Hne in H2.
        -- intros H1 [= <-]. by apply Hne in H1.
        -- apply (mi_inj s Hi).
      * intros a. destruct (decide (a = next_store s)) as [->|]; [lia|].
        rewrite lookup_insert_ne by done. intros Ha%(mi_next s Hi). lia.
      * intros d t Ht%(mi_traced s Hi). rewrite lookup_insert_ne; [done|]. intros <-.
        unfold store_of in Eo. by rewrite Ht in Eo.
      * intros a st. destruct (decide (a = next_store s)) as [->|]; [rewrite lookup_insert_eq; by intros [= <-]|].
        rewrite lookup_insert_ne by done. apply (mi_volatile s Hi).
    + rewrite E1. apply lookup_insert_eq.
    + intros d Hd. unfold store_of. by rewrite E1, lookup_insert_ne.
    + intros c Hc. rewrite E2. apply lookup_insert_ne. intros <-. rewrite Hfresh in Hc. by destruct Hc.
    + intros _. split; [done|]. rewrite E2. apply lookup_insert_eq.
Qed.

(** One store per device.  GetStore gives a device the same store every
    time, a new and empty one (with the ten-second volatility) the first
    time, never the store of another device, and it changes no existing
    store. *)
Theorem get_store_is_stable s h b :
  mgr_inv s ->
  exists a s', GetStore b (s, h) = (Ret a, (s', h)) /\ mgr_inv s' /\
    GetStore b (s', h) = (Ret a, (s', h)) /\
    (forall b', dev_t_ b' <> dev_t_ b -> result (GetStore b') (s', h) <> Ret a) /\
    (forall c, is_Some (stores s !! c) -> stores s' !! c = stores s !! c) /\
    (store_of s (dev_t_ b) = None -> stores s' !! a = Some (new_UnsyncedSectorStore VOLATILE_SECONDS)).
Proof.
  intros Hi. destruct (GetStore_run s h b Hi) as (a & s' & R & I & Ha & _ & Hc & Hn & _).
  exists a, s'. split_and!; auto; [by apply GetStore_known| |by intros; apply Hn].
  intros b' Hb. destruct (GetStore_run s' h b' I) as (a' & s'' & R' & I' & Ha' & Ho & _).
  unfold result. rewrite R'. intros [= ->]. apply Hb. apply (mi_inj s'' I' _ _ a); [done|].
  specialize (Ho (dev_t_ b) ltac:(done)). unfold store_of in Ho. rewrite Ha in Ho. cbn in Ho.
  destruct (store_map_ s'' !! dev_t_ b) as [[x|]|]; cbn in Ho; congruence.
Qed.

Lemma IsTracing_run s h b :
  result (IsTracing b) (s, h) =
    Ret (match tracer_map_ s !! dev_t_ b with Some (Some _) => true | _ => false end).
Proof. unfold result, IsTracing. io. by destruct (tracer_map_ s !! dev_t_ b) as [[]|]. Qed.

(** The manager with a store for the device, the one it had or a new one,
    and [t] for its tracer. *)
Definition with_tracer (dev : Z) (t : option tracer_entry) s : manager :=
  match store_of s dev with
  | Some a => mkManager (store_map_ s) (<[dev := t]> (tracer_map_ s)) (stores s) (next_store s)
  | None =>
      mkManager (<[dev := Some (next_store s)]> (store_map_ s)) (<[dev := t]> (tracer_map_ s))
        (<[next_store s := new_UnsyncedSectorStore VOLATILE_SECONDS]> (stores s)) (S (next_store s))
  end.

Lemma StartTracer_store s h b :
  (forall t, tracer_map_ s !! dev_t_ b <> Some (Some t)) ->
  exists s1, index_tracer (dev_t_ b) (s, h) = (Ret None, (s1, h)) /\
    GetStore b (s1, h) = (Ret (default (next_store s) (store_of s (dev_t_ b))), (with_tracer (dev_t_ b) None s, h)).
Proof.
  intros Hn. unfold index_tracer. io.
  assert (exists s1, match tracer_map_ s !! dev_t_ b with
    | Some p => mret p
    | None => upd (set_tracer_map (<[dev_t_ b := None]> (tracer_map_ s))) ;; mret None
    end (s, h) = (Ret None, (s1, h)) /\ s1 = mkManager (store_map_ s) (<[dev_t_ b := None]> (tracer_map_ s)) (stores s) (next_store s))
    as (s1 & -> & ->).
  { destruct (tracer_map_ s !! dev_t_ b) as [[t|]|] eqn:Et; [by destruct (Hn t)| |by eexists].
    exists s. split; [done|]. rewrite insert_id by done. by destruct s. }
  eexists. split; [done|]. unfold GetStore, index_store, make_store, with_tracer, store_of. io. cbn [store_map_].
  destruct (store_map_ s !! dev_t_ b) as [[a|]|] eqn:Es; io; cbn [id mbind option_bind default store_map_ set_store_map next_store].
  - by rewrite Es.
  - by rewrite lookup_insert_eq.
  - by rewrite lookup_insert_eq, insert_insert_eq.
Qed.

(** C35: tracing a device.  A device that is traced: StartTracer throws and
    nothing is changed.  A device that is not: it gets a store if it has none
    (a new one, which shares nothing with the others), and the outcome is
    that of the tracer's constructor.  If the constructor returns, the
    device's tracer is the one it made, with the device's store; if it
    throws, StartTracer throws the same, the device stays untraced, and the
    store and an empty entry for its tracer stay.  Nothing else changes. *)
Theorem start_tracer_spec s h b :
  (forall t, tracer_map_ s !! dev_t_ b = Some (Some t) ->
     StartTracer b (s, h) =
       (Throw (UnsyncedTrackingException "Already tracing block device"), (s, h))) /\
  ((forall t, tracer_map_ s !! dev_t_ b <> Some (Some t)) ->
     let '(o, (d, h')) := new_DeviceTracer (path_ b) (mkDT (-1) 0 "" [], h) in
     StartTracer b (s, h) =
       match o with
       | Ret _ => (Ret tt,
           (with_tracer (dev_t_ b) (Some (mkEntry d (default (next_store s) (store_of s (dev_t_ b))))) s, h'))
       | Throw e => (Throw e, (with_tracer (dev_t_ b) None s, h'))
       | Abort x => (Abort x, (with_tracer (dev_t_ b) None s, h'))
       | Undef x => (Undef x, (with_tracer (dev_t_ b) None s, h'))
       | OutOfFuel => (OutOfFuel, (with_tracer (dev_t_ b) None s, h'))
       end).
Proof.
  split.
  - intros t Ht. unfold StartTracer, index_tracer. io. rewrite Ht. by io.
  - intros Hn. destruct (StartTracer_store s h b Hn) as (s1 & R1 & R2).
    destruct (new_DeviceTracer (path_ b) (mkDT (-1) 0 "" [], h)) as [o [d h']] eqn:Rd.
    unfold StartTracer. rewrite bind_unfold, R1, bind_unfold, R2, bind_unfold. unfold CreateDeviceTracer. cbn [fst snd]. rewrite Rd.
    destruct o as [[]|e|e|e|]; try done. io. unfold with_tracer.
    destruct (store_of s (dev_t_ b)) as [a|] eqn:Es; unfold upd, set_tracer_map, set_store_map; cbn [default from_option id store_map_ tracer_map_ stores next_store upd fst snd].
    + rewrite insert_insert_eq, insert_id; [done|]. unfold store_of in Es.
      destruct (store_map_ s !! dev_t_ b) as [[?|]|]; cbn in Es; congruence.
    + by rewrite !insert_insert_eq.
Qed.

(** Flushing after stopping.  Once StopTracer has returned for a device,
    the device is not traced, its store is still there, and FlushTracer
    dereferences a null pointer: the entry exists but holds nullptr. *)
Theorem flush_after_stop_is_undefined s h b s' h' :
  StopTracer b (s, h) = (Ret tt, (s', h')) ->
  result (IsTracing b) (s', h') = Ret false /\ store_map_ s' = store_map_ s /\ stores s' = stores s /\
  result (FlushTracer b) (s', h') = Undef "FlushBuffers on a null tracer".
Proof.
  unfold StopTracer, index_tracer. io.
  assert (forall (s1 : manager) t hh,
    (upd (fun s => set_tracer_map (<[dev_t_ b := None]> (tracer_map_ s)) s) ;;
     match t with None => mret tt | Some t => on (fun _ => tr_tracer t) (fun _ s => s) DeviceTracer_destroy end)
      (s1, hh) = (Ret tt, (s', h')) ->
    tracer_map_ s' !! dev_t_ b = Some None /\ store_map_ s' = store_map_ s1 /\ stores s' = stores s1) as Hgen.
  { intros s1 t hh. io. unfold on. destruct t as [t|].
    - cbn [fst snd]. destruct (DeviceTracer_destroy (tr_tracer t, hh)) as [o [d h2]]. intros [= _ <- _].
      cbn. by rewrite lookup_insert_eq.
    - intros [= <- _]. cbn. by rewrite lookup_insert_eq. }
  intros R.
  assert (tracer_map_ s' !! dev_t_ b = Some None /\ store_map_ s' = store_map_ s /\ stores s' = stores s)
    as (H1 & H2 & H3).
  { destruct (tracer_map_ s !! dev_t_ b) as [t|]; revert R; io; intros R; [by apply (Hgen s t h)|].
    destruct (Hgen (set_tracer_map (<[dev_t_ b:=None]> (tracer_map_ s)) s) None h R) as (? & ? & ?). done. }
  unfold result, IsTracing, FlushTracer. io. rewrite H1. by split_and!.
Qed.
(** *** Sequences of calls *)

Lemma new_DeviceTracer_defined path : defined (new_DeviceTracer path).
Proof.
  unfold new_DeviceTracer, start_tracing, BeginBlockTrace, CleanupBlockTrace, clear_cpu_tracers, CpuTracer_destroy. defined.
  assert (forall n i, defined (start_cpu_tracers n i)) as Hs; [|apply Hs].
  induction n as [|n IH]; intros i; cbn [start_cpu_tracers]; [auto with agent|].
  unfold GetTracePath, new_CpuTracer. defined.
Qed.

Lemma DeviceTracer_destroy_defined : defined DeviceTracer_destroy.
Proof. unfold DeviceTracer_destroy, CleanupBlockTrace, clear_cpu_tracers, CpuTracer_destroy. defined. Qed.

Inductive sm_op :=
| OpGetStore (b : BlockDevice) | OpStartTracer (b : BlockDevice) | OpStopTracer (b : BlockDevice)
| OpFlushTracer (b : BlockDevice) | OpIsTracing (b : BlockDevice).

Definition run_sm_op (o : sm_op) : IO manager unit :=
  match o with
  | OpGetStore b => GetStore b ;; mret tt
  | OpStartTracer b => StartTracer b
  | OpStopTracer b => StopTracer b
  | OpFlushTracer b => FlushTracer b
  | OpIsTracing b => IsTracing b ;; mret tt
  end.

Lemma index_tracer_run s h d :
  mgr_inv s -> exists p s', index_tracer d (s, h) = (Ret p, (s', h)) /\ mgr_inv s' /\ store_map_ s' = store_map_ s /\
    (p = None -> tracer_map_ s' !! d = Some None).
Proof.
  intros Hi. unfold index_tracer. io. destruct (tracer_map_ s !! d) as [p|] eqn:Et; io; eexists _, _.
  - split; [done|]. by split_and!; [..|intros ->].
  - split; [done|]. split_and!; [by apply no_tracer_inv|done|]. intros _. apply lookup_insert_eq.
Qed.

Lemma tracer_inv s b t :
  mgr_inv s -> store_map_ s !! dev_t_ b = Some (Some (tr_store t)) ->
  mgr_inv (set_tracer_map (<[dev_t_ b := Some t]> (tracer_map_ s)) s).
Proof.
  intros [] Hb. split; try done. cbn. intros e t'. destruct (decide (e = dev_t_ b)) as [->|].
  - rewrite lookup_insert_eq. by intros [= <-].
  - rewrite lookup_insert_ne by done. auto.
Qed.

(** Every method keeps the invariant, and only FlushTracer can go wrong. *)
Lemma run_sm_op_inv o s h :
  mgr_inv s -> mgr_inv (run_sm_op o (s, h)).2.1 /\
    ((forall x, (run_sm_op o (s, h)).1 <> Undef x) \/ exists b, o = OpFlushTracer b).
Proof.
  intros Hi. destruct o as [b|b|b|b|b]; cbn [run_sm_op].
  - destruct (GetStore_run s h b Hi) as (a & s' & R & I & _). rewrite bind_unfold, R. by split; [|left].
  - unfold StartTracer. destruct (index_tracer_run s h (dev_t_ b) Hi) as (p & s1 & R1 & I1 & _).
    rewrite bind_unfold, R1. destruct p as [t|]; [by split; [|left]|].
    destruct (GetStore_run s1 h b I1) as (a & s2 & R2 & I2 & A2 & _). rewrite bind_unfold, R2, bind_unfold.
    pose proof (new_DeviceTracer_defined (path_ b) (mkDT (-1) 0 "" [], h)) as Hd.
    unfold CreateDeviceTracer. cbn [fst snd]. destruct (new_DeviceTracer (path_ b) _) as [o [dt h2]]. cbn [fst] in Hd.
    destruct o as [[]|e|y|y|]; io; [|by split; [|left]|by split; [|left]|by destruct (Hd y)|by split; [|left]].
    split; [|by left].
    apply (tracer_inv _ b (mkEntry dt a)); [|apply lookup_insert_eq]. cbn [fst snd].
    replace (set_store_map _ s2) with s2; [done|]. destruct s2. unfold set_store_map. cbn. f_equal.
    cbn in A2. by rewrite insert_id.
  - unfold StopTracer. destruct (index_tracer_run s h (dev_t_ b) Hi) as (p & s1 & R1 & I1 & _).
    rewrite bind_unfold, R1, bind_unfold. cbn [upd fst snd]. pose proof (no_tracer_inv s1 (dev_t_ b) I1) as I2.
    destruct p as [t|]; [|by split; [|left]]. pose proof (DeviceTracer_destroy_defined (tr_tracer t, h)) as Hd.
    unfold on. cbn [fst snd]. destruct (DeviceTracer_destroy (tr_tracer t, h)) as [o [dt h2]]. by split; [|left].
  - split; [|by right; exists b]. unfold FlushTracer. io. destruct (tracer_map_ s !! dev_t_ b) as [[t|]|]; [|done..].
    unfold on. cbn [fst snd]. by destruct (FlushBuffers _) as [o [dt h2]].
  - unfold IsTracing. io. destruct (tracer_map_ s !! dev_t_ b) as [[t|]|]; by split; [|left].
Qed.

(** A tracer that is started leaves every store as it is, and every other
    device's tracer. *)
Lemma StartTracer_Ret s h b s' h' :
  mgr_inv s -> StartTracer b (s, h) = (Ret tt, (s', h')) ->
  mgr_inv s' /\ (exists t, tracer_map_ s' !! dev_t_ b = Some (Some t)) /\
  (forall d, d <> dev_t_ b -> store_of s' d = store_of s d) /\
  (forall a, is_Some (stores s !! a) -> stores s' !! a = stores s !! a) /\
  (forall d t, tracer_map_ s !! d = Some (Some t) -> tracer_map_ s' !! d = Some (Some t)).
Proof.
  intros Hi R. pose proof (proj1 (run_sm_op_inv (OpStartTracer b) s h Hi)) as I'. cbn [run_sm_op] in I'. rewrite R in I'.
  split; [exact I'|]. clear I'. revert R. unfold StartTracer.
  assert (exists p s1, index_tracer (dev_t_ b) (s, h) = (Ret p, (s1, h)) /\ mgr_inv s1 /\ store_map_ s1 = store_map_ s /\
    stores s1 = stores s /\ forall d t, tracer_map_ s !! d = Some (Some t) -> tracer_map_ s1 !! d = Some (Some t))
    as (p & s1 & R1 & I1 & M1 & S1 & T1).
  { unfold index_tracer. io. destruct (tracer_map_ s !! dev_t_ b) as [p|] eqn:Et; io; eexists _, _.
    - split; [done|]. by split_and!.
    - split; [done|]. split_and!; [by apply no_tracer_inv|done|done|]. intros d t Hd. cbn.
      rewrite lookup_insert_ne; [done|congruence]. }
  rewrite bind_unfold, R1. destruct p as [t|]; [done|].
  destruct (GetStore_run s1 h b I1) as (a & s2 & R2 & _ & A2 & O2 & K2 & _ & T2). rewrite bind_unfold, R2, bind_unfold.
  assert (forall t, tracer_map_ s !! dev_t_ b <> Some (Some t)) as Hn.
  { intros t Ht. revert R1. unfold index_tracer. io. rewrite Ht. by io. }
  unfold CreateDeviceTracer. cbn [fst snd]. destruct (new_DeviceTracer (path_ b) _) as [o [dt h2]].
  destruct o as [[]|e|y|y|]; io; try done. intros [= <- <-]. cbn. split_and!.
  - rewrite lookup_insert_eq. eauto.
  - intros d Hd. unfold store_of in *. cbn. rewrite lookup_insert_ne by done. rewrite O2 by done. by rewrite M1.
  - intros c. rewrite <- S1. apply K2.
  - intros d t Ht. rewrite lookup_insert_ne; [rewrite T2; by apply T1|]. intros <-. by apply (Hn t).
Qed.

Definition run_sm_ops (ops : list sm_op) (w : manager * history) : manager * history :=
  foldl (fun w o => final (run_sm_op o) w) w ops.

Lemma run_sm_ops_inv ops w : mgr_inv w.1 -> mgr_inv (run_sm_ops ops w).1.
Proof.
  revert w. induction ops as [|o ops IH]; intros [s h] Hi; [done|]. cbn. apply IH. by apply run_sm_op_inv.
Qed.

(** C36: the manager stays well formed.  After any sequence of calls on a new
    manager, whatever the kernel answers and whichever of the calls failed:
    every store a device's entry points to exists, two devices never share
    one, and the tracer of a traced device feeds the very store GetStore
    hands to the synchronizers of that device; and no call but FlushTracer
    dereferences a null pointer. *)
Theorem manager_stays_well_formed ops h :
  let w := run_sm_ops ops (new_UnsyncedSectorManager, h) in
  (forall d a, store_map_ w.1 !! d = Some (Some a) -> is_Some (stores w.1 !! a)) /\
  (forall d e a, store_map_ w.1 !! d = Some (Some a) -> store_map_ w.1 !! e = Some (Some a) -> d = e) /\
  (forall b t, tracer_map_ w.1 !! dev_t_ b = Some (Some t) -> GetStore b w = (Ret (tr_store t), w)) /\
  (forall o, (forall b, o <> OpFlushTracer b) -> forall x, (run_sm_op o w).1 <> Undef x).
Proof.
  intros w. pose proof (run_sm_ops_inv ops (new_UnsyncedSectorManager, h) new_manager_inv) as Hi. fold w in Hi.
  destruct w as [s k]. cbn [fst] in *. split_and!; [apply Hi|apply Hi| |].
  - intros b t Ht. by apply GetStore_known, (mi_traced s Hi).
  - intros o Ho. destruct (run_sm_op_inv o s k Hi) as [_ [H|[b ->]]]; [done|]. by destruct (Ho b).
Qed.
End ManagerProps.

(** ** Runs *)

Definition empty_manager : UnsyncedSectorManager ref_map ref_set := new_UnsyncedSectorManager.

Lemma get_store_is_stable_witness :
  exists a s', GetStore sample_device (empty_manager, []) = (Ret a, (s', [])) /\
    GetStore sample_device (s', []) = (Ret a, (s', [])) /\
    stores s' !! a = Some (new_UnsyncedSectorStore VOLATILE_SECONDS).
Proof.
  destruct (get_store_is_stable empty_manager [] sample_device new_manager_inv)
    as (a & s' & R & _ & R' & _ & _ & H).
  exists a, s'. split; [exact R|]. split; [exact R'|]. apply H. reflexivity.
Defined.

(** A host on which the trace cannot be set up. *)
Definition no_trace_env : Env := fun h T c =>
  match c in sys T return T with
  | SIoctlName _ _ => (-1, 16, "")
  | c' => working_env h _ c'
  end.

Lemma start_tracer_spec_witness :
  (exists d h', StartTracer (env := working_env) sample_device (empty_manager, []) =
     (Ret tt, (with_tracer 2049 (Some (mkEntry d 0)) empty_manager, h'))) /\
  (exists h', StartTracer (env := no_trace_env) sample_device (empty_manager, []) =
     (Throw (BlockTraceException "BLKTRACESETUP"), (with_tracer 2049 None empty_manager, h'))) /\
  stores (with_tracer 2049 None empty_manager) = {[0%nat := new_UnsyncedSectorStore VOLATILE_SECONDS]}.
Proof.
  split; [|split; [|reflexivity]].
  - pose proof (proj2 (start_tracer_spec (E := working_env) empty_manager [] sample_device) ltac:(intros t; discriminate)) as H.
    match type of H with context [new_DeviceTracer ?p ?w] =>
      assert ((new_DeviceTracer (env := working_env) p w).1 = Ret tt) as Ho by (vm_compute; reflexivity);
      destruct (new_DeviceTracer (env := working_env) p w) as [o [d h']] end.
    cbn [fst] in Ho. subst o. exists d, h'. exact H.
  - pose proof (proj2 (start_tracer_spec (E := no_trace_env) empty_manager [] sample_device) ltac:(intros t; discriminate)) as H.
    match type of H with context [new_DeviceTracer ?p ?w] =>
      assert ((new_DeviceTracer (env := no_trace_env) p w).1 = Throw (BlockTraceException "BLKTRACESETUP")) as Ho by (vm_compute; reflexivity);
      destruct (new_DeviceTracer (env := no_trace_env) p w) as [o [d h']] end.
    cbn [fst] in Ho. subst o. exists h'. exact H.
Defined.

Definition traced_manager : UnsyncedSectorManager ref_map ref_set * history :=
  final (StartTracer (env := working_env) sample_device) (empty_manager, []).

Definition stopped_manager : UnsyncedSectorManager ref_map ref_set * history :=
  final (StopTracer (env := working_env) sample_device) traced_manager.

Lemma flush_after_stop_is_undefined_witness :
  result (FlushTracer (env := working_env) sample_device) stopped_manager =
    Undef "FlushBuffers on a null tracer".
Proof.
  apply (flush_after_stop_is_undefined (E := working_env) traced_manager.1 traced_manager.2 sample_device
    stopped_manager.1 stopped_manager.2).
  vm_compute. reflexivity.
Defined.
