(* ===== verification/ExtDevice.v ===== *)
(** * The sectors an ext filesystem uses

    Models block_device/ext_error_table-inl.h (the registration of the
    library's messages), block_device/ext_file_system.{h,cc} (opening the
    filesystem with libext2fs) and ExtMountableBlockDevice::GetInUseSectors of
    block_device/ext_mountable_block_device.{h,cc}.  libext2fs is a
    parameter: the superblock's fields and the group count as values, the
    two bitmap functions as the class [Ext2Bitmaps] with the documented
    meaning of a bit as its law. *)

From S2P Require Import Prelude Machine Icl IclRef Posix BlockDevice FreezeHelper.

(** The fields of [struct ext2_super_block] and [struct struct_ext2_filsys]
    that are read; the superblock's are 32 bits wide. *)
Record ext_super := mkSuper {
  s_blocks_per_group : Z;
  s_log_block_size : Z;
  s_first_data_block : Z;
  s_blocks_count : Z;
  group_desc_count : Z
}.

(** [ext2fs_get_block_bitmap_range(map, start, num, out)] and
    [ext2fs_test_bit(nr, addr)]; [allocated] is what the map says about a
    block.  [start] is a 32-bit number.  The call answers an error code that
    the program does not look at: the function is what the buffer holds after
    a call that succeeds. *)
Class Ext2Bitmaps (B : Type) := {
  allocated : Z -> bool;
  get_block_bitmap_range : Z -> Z -> B;
  test_bit : Z -> B -> bool
}.

Class Ext2BitmapsLaws (B : Type) `{!Ext2Bitmaps B} : Prop := {
  range_bit : forall start num j, 0 <= j < num ->
    test_bit j (get_block_bitmap_range start num) = allocated (start + j)
}.

(** ** ExtErrorTable

    The object is the registration of the library's error table with
    libcom_err, a list every thread of the process shares. *)

Section ErrorTable.
Context {env : Env} {S : Type}.

Definition new_ExtErrorTable : IO S unit := call SAddErrorTable ;; mret tt.

Definition get_error (return_code : Z) : IO S string := call (SErrorMessage return_code).

Definition ExtErrorTable_destroy : IO S unit := call SRemoveErrorTable ;; mret tt.
End ErrorTable.

(** ** ExtFileSystem *)

Section FileSystem.
Context {env : Env} {S : Type}.

(** The constructor; an ExtFileSystem is the descriptor it keeps.  The
    library's codes are [long]s, [rc] is an [int]. *)
Definition new_ExtFileSystem (dev_path : string) : IO S Z :=
  dev_fd ← call (SOpen dev_path [O_RDONLY]);
  if ret dev_fd <? 0 then throw (BlockDeviceException "Unable to open device") else
  code ← call (SExt2Open dev_path);
  let rc := i32 code in
  if negb (rc =? 0) then
    get_error rc ;;
    call (SClose (ret dev_fd)) ;;
    throw (BlockDeviceException "Unable to open device as ext")
  else
    code2 ← call SExt2ReadBitmaps;
    let rc2 := i32 code2 in
    if negb (rc2 =? 0) then
      get_error rc2 ;;
      call SExt2Close ;;
      call (SClose (ret dev_fd)) ;;
      throw (BlockDeviceException "Unable to read bitmap")
    else mret (ret dev_fd).

Definition ExtFileSystem_destroy (dev_fd : Z) : IO S unit :=
  call SExt2Close ;; call (SClose dev_fd) ;; mret tt.
End FileSystem.

(** ** GetInUseSectors *)

Section InUse.
Context {env : Env} {TS B : Type} `{!IclSet TS, !Ext2Bitmaps B}.

(** The state is the local [ext_fs], a unique_ptr.  [Begin] and [End_] are
    the two methods of the FreezeHelper. *)
Context (Begin : IO (option Z) unit) (End_ : IO (option Z) bool).

Definition while_frozen {A} (to_run : IO (option Z) A) : IO (option Z) A :=
  RunWhileFrozen Begin End_ to_run.

(** Assigning to the unique_ptr destroys what it pointed to. *)
Definition open_ext (path : string) : IO (option Z) unit :=
  d ← new_ExtFileSystem path;
  old ← field id;
  upd (fun _ => Some d) ;;
  match old with
  | Some o => ExtFileSystem_destroy o
  | None => mret tt
  end.

Definition block_size (super : ext_super) : Z := u32 (Z.shiftl 0x400 (s_log_block_size super)).

Definition sectors_per_block (super : ext_super) : Z := block_size super / 512.

Definition bitmap_size (super : ext_super) : Z :=
  Tools.my_roundup (s_blocks_per_group super) 8 / 8.

Definition group_offset (super : ext_super) (i : Z) : Z :=
  i64 (u64 (s_first_data_block super + u64 (i * s_blocks_per_group super))).

(** The inner [for]: [left] blocks of the group are left, from [j] on. *)
Fixpoint insert_group (super : ext_super) (block_bitmap : B) (offset : Z) (left : nat) (j : Z)
    (sectors : TS) : TS :=
  match left with
  | O => sectors
  | Datatypes.S left' =>
      if u64 (j + offset) <? s_blocks_count super then
        let sectors' :=
          if test_bit j block_bitmap then
            let cur_block_offset := i64 (offset + j) in
            let sector_location := u64 (sectors_per_block super * cur_block_offset) in
            is_add sectors (mkSI sector_location (u64 (sector_location + sectors_per_block super)))
          else sectors in
        insert_group super block_bitmap offset left' (j + 1) sectors'
      else sectors
  end.

(** The outer [for]: [left] groups are left, from group [i] on. *)
Fixpoint insert_groups (super : ext_super) (left : nat) (i : Z) (sectors : TS) : IO (option Z) TS :=
  match left with
  | O => mret sectors
  | Datatypes.S left' =>
      '(offset, block_bitmap) ← while_frozen (
        let offset := group_offset super i in
        mret (offset, get_block_bitmap_range (u32 offset) (s_blocks_per_group super)));
      insert_groups super left' (i + 1)
        (insert_group super block_bitmap offset (Z.to_nat (s_blocks_per_group super)) 0 sectors)
  end.

Definition get_in_use (super : ext_super) (path : string) : IO (option Z) TS :=
  while_frozen (open_ext path) ;;
  while_frozen (mret tt) ;;
  insert_groups super (Z.to_nat (group_desc_count super)) 0 (is_add is_empty (mkSI 0 2)).

(** The locals are destroyed however the function is left, in the reverse
    order of their declarations: the unique_ptr, then the error table. *)
Definition destroy_ext_fs : IO (option Z) unit :=
  old ← field id;
  upd (fun _ => None) ;;
  match old with
  | Some d => ExtFileSystem_destroy d
  | None => mret tt
  end.

Definition GetInUseSectors (super : ext_super) (path : string) : IO (option Z) TS := fun w =>
  let '(r, w') := get_in_use super path (new_ExtErrorTable w).2 in
  (r, (ExtErrorTable_destroy (destroy_ext_fs w').2).2).
End InUse.

(** ** Properties *)

(** What the code assumes of a superblock: the numbers of a filesystem of
    less than 2^44 blocks, with blocks of 1 to 64 KB. *)
Record super_ok (super : ext_super) : Prop := {
  so_bpg : 1 <= s_blocks_per_group super < 2 ^ 32;
  so_log : 0 <= s_log_block_size super <= 6;
  so_first : 0 <= s_first_data_block super < 2 ^ 32;
  so_count : 0 <= s_blocks_count super < 2 ^ 32;
  so_groups : 0 <= group_desc_count super;
  so_total : group_desc_count super * s_blocks_per_group super < 2 ^ 44
}.

(** A sector the filesystem uses. *)
Definition sector_in_use {B : Type} `{!Ext2Bitmaps B} (super : ext_super) (x : Z) : Prop :=
  0 <= x < 2 \/
  exists b, s_first_data_block super <= b <
      s_first_data_block super + group_desc_count super * s_blocks_per_group super /\
    b < s_blocks_count super /\ allocated (B := B) b = true /\ x / sectors_per_block super = b.

Lemma spb_value super :
  super_ok super -> sectors_per_block super = 2 * 2 ^ s_log_block_size super /\
    2 <= sectors_per_block super <= 128.
Proof.
  intros Hs. unfold sectors_per_block, block_size. rewrite Z.shiftl_mul_pow2 by apply Hs.
  pose proof (so_log super Hs) as Hl.
  assert (1 <= 2 ^ s_log_block_size super <= 64) as Hp.
  { pose proof (Z.pow_pos_nonneg 2 (s_log_block_size super) ltac:(lia) ltac:(lia)).
    pose proof (Z.pow_le_mono_r 2 (s_log_block_size super) 6 ltac:(lia) ltac:(lia)). lia. }
  rewrite u32_id by (unfold is_u32; lia).
  replace (0x400 * 2 ^ s_log_block_size super) with (2 * 2 ^ s_log_block_size super * 512) by lia.
  rewrite Z.div_mul by lia. lia.
Qed.

(** The bitmap buffer.  The buffer allocated for a group's bitmap has at
    least one bit for each of its blocks, for every number of blocks per
    group a superblock can hold. *)
Theorem bitmap_buffer_fits super :
  1 <= s_blocks_per_group super < 2 ^ 32 - 7 ->
  s_blocks_per_group super <= 8 * bitmap_size super < s_blocks_per_group super + 8.
Proof.
  intros H. unfold bitmap_size, Tools.my_roundup.
  pose proof (Z.mul_div_le (s_blocks_per_group super - 1) 8 ltac:(lia)).
  pose proof (Z.mul_succ_div_gt (s_blocks_per_group super - 1) 8 ltac:(lia)).
  rewrite (u32_id (_ - 1)) by (unfold is_u32; lia). rewrite u32_id by (unfold is_u32; lia).
  rewrite (Z.mul_comm 8 (_ + 1)), Z.div_mul by lia. lia.
Qed.

Section InUseProps.
Context {E : Env} {TS B : Type} `{!IclSet TS, !IclSetLaws TS, !Ext2Bitmaps B, !Ext2BitmapsLaws B}.
Context (Begin : IO (option Z) unit) (End_ : IO (option Z) bool).

(** The block [b] belongs to the first [j] blocks of a group at [offset]. *)
Lemma insert_group_mem super offset left j sectors x :
  super_ok super -> 0 <= offset < 2 ^ 45 -> 0 <= j ->
  j + Z.of_nat left <= s_blocks_per_group super ->
  is_mem (insert_group super (get_block_bitmap_range (B := B) (u32 offset) (s_blocks_per_group super)) offset left j
            (sectors : TS)) x = true <->
  is_mem sectors x = true \/
  exists b, offset + j <= b < offset + j + Z.of_nat left /\ b < s_blocks_count super /\
    allocated (B := B) b = true /\ x / sectors_per_block super = b.
Proof.
  intros Hs Ho Hj. destruct (spb_value super Hs) as [_ Hspb]. pose proof (so_bpg super Hs) as Hbpg.
  revert j sectors Hj. induction left as [|left IH]; intros j sectors Hj Hle; cbn [insert_group].
  { split; [by left|]. intros [?|(b & ? & _)]; [done|lia]. }
  rewrite u64_id by (unfold is_u64; lia).
  destruct (Z.ltb_spec (j + offset) (s_blocks_count super)) as [Hlt|Hge].
  2: { split; [by left|]. intros [?|(b & ? & ? & _)]; [done|lia]. }
  pose proof (so_count super Hs) as Hcount.
  rewrite IH by lia. clear IH.
  rewrite range_bit by lia. rewrite (u32_id offset) by (unfold is_u32; lia).
  assert (forall loc, loc = sectors_per_block super * (offset + j) ->
    (x ∈ mkSI loc (loc + sectors_per_block super) <-> x / sectors_per_block super = offset + j)) as Hdiv.
  { intros loc ->. split.
    - intros Hx. symmetry. apply (Z.div_unique_pos x _ _ (x - sectors_per_block super * (offset + j))); iv_lia.
    - intros Hx. pose proof (Z.mul_div_le x (sectors_per_block super) ltac:(lia)).
      pose proof (Z.mul_succ_div_gt x (sectors_per_block super) ltac:(lia)). rewrite Hx in *. iv_lia. }
  assert (is_mem (if allocated (B := B) (offset + j)
      then is_add sectors (mkSI (u64 (sectors_per_block super * i64 (offset + j)))
        (u64 (u64 (sectors_per_block super * i64 (offset + j)) + sectors_per_block super)))
      else sectors) x = true <->
    is_mem sectors x = true \/ (allocated (B := B) (offset + j) = true /\ x / sectors_per_block super = offset + j))
    as Hins.
  { destruct (allocated (offset + j)); [|intuition congruence].
    rewrite i64_id by lia. rewrite u64_id by (unfold is_u64; nia).
    rewrite u64_id by (unfold is_u64; nia).
    rewrite is_add_mem, orb_true_iff, in_iv_spec, (Hdiv _ eq_refl). intuition. }
  cbn zeta. rewrite Hins. split.
  - intros [[?|[? ?]]|(b & ? & ? & ? & ?)]; [by left|right|right].
    + exists (offset + j). split_and!; [lia|lia|lia|done|done].
    + exists b. split_and!; [lia|lia|done|done|done].
  - intros [?|(b & Hb & ? & ? & ?)]; [by left; left|].
    destruct (decide (b = offset + j)) as [->|]; [left; by right|right].
    exists b. split_and!; [lia|lia|done|done|done].
Qed.

(** A computation that changes nothing, run while frozen, gives its value
    when it returns. *)
Lemma while_frozen_value {A} (a : A) w r w' :
  while_frozen Begin End_ (mret a) w = (Ret r, w') -> r = a.
Proof.
  unfold while_frozen, RunWhileFrozen. generalize 10%nat. intros n. revert w.
  induction n as [|n IH]; intros w; cbn [run_attempts]; [done|].
  intros ([] & w1 & _ & H)%bind_Ret_inv. apply bind_Ret_inv in H as (a' & w2 & [= <- <-] & H).
  apply bind_Ret_inv in H as (b & w3 & _ & H). destruct b; [by injection H as <-|by eapply IH].
Qed.

Lemma group_offset_value super i :
  super_ok super -> 0 <= i < group_desc_count super ->
  group_offset super i = s_first_data_block super + i * s_blocks_per_group super /\
  0 <= group_offset super i < 2 ^ 45.
Proof.
  intros Hs Hi. destruct Hs. unfold group_offset.
  assert (0 <= i * s_blocks_per_group super < 2 ^ 44) by nia.
  rewrite !u64_id by (unfold is_u64; try lia; rewrite u64_id by (unfold is_u64; lia); lia).
  rewrite i64_id by lia. lia.
Qed.

Lemma insert_groups_mem super left i sectors w r w' x :
  super_ok super -> 0 <= i -> i + Z.of_nat left <= group_desc_count super ->
  insert_groups (B := B) Begin End_ super left i (sectors : TS) w = (Ret r, w') ->
  is_mem r x = true <->
  is_mem sectors x = true \/
  exists b, s_first_data_block super + i * s_blocks_per_group super <= b <
      s_first_data_block super + (i + Z.of_nat left) * s_blocks_per_group super /\
    b < s_blocks_count super /\ allocated (B := B) b = true /\ x / sectors_per_block super = b.
Proof.
  intros Hs. revert i sectors w. induction left as [|left IH]; intros i sectors w Hi Hle; cbn [insert_groups].
  { intros [= <- <-]. split; [by left|]. intros [?|(b & ? & _)]; [done|lia]. }
  intros ([off bm] & w1 & E1 & H)%bind_Ret_inv. apply while_frozen_value in E1. injection E1 as -> ->.
  apply IH in H; [|lia|lia]. rewrite H. clear H IH.
  destruct (group_offset_value super i Hs ltac:(lia)) as [Eo Ho].
  pose proof (so_bpg super Hs).
  rewrite insert_group_mem by (auto; lia). rewrite Eo, Z2Nat.id by lia. split.
  - intros [[?|(b & ? & ? & ? & ?)]|(b & ? & ? & ? & ?)]; [by left|right..]; exists b; split_and!; try done; nia.
  - intros [?|(b & Hb & ? & ? & ?)]; [by left; left|].
    destruct (Z.lt_ge_cases b (s_first_data_block super + (i + 1) * s_blocks_per_group super)).
    + left. right. exists b. split_and!; try done; nia.
    + right. exists b. split_and!; try done; nia.
Qed.

Lemma GetInUseSectors_mem super path w r w' x :
  super_ok super ->
  GetInUseSectors (TS := TS) (B := B) Begin End_ super path w = (Ret r, w') ->
  is_mem r x = true <-> sector_in_use (B := B) super x.
Proof.
  intros Hs R. unfold GetInUseSectors in R.
  destruct (get_in_use Begin End_ super path _) as [o w1] eqn:E1. injection R as -> _. unfold get_in_use in E1.
  apply bind_Ret_inv in E1 as ([] & w2 & _ & E1). apply bind_Ret_inv in E1 as ([] & w3 & _ & E1).
  pose proof (so_groups super Hs).
  apply (insert_groups_mem _ _ _ _ _ _ _ x) in E1; [|done|lia|lia]. rewrite E1.
  rewrite is_add_mem, is_empty_mem, orb_false_l, in_iv_spec, Z2Nat.id by lia.
  replace (s_first_data_block super + 0 * s_blocks_per_group super) with (s_first_data_block super) by lia.
  rewrite Z.add_0_l. done.
Qed.

(** C18: the sectors in use.  When GetInUseSectors returns, its answer has a
    sector exactly when it is one of the first two, or belongs to a block
    that the filesystem's bitmap marks as allocated and that lies in one of
    the groups and below s_blocks_count.  The last condition is what the
    code reads: the 32-bit field of the superblock, so blocks past the low
    32 bits of the real count are not in the answer. *)
Theorem in_use_sectors_exact super path w r w' x :
  super_ok super ->
  GetInUseSectors (TS := TS) (B := B) Begin End_ super path w = (Ret r, w') ->
  is_mem r x = true <->
  0 <= x < 2 \/
  exists b, s_first_data_block super <= b <
      s_first_data_block super + group_desc_count super * s_blocks_per_group super /\
    b < s_blocks_count super /\ allocated (B := B) b = true /\ x / sectors_per_block super = b.
Proof. apply GetInUseSectors_mem. Qed.
End InUseProps.

(** ** The locals of GetInUseSectors *)

Section Locals.
Context {E : Env} {TS B : Type} `{!IclSet TS, !Ext2Bitmaps B}.
Context (Begin : IO (option Z) unit) (End_ : IO (option Z) bool).

(** What freezing, thawing and opening the filesystem keep is kept up to
    the destruction of the locals, on every path. *)
Section Kept.
Context (P : option Z * history -> Prop).
Hypothesis Begin_keeps : forall w, P w -> P (Begin w).2.
Hypothesis End_keeps : forall w, P w -> P (End_ w).2.

Lemma while_frozen_keeps {A} (m : IO (option Z) A) w :
  (forall v, P v -> P (m v).2) -> P w -> P (while_frozen Begin End_ m w).2.
Proof. intros Hm Hw. unfold while_frozen, RunWhileFrozen. by apply run_attempts_state. Qed.

Lemma insert_groups_keeps super left i (sectors : TS) w :
  P w -> P (insert_groups (B := B) Begin End_ super left i sectors w).2.
Proof.
  revert i sectors w. induction left as [|left IH]; intros i sectors w Hw; cbn [insert_groups]; [done|].
  apply bind_state_rule; [by apply while_frozen_keeps|]. intros [off bm] w1 R1. apply IH.
  match type of R1 with while_frozen _ _ ?m _ = _ => pose proof (while_frozen_keeps m w) as X end.
  rewrite R1 in X. by apply X.
Qed.

Lemma get_in_use_keeps super path w :
  (forall v, P v -> P (open_ext path v).2) -> P w ->
  P (get_in_use (TS := TS) (B := B) Begin End_ super path w).2.
Proof.
  intros Ho Hw. unfold get_in_use. apply bind_state_rule; [by apply while_frozen_keeps|].
  intros [] w1 R1. assert (P w1) as H1 by (pose proof (while_frozen_keeps _ w Ho Hw) as X; by rewrite R1 in X).
  apply bind_state_rule; [by apply while_frozen_keeps|]. intros [] w2 R2. apply insert_groups_keeps.
  pose proof (while_frozen_keeps (mret tt) w1 (fun v Hv => Hv) H1) as X. by rewrite R2 in X.
Qed.
End Kept.

(** *** Descriptors *)

Section Descriptors.
Hypothesis fresh : fresh_fds E.

(** Freezing and thawing leave no descriptor behind. *)
Hypothesis Begin_fds : forall w, (Begin w).2.1 = w.1 /\ open_fds (Begin w).2.2 = open_fds w.2.
Hypothesis End_fds : forall w, (End_ w).2.1 = w.1 /\ open_fds (End_ w).2.2 = open_fds w.2.

Lemma new_ExtFileSystem_run {S} path (s : S) h :
  exists o h', new_ExtFileSystem path (s, h) = (o, (s, h')) /\
    ((exists d, o = Ret d /\ open_fds h' = open_fds h ∪ {[d]} /\ d ∉ open_fds h) \/
     ((forall d, o <> Ret d) /\ open_fds h' = open_fds h)).
Proof.
  unfold new_ExtFileSystem, get_error. io.
  destruct (open_answer fresh h path [O_RDONLY]) as [[Hr Ho]|(Hr & Hn & Ho)].
  { rewrite Hr. cbn [Z.ltb Z.compare]. io. eexists _, _. split; [done|]. right. by rewrite Ho. }
  rewrite (proj2 (Z.ltb_ge _ 0) Hr). io.
  set (h1 := Ev (SOpen path [O_RDONLY]) _ :: h) in *.
  set (r := ret (E h cret (SOpen path [O_RDONLY]))) in *.
  case_bool; io; [|case_bool; io]; (eexists _, _; split; [done|]).
  1, 2: right; split; [done|]; rewrite open_fds_close;
    match goal with |- open_fds ?x ∖ _ = _ => change (open_fds x) with (open_fds h1) end; rewrite Ho; set_solver.
  left. exists r. split_and!; [done| |done].
  match goal with |- open_fds ?x = _ => change (open_fds x) with (open_fds h1) end. rewrite Ho. set_solver.
Qed.

(** The descriptors open are those of [base] and the local filesystem's. *)
Definition ext_inv (base : gset Z) (w : option Z * history) : Prop :=
  match w.1 with
  | None => open_fds w.2 = base
  | Some d => open_fds w.2 = base ∪ {[d]} /\ d ∉ base
  end.

Lemma ext_destroy_run {S} d (s : S) h :
  exists h', ExtFileSystem_destroy d (s, h) = (Ret tt, (s, h')) /\ open_fds h' = open_fds h ∖ {[d]}.
Proof. unfold ExtFileSystem_destroy. io. eexists. split; [done|]. by autorewrite with agent. Qed.

Lemma open_ext_inv base path w : ext_inv base w -> ext_inv base (open_ext path w).2.
Proof.
  destruct w as [v h]. intros Hi. unfold open_ext.
  destruct (new_ExtFileSystem_run path v h) as (o & h1 & R1 & [(d & -> & E1 & N1)|[Hn E1]]).
  - rewrite bind_unfold, R1. io. cbn [id]. destruct v as [o|].
    + destruct (ext_destroy_run o (Some d) h1) as (h2 & R2 & E2). rewrite R2. unfold ext_inv in *. cbn in *.
      destruct Hi as [Hi1 Hi2]. rewrite E2, E1, Hi1. rewrite Hi1 in N1. set_solver.
    + unfold ext_inv in *. cbn in *. rewrite E1, Hi. set_solver.
  - rewrite bind_unfold, R1. assert (ext_inv base (v, h1)) as H1
      by (unfold ext_inv in *; cbn in *; by rewrite E1).
    destruct o as [d| | | |]; [by destruct (Hn d)|done..].
Qed.

Lemma destroy_ext_fs_inv base w : ext_inv base w -> open_fds (destroy_ext_fs w).2.2 = base.
Proof.
  destruct w as [[d|] h]; unfold ext_inv, destroy_ext_fs; io; cbn [id]; [|done]. intros [H1 H2].
  destruct (ext_destroy_run d (None : option Z) h) as (h2 & R2 & E2). rewrite R2. cbn. rewrite E2, H1. set_solver.
Qed.

(** Opening the filesystem leaks nothing.  However GetInUseSectors ends
    (result, exception of the library, of the freeze or of the retry loop),
    and however often the filesystem was opened again in between, the
    descriptors open afterwards are those open before. *)
Theorem in_use_releases_descriptors super path h :
  open_fds (final (GetInUseSectors (TS := TS) (B := B) Begin End_ super path) (None, h)).2 = open_fds h.
Proof.
  unfold final, GetInUseSectors.
  pose proof (get_in_use_keeps (ext_inv (open_fds h))) as K.
  specialize (K ltac:(intros [v k] Hv; destruct (Begin_fds (v, k)) as [K1 K2]; unfold ext_inv in *; by rewrite K1, K2)).
  specialize (K ltac:(intros [v k] Hv; destruct (End_fds (v, k)) as [K1 K2]; unfold ext_inv in *; by rewrite K1, K2)).
  specialize (K super path (new_ExtErrorTable (None, h)).2 (open_ext_inv _ path) eq_refl).
  destruct (get_in_use Begin End_ super path _) as [o w']. by apply destroy_ext_fs_inv in K.
Qed.
End Descriptors.

(** *** The library's messages *)

(** How often the table is registered. *)
Fixpoint registered (h : history) : Z :=
  match h with
  | [] => 0
  | Ev c _ :: h' =>
      match c with SAddErrorTable => 1 | SRemoveErrorTable => -1 | _ => 0 end + registered h'
  end.

(** No message is asked for unless the table is registered. *)
Fixpoint messages_known (h : history) : Prop :=
  match h with
  | [] => True
  | Ev c _ :: h' => match c with SErrorMessage _ => 0 < registered h' | _ => True end /\ messages_known h'
  end.

Definition table_inv (n : Z) (h : history) : Prop := registered h = n /\ messages_known h.

Lemma open_ext_table n path w : 0 < n -> table_inv n w.2 -> table_inv n (open_ext path w).2.2.
Proof.
  destruct w as [v h]. unfold table_inv. cbn [snd]. intros Hn [Hr Hm].
  unfold open_ext, new_ExtFileSystem, get_error, ExtFileSystem_destroy.
  rewrite !bind_unfold. cbn [call fst snd]. case_bool; [by io|].
  rewrite bind_unfold. cbn [call fst snd]. case_bool; [io; cbn; split_and!; (done || lia)|].
  io. case_bool; io; cbn; [split_and!; (done || lia)|]. by destruct v; io.
Qed.

Lemma destroy_ext_fs_table n w : table_inv n w.2 -> table_inv n (destroy_ext_fs w).2.2.
Proof. destruct w as [[d|] h]; intros [Hr Hm]; split; try exact Hr; cbn; try done. Qed.

(** The library's messages.  If freezing and thawing leave the
    registrations alone, GetInUseSectors asks libcom_err for a message only
    while the library's table is registered, and leaves it registered as
    often as it was before, however it ends. *)
Theorem error_table_scoped super path w :
  (forall n v, table_inv n v.2 -> table_inv n (Begin v).2.2) ->
  (forall n v, table_inv n v.2 -> table_inv n (End_ v).2.2) ->
  0 <= registered w.2 -> messages_known w.2 ->
  let h' := (final (GetInUseSectors (TS := TS) (B := B) Begin End_ super path) w).2 in
  registered h' = registered w.2 /\ messages_known h'.
Proof.
  intros HB HE H0 Hm. unfold final, GetInUseSectors.
  set (n := 1 + registered w.2).
  pose proof (get_in_use_keeps (fun v => table_inv n v.2) (HB n) (HE n) super path (new_ExtErrorTable w).2
    (fun v => open_ext_table n path v ltac:(lia)) ltac:(done)) as K.
  destruct (get_in_use Begin End_ super path _) as [o w']. apply destroy_ext_fs_table in K as [Kr Km]. unfold n in *.
  unfold ExtErrorTable_destroy. io. cbn [registered messages_known]. cbn [snd] in Kr, Km.
  split; [lia|by split].
Qed.
End Locals.

(** ** Runs *)

(** A filesystem of two groups of eight blocks of 1 KB from block 1 on, in
    which the blocks divisible by three are allocated. *)
Definition sample_super : ext_super := mkSuper 8 0 1 14 2.

#[export] Instance sample_bitmaps : Ext2Bitmaps (list bool) := {
  allocated := fun b => b mod 3 =? 0;
  get_block_bitmap_range := fun start num =>
    (fun k => (start + Z.of_nat k) mod 3 =? 0) <$> seq 0 (Z.to_nat num);
  test_bit := fun j l => default false (l !! Z.to_nat j)
}.

#[export] Instance sample_bitmaps_laws : Ext2BitmapsLaws (list bool).
Proof.
  split. intros start num j Hj. cbn. rewrite list_lookup_fmap, lookup_seq_lt by lia. cbn.
  by rewrite Z2Nat.id by lia.
Qed.

Lemma bitmap_buffer_fits_witness : 8 <= 8 * bitmap_size sample_super < 8 + 8.
Proof. apply (bitmap_buffer_fits sample_super). cbn. lia. Defined.

Definition always_frozen : IO (option Z) bool := mret true.

Definition sample_in_use : outcome ref_set * (option Z * history) :=
  GetInUseSectors (env := working_env) (B := list bool) (mret tt) always_frozen
    sample_super "/dev/sda1" (None, []).

Lemma in_use_sectors_exact_witness :
  exists r w', sample_in_use = (Ret r, w') /\
    (is_mem r 6 = true <-> 0 <= 6 < 2 \/
      exists b, 1 <= b < 1 + 2 * 8 /\ b < 14 /\ allocated (B := list bool) b = true /\
        6 / sectors_per_block sample_super = b).
Proof.
  destruct sample_in_use as [o w'] eqn:R.
  destruct o as [r|e|x|x|]; [|exfalso; revert R; vm_compute; discriminate..].
  exists r, w'. split; [reflexivity|].
  apply (in_use_sectors_exact (E := working_env) (B := list bool) (mret tt) always_frozen
    sample_super "/dev/sda1" (None, []) r w' 6); [|exact R].
  split; cbn; lia.
Defined.

Lemma in_use_releases_descriptors_witness :
  open_fds (final (GetInUseSectors (env := working_env) (TS := ref_set) (B := list bool) (mret tt)
    always_frozen sample_super "/dev/sda1") (None, [])).2 = open_fds [].
Proof.
  apply (in_use_releases_descriptors (E := working_env) (TS := ref_set) (B := list bool) (mret tt)
    always_frozen working_env_fresh); intros w; split; reflexivity.
Defined.

(** The filesystem cannot be opened: the message is asked for. *)
Definition not_ext_env : Env := fun h T c =>
  match c in sys T return T with
  | SExt2Open _ => 2133571347
  | SErrorMessage _ => "Bad magic number in super-block"
  | c' => working_env h _ c'
  end.

Lemma error_table_scoped_witness :
  let h' := (final (GetInUseSectors (env := not_ext_env) (TS := ref_set) (B := list bool) (mret tt)
    always_frozen sample_super "/dev/sda1") (None, [])).2 in
  (exists m h1, h' = [Ev SRemoveErrorTable 0; Ev (SClose 3) (0, 0); Ev (SErrorMessage 2133571347) m] ++ h1) /\
  registered h' = 0 /\ messages_known h'.
Proof.
  split; [eexists _, _; vm_compute; reflexivity|].
  apply (error_table_scoped (E := not_ext_env) (TS := ref_set) (B := list bool) (mret tt) always_frozen
    sample_super "/dev/sda1" (None, [])); [intros n v H; exact H..|reflexivity|exact I].
Defined.
