(* ===== verification/Nbd.v ===== *)
(** * Network block devices

    Models block_device/nbd_client.{h,cc} (finding a free nbd device,
    connecting, the server's greeting, configuring the kernel device) and
    block_device/nbd_block_device.{h,cc}. *)

From S2P Require Import Prelude Machine Posix BlockDevice Tracing.

Definition NBD_ACK_MAGIC : list Z := [78; 66; 68; 77; 65; 71; 73; 67].  (* "NBDMAGIC" *)
Definition NBD_NEGOTIATE_MAGIC : Z := 0x00420281861253.

Record NbdClient := mkNbd {
  host_ : string;
  port_ : Z;
  disconnect_ : bool;
  block_device_size_ : Z;
  nbd_fd_ : Z;
  sock_ : Z;
  nbd_device_path_ : string
}.

Definition set_sock (s : Z) (c : NbdClient) : NbdClient :=
  mkNbd (host_ c) (port_ c) (disconnect_ c) (block_device_size_ c) (nbd_fd_ c) s (nbd_device_path_ c).

Definition set_remote_size (n : Z) (c : NbdClient) : NbdClient :=
  mkNbd (host_ c) (port_ c) (disconnect_ c) n (nbd_fd_ c) (sock_ c) (nbd_device_path_ c).

Definition set_nbd_fd (fd : Z) (c : NbdClient) : NbdClient :=
  mkNbd (host_ c) (port_ c) (disconnect_ c) (block_device_size_ c) fd (sock_ c) (nbd_device_path_ c).

Definition set_nbd_path (p : string) (c : NbdClient) : NbdClient :=
  mkNbd (host_ c) (port_ c) (disconnect_ c) (block_device_size_ c) (nbd_fd_ c) (sock_ c) p.

Definition set_disconnect (b : bool) (c : NbdClient) : NbdClient :=
  mkNbd (host_ c) (port_ c) b (block_device_size_ c) (nbd_fd_ c) (sock_ c) (nbd_device_path_ c).

(** [read(fd, buf, n)] into a buffer of [n] bytes: the bytes read replace
    the first ones, the rest stays what it was. *)
Definition fill (n : nat) (bytes old : list Z) : list Z :=
  let got := firstn n bytes in got ++ skipn (length got) old.

(** The bytes before the first NUL. *)
Fixpoint c_string (l : list Z) : list Z :=
  match l with
  | [] => []
  | b :: l' => if b =? 0 then [] else b :: c_string l'
  end.

Section Client.
Context {env : Env} {S : Type}.

Definition LoadNBDModule : IO S unit :=
  '(r, _) ← call (SStat "/sys/block/nbd0");
  if ret r =? -1 then
    if errno r =? ENOENT then
      s ← call (SSystem "modprobe nbd");
      if negb (s =? 0) then throw (NbdException "Unable to load NBD module.") else mret tt
    else mret tt
  else mret tt.

(** The loop over the entries of /sys/block: the device found, or "". *)
Fixpoint scan_nbd (entries : list string) : IO S string :=
  match entries with
  | [] => mret ""
  | d_name :: rest =>
      if String.prefix "nbd" d_name then
        r ← call (SAccess ("/sys/block/" +:+ d_name +:+ "/pid"));
        if ret r =? 0 then scan_nbd rest
        else if errno r =? ENOENT then mret ("/dev/" +:+ d_name)
        else
          call (SClosedir "/sys/block") ;;
          throw (NbdException "Unable to check access of nbd device")
      else scan_nbd rest
  end.

Definition FindOpenNbdDevice : IO S string :=
  opened ← call (SOpendir "/sys/block");
  if negb opened then throw (NbdException "Unable to open /sys/block") else
  entries ← call (SReaddir "/sys/block");
  open_device ← scan_nbd entries;
  r ← call (SClosedir "/sys/block");
  if String.eqb open_device "" then
    if negb (errno r =? 0) then throw (NbdException "Error while reading /sys/block/*")
    else throw (NbdException "Unable to find open nbd device")
  else mret open_device.

(** The loop over the addresses; a socket whose connect fails is not
    closed. *)
Fixpoint try_addresses (addrs : list Z) : IO S (option Z) :=
  match addrs with
  | [] => mret None
  | a :: rest =>
      sock ← call (SSocket a);
      if ret sock =? -1 then try_addresses rest
      else
        c ← call (SConnect (ret sock) a);
        if negb (ret c =? -1) then mret (Some (ret sock)) else try_addresses rest
  end.

Definition OpenNbdSocket (host : string) (port : Z) : IO S Z :=
  '(err, ai) ← call (SGetaddrinfo host (to_string port));
  if negb (err =? 0) then
    text ← call (SGaiStrerror err);
    throw (NbdException ("getaddinfo error: " +:+ text))
  else
  sock ← try_addresses ai;
  match sock with
  | None => throw (NbdException "Unable to open socket")
  | Some s => mret s
  end.

(** [garbage] is what the two local integers and the output argument hold
    before they are read into. *)
Definition NegotiateNbdCommunication (sock : Z) (garbage1 garbage2 : list Z) : IO S Z :=
  '(r1, b1) ← call (SRead sock 8);
  if ret r1 <? 0 then throw (NbdException "Unable to read first magic from socket") else
  let buf := fill 8 b1 (replicate 256 0) in
  if (length (c_string buf) =? 0)%nat
  then throw (NbdException "Server closed connection before sending data")
  else if negb (bool_decide (c_string buf = NBD_ACK_MAGIC))
  then throw (NbdException "Got bad first magic number")
  else
  '(r2, b2) ← call (SRead sock 8);
  if ret r2 <? 0 then throw (NbdException "Unable to read second magic from socket") else
  let second_magic := Bytes.be64toh (Bytes.le_value (fill 8 b2 garbage1)) in
  if negb (second_magic =? NBD_NEGOTIATE_MAGIC)
  then throw (NbdException "Got bad second magic number")
  else
  '(r3, b3) ← call (SRead sock 8);
  if ret r3 <? 0 then throw (NbdException "Unable to read block size from socket") else
  let size := Bytes.be64toh (Bytes.le_value (fill 8 b3 garbage2)) in
  '(r4, _) ← call (SRead sock 128);
  if ret r4 <? 0 then throw (NbdException "Unable to read final negotiation zeros from socket") else
  mret size.
End Client.

Section ClientMethods.
Context {env : Env}.

Definition ConfigureNbdDevice : IO NbdClient unit :=
  fd ← field nbd_fd_;
  r ← call (SIoctl fd (NBD_SET_BLKSIZE 4096));
  if ret r <? 0 then throw (NbdException "Unable to set block size for NBD device") else
  size ← field block_device_size_;
  r2 ← call (SIoctl fd (NBD_SET_SIZE_BLOCKS (Z.shiftr size 12)));
  if ret r2 <? 0 then throw (NbdException "Unable to set block size for NBD device") else
  call (SIoctl fd NBD_CLEAR_SOCK) ;;
  r3 ← call (SIoctl fd (NBD_SET_TIMEOUT 10));
  if negb (ret r3 =? 0) then throw (NbdException "Unable to set timeout for NBD device") else
  sock ← field sock_;
  r4 ← call (SIoctl fd (NBD_SET_SOCK sock));
  if ret r4 <? 0 then throw (NbdException "Unable to set socket for NBD device") else
  mret tt.

(** The constructor.  Starting the thread is the request NBD_DO_IT, whose
    answer is only logged. *)
Definition new_NbdClient (garbage1 garbage2 : list Z) : IO NbdClient unit :=
  LoadNBDModule ;;
  host ← field host_;
  port ← field port_;
  sock ← OpenNbdSocket host port;
  upd (set_sock sock) ;;
  size ← NegotiateNbdCommunication sock garbage1 garbage2;
  upd (set_remote_size size) ;;
  path ← FindOpenNbdDevice;
  upd (set_nbd_path path) ;;
  fd ← call (SOpen path [O_RDWR]);
  upd (set_nbd_fd (ret fd)) ;;
  if ret fd <? 0 then throw (NbdException "Unable to open NBD device") else
  ConfigureNbdDevice ;;
  call (SIoctl (ret fd) NBD_DO_IT) ;;
  mret tt.

(** What follows the last slash of a path. *)
Definition SLASH : Ascii.ascii := Ascii.ascii_of_nat 47.

Fixpoint base_name (acc s : string) : string :=
  match s with
  | EmptyString => acc
  | String c s' => if Ascii.eqb c SLASH then base_name s' s' else base_name acc s'
  end.

Definition NbdClient_IsConnected : IO NbdClient bool :=
  path ← field nbd_device_path_;
  r ← call (SAccess ("/sys/block/" +:+ base_name path path +:+ "/pid"));
  mret (ret r =? 0).

(** The thread that is joined at the end only waits for NBD_DO_IT. *)
Definition NbdClient_Disconnect : IO NbdClient unit :=
  done ← field disconnect_;
  if done : bool then mret tt else
  upd (set_disconnect true) ;;
  fd ← field nbd_fd_;
  call (SIoctl fd NBD_DISCONNECT) ;;
  call (SIoctl fd NBD_CLEAR_QUE) ;;
  call (SIoctl fd NBD_CLEAR_SOCK) ;;
  mret tt.

Definition NbdClient_destroy : IO NbdClient unit :=
  try_catch NbdClient_Disconnect (fun _ => mret tt) ;;
  fd ← field nbd_fd_;
  call (SClose fd) ;;
  sock ← field sock_;
  call (SClose sock) ;;
  mret tt.
End ClientMethods.

(** ** NbdBlockDevice *)

Record NbdBlockDevice := mkNbdDevice { nb_base : BlockDevice; nbd_client_ : NbdClient }.

Section RemoteDevice.
Context {env : Env}.

(** The constructor.  The default constructor of the base class leaves
    [fd_] as it is in memory; when the body throws, the client (if it was
    constructed) and then the base are destroyed. *)
Definition new_NbdBlockDevice (remote_host : string) (remote_port : Z) (garbage : BlockDevice)
    (garbage1 garbage2 : list Z) (h : history) : outcome NbdBlockDevice * history :=
  match new_NbdClient garbage1 garbage2 (mkNbd remote_host remote_port false 0 (-1) (-1) "", h) with
  | (Ret _, (client, h1)) =>
      let base := mkBlockDevice (nbd_device_path_ client) (dev_t_ garbage) (device_size_bytes_ garbage)
                    (block_size_bytes_ garbage) (fd_ garbage) in
      match BlockDevice_Init (base, h1) with
      | (Ret _, (base', h2)) => (Ret (mkNbdDevice base' client), h2)
      | (Throw e, (base', h2)) =>
          let h3 := (NbdClient_destroy (client, h2)).2.2 in
          (Throw e, (BlockDevice_destroy (base', h3)).2.2)
      | (o, (_, h2)) => (match o with Abort w => Abort w | Undef w => Undef w | _ => OutOfFuel end, h2)
      end
  | (Throw e, (_, h1)) => (Throw e, (BlockDevice_destroy (garbage, h1)).2.2)
  | (o, (_, h1)) => (match o with Abort w => Abort w | Undef w => Undef w | _ => OutOfFuel end, h1)
  end.

Definition on_client {A} (m : IO NbdClient A) : IO NbdBlockDevice A :=
  on nbd_client_ (fun c d => mkNbdDevice (nb_base d) c) m.

Definition NbdBlockDevice_IsConnected : IO NbdBlockDevice bool := on_client NbdClient_IsConnected.

Definition NbdBlockDevice_Disconnect : IO NbdBlockDevice unit := on_client NbdClient_Disconnect.

(** The destructor, the member's and the base's. *)
Definition NbdBlockDevice_destroy : IO NbdBlockDevice unit :=
  try_catch NbdBlockDevice_Disconnect (fun _ => mret tt) ;;
  on_client NbdClient_destroy ;;
  on nb_base (fun b d => mkNbdDevice b (nbd_client_ d)) BlockDevice_destroy.
End RemoteDevice.

(** ** Properties *)

Section NbdProps.
Context {E : Env}.

(** The history after the first, second, third read of a negotiation. *)
Definition h_1 (h : history) (s : Z) : history := Ev (SRead s 8) (E h _ (SRead s 8)) :: h.
Definition h_2 (h : history) (s : Z) : history := Ev (SRead s 8) (E (h_1 h s) _ (SRead s 8)) :: h_1 h s.
Definition h_3 (h : history) (s : Z) : history := Ev (SRead s 8) (E (h_2 h s) _ (SRead s 8)) :: h_2 h s.

Lemma fill_full n bytes old : length bytes = n -> length old = n -> fill n bytes old = bytes.
Proof. intros H1 H2. unfold fill. rewrite firstn_all2, skipn_all2 by lia. apply app_nil_r. Qed.

Lemma fill_none n old : fill n [] old = old.
Proof. unfold fill. by rewrite take_nil. Qed.

Lemma be64toh_bytes z : 0 <= z < 2 ^ 64 -> Bytes.be64toh (Bytes.le_value (Bytes.be_bytes 8 z)) = z.
Proof.
  intros Hz. unfold Bytes.be64toh.
  assert (Forall is_byte (Bytes.be_bytes 8 z)) as Hb by apply Forall_rev, Bytes.le_bytes_range.
  pose proof (Bytes.bswap_le_value _ Hb) as X. unfold Bytes.be_bytes in X at 1.
  rewrite length_rev, Bytes.length_le_bytes in X. rewrite X, Bytes.be_bytes_value.
  by apply Z.mod_small.
Qed.

(** A negotiation runs through its four reads. *)
Lemma negotiate_run {S} (o : S) h s g1 g2 :
  let '(r1, b1) := E h _ (SRead s 8) in
  let '(r2, b2) := E (h_1 h s) _ (SRead s 8) in
  let '(r3, b3) := E (h_2 h s) _ (SRead s 8) in
  let '(r4, _) := E (h_3 h s) _ (SRead s 128) in
  let value b g := Bytes.be64toh (Bytes.le_value (fill 8 b g)) in
  forall size, result (NegotiateNbdCommunication s g1 g2) (o, h) = Ret size <->
    0 <= ret r1 /\ c_string (fill 8 b1 (replicate 256 0)) = NBD_ACK_MAGIC /\
    0 <= ret r2 /\ value b2 g1 = NBD_NEGOTIATE_MAGIC /\
    0 <= ret r3 /\ value b3 g2 = size /\ 0 <= ret r4.
Proof.
  destruct (E h _ (SRead s 8)) as [r1 b1] eqn:E1.
  destruct (E (h_1 h s) _ (SRead s 8)) as [r2 b2] eqn:E2.
  destruct (E (h_2 h s) _ (SRead s 8)) as [r3 b3] eqn:E3.
  destruct (E (h_3 h s) _ (SRead s 128)) as [r4 b4] eqn:E4.
  unfold h_3 in E4. rewrite E3 in E4. unfold h_2 in E3, E4. rewrite E2 in E3, E4.
  unfold h_1 in E2, E3, E4. rewrite E1 in E2, E3, E4.
  intros value size. unfold result, NegotiateNbdCommunication. io. rewrite E1. io.
  destruct (Z.ltb_spec (ret r1) 0); [split; [done|lia]|].
  destruct (Nat.eqb (length (c_string (fill 8 b1 (replicate 256 0)))) 0) eqn:El.
  { split; [done|]. intros (_ & X & _). by rewrite X in El. }
  destruct (bool_decide_reflect (c_string (fill 8 b1 (replicate 256 0)) = NBD_ACK_MAGIC)); cbn [negb];
    [|split; [done|by intros (_ & X & _)]].
  io. rewrite E2. io. destruct (Z.ltb_spec (ret r2) 0); [split; [done|lia]|].
  fold (value b2 g1). destruct (Z.eqb_spec (value b2 g1) NBD_NEGOTIATE_MAGIC); cbn [negb];
    [|split; [done|by intros (_ & _ & _ & X & _)]].
  io. rewrite E3. io. destruct (Z.ltb_spec (ret r3) 0); [split; [done|lia]|].
  io. rewrite E4. io. destruct (Z.ltb_spec (ret r4) 0); [split; [done|lia]|].
  split; [intros [= <-]; by split_and!|]. intros (_ & _ & _ & _ & _ & <- & _). done.
Qed.

(** C37: the greeting of a server.  A server that sends the two magic numbers
    and the size of its device in network order is accepted, and the size
    the client uses is the one that was sent; nothing that starts with
    other eight-byte fields is accepted. *)
Theorem negotiation_spec {S} (o : S) h s g1 g2 b1 b2 b3 r1 r2 r3 :
  length b1 = 8%nat -> length b2 = 8%nat -> length b3 = 8%nat -> length g1 = 8%nat -> length g2 = 8%nat ->
  E h _ (SRead s 8) = ((8, r1), b1) -> E (h_1 h s) _ (SRead s 8) = ((8, r2), b2) ->
  E (h_2 h s) _ (SRead s 8) = ((8, r3), b3) -> 0 <= ret (E (h_3 h s) _ (SRead s 128)).1 ->
  (forall size, 0 <= size < 2 ^ 64 -> b1 = NBD_ACK_MAGIC -> b2 = Bytes.be_bytes 8 NBD_NEGOTIATE_MAGIC ->
     b3 = Bytes.be_bytes 8 size -> result (NegotiateNbdCommunication s g1 g2) (o, h) = Ret size) /\
  (forall size, result (NegotiateNbdCommunication s g1 g2) (o, h) = Ret size ->
     c_string b1 = NBD_ACK_MAGIC /\ Bytes.be64toh (Bytes.le_value b2) = NBD_NEGOTIATE_MAGIC).
Proof.
  intros L1 L2 L3 G1 G2 E1 E2 E3 E4. pose proof (negotiate_run o h s g1 g2) as X.
  rewrite E1, E2, E3 in X. destruct (E (h_3 h s) _ (SRead s 128)) as [r4 b4]. cbn in E4.
  cbv beta iota zeta in X. rewrite (fill_full 8 b2 g1), (fill_full 8 b3 g2) in X by done.
  assert (c_string (fill 8 b1 (replicate 256 0)) = c_string b1) as Hc.
  { do 8 (destruct b1 as [|? b1]; [done|]). destruct b1; [|done]. unfold fill. cbn [firstn length skipn app].
    cbn [replicate]. cbn [c_string]. repeat (case_bool; [done|]). done. }
  rewrite Hc in X. split.
  - intros size Hsz -> -> ->. apply X. unfold ret. cbn [fst]. split_and!; try done.
    by rewrite be64toh_bytes.
  - intros size (_ & H1 & _ & H2 & _)%X. done.
Qed.

(** A server that closes the connection after the magic numbers.  The
    third and the fourth read return 0 bytes, which is not an error for
    the code: the client goes on with a device size that was never sent
    but is what the memory of the output argument held. *)
Theorem truncated_greeting_is_accepted {S} (o : S) h s g1 g2 r1 r2 :
  length g1 = 8%nat ->
  E h _ (SRead s 8) = ((8, r1), NBD_ACK_MAGIC) ->
  E (h_1 h s) _ (SRead s 8) = ((8, r2), Bytes.be_bytes 8 NBD_NEGOTIATE_MAGIC) ->
  E (h_2 h s) _ (SRead s 8) = ((0, 0), []) -> E (h_3 h s) _ (SRead s 128) = ((0, 0), []) ->
  result (NegotiateNbdCommunication s g1 g2) (o, h) = Ret (Bytes.be64toh (Bytes.le_value g2)).
Proof.
  intros G1 E1 E2 E3 E4. pose proof (negotiate_run o h s g1 g2) as X. rewrite E1, E2, E3, E4 in X.
  apply X. rewrite (fill_full 8 _ g1), fill_none by done. split_and!; try done.
Qed.

(** Disconnect and the destructor return; they keep the descriptors'
    numbers, and the destructor closes both. *)
Lemma disconnect_run c h :
  exists w1, NbdClient_Disconnect (c, h) = (Ret tt, w1) /\ disconnect_ w1.1 = true /\
    open_fds w1.2 = open_fds h /\ nbd_fd_ w1.1 = nbd_fd_ c /\ sock_ w1.1 = sock_ c /\
    (disconnect_ c = true -> w1 = (c, h)).
Proof.
  unfold NbdClient_Disconnect. io. destruct (disconnect_ c) eqn:Ec; io; [by eexists|].
  eexists. split; [done|]. cbn. autorewrite with agent. by split_and!.
Qed.

Lemma client_destroy_run c h :
  exists c' h', NbdClient_destroy (c, h) = (Ret tt, (c', h')) /\ open_fds h' = open_fds h ∖ {[nbd_fd_ c]} ∖ {[sock_ c]} /\
    (disconnect_ c = true -> exists r1 r2, h' = Ev (SClose (sock_ c)) r1 :: Ev (SClose (nbd_fd_ c)) r2 :: h).
Proof.
  destruct (disconnect_run c h) as ([c1 h1] & R & H1 & H2 & H3 & H4 & H5). cbn [fst snd] in *.
  unfold NbdClient_destroy. rewrite bind_unfold, (try_catch_Ret _ _ _ _ _ R). io. eexists _, _. split; [done|]. split.
  - autorewrite with agent. by rewrite H2, H3, H4.
  - intros [= -> ->]%H5. by eexists _, _.
Qed.

(** Disconnect and the destructor.  The first Disconnect asks the kernel
    to disconnect, every later one does nothing; the destructor disconnects
    if that has not happened and closes the device and the socket, so that
    the client's two descriptors are gone and nothing else is. *)
Theorem nbd_disconnect_once c h :
  let w1 := final NbdClient_Disconnect (c, h) in
  disconnect_ w1.1 = true /\ NbdClient_Disconnect w1 = (Ret tt, w1) /\
  open_fds (final NbdClient_destroy (c, h)).2 = open_fds h ∖ {[nbd_fd_ c]} ∖ {[sock_ c]} /\
  (disconnect_ c = true -> exists r1 r2, (final NbdClient_destroy (c, h)).2 =
     Ev (SClose (sock_ c)) r1 :: Ev (SClose (nbd_fd_ c)) r2 :: h).
Proof.
  destruct (disconnect_run c h) as ([c1 h1] & R & H1 & _). destruct (client_destroy_run c h) as (c2 & h2 & R2 & H2 & H3).
  unfold final. rewrite R, R2. split_and!; [done| |done|done].
  destruct (disconnect_run c1 h1) as (w2 & R3 & _ & _ & _ & _ & H4). cbn [snd]. rewrite R3. by rewrite (H4 H1).
Qed.

(** A remote device that cannot be set up.  When the client's
    constructor throws, the destructor of the base class closes whatever
    number the uninitialised descriptor member holds: a descriptor of the
    process that has nothing to do with this device. *)
Theorem failed_nbd_device_closes_garbage host port garbage g1 g2 h e c1 h1 :
  new_NbdClient g1 g2 (mkNbd host port false 0 (-1) (-1) "", h) = (Throw e, (c1, h1)) ->
  exists h', new_NbdBlockDevice host port garbage g1 g2 h = (Throw e, h') /\
    open_fds h' = open_fds h1 ∖ {[fd_ garbage]}.
Proof.
  intros R. unfold new_NbdBlockDevice. rewrite R. eexists. split; [done|].
  unfold BlockDevice_destroy, BlockDevice_Close. io. by autorewrite with agent.
Qed.
End NbdProps.

(** ** Runs *)

(** The bytes a server sends, by how much of the greeting has been read. *)
Definition server_env (greeting : nat -> list Z) : Env := fun h T c =>
  match c in sys T return T with
  | SRead _ n =>
      let k := length (filter (fun e => match e with Ev (SRead _ _) _ => true | _ => false end = true) h) in
      let b := greeting k in ((Z.of_nat (length b), 0), b)
  | SAccess _ => (-1, ENOENT)
  | SConnect _ a => if a =? 7 then (0, 0) else (-1, 111)
  | SGetaddrinfo _ _ => (0, [5; 6; 7])
  | c' => working_env h _ c'
  end.

Definition good_greeting (k : nat) : list Z :=
  match k with
  | 0 => NBD_ACK_MAGIC
  | 1 => Bytes.be_bytes 8 NBD_NEGOTIATE_MAGIC
  | 2 => Bytes.be_bytes 8 (2 ^ 40)%Z
  | _ => replicate 128 0%Z
  end%nat.

Definition cut_greeting (k : nat) : list Z :=
  match k with
  | 0 => NBD_ACK_MAGIC
  | 1 => Bytes.be_bytes 8 NBD_NEGOTIATE_MAGIC
  | _ => []
  end%nat.

Lemma negotiation_spec_witness :
  result (NegotiateNbdCommunication (env := server_env good_greeting) 4 (replicate 8 9) (replicate 8 9)) (tt, [])
    = Ret (2 ^ 40).
Proof.
  apply (negotiation_spec (E := server_env good_greeting) tt [] 4 (replicate 8 9) (replicate 8 9)
    NBD_ACK_MAGIC (Bytes.be_bytes 8 NBD_NEGOTIATE_MAGIC) (Bytes.be_bytes 8 (2 ^ 40)) 0 0 0);
    try reflexivity; try (vm_compute; reflexivity); try (vm_compute; discriminate); try lia.
Defined.

Lemma truncated_greeting_is_accepted_witness :
  result (NegotiateNbdCommunication (env := server_env cut_greeting) 4 (replicate 8 9) (replicate 8 9)) (tt, [])
    = Ret (Bytes.be64toh (Bytes.le_value (replicate 8 9))).
Proof.
  apply (truncated_greeting_is_accepted (E := server_env cut_greeting) tt [] 4 (replicate 8 9) (replicate 8 9) 0 0);
    vm_compute; reflexivity.
Defined.

Lemma nbd_disconnect_once_witness :
  exists r1 r2, (final (NbdClient_destroy (env := working_env)) (mkNbd "h" 1 true 0 5 6 "/dev/nbd0", [])).2 =
    [Ev (SClose 6) r1; Ev (SClose 5) r2].
Proof.
  apply (proj2 (proj2 (proj2 (nbd_disconnect_once (E := working_env) (mkNbd "h" 1 true 0 5 6 "/dev/nbd0") [])))).
  reflexivity.
Defined.

(** No server answers: the client cannot be constructed. *)
Lemma failed_nbd_device_closes_garbage_witness :
  exists e h1 h', new_NbdBlockDevice (env := quiet_env) "h" 1 (set_fd 3 sample_device) [] [] [] = (Throw e, h') /\
    open_fds h' = open_fds h1 ∖ {[3]}.
Proof.
  destruct (new_NbdClient (env := quiet_env) [] [] (mkNbd "h" 1 false 0 (-1) (-1) "", [])) as [o [c1 h1]] eqn:R.
  destruct o as [u|e|x|x|]; try (exfalso; revert R; vm_compute; discriminate).
  destruct (failed_nbd_device_closes_garbage (E := quiet_env) "h" 1 (set_fd 3 sample_device) [] [] [] e c1 h1 R)
    as (h' & H1 & H2).
  exists e, h1, h'. split; [exact H1|exact H2].
Defined.

(** Three addresses, of which the third accepts: the sockets of the first
    two stay open for the life of the process. *)
Example failed_connects_leak :
  open_fds (final (OpenNbdSocket (env := server_env good_greeting) "h" 1) (tt, [])).2 = {[3; 4; 5]} /\
  result (OpenNbdSocket (env := server_env good_greeting) "h" 1) (tt, []) = Ret 5.
Proof. vm_compute. split; reflexivity. Qed.
