(* ===== verification/NbdServer.v ===== *)
(** * A server for a network block device

    Models block_device/nbd_server.{h,cc}: an object whose constructor
    starts nbd-server on a file, in a child process, and whose destructor
    stops it.  fork answers twice; each of its answers is one run of the
    code after it, so that [Init] on an environment in which fork answers 0
    is the child. *)

From S2P Require Import Prelude Machine Posix Tracing.

Record NbdServer := mkNbdServer { nbd_server_pid_ : Z; port_ : Z }.

Section Server.
Context {env : Env}.

(** The branch of the child: none of its calls is checked; it is another
    program, or ends. *)
Definition serve_file (file_to_serve : string) : IO NbdServer (process unit) :=
  port ← field port_;
  null_fd ← call (SOpen "/dev/null" [O_RDWR]);
  call (SDup2 (ret null_fd) 1) ;;
  call (SDup2 (ret null_fd) 2) ;;
  call (SClose (ret null_fd)) ;;
  replaced ← call (SExecl "/bin/nbd-server"
    ["nbd-server"; to_string port; file_to_serve; "-d"; "-C"; "/dev/null"]);
  if (replaced : bool) then mret Replaced else
  call (SExit 127) ;;
  mret (Exited 127).

Definition NbdServer_Init (file_to_serve : string) (port_a : Z) : IO NbdServer (process unit) :=
  upd (fun s => mkNbdServer (nbd_server_pid_ s) port_a) ;;
  fork_ret ← call SFork;
  if ret fork_ret =? -1 then throw (BlockDeviceException "fork failed") else
  if ret fork_ret =? 0 then serve_file file_to_serve else
  upd (fun s => mkNbdServer (ret fork_ret) (port_ s)) ;;
  call (SUsleep 1000000) ;;
  mret (GoesOn tt).

(** The constructor that chooses a port: [rand() % 55535 + 10000] as an
    int, then converted to 16 bits. *)
Definition new_NbdServer (file_to_serve : string) : IO NbdServer (process unit) :=
  r ← call SRand;
  let port_a := (Z.rem r 55535 + 10000) mod 2 ^ 16 in
  NbdServer_Init file_to_serve port_a.

(** The constructor with a port. *)
Definition new_NbdServer_at (file_to_serve : string) (port : Z) : IO NbdServer (process unit) :=
  NbdServer_Init file_to_serve port.

Definition NbdServer_destroy : IO NbdServer unit :=
  pid ← field nbd_server_pid_;
  r ← call (SKill pid SIGTERM);
  if negb (ret r =? 0) then mret tt else
  call SWait ;; mret tt.

(** The life of a server on the stack: the destructor runs only in a
    process in which the constructor has returned. *)
Definition server_life (file_to_serve : string) (body : IO NbdServer unit) : IO NbdServer (process unit) :=
  p ← new_NbdServer file_to_serve;
  match p with
  | GoesOn _ => body ;; NbdServer_destroy ;; mret p
  | _ => mret p
  end.
End Server.

(** The processes a history has signalled, and the programs it has tried to
    become; the newest is first. *)
Fixpoint kills (h : history) : list (Z * Z) :=
  match h with
  | [] => []
  | Ev c _ :: h' => match c with SKill pid sig => (pid, sig) :: kills h' | _ => kills h' end
  end.

Fixpoint execs (h : history) : list (string * list string) :=
  match h with
  | [] => []
  | Ev c _ :: h' =>
      match c with SExecl p args | SExeclp p args => (p, args) :: execs h' | _ => execs h' end
  end.

(** ** Properties *)

Section ServerProps.
Context {env : Env}.

(** What fork and rand answer. *)
Record rand_fork_ok : Prop := {
  rand_range : forall h, 0 <= env h _ SRand < 2 ^ 31;
  fork_range : forall h, -1 <= ret (env h _ SFork)
}.

(** The port a server chooses for itself is one that a user may bind:
    it is at least 10000 and at most 65534, so the conversion to 16 bits
    keeps it, and every value of rand() gives the port the code writes
    down. *)
Theorem random_port_bounds file w :
  rand_fork_ok ->
  let w' := (new_NbdServer file w).2 in
  10000 <= port_ w'.1 <= 65534 /\ port_ w'.1 = env w.2 _ SRand mod 55535 + 10000.
Proof.
  intros [Hr _] w'. subst w'. destruct w as [s h]. pose proof (Hr h) as H.
  assert (0 <= env h _ SRand mod 55535 < 55535) by (apply Z.mod_pos_bound; lia).
  assert (port_ (new_NbdServer file (s, h)).2.1 = (Z.rem (env h _ SRand) 55535 + 10000) mod 2 ^ 16) as ->.
  { unfold new_NbdServer, NbdServer_Init, serve_file. io. repeat (case_match; io; try done). }
  rewrite Z.rem_mod_nonneg, Z.mod_small by lia. cbn [fst snd]. lia.
Qed.

(** The calls of the constructor, whatever fork answers. *)
Lemma init_spec file port s h :
  ret (env h _ SFork) <> -1 ->
  match NbdServer_Init file port (s, h) with
  | (Ret p, (s', h')) =>
      port_ s' = port /\ kills h' = kills h /\
      match p with
      | GoesOn _ => nbd_server_pid_ s' = ret (env h _ SFork) /\ ret (env h _ SFork) <> 0 /\ execs h' = execs h
      | _ => ret (env h _ SFork) = 0 /\
          execs h' = ("/bin/nbd-server", ["nbd-server"; to_string port; file; "-d"; "-C"; "/dev/null"]) :: execs h
      end
  | _ => False
  end.
Proof.
  intros Hf. unfold NbdServer_Init, serve_file. io.
  rewrite (proj2 (Z.eqb_neq _ _)) by done.
  destruct (Z.eqb_spec (ret (env h _ SFork)) 0) as [E|E]; io; [|done].
  destruct (env _ bool _); io; done.
Qed.

(** A server on the stack, for any use of it that leaves its pid alone
    and signals nobody.  When fork fails the constructor throws, nothing is
    run and nobody is signalled.  In the child nothing of the caller's code
    runs: the process becomes nbd-server on the file and the port, without
    a configuration file, or ends.  In the parent the destructor signals
    exactly the child, once, and never a process group: it cannot be
    reached with the -1 or 0 that kill would take for every process. *)
Theorem server_life_spec file (body : IO NbdServer unit) s h :
  rand_fork_ok ->
  (forall w, exists w', body w = (Ret tt, w') /\ w'.1 = w.1 /\ kills w'.2 = kills w.2) ->
  let fork := ret (env (Ev SRand (env h _ SRand) :: h) _ SFork) in
  match server_life file body (s, h) with
  | (Ret (GoesOn _), (s', h')) => 0 < fork /\ kills h' = (fork, SIGTERM) :: kills h
  | (Ret _, (s', h')) => fork = 0 /\ kills h' = kills h /\
      execs h' = ("/bin/nbd-server", ["nbd-server"; to_string (port_ s'); file; "-d"; "-C"; "/dev/null"]) :: execs h
  | (Throw e, (_, h')) => fork = -1 /\ e = BlockDeviceException "fork failed" /\ kills h' = kills h /\ execs h' = execs h
  | _ => False
  end.
Proof.
  intros [_ Hf] Hb fork. unfold server_life, new_NbdServer. rewrite bind_unfold. io.
  set (h1 := Ev SRand (env h _ SRand) :: h) in *. set (port := (Z.rem _ _ + _) mod _).
  destruct (decide (fork = -1)) as [E|E].
  { unfold NbdServer_Init. io. fold fork. by rewrite E. }
  pose proof (init_spec file port s h1 E) as H. fold fork in H. revert H.
  change (@pair NbdServer (list event) s h1) with (@pair NbdServer history s h1).
  destruct (NbdServer_Init file port (@pair NbdServer history s h1)) as [[p| | | |] [s' h']]; try done.
  intros (Hp & Hk & H). destruct p as [[]| |]; io.
  - destruct H as (Hpid & Hne & _). destruct (Hb (s', h')) as ([s2 h2] & -> & Hs & Hk2). cbn [fst snd] in *.
    unfold NbdServer_destroy. io. pose proof (Hf h1). fold fork in H.
    rewrite Hs, Hpid. destruct (negb _); io; (split; [lia|]); cbn [kills]; by rewrite Hk2, Hk.
  - destruct H as [H1 H2]. by rewrite Hp.
  - destruct H as [H1 H2]. by rewrite Hp.
Qed.

(** The destructor reaps some child: with another child that has ended, the
    server stays behind as a zombie. *)
Lemma destroy_waits_for_anyone s h :
  ret (env h _ (SKill (nbd_server_pid_ s) SIGTERM)) = 0 ->
  exists k r, (NbdServer_destroy (s, h)).2.2 = Ev SWait r :: Ev (SKill (nbd_server_pid_ s) SIGTERM) k :: h.
Proof. intros E. unfold NbdServer_destroy. io. rewrite E. cbn. eauto. Qed.
End ServerProps.
Arguments rand_fork_ok : clear implicits.

(** ** A machine whose fork answers the parent *)

Lemma working_rand_fork : rand_fork_ok working_env.
Proof. split; intros h; vm_compute; repeat split; discriminate. Qed.

Lemma random_port_bounds_witness :
  let w' := (new_NbdServer (env := working_env) "/tmp/disk" (mkNbdServer 0 0, [])).2 in
  10000 <= port_ w'.1 <= 65534 /\ port_ w'.1 = 22797.
Proof. exact (random_port_bounds (env := working_env) "/tmp/disk" (mkNbdServer 0 0, []) working_rand_fork). Defined.

Lemma server_life_spec_witness :
  0 < 4243 /\ kills (server_life (env := working_env) "/tmp/disk" (mret tt) (mkNbdServer 0 0, [])).2.2 = [(4243, SIGTERM)].
Proof.
  refine (server_life_spec (env := working_env) "/tmp/disk" (mret tt) (mkNbdServer 0 0) [] working_rand_fork _).
  intros w. by exists w.
Defined.
