(* ===== verification/NbdLife.v ===== *)
(** * The descriptors of a network block device

    The life of an NbdClient and of an NbdBlockDevice, from the constructor
    through every way it can end to the destructor, and what it leaves
    open. *)

From S2P Require Import Prelude Machine Posix BlockDevice Tracing Nbd.

(** The sockets whose connect failed. *)
Fixpoint refused (new : history) : gset Z :=
  match new with
  | [] => ∅
  | Ev c r :: new' =>
      match c in sys T return T -> gset Z with
      | SConnect fd _ => fun r => if ret r =? -1 then {[fd]} ∪ refused new' else refused new'
      | _ => fun _ => refused new'
      end r
  end.

Lemma refused_app n1 n2 : refused (n1 ++ n2) = refused n1 ∪ refused n2.
Proof.
  induction n1 as [|[T c r] n1 IH]; cbn; [set_solver|]. destruct c; try exact IH. rewrite IH. case_bool; set_solver.
Qed.

(** The history has grown by calls that opened [K] and left sockets
    behind that were refused, and that changed nothing else. *)
Definition opens (K : gset Z) (h h' : history) : Prop :=
  exists new, h' = new ++ h /\ open_fds h' = K ∪ refused new ∪ open_fds h /\
    (K ∪ refused new) ## open_fds h /\ K ## refused new /\ set_Forall (Z.le 0) (K ∪ refused new).

Lemma opens_refl h : opens ∅ h h.
Proof. exists []. cbn. split_and!; set_solver. Qed.

Lemma opens_trans K1 K2 h h1 h2 : opens K1 h h1 -> opens K2 h1 h2 -> opens (K1 ∪ K2) h h2.
Proof.
  intros (n1 & -> & O1 & D1 & E1 & P1) (n2 & -> & O2 & D2 & E2 & P2). exists (n2 ++ n1). rewrite refused_app, <- app_assoc.
  rewrite O2, O1 in *. split; [done|]. split_and!; [set_solver..|]. intros fd. rewrite !elem_of_union in *. set_solver.
Qed.

Lemma opens_then K h h1 h2 : opens K h h1 -> opens ∅ h1 h2 -> opens K h h2.
Proof. intros H1 H2. pose proof (opens_trans _ _ _ _ _ H1 H2) as X. by rewrite (right_id_L ∅ (∪)) in X. Qed.

(** A call that has nothing to do with descriptors. *)
Lemma opens_call {T} (c : sys T) r K h h1 :
  opens K h h1 -> open_fds (Ev c r :: h1) = open_fds h1 -> refused [Ev c r] = ∅ -> opens K h (Ev c r :: h1).
Proof.
  intros H1 Ho Hr. eapply opens_then; [exact H1|]. exists [Ev c r]. rewrite Hr, Ho. split; [done|]. split_and!; set_solver.
Qed.

Ltac opens := repeat first [assumption | apply opens_refl | apply opens_call; [|reflexivity|reflexivity]].

(** Running one call of a program. *)
Lemma wp_sys {E : Env} {S T} (c : sys T) (s : S) h Q X :
  Q (E h T c) (s, Ev c (E h T c) :: h) -> wp (call c) (s, h) Q X.
Proof. done. Qed.

Lemma wp_field {S A} (f : S -> A) (s : S) (h : history) Q (X : S * history -> Prop) :
  Q (f s) (s, h) -> wp (field f) (s, h) Q X.
Proof. done. Qed.

Lemma wp_upd {S} (f : S -> S) (s : S) (h : history) (Q : unit -> S * history -> Prop) X :
  Q tt (f s, h) -> wp (upd f) (s, h) Q X.
Proof. done. Qed.

Lemma wp_throw {S A} e (w : S) (Q : A -> S -> Prop) (X : S -> Prop) : X w -> wp (throw e) w Q X.
Proof. done. Qed.

Ltac walk1 :=
  lazymatch goal with
  | |- wp (call _) _ _ _ => apply wp_sys
  | |- wp (field _) _ _ _ => apply wp_field
  | |- wp (upd _) _ _ _ => apply wp_upd
  | |- wp (throw _) _ _ _ => apply wp_throw
  | |- wp (mret _) _ _ _ => apply wp_ret
  | |- wp (mbind _ _) _ _ _ => apply wp_bind
  | |- wp (let '(_, _) := ?x in _) _ _ _ => destruct x
  | |- wp (if negb ?b then _ else _) _ _ _ => destruct b eqn:?; cbn [negb]
  | |- wp (if ?b then _ else _) _ _ _ => destruct b eqn:?
  end; cbn beta.

Ltac walk := repeat walk1; cbn [fst snd].

Section Descriptors.
Context {E : Env} (fresh : fresh_fds E).

(** The steps that open nothing leave the object alone. *)
Definition harmless {S A} (m : IO S A) : Prop :=
  forall s h, wp m (s, h) (fun _ w => w.1 = s /\ opens ∅ h w.2) (fun w => w.1 = s /\ opens ∅ h w.2).

Lemma load_module_harmless {S} : harmless (S := S) LoadNBDModule.
Proof. intros s h. unfold LoadNBDModule. walk; (split; [done|opens]). Qed.

Lemma scan_harmless {S} entries : harmless (S := S) (scan_nbd entries).
Proof.
  intros s h. cut (forall h1, opens ∅ h h1 -> wp (scan_nbd entries) (s, h1)
    (fun _ w => w.1 = s /\ opens ∅ h w.2) (fun w => w.1 = s /\ opens ∅ h w.2)); [intros X; by apply X, opens_refl|].
  induction entries as [|d rest IH]; intros h1 H1; cbn [scan_nbd]; walk; try (by split); try (apply IH; opens).
  1, 2: by split; [done|opens].
Qed.

Lemma find_device_harmless {S} : harmless (S := S) FindOpenNbdDevice.
Proof.
  intros s h. unfold FindOpenNbdDevice. walk; try (split; [done|opens]).
  eapply wp_mono; [apply scan_harmless|..]; cbn beta.
  - intros d [s1 h1] [<- H1]. cbn [fst snd] in H1. walk; (split; [done|opens; eapply opens_then; [|exact H1]; opens]).
  - intros [s1 h1] [<- H1]. split; [done|]. eapply opens_then; [|exact H1]; opens.
Qed.

Lemma negotiate_harmless {S} sock g1 g2 : harmless (S := S) (NegotiateNbdCommunication sock g1 g2).
Proof. intros s h. unfold NegotiateNbdCommunication. walk; (split; [done|opens]). Qed.

Lemma configure_harmless : harmless ConfigureNbdDevice.
Proof. intros s h. unfold ConfigureNbdDevice. walk; (split; [done|opens]). Qed.

(** A new socket is connected, or refused and left open. *)
Lemma opens_socket d h :
  let r := E h _ (SSocket d) in
  ret r <> -1 -> opens {[ret r]} h (Ev (SSocket d) r :: h).
Proof.
  intros r Hr. destruct (proj1 (proj2 fresh) h d) as [?|[H1 H2]]; [done|]. fold r in H1, H2.
  exists [Ev (SSocket d) r]. unfold open_fds; fold open_fds. cbn [refused]. rewrite (proj2 (Z.leb_le _ _) H1). split_and!; set_solver.
Qed.

Lemma opens_refused d h a (r2 : cret) :
  let r := E h _ (SSocket d) in
  ret r <> -1 -> ret r2 = -1 -> opens ∅ h (Ev (SConnect (ret r) a) r2 :: Ev (SSocket d) r :: h).
Proof.
  intros r Hr H2. destruct (opens_socket d h Hr) as (new & X & Ho & Hd & _ & Hp). fold r in X, Ho, Hd, Hp.
  apply (app_inv_tail h [Ev (SSocket d) r] new) in X. subst new. cbn [refused] in *.
  exists [Ev (SConnect (ret r) a) r2; Ev (SSocket d) r]. cbn [refused]. rewrite H2. cbn [Z.eqb Pos.eqb].
  change (open_fds (Ev (SConnect (ret r) a) r2 :: Ev (SSocket d) r :: h)) with (open_fds (Ev (SSocket d) r :: h)).
  rewrite Ho. split_and!; set_solver.
Qed.

Lemma opens_no_socket d h : ret (E h _ (SSocket d)) = -1 -> opens ∅ h (Ev (SSocket d) (E h _ (SSocket d)) :: h).
Proof. intros Hr. apply opens_call; [apply opens_refl| |done]. unfold open_fds; fold open_fds. by rewrite Hr. Qed.

Lemma opens_open p f h :
  let r := E h _ (SOpen p f) in
  ret r = -1 /\ opens ∅ h (Ev (SOpen p f) r :: h) \/ 0 <= ret r /\ opens {[ret r]} h (Ev (SOpen p f) r :: h).
Proof.
  intros r. destruct (open_answer fresh h p f) as [[Hr Ho]|(Hr & Hn & Ho)]; fold r in Hr, Ho; [left|right; fold r in Hn].
  - split; [done|]. by apply opens_call; [apply opens_refl| |].
  - split; [done|]. exists [Ev (SOpen p f) r]. rewrite Ho. cbn [refused]. split_and!; set_solver.
Qed.

(** The descriptor [OpenNbdSocket] returns. *)
Definition fd_set (o : option Z) : gset Z := match o with Some fd => {[fd]} | None => ∅ end.

Lemma try_addresses_opens {S} addrs (s : S) h :
  wp (try_addresses addrs) (s, h)
    (fun o w => w.1 = s /\ opens (fd_set o) h w.2 /\ forall fd, o = Some fd -> 0 <= fd) (fun _ => False).
Proof.
  cut (forall h1, opens ∅ h h1 -> wp (try_addresses addrs) (s, h1)
    (fun o w => w.1 = s /\ opens (fd_set o) h w.2 /\ forall fd, o = Some fd -> 0 <= fd) (fun _ => False));
    [intros X; by apply X, opens_refl|].
  induction addrs as [|a rest IH]; intros h1 H1; cbn [try_addresses]; [by walk|]. walk.
  - apply IH. eapply opens_then; [exact H1|]. by apply opens_no_socket, Z.eqb_eq.
  - apply IH. eapply opens_then; [exact H1|]. apply opens_refused; [by apply Z.eqb_neq|by apply Z.eqb_eq].
  - split; [done|]. cbn [fd_set]. split.
    + pose proof (opens_socket a h1 (proj1 (Z.eqb_neq _ _) Heqb)) as X.
      apply opens_call; [|reflexivity|cbn; by rewrite Heqb0].
      pose proof (opens_trans _ _ _ _ _ H1 X) as Y. by rewrite (left_id_L ∅ (∪)) in Y.
    + intros fd [= <-]. destruct (proj1 (proj2 fresh) h1 a) as [X|[X _]]; [|done]. by apply Z.eqb_neq in Heqb.
Qed.

Lemma open_socket_opens {S} host port (s : S) h :
  wp (OpenNbdSocket host port) (s, h) (fun fd w => w.1 = s /\ opens {[fd]} h w.2 /\ 0 <= fd)
    (fun w => w.1 = s /\ opens ∅ h w.2).
Proof.
  unfold OpenNbdSocket. walk; [|by split; [done|opens]].
  eapply wp_mono; [apply try_addresses_opens|..|done]. cbn beta. intros o [s1 h1] (<- & H1 & H2). cbn [fst snd] in H1.
  destruct o as [fd|]; walk.
  - split; [done|]. split; [|by apply H2]. rewrite <- (left_id_L ∅ (∪) {[fd]}). eapply opens_trans; [|exact H1]. opens.
  - split; [done|]. eapply opens_then; [|exact H1]. opens.
Qed.

(** The descriptors a client's members name. *)
Definition opened (c : NbdClient) : gset Z := filter (fun fd => 0 <= fd) {[sock_ c; nbd_fd_ c]}.

Lemma opened_none c : sock_ c = -1 -> nbd_fd_ c = -1 -> opened c = ∅.
Proof. unfold opened. intros -> ->. set_solver by lia. Qed.

Lemma opened_sock c : 0 <= sock_ c -> nbd_fd_ c = -1 -> opened c = {[sock_ c]}.
Proof. unfold opened. intros H ->. set_solver by lia. Qed.

Lemma opened_both c : 0 <= sock_ c -> 0 <= nbd_fd_ c -> opened c = {[sock_ c]} ∪ {[nbd_fd_ c]}.
Proof. unfold opened. intros H1 H2. set_solver by lia. Qed.

(** A step that opens nothing, in the middle of a constructor. *)
Lemma wp_harmless {S A} (m : IO S A) K (s : S) h h1 Q (X : S * history -> Prop) :
  harmless m -> opens K h h1 -> (forall a h2, opens K h h2 -> Q a (s, h2)) -> (forall h2, opens K h h2 -> X (s, h2)) ->
  wp m (s, h1) Q X.
Proof.
  intros Hm H1 HQ HX. eapply wp_mono; [apply Hm|..]; cbn beta.
  - intros a [s2 h2] [<- H2]. apply HQ. by eapply opens_then.
  - intros [s2 h2] [<- H2]. apply HX. by eapply opens_then.
Qed.

Lemma new_client_opens host port g1 g2 h :
  wp (new_NbdClient g1 g2) (mkNbd host port false 0 (-1) (-1) "", h)
    (fun _ w => opens (opened w.1) h w.2 /\ 0 <= sock_ w.1 /\ 0 <= nbd_fd_ w.1 /\ sock_ w.1 <> nbd_fd_ w.1)
    (fun w => opens (opened w.1) h w.2).
Proof.
  unfold new_NbdClient. apply wp_bind. eapply (wp_harmless _ ∅); [apply load_module_harmless|apply opens_refl| |].
  2: by intros h2 H2; cbn [fst snd]; rewrite opened_none.
  intros _ h1 H1. walk. eapply wp_mono; [apply open_socket_opens|..]; cbn beta.
  2: { intros [c h2] [Ec H2]. cbn [fst snd] in *. subst c. rewrite opened_none by done. by eapply opens_then. }
  intros sock [c h2] (Ec & H2 & Hs). cbn [fst snd] in *. subst c. walk.
  pose proof (opens_trans _ _ _ _ _ H1 H2) as H3. rewrite (left_id_L ∅ (∪)) in H3.
  eapply wp_harmless; [apply negotiate_harmless|exact H3| |].
  2: by intros h4 H4; cbn [fst snd]; rewrite opened_sock.
  intros size h4 H4. cbn beta. walk. eapply wp_harmless; [apply find_device_harmless|exact H4| |].
  2: by intros h5 H5; cbn [fst snd]; rewrite opened_sock.
  intros path h5 H5. cbn beta. walk; destruct (opens_open path [O_RDWR] h5) as [[Hr Ho]|[Hr Ho]].
  - rewrite opened_sock by done. by eapply opens_then.
  - apply Z.ltb_lt in Heqb. lia.
  - by rewrite Hr in Heqb.
  - eapply wp_harmless; [apply configure_harmless|exact (opens_trans _ _ _ _ _ H5 Ho)| |].
    2: by intros h7 H7; cbn [fst snd]; rewrite opened_both.
    intros _ h7 H7. walk. rewrite opened_both by done. split; [opens|]. split_and!; [done|done|].
    destruct Ho as (new & _ & _ & Hd & _), H5 as (new5 & _ & Ho5 & _). cbn. set_solver.
Qed.

(** Nothing in the constructor ends the process or hangs. *)
Definition settles {S A} (m : M S A) : Prop := forall s, (exists a, (m s).1 = Ret a) \/ exists e, (m s).1 = Throw e.

Lemma settles_bind {S A B} (m : M S A) (k : A -> M S B) : settles m -> (forall a, settles (k a)) -> settles (m ≫= k).
Proof.
  intros Hm Hk s. rewrite bind_unfold. destruct (m s) as [r s1] eqn:R. destruct (Hm s) as [[a X]|[e X]]; rewrite R in X; cbn in X; subst r.
  - apply Hk.
  - right. by eexists.
Qed.

Lemma settles_ret {S A} (a : A) : settles (mret a : M S A).
Proof. left. by eexists. Qed.

Lemma settles_throw {S A} e : settles (throw e : M S A).
Proof. right. by eexists. Qed.

Lemma settles_call {S T} (c : sys T) : settles (call c : IO S T).
Proof. left. by eexists. Qed.

Lemma settles_field {S A} (f : S -> A) : settles (field f : IO S A).
Proof. left. by eexists. Qed.

Lemma settles_upd {S} (f : S -> S) : settles (upd f : IO S unit).
Proof. left. by eexists. Qed.

#[local] Hint Resolve settles_ret settles_throw settles_call settles_field settles_upd : core.

Ltac settle := repeat first [solve [auto] | apply settles_bind; [|intros ?] | case_match].

(** The directory stream of FindOpenNbdDevice is closed on every path. *)
Lemma scan_dirs {S} entries (w : S * history) :
  match scan_nbd entries w with
  | (Ret _, w') => open_dirs w'.2 = open_dirs w.2
  | (_, w') => open_dirs w'.2 = pred (open_dirs w.2)
  end.
Proof.
  revert w. induction entries as [|d rest IH]; intros [s h]; cbn [scan_nbd]; [done|]. case_bool; [|apply IH].
  io. case_bool; [exact (IH (s, Ev (SAccess _) _ :: h))|]. io. case_bool; by io.
Qed.

Lemma find_device_closes_directory {S} (w : S * history) : open_dirs (FindOpenNbdDevice w).2.2 = open_dirs w.2.
Proof.
  destruct w as [s h]. unfold FindOpenNbdDevice. io. destruct (E h _ (SOpendir "/sys/block")) eqn:Eo; cbn [negb].
  2: { by io. }
  io. match goal with |- context [scan_nbd ?l ?w] => pose proof (scan_dirs l w) as Hs; destruct (scan_nbd l w) as [o [s' h']] end.
  cbn [snd] in Hs. destruct o; cbn in Hs |- *; rewrite ?Hs; try done. io. repeat case_bool; cbn; by rewrite Hs.
Qed.

(** And with it the constructor of the client keeps them. *)
Definition same_dirs {S} (n : nat) (w : S * history) : Prop := open_dirs w.2 = n.

Ltac dirs step := repeat first
  [ step | apply stable_bind; [|intros ?] | apply stable_ret | apply stable_throw | by intros ?
  | let v := fresh in let Hv := fresh in intros v Hv; exact Hv | case_match ].

Lemma addresses_dirs {S} n addrs : stable (same_dirs n) (try_addresses addrs : IO S _).
Proof. induction addrs; cbn [try_addresses]; dirs assumption. Qed.

Lemma new_client_dirs g1 g2 w : open_dirs (new_NbdClient g1 g2 w).2.2 = open_dirs w.2.
Proof.
  cut (stable (same_dirs (open_dirs w.2)) (new_NbdClient g1 g2)); [intros H; by apply H|].
  assert (forall n, stable (same_dirs n) (FindOpenNbdDevice : IO NbdClient _)) as Hf.
  { intros n v Hv. unfold same_dirs. by rewrite find_device_closes_directory. }
  unfold new_NbdClient, LoadNBDModule, OpenNbdSocket, NegotiateNbdCommunication, ConfigureNbdDevice.
  dirs ltac:(first [apply Hf | apply addresses_dirs]).
Qed.

Lemma scan_settles {S} entries : settles (scan_nbd entries : IO S _).
Proof. induction entries; cbn [scan_nbd]; settle. Qed.

Lemma try_addresses_settles {S} addrs : settles (try_addresses addrs : IO S _).
Proof. induction addrs; cbn [try_addresses]; settle. Qed.

#[local] Hint Resolve scan_settles try_addresses_settles : core.

Lemma new_client_settles g1 g2 : settles (new_NbdClient g1 g2).
Proof.
  unfold new_NbdClient, LoadNBDModule, OpenNbdSocket, NegotiateNbdCommunication, FindOpenNbdDevice, ConfigureNbdDevice.
  settle.
Qed.

Lemma device_destroyed d h :
  open_fds (final NbdBlockDevice_destroy (d, h)).2 =
    open_fds h ∖ {[nbd_fd_ (nbd_client_ d)]} ∖ {[sock_ (nbd_client_ d)]} ∖ {[fd_ (nb_base d)]}.
Proof.
  destruct (disconnect_run (nbd_client_ d) h) as ([c1 h1] & R1 & _ & H1 & H2 & H3 & _). cbn [fst snd] in *.
  destruct (client_destroy_run c1 h1) as (c2 & h2 & R2 & H4 & _).
  assert (NbdBlockDevice_Disconnect (d, h) = (Ret tt, (mkNbdDevice (nb_base d) c1, h1))) as R3
    by (unfold NbdBlockDevice_Disconnect, on_client, on; cbn [fst snd]; by rewrite R1).
  unfold final, NbdBlockDevice_destroy. rewrite bind_unfold, (try_catch_Ret _ _ _ _ _ R3), bind_unfold.
  unfold on_client, on at 1. cbn [fst snd nbd_client_]. rewrite R2. unfold on, BlockDevice_destroy, BlockDevice_Close. io.
  cbn [nb_base]. autorewrite with agent. by rewrite H4, H1, H2, H3.
Qed.

(** C33: the descriptors of a remote device.  Whatever the system answers, the
    constructor of NbdBlockDevice returns or throws.  If it returns, the
    device holds its socket and its nbd device, and the destructor closes
    both.  If the client could be made and the device not be read, both are
    closed as well.  What stays open for ever are the sockets of refused
    connections ([refused new]), and, if the client could not be made, the
    socket and the nbd device it had opened by then ([opened c]), while a
    descriptor is closed that the device never opened.  The stream of the
    directory that is searched for a free nbd device is closed in each
    case. *)
Theorem nbd_device_descriptors host port garbage g1 g2 h :
  (forall fd, fd ∈ open_fds h -> 0 <= fd) ->
  exists r c new, new_NbdClient g1 g2 (mkNbd host port false 0 (-1) (-1) "", h) = (r, (c, new ++ h)) /\
    (opened c ∪ refused new) ## open_fds h /\ open_dirs (new ++ h) = open_dirs h /\
    exists o h', new_NbdBlockDevice host port garbage g1 g2 h = (o, h') /\
      match o, r with
      | Ret d, Ret _ =>
          open_fds h' = {[sock_ c; nbd_fd_ c]} ∪ refused new ∪ open_fds h /\
          open_fds (final NbdBlockDevice_destroy (d, h')).2 = refused new ∪ open_fds h
      | Throw _, Ret _ => open_fds h' = refused new ∪ open_fds h
      | Throw e, Throw e' => e = e' /\ open_fds h' = (opened c ∪ refused new ∪ open_fds h) ∖ {[fd_ garbage]}
      | _, _ => False
      end.
Proof.
  intros Hpos. pose proof (new_client_opens host port g1 g2 h) as Hw.
  destruct (new_NbdClient g1 g2 (mkNbd host port false 0 (-1) (-1) "", h)) as [r [c h1]] eqn:R.
  pose proof (new_client_dirs g1 g2 (mkNbd host port false 0 (-1) (-1) "", h)) as Hdirs. rewrite R in Hdirs.
  pose proof (new_client_settles g1 g2 (mkNbd host port false 0 (-1) (-1) "", h)) as Hs. rewrite R in Hs. unfold wp in Hw. rewrite R in Hw. cbn [fst snd] in *.
  assert (opens (opened c) h h1) as (new & -> & Ho & Hd & Hk & Hp) by (by destruct r; [destruct Hw|..]).
  exists r, c, new. split; [done|]. split; [done|]. split; [exact Hdirs|]. unfold new_NbdBlockDevice. rewrite R.
  destruct Hs as [[u ->]|[e ->]].
  - destruct Hw as (_ & H1 & H2 & H3). rewrite opened_both in * by done.
    match goal with |- context [BlockDevice_Init (?b, _)] => destruct (Init_run fresh b (new ++ h)) as (o & b' & h' & RI & HI & Hf & _ & Hr & _) end.
    { rewrite Ho. intros fd. rewrite elem_of_union. intros [Hfd|Hfd]; [by apply Hp|by apply Hpos]. }
    assert (-1 ∉ refused new ∪ open_fds h) as Hn by (rewrite elem_of_union; intros [X|X]; [specialize (Hp (-1)); set_solver by lia|by apply Hpos in X]).
    rewrite RI. destruct Hr as [->|[w ->]]; eexists _, _; (split; [done|]); cbv beta iota.
    + rewrite device_destroyed. cbn [nb_base nbd_client_]. rewrite Hf, HI, Ho. set_solver.
    + unfold BlockDevice_destroy, BlockDevice_Close. io. autorewrite with agent.
      destruct (client_destroy_run c h') as (c2 & h2 & R2 & H4 & _). rewrite R2. cbn. rewrite H4, Hf, HI, Ho. set_solver.
  - eexists _, _. split; [done|]. split; [done|]. unfold BlockDevice_destroy, BlockDevice_Close. io. autorewrite with agent. by rewrite Ho.
Qed.
End Descriptors.

(** ** Runs *)

Lemma server_env_fresh g : fresh_fds (server_env g).
Proof. unfold fresh_fds. cbn. split_and!; intros; right; apply next_fd_fresh. Qed.

(** The device is made at the third address; the sockets of the first two
    stay open when it has been destroyed. *)
Lemma nbd_device_descriptors_witness :
  exists d h', new_NbdBlockDevice (env := server_env good_greeting) "h" 1 sample_device (replicate 8 9) (replicate 8 9) [] =
      (Ret d, h') /\
    open_fds (final (NbdBlockDevice_destroy (env := server_env good_greeting)) (d, h')).2 = {[3; 4]}.
Proof.
  destruct (nbd_device_descriptors (server_env_fresh good_greeting) "h" 1 sample_device (replicate 8 9) (replicate 8 9) [])
    as (r & c & new & R & _ & _ & o & h' & R' & H).
  - intros fd Hfd. by apply not_elem_of_empty in Hfd.
  - assert (refused new = {[3; 4]}) as En.
    { rewrite app_nil_r in R. apply (f_equal (fun x => refused x.2.2)) in R. cbn [snd] in R. rewrite <- R.
      vm_compute. reflexivity. }
    destruct o as [d|e|x|x|]; [|exfalso; apply (f_equal fst) in R'; revert R'; vm_compute; discriminate..].
    exists d, h'. split; [exact R'|]. destruct r as [u|e|x|x|]; [|destruct H..]. rewrite (proj2 H), En. vm_compute. reflexivity.
Defined.

(** A server that closes the connection at once.  The constructor throws,
    its destructor does not run, and the connected socket stays open beside
    the refused ones. *)
Example failed_client_leaks :
  exists e h', new_NbdBlockDevice (env := server_env (fun _ => [])) "h" 1 sample_device [] [] [] = (Throw e, h') /\
    open_fds h' = {[3; 4; 5]}.
Proof. eexists _, _. split; [vm_compute; reflexivity|vm_compute; reflexivity]. Qed.
