(* ===== verification/Backup.v ===== *)
(** * A backup

    Models backup/backup.{h,cc}: DoBackup runs one synchronizer per device,
    each in a thread of its own, waits for the coordinator and for the
    threads, and turns what they reported into the status of the job. *)

From S2P Require Import Prelude Machine StatusTracker Coordinator.

(** A synchronizer as DoBackup sees it: the UUID its source device reports
    when the count handler is made, the calls its DoSync makes on the
    coordinator, the exception DoSync ends with, if any, and the UUID its
    device reports then. *)
Record sync_job := mkJob {
  job_uuid : outcome string;
  job_calls : list co_op;
  job_exception : option exn;
  job_error_uuid : outcome string
}.

(** The BackupError a failed synchronizer is reported with. *)
Definition job_error (j : sync_job) : list BackupError :=
  match job_exception j with
  | None => []
  | Some e =>
      [mkError (what e) (match job_error_uuid j with Ret u => u | _ => "uuid_error" end) ""]
  end.

(** The body of a synchronizer's thread, as its calls on the coordinator. *)
Definition thread_calls (j : sync_job) : list co_op := job_calls j ++ (COError <$> job_error j).

(** The text of the collected errors. *)

Definition append_error (error_text : string) (error : BackupError) : string :=
  let t1 := if String.eqb error_text "" then error_text else error_text +:+ newline in
  let t2 := if String.eqb (error_source error) "" then t1 else t1 +:+ error_source error +:+ " : " in
  t2 +:+ Coordinator.error_text error.

Definition errors_text (errors : list BackupError) : string := fold_left append_error errors "".

Definition backup_state : Type := Tracker * BackupCoordinator.

Definition on_tracker {A} (m : M Tracker A) : M backup_state A :=
  zoom fst (fun t s => (t, s.2)) m.

Definition on_coord {A} (m : M BackupCoordinator A) : M backup_state A :=
  zoom snd (fun c s => (s.1, c)) m.

(** [while (!WaitUntilFinished(2000))]: [rounds] are the calls of the
    threads, and of whoever cancels, that reach the coordinator between one
    evaluation of the condition and the next; those left when the loop ends
    are returned.  When no call is left and the condition is false it stays
    false, and the loop does not end. *)
Fixpoint wait_loop (rounds : list (list co_op)) : M backup_state (list (list co_op)) :=
  finished ← on_coord (WaitUntilFinished 2000);
  if finished : bool then mret rounds
  else
    match rounds with
    | [] => out_of_fuel
    | calls :: rest => on_coord (for_each calls run_co_op) ;; wait_loop rest
    end.

(** [rounds]: the calls of the threads until the last one has been joined;
    [handler] is the job's event handler. *)
Definition DoBackup (syncs_to_do_ : list sync_job) (rounds : list (list co_op)) (handler : nat)
    : M backup_state unit :=
  on_tracker (BackupInProgress handler) ;;
  for_each syncs_to_do_ (fun sync =>
    on_tracker (CreateSyncCountHandler handler (job_uuid sync)) ;; mret tt) ;;
  rest ← wait_loop rounds;
  on_coord (for_each (concat rest) run_co_op) ;;
  errors ← on_coord GetFatalErrors;
  let error_text := errors_text errors in
  if negb (String.eqb error_text "") then on_tracker (BackupFailed handler error_text)
  else
    cancelled ← on_coord IsCancelled;
    if cancelled : bool then on_tracker (BackupCancelled handler)
    else on_tracker (BackupSucceeded handler).

(** The orders the threads allow: every thread's calls in their order, the
    threads mixed at will. *)
Inductive interleaves {A} : list (list A) -> list A -> Prop :=
| il_done ls : Forall (fun l => l = []) ls -> interleaves ls []
| il_step ls i x l rest :
    ls !! i = Some (x :: l) -> interleaves (<[i := l]> ls) rest -> interleaves ls (x :: rest).

(** ** Properties *)

Lemma interleaves_perm {A} (ls : list (list A)) order : interleaves ls order -> order ≡ₚ concat ls.
Proof.
  induction 1 as [ls Hn|ls i x l rest Hi _ IH].
  - assert (concat ls = []) as ->; [|done]. induction Hn as [|y ls -> _ IH]; [done|]. exact IH.
  - rewrite IH. clear IH. revert i Hi. induction ls as [|y ls IHl]; intros [|i] Hi; [done..| |].
    + by injection Hi as ->.
    + cbn. change (<[S i:=l]> (y :: ls)) with (y :: <[i:=l]> ls). cbn.
      rewrite Permutation_middle, (IHl i Hi). done.
Qed.

(** The errors among a sequence of calls. *)
Definition call_error (o : co_op) : option BackupError :=
  match o with COError e => Some e | _ => None end.

Lemma omap_calls (j : sync_job) :
  Forall (fun o => call_error o = None) (job_calls j) -> omap call_error (thread_calls j) = job_error j.
Proof.
  intros H. unfold thread_calls. rewrite omap_app.
  assert (omap call_error (job_calls j) = []) as ->.
  { induction H as [|o l Ho _ IH]; [done|]. cbn. by rewrite Ho. }
  cbn. induction (job_error j) as [|e l IH]; [done|]. cbn. by rewrite IH.
Qed.

(** DoSync itself reports no error. *)
Definition plain_calls (j : sync_job) : Prop := Forall (fun o => call_error o = None) (job_calls j).

Lemma order_errors jobs external order :
  Forall plain_calls jobs -> Forall (fun o => call_error o = None) external ->
  interleaves ((thread_calls <$> jobs) ++ [external]) order ->
  omap call_error order ≡ₚ concat (job_error <$> jobs).
Proof.
  intros Hj He Hi%interleaves_perm.
  assert (omap call_error order ≡ₚ omap call_error (concat ((thread_calls <$> jobs) ++ [external]))) as ->.
  { by apply omap_Permutation. }
  rewrite concat_app, omap_app. cbn [concat]. rewrite app_nil_r.
  assert (omap call_error external = []) as ->.
  { clear -He. induction He as [|o l Ho _ IH]; [done|]. cbn. by rewrite Ho. }
  rewrite app_nil_r. clear -Hj. induction Hj as [|j l Hj _ IH]; [done|].
  cbn. rewrite omap_app, omap_calls by done. by rewrite IH.
Qed.

Lemma sapp_empty a b : a +:+ b = "" -> a = "" /\ b = "".
Proof. by destruct a. Qed.

Lemma errors_text_from t errors : fold_left append_error errors t = "" -> t = "".
Proof.
  revert t. induction errors as [|e errors IH]; intros t H; cbn in H; [done|].
  apply IH in H. unfold append_error in H. apply sapp_empty in H as [H _].
  destruct (String.eqb_spec (error_source e) "").
  - destruct (String.eqb_spec t ""); [done|]. by apply sapp_empty in H as [? _].
  - apply sapp_empty in H as [H _]. destruct (String.eqb_spec t ""); [done|].
    by apply sapp_empty in H as [? _].
Qed.

(** Errors with a text are never dropped from the message. *)
Lemma errors_text_nonempty errors :
  Forall (fun e => Coordinator.error_text e <> "") errors -> errors <> [] -> errors_text errors <> "".
Proof.
  intros Hf Hn Ht. destruct errors as [|e errors]; [done|]. apply Forall_cons in Hf as [He _].
  unfold errors_text in Ht. cbn [fold_left] in Ht. apply errors_text_from in Ht.
  unfold append_error in Ht. apply sapp_empty in Ht as [_ Ht]. done.
Qed.

Lemma on_tracker_run {A} (m : M Tracker A) t c o t' :
  m t = (o, t') -> on_tracker m (t, c) = (o, (t', c)).
Proof. intros E. unfold on_tracker, zoom. cbn [fst snd]. by rewrite E. Qed.

Lemma on_coord_run {A} (m : M BackupCoordinator A) t c o c' :
  m c = (o, c') -> on_coord m (t, c) = (o, (t, c')).
Proof. intros E. unfold on_coord, zoom. cbn [fst snd]. by rewrite E. Qed.

(** *** The tracker during a backup *)

(** What a status request reads at an address, and what it reads at all the
    others. *)
Definition same_others (a : nat) (t t' : Tracker) : Prop :=
  reply_map_ t' = reply_map_ t /\ forall b, b <> a -> replies t' !! b = replies t !! b.

Lemma update_others a f t : same_others a t (update_reply a f t).2.
Proof. split; [done|]. intros b Hb. cbn. by apply lookup_alter_ne. Qed.

Lemma same_others_trans a t1 t2 t3 : same_others a t1 t2 -> same_others a t2 t3 -> same_others a t1 t3.
Proof. intros [E1 H1] [E2 H2]. split; [congruence|]. intros b Hb. by rewrite H2, H1. Qed.

Lemma create_handlers_run jobs a (s : backup_state) :
  Forall (fun j => exists u, job_uuid j = Ret u) jobs -> is_Some (replies s.1 !! a) ->
  exists t', for_each jobs (fun sync =>
      on_tracker (CreateSyncCountHandler a (job_uuid sync)) ;; mret tt) s = (Ret tt, (t', s.2)) /\
    is_Some (replies t' !! a) /\ same_others a s.1 t'.
Proof.
  intros Hj. revert s. induction Hj as [|j jobs [u Hu] _ IH]; intros [t c] Ha; cbn [for_each].
  { exists t. by split_and!. }
  assert (exists x t1, CreateSyncCountHandler a (job_uuid j) t = (Ret x, t1) /\
    is_Some (replies t1 !! a) /\ same_others a t t1) as (x & t1 & R1 & A1 & O1).
  { rewrite Hu. unfold CreateSyncCountHandler, new_SyncCountHandler, update_device. run. eexists _, _. split; [done|]. split.
    - cbn. by rewrite !lookup_alter_is_Some.
    - eapply same_others_trans; [|eapply same_others_trans]; apply update_others. }
  destruct (IH (t1, c) A1) as (t2 & R2 & A2 & O2). exists t2. split_and!; [|done|by eapply same_others_trans].
  rewrite bind_unfold, bind_unfold, (on_tracker_run _ _ _ _ _ R1). run. exact R2.
Qed.

(** *** What the coordinator holds when the threads have been joined *)

Section Joined.
Context (jobs : list sync_job) (external order : list co_op).
Hypothesis Hplain : Forall plain_calls jobs.
Hypothesis Hexternal : Forall (fun o => call_error o = None) external.
Hypothesis Horder : interleaves ((thread_calls <$> jobs) ++ [external]) order.

Lemma joined_errors : omap call_error order ≡ₚ concat (job_error <$> jobs).
Proof. by eapply order_errors. Qed.

Lemma elem_of_concat_fmap {A C} (f : A -> list C) (l : list A) x :
  x ∈ concat (f <$> l) <-> exists y, y ∈ l /\ x ∈ f y.
Proof.
  rewrite list_elem_of_In, in_concat. split.
  - intros (l' & (y & -> & Hy)%list_elem_of_In%list_elem_of_fmap & Hx%list_elem_of_In). eauto.
  - intros (y & Hy & Hx). exists (f y). rewrite <- !list_elem_of_In. split; [|done].
    apply list_elem_of_fmap. eauto.
Qed.

Lemma joined_errors_iff :
  (exists j, j ∈ jobs /\ is_Some (job_exception j)) <-> omap call_error order <> [].
Proof.
  split.
  - intros (j & Hj & [e He]) E0.
    assert (exists x, x ∈ omap call_error order) as [x Hx]; [|rewrite E0 in Hx; by apply not_elem_of_nil in Hx].
    eexists. rewrite joined_errors. apply elem_of_concat_fmap. exists j. split; [done|].
    unfold job_error. rewrite He. by left.
  - intros Hne. destruct (omap call_error order) as [|e l] eqn:E; [done|].
    assert (e ∈ concat (job_error <$> jobs)) as (j & Hj & Hin)%elem_of_concat_fmap
      by (rewrite <- joined_errors, E; by left).
    exists j. split; [done|]. unfold job_error in Hin. destruct (job_exception j); [by eexists|].
    by apply not_elem_of_nil in Hin.
Qed.

Lemma joined_error_texts :
  (forall j e, j ∈ jobs -> job_exception j = Some e -> what e <> "") ->
  Forall (fun e => Coordinator.error_text e <> "") (omap call_error order).
Proof.
  intros Hw. rewrite joined_errors. apply Forall_concat, Forall_fmap, Forall_forall. intros j Hj. cbn.
  unfold job_error. destruct (job_exception j) as [e|] eqn:Ee; [|done].
  constructor; [|done]. cbn. by eapply Hw.
Qed.

(** With no error reported, only a cancellation from outside cancels. *)
Lemma joined_cancelled :
  Forall (fun j => Forall (fun o => o <> COCancel) (job_calls j)) jobs -> omap call_error order = [] ->
  existsb (fun o => match o with COCancel | COError _ => true | _ => false end) order =
    bool_decide (COCancel ∈ external).
Proof.
  intros Hnc Enil. pose proof (interleaves_perm _ _ Horder) as Hpm.
  rewrite concat_app in Hpm. cbn [concat] in Hpm. rewrite app_nil_r in Hpm.
  apply Bool.eq_iff_eq_true. rewrite bool_decide_eq_true, List.existsb_exists. split.
  - intros (o & Ho%list_elem_of_In & Hob). destruct o as [| |e|]; try done.
    + exfalso. assert (e ∈ omap call_error order) as Hin; [|rewrite Enil in Hin; by apply not_elem_of_nil in Hin].
      apply list_elem_of_omap. by exists (COError e).
    + rewrite Hpm in Ho. apply elem_of_app in Ho as [(j & Hj & Hin)%elem_of_concat_fmap|Ho]; [exfalso|done].
      unfold thread_calls in Hin. apply elem_of_app in Hin as [Hin|(? & ? & _)%list_elem_of_fmap]; [|done].
      rewrite Forall_forall in Hnc. specialize (Hnc j Hj). rewrite Forall_forall in Hnc. by apply (Hnc COCancel).
  - intros Hin. exists COCancel. split; [|done]. apply list_elem_of_In. rewrite Hpm.
    apply elem_of_app. by right.
Qed.

(** What ends the wait at the latest once all calls have arrived. *)
Lemma finished_at_end c0 c' :
  for_each order run_co_op c0 = (Ret tt, c') ->
  (exists j, j ∈ jobs /\ is_Some (job_exception j)) \/ COCancel ∈ external \/
    count_ (final (for_each order run_co_op) c0) = 0 ->
  (count_ c' =? 0) || cancelled_ c' = true.
Proof.
  intros R. destruct (co_ops_effect order c0) as (c1 & R1 & Er & Ec). rewrite R in R1. injection R1 as <-.
  unfold final. rewrite R. intros H. apply orb_true_iff. rewrite Z.eqb_eq.
  destruct H as [H|[H|H]]; [right..|by left]; rewrite Ec; apply orb_true_iff; right; apply List.existsb_exists.
  - apply joined_errors_iff in H. destruct (omap call_error order) as [|e l] eqn:E; [done|].
    assert (e ∈ omap call_error order) as (o & Ho & Hoe)%list_elem_of_omap by (rewrite E; by left).
    exists o. split; [by apply list_elem_of_In|]. by destruct o.
  - exists COCancel. split; [|done]. apply list_elem_of_In. rewrite (interleaves_perm _ _ Horder), concat_app.
    apply elem_of_app. right. cbn. by rewrite app_nil_r.
Qed.
End Joined.

(** *** The waiting loop *)

Definition finished (c : BackupCoordinator) : bool := (count_ c =? 0) || cancelled_ c.

Lemma for_each_app {S A} (l k : list A) (f : A -> M S unit) s s' :
  for_each l f s = (Ret tt, s') -> for_each (l ++ k) f s = for_each k f s'.
Proof.
  revert s. induction l as [|x l IH]; intros s; cbn [app for_each]; [by intros [= ->]|].
  rewrite !bind_unfold. destruct (f x s) as [[?|?|?|?|] s1]; try done. apply IH.
Qed.

Lemma wait_loop_run rounds t c c' :
  for_each (concat rounds) run_co_op c = (Ret tt, c') -> finished c' = true ->
  exists rest c1, wait_loop rounds (t, c) = (Ret rest, (t, c1)) /\
    for_each (concat rest) run_co_op c1 = (Ret tt, c').
Proof.
  intros R F'. revert c R. induction rounds as [|calls rest IH]; intros c R; cbn [wait_loop];
    cbn [WaitUntilFinished BackupCoordinator_ops];
    rewrite bind_unfold, (on_coord_run (BackupCoordinator_WaitUntilFinished 2000) t c (Ret (finished c)) c eq_refl).
  - injection R as ->. rewrite F'. by exists [], c'.
  - destruct (finished c) eqn:F; [by exists (calls :: rest), c|].
    destruct (co_ops_effect calls c) as (c1 & R1 & _). cbn [concat] in R.
    rewrite (for_each_app _ _ _ _ _ R1) in R. rewrite bind_unfold, (on_coord_run _ _ _ _ _ R1). by apply IH.
Qed.

(** The last part of DoBackup, from the coordinator's final state. *)
Lemma report_run a t c r :
  replies t !! a = Some r -> (fatal_errors_ c <> [] -> errors_text (fatal_errors_ c) <> "") ->
  exists t' r', (errors ← on_coord GetFatalErrors;
      let error_text := errors_text errors in
      if negb (String.eqb error_text "") then on_tracker (BackupFailed a error_text)
      else
        cancelled ← on_coord IsCancelled;
        if cancelled : bool then on_tracker (BackupCancelled a)
        else on_tracker (BackupSucceeded a)) (t, c) = (Ret tt, (t', c)) /\
    same_others a t t' /\ replies t' !! a = Some r' /\
    (fatal_errors_ c <> [] -> status r' = Some FAILED /\ failure_message r' = Some (errors_text (fatal_errors_ c))) /\
    (fatal_errors_ c = [] -> status r' = Some (if cancelled_ c then CANCELLED else SUCCEEDED)).
Proof.
  intros Ha Htxt. rewrite bind_unfold. cbn [GetFatalErrors IsCancelled BackupCoordinator_ops].
  rewrite (on_coord_run BackupCoordinator_GetFatalErrors t c (Ret (fatal_errors_ c)) c eq_refl). cbv beta zeta.
  destruct (decide (fatal_errors_ c = [])) as [E|E].
  - rewrite E. cbn [errors_text fold_left String.eqb negb].
    rewrite bind_unfold, (on_coord_run BackupCoordinator_IsCancelled t c (Ret (cancelled_ c)) c eq_refl). cbv beta.
    exists (update_reply a (set_status (if cancelled_ c then CANCELLED else SUCCEEDED)) t).2.
    eexists. split; [by destruct (cancelled_ c)|]. split; [apply update_others|].
    cbn. rewrite lookup_alter_eq, Ha. by split_and!.
  - destruct (String.eqb_spec (errors_text (fatal_errors_ c)) "") as [Et|Et]; [by destruct (Htxt E Et)|].
    eexists _, _. split; [done|]. split; [eapply same_others_trans; apply update_others|].
    cbn. rewrite !lookup_alter_eq, Ha. by split_and!.
Qed.

(** The outcome of a backup.  Whatever the order in which the threads'
    calls reach the coordinator, and however they fall between the
    evaluations of the waiting loop, DoBackup returns as soon as an error,
    a cancellation or a count of zero ends the wait, and: if some synchronizer ended with an
    exception, the job's status is FAILED with a message made of all the
    errors, each once, and of nothing else; if none did and the backup was
    cancelled, it is CANCELLED; otherwise SUCCEEDED.  The status of other
    jobs does not change. *)
Theorem backup_outcome jobs external rounds a t :
  let order := concat rounds in
  let c0 := new_BackupCoordinator (Z.of_nat (length jobs)) in
  Forall (fun j => exists u, job_uuid j = Ret u) jobs ->
  Forall plain_calls jobs -> Forall (fun o => call_error o = None) external ->
  (forall j e, j ∈ jobs -> job_exception j = Some e -> what e <> "") ->
  Forall (fun j => Forall (fun o => o <> COCancel) (job_calls j)) jobs ->
  interleaves ((thread_calls <$> jobs) ++ [external]) order -> is_Some (replies t !! a) ->
  (exists j, j ∈ jobs /\ is_Some (job_exception j)) \/ COCancel ∈ external \/
    count_ (final (for_each order run_co_op) c0) = 0 ->
  exists t' c', DoBackup jobs rounds a (t, c0) = (Ret tt, (t', c')) /\
    same_others a t t' /\
    exists r errors, replies t' !! a = Some r /\ errors ≡ₚ concat (job_error <$> jobs) /\
      ((exists j, j ∈ jobs /\ is_Some (job_exception j)) ->
         status r = Some FAILED /\ failure_message r = Some (errors_text errors)) /\
      ((forall j, j ∈ jobs -> job_exception j = None) ->
         status r = Some (if bool_decide (COCancel ∈ external) then CANCELLED else SUCCEEDED)).
Proof.
  intros order c0 Hu Hp He Hw Hnc Hi Ha Hend.
  destruct (co_ops_effect order c0) as (c' & Rc & Er & Ec).
  cbn [fatal_errors_ cancelled_ new_BackupCoordinator app orb c0] in Er, Ec.
  change (omap _ order) with (omap call_error order) in Er.
  pose proof (joined_errors_iff jobs external order Hp He Hi) as Hex. rewrite <- Er in Hex.
  assert (finished c' = true) as Hfin by (by eapply finished_at_end).
  set (t1 := (BackupInProgress a t).2).
  assert (is_Some (replies t1 !! a)) as A1 by (cbn; by rewrite lookup_alter_is_Some).
  destruct (create_handlers_run jobs a (t1, c0) Hu A1)
    as (t2 & R2 & [r2 A2] & O2).
  destruct (wait_loop_run rounds t2 c0 c' Rc Hfin) as (rest & c1 & Rw & Rj).
  destruct (report_run a t2 c' r2 A2) as (t3 & r3 & R3 & O3 & A3 & F3 & S3).
  { intros Hne. apply errors_text_nonempty; [|done]. rewrite Er. by eapply joined_error_texts. }
  exists t3, c'. split_and!.
  - unfold DoBackup. rewrite bind_unfold, (on_tracker_run (BackupInProgress a) t _ (Ret tt) t1 eq_refl).
    rewrite bind_unfold, R2. cbn [snd]. rewrite bind_unfold, Rw. by rewrite bind_unfold, (on_coord_run _ _ _ _ _ Rj).
  - eapply same_others_trans; [apply update_others|]. by eapply same_others_trans.
  - exists r3, (fatal_errors_ c'). split_and!; [done|rewrite Er; by eapply joined_errors| |].
    + intros H. by apply F3, Hex.
    + intros Hnone. assert (fatal_errors_ c' = []) as E.
      { destruct (decide (fatal_errors_ c' = [])) as [|n]; [done|]. apply Hex in n as (j & Hj & Hs).
        rewrite (Hnone j Hj) in Hs. by destruct Hs. }
      rewrite (S3 E), Ec. by rewrite (joined_cancelled jobs external order Hi Hnc (eq_trans (eq_sym Er) E)).
Qed.

(** ** A run: two devices, the second fails, its UUID cannot be read *)

Definition sample_jobs : list sync_job :=
  [mkJob (Ret "aaaa") [COFinished] None (Ret "aaaa");
   mkJob (Ret "bbbb") [] (Some (DeviceSynchronizerException "Error reading from source"))
     (Throw (BlockDeviceException "Unable to probe block device UUID"))].

Definition sample_rounds : list (list co_op) :=
  [[]; [COFinished]; []; [COError (mkError "Error reading from source" "uuid_error" "")]].

Lemma sample_interleaves : interleaves ((thread_calls <$> sample_jobs) ++ [[]]) (concat sample_rounds).
Proof.
  apply (il_step _ 0 COFinished []); [reflexivity|].
  apply (il_step _ 1 _ []); [reflexivity|]. apply il_done. repeat constructor.
Qed.

Lemma backup_outcome_witness :
  exists t' c', DoBackup sample_jobs sample_rounds 0 (one_job, new_BackupCoordinator 2) = (Ret tt, (t', c')) /\
    exists r errors, replies t' !! 0%nat = Some r /\ errors ≡ₚ concat (job_error <$> sample_jobs) /\
      status r = Some FAILED /\ failure_message r = Some (errors_text errors).
Proof.
  destruct (backup_outcome sample_jobs [] sample_rounds 0 one_job)
    as (t' & c' & R & _ & r & errors & H1 & H2 & H3 & _).
  - repeat constructor; by eexists.
  - repeat constructor.
  - constructor.
  - intros j e Hj. repeat apply elem_of_cons in Hj as [->|Hj]; [..|by apply not_elem_of_nil in Hj];
      cbn; intros [= <-]; done.
  - repeat constructor; discriminate.
  - exact sample_interleaves.
  - by eexists.
  - left. eexists. split; [right; left|by eexists].
  - exists t', c'. split; [exact R|]. exists r, errors. split_and!; [exact H1|exact H2|apply H3..].
    all: eexists; split; [right; left|by eexists].
Defined.

Example backup_run :
  failure_message <$> replies (final (DoBackup sample_jobs sample_rounds 0) (one_job, new_BackupCoordinator 2)).1 !! 0%nat
    = Some (Some "uuid_error : Error reading from source").
Proof. vm_compute. reflexivity. Qed.

(** Two devices, neither fails: the first resumes when it may no longer, the
    count wraps, and DoBackup waits for ever. *)
Example backup_hangs :
  result (DoBackup [mkJob (Ret "aaaa") [COFinished; COMore; COFinished] None (Ret "aaaa");
                    mkJob (Ret "bbbb") [COFinished] None (Ret "bbbb")]
            [[COFinished]; [COFinished; COMore; COFinished]] 0) (one_job, new_BackupCoordinator 2) = OutOfFuel.
Proof. vm_compute. reflexivity. Qed.
