(* ===== verification/SyncTeam.v ===== *)
(** * Several synchronizers and one coordinator

    DoBackup ([Backup]) sees a synchronizer as the calls it makes on the
    coordinator; the coordinator's theorems ([Coordinator]) are about
    workers that follow a protocol; DoSync ([DeviceSynchronizer]) is the
    code.  This file puts the three together: DoSync runs against a view of
    the shared coordinator that records its calls, its calls follow the
    workers' protocol, and a backup made of such runs ends as the runs
    do. *)

From S2P Require Import Prelude Machine Icl IclRef SectorStore Posix BlockDevice StatusTracker Coordinator.
From S2P Require Import FreezeHelper TraceHandler DeviceSynchronizer SyncSafety SyncFrames SyncRuns Backup.

(** ** One worker's view of the coordinator

    The shared object, what the other threads will have done to it before
    each of the worker's next calls, and the calls the worker has made that
    change it. *)
Record view := mkView {
  v_coord : BackupCoordinator;
  v_script : list (list co_op);
  v_own : list co_op
}.

Definition set_v_coord (c : BackupCoordinator) (v : view) : view := mkView c (v_script v) (v_own v).

(** The others' calls up to the worker's next one. *)
Definition others : M view unit :=
  modify (fun v => match v_script v with
    | [] => v
    | calls :: rest => mkView (final (for_each calls run_co_op) (v_coord v)) rest (v_own v)
    end).

Definition own_call {A} (made : list co_op) (m : M BackupCoordinator A) : M view A :=
  others ;;
  modify (fun v => mkView (v_coord v) (v_script v) (v_own v ++ made)) ;;
  zoom v_coord set_v_coord m.

#[export] Instance view_ops : Coordinator view := {
  SignalFinished := own_call [COFinished] BackupCoordinator_SignalFinished;
  SignalMoreWorkToDo := own_call [COMore] BackupCoordinator_SignalMoreWorkToDo;
  AddFatalError e := own_call [COError e] (BackupCoordinator_AddFatalError e);
  GetFatalErrors := own_call [] BackupCoordinator_GetFatalErrors;
  Cancel := own_call [COCancel] BackupCoordinator_Cancel;
  IsCancelled := own_call [] BackupCoordinator_IsCancelled;
  WaitUntilFinished timeout_millis := own_call [] (BackupCoordinator_WaitUntilFinished timeout_millis)
}.

(** ** The protocol of a worker

    The calls of a worker of [Coordinator.team_step], from one state of it
    to another. *)
Fixpoint protocol (s : worker) (calls : list co_op) : option worker :=
  match calls, s with
  | [], _ => Some s
  | COFinished :: rest, Working => protocol Done rest
  | COMore :: rest, Done => protocol Working rest
  | _, _ => None
  end.

Lemma protocol_app s l k : protocol s (l ++ k) = s' ← protocol s l; protocol s' k.
Proof.
  revert s. induction l as [|o l IH]; intros s; [by destruct k|]. cbn [app].
  destruct o, s; cbn; try done; apply IH.
Qed.

Definition done_state (was_done : bool) : worker := if was_done then Done else Working.

Lemma view_call {A} made (m : M BackupCoordinator A) v :
  exists c v', own_call made m v = ((m c).1, v') /\ v_coord v' = (m c).2 /\ v_own v' = v_own v ++ made.
Proof.
  unfold own_call, others, zoom. run. destruct (v_script v) as [|calls rest]; cbn [v_coord v_script v_own].
  - exists (v_coord v). destruct (m (v_coord v)) as [o c]. by eexists.
  - set (c0 := final _ _). exists c0. destruct (m c0) as [o c]. by eexists.
Qed.

Section Follows.
Context {TM TS H : Type} `{!IclMap TM, !IclSet TS, !CountHandler H} {E : Env}.
Context (freezable : bool) (latency : Z) (schedule : nat -> point -> list env_action).
Abbreviation world := (World TM TS view H).
Implicit Types w : world.

(** The others act on the coordinator only through the view. *)
Hypothesis own_coordinator : forall n p o, ECoordinator o ∉ schedule n p.

(** Steps that are no calls on the coordinator leave the view alone. *)
Lemma wp_still {A} (m : M world A) w (Q : A -> world -> Prop) (F : world -> Prop) :
  (forall v, stable (fun w => coordinator w = v) m) ->
  (forall a w', coordinator w' = coordinator w -> Q a w') ->
  (forall w', coordinator w' = coordinator w -> F w') -> wp m w Q F.
Proof.
  intros Hs HQ HF. specialize (Hs (coordinator w) w eq_refl). unfold wp.
  destruct (m w) as [[] w']; cbn in Hs; auto.
Qed.

Lemma still_sync p v : stable (fun w : world => coordinator w = v) (sync freezable latency schedule p).
Proof. apply stable_sync; try done. intros n q o c w Ho. by destruct (own_coordinator n q o). Qed.

(** The calls made since [l0] follow the protocol up to state [s]. *)
Definition followed (l0 : list co_op) (s : worker) w : Prop :=
  exists l, v_own (coordinator w) = l0 ++ l /\ protocol Working l = Some s.

(** How a normal return leaves the worker: done, or told of a cancellation. *)
Definition released (l0 : list co_op) w : Prop :=
  followed l0 Done w \/
  (cancelled_ (v_coord (coordinator w)) = true /\ exists s, followed l0 s w).

Lemma followed_same l0 s w w' : coordinator w' = coordinator w -> followed l0 s w -> followed l0 s w'.
Proof. unfold followed. by intros ->. Qed.

Lemma followed_call l0 s s' made w w' :
  followed l0 s w -> v_own (coordinator w') = v_own (coordinator w) ++ made -> protocol s made = Some s' ->
  followed l0 s' w'.
Proof.
  intros (l & E1 & E2) Ho Hm. exists (l ++ made). rewrite protocol_app, E2. split; [|done].
  by rewrite Ho, E1, app_assoc.
Qed.

Lemma wp_call {A} made (m : M BackupCoordinator A) w (Q : A -> world -> Prop) (F : world -> Prop) :
  (forall c w', v_own (coordinator w') = v_own (coordinator w) ++ made -> v_coord (coordinator w') = (m c).2 ->
     match (m c).1 with Ret a => Q a w' | _ => F w' end) ->
  wp (on_coordinator (own_call made m)) w Q F.
Proof.
  intros Hk. destruct (view_call made m (coordinator w)) as (c & v' & R & Hc & Ho).
  unfold wp, on_coordinator, zoom. rewrite R. specialize (Hk c (set_coordinator v' w) Ho Hc).
  by destruct (m c).1.
Qed.

(** A step that is no call, with what has been followed so far. *)
Lemma wp_go_on {A B} (m : M world A) (k : A -> M world B) l0 s w (Q : B -> world -> Prop) :
  (forall v, stable (fun w => coordinator w = v) m) -> followed l0 s w ->
  (forall a w', followed l0 s w' -> wp (k a) w' Q (fun w' => exists s, followed l0 s w')) ->
  wp (m ≫= k) w Q (fun w' => exists s, followed l0 s w').
Proof.
  intros Hm Hf Hk. apply wp_bind, wp_still; [done| |].
  - intros a w' Hc. apply Hk. by eapply followed_same.
  - intros w' Hc. exists s. by eapply followed_same.
Qed.

(** The two places at which DoSync tells the coordinator something: both
    take the worker to the same state whether they call or not. *)
Lemma wp_signal l0 wd w (k : unit -> M world unit) Q :
  followed l0 (done_state wd) w ->
  (forall w', followed l0 Done w' -> wp (k tt) w' Q (fun w' => exists s, followed l0 s w')) ->
  wp ((if wd then mret tt else sync freezable latency schedule PSignal ;; on_coordinator SignalFinished) ≫= k) w Q
    (fun w' => exists s, followed l0 s w').
Proof.
  intros Hf Hk. destruct wd; [apply wp_bind, wp_ret; by apply Hk|].
  apply wp_bind, (wp_go_on _ _ l0 Working); [by apply still_sync|done|]. intros _ w1 Hf1.
  apply wp_call. intros c w2 Ho _. apply Hk. by eapply followed_call.
Qed.

Lemma wp_resume l0 wd w (k : unit -> M world unit) Q :
  followed l0 (done_state wd) w ->
  (forall w', followed l0 Working w' -> wp (k tt) w' Q (fun w' => exists s, followed l0 s w')) ->
  wp ((if wd then sync freezable latency schedule PMore ;; on_coordinator SignalMoreWorkToDo ;; mret tt
       else mret tt) ≫= k) w Q (fun w' => exists s, followed l0 s w').
Proof.
  intros Hf Hk. destruct wd; [|apply wp_bind, wp_ret; by apply Hk].
  apply wp_bind, (wp_go_on _ _ l0 Done); [by apply still_sync|done|]. intros _ w1 Hf1.
  apply wp_bind, wp_call. intros c w2 Ho _.
  assert (followed l0 Working w2) as Hf2 by (by eapply followed_call).
  destruct (_ c).1; [apply wp_ret; by apply Hk|by eexists..].
Qed.

Lemma no_others (P : world -> Prop) n p o v w : ECoordinator o ∈ schedule n p -> P w -> P (set_coordinator v w).
Proof. intros Hin. by destruct (own_coordinator n p o). Qed.

(** Over the next step, in state [s] of the protocol. *)
Tactic Notation "go_on" constr(s) "as" simple_intropattern(pat) :=
  match goal with
  | Hf : followed ?l0 _ ?w |- wp _ ?w _ _ =>
      apply (wp_go_on _ _ l0 s);
        [ intros ?; first [ by apply still_sync | by apply stable_core | by apply stable_counts | apply stable_time
                          | by (apply stable_measure; try done; apply no_others)
                          | by (apply stable_copy_interval; try done; apply no_others) ]
        | exact Hf
        | clear w Hf; intros pat w Hf ]
  end.

Lemma wp_sync_loop_follows sfd dfd bs spb l0 fuel ft wd total w :
  followed l0 (done_state wd) w ->
  wp (sync_loop freezable latency schedule sfd dfd bs spb fuel ft wd total) w
    (fun _ => released l0) (fun w' => exists s, followed l0 s w').
Proof.
  revert ft wd total w. induction fuel as [|fuel IH]; intros ft wd total w Hf; cbn [sync_loop]; [by eexists|].
  go_on (done_state wd) as _. apply wp_bind, wp_call. intros c w1 Ho Hc.
  assert (followed l0 (done_state wd) w1) as Hf1 by (eapply followed_call; [exact Hf|exact Ho|by destruct wd]).
  cbn [fst snd BackupCoordinator_IsCancelled gets] in *.
  destruct (cancelled_ c) eqn:Ec; [apply wp_ret; right; split; [by rewrite Hc|by eexists]|].
  clear w Hf Ho Hc Ec c. rename w1 into w, Hf1 into Hf.
  go_on (done_state wd) as _. go_on (done_state wd) as n. go_on (done_state wd) as [ft' n'].
  go_on (done_state wd) as _. go_on (done_state wd) as _. case_bool.
  - apply (wp_signal l0); [done|]. clear w Hf; intros w Hf. go_on Done as _. apply wp_bind, wp_call. intros c w1 Ho _.
    assert (followed l0 Done w1) as Hf1 by (by eapply followed_call).
    unfold BackupCoordinator_WaitUntilFinished, check_gt. run. cbn [Z.ltb Z.compare Pos.compare]. run.
    case_bool; [by left|]. by apply (IH _ true).
  - apply (wp_resume l0); [done|]. clear w Hf; intros w Hf. go_on Working as now. go_on Working as _.
    go_on Working as [i vol]. do 5 go_on Working as _. by apply (IH _ false).
Qed.
Lemma wp_DoSync_follows l0 fuel w :
  followed l0 Working w ->
  wp (DoSync freezable latency schedule fuel) w (fun _ => released l0) (fun w' => exists s, followed l0 s w').
Proof.
  intros Hf. apply (wp_go_on _ _ l0 Working); [intros v; by apply stable_zoom|done|clear w Hf; intros sfd w Hf].
  apply (wp_go_on _ _ l0 Working); [intros v; by apply stable_zoom|done|clear w Hf; intros dfd w Hf].
  unfold with_freeze_helper, wp. set (body := _ ≫= _).
  assert (wp body w (fun _ => released l0) (fun w' => exists s, followed l0 s w')) as Hb.
  { apply (wp_go_on _ _ l0 Working); [intros v; apply stable_gets|done|clear w Hf; intros bs w Hf].
    apply wp_bind. eapply wp_mono; [by apply (wp_sync_loop_follows _ _ _ _ l0 fuel 0 false)| |done].
    intros [] w1 Hr. apply wp_still; [intros v; apply stable_bind; [by apply stable_zoom|intros _; by apply stable_zoom]| |].
    - intros _ w2 Hc. unfold released, followed. by rewrite Hc.
    - intros w2 Hc. unfold followed. rewrite Hc. destruct Hr as [?|[_ ?]]; [by eexists|done]. }
  unfold wp in Hb. by destruct (body w) as [[] w'].
Qed.

(** C16: DoSync is a worker.  Whatever is written, traced, broken or
    cancelled while it runs, and whatever the other workers do, the calls
    DoSync makes on the coordinator follow the protocol of a worker of
    [team_step]: it signals that it has finished and that there is more to
    do in turn, beginning with the former, and reports no error and cancels
    nothing itself; it returns normally only with its last signal standing,
    or when the backup has been cancelled. *)
Theorem sync_follows_protocol fuel w :
  let r := DoSync freezable latency schedule fuel w in
  exists calls s, v_own (coordinator r.2) = v_own (coordinator w) ++ calls /\
    protocol Working calls = Some s /\
    (r.1 = Ret tt -> s = Done \/ cancelled_ (v_coord (coordinator r.2)) = true).
Proof.
  assert (followed (v_own (coordinator w)) Working w) as Hf by (exists []; by rewrite app_nil_r).
  pose proof (wp_DoSync_follows _ fuel w Hf) as Hw. unfold wp in Hw.
  destruct (DoSync freezable latency schedule fuel w) as [[[]|e|e|e|] w']; cbn [fst snd].
  { destruct Hw as [(l & E1 & E2)|(Hc & s & l & E1 & E2)]; exists l; eexists; split_and!; [done..|by auto|done|done|by auto]. }
  all: destruct Hw as (s & l & E1 & E2); by exists l, s.
Qed.
End Follows.

(** ** The team of a backup's workers *)

(** How many calls of SignalMoreWorkToDo are refused. *)
Fixpoint refusals (calls : list co_op) (c : BackupCoordinator) : Z :=
  match calls with
  | [] => 0
  | o :: rest =>
      (match o with COMore => if cancelled_ c || (count_ c =? 0) then 1 else 0 | _ => 0 end) +
      refusals rest (final (run_co_op o) c)
  end.

Lemma run_co_op_Ret o (c : BackupCoordinator) : run_co_op o c = (Ret tt, final (run_co_op o) c).
Proof. unfold final. destruct (co_ops_effect [o] c) as (c' & R & _). cbn in R. rewrite bind_unfold in R. by destruct (run_co_op o c) as [[[]| | | |] ?]. Qed.

Lemma final_calls_cons o rest (c : BackupCoordinator) :
  final (for_each (o :: rest) run_co_op) c = final (for_each rest run_co_op) (final (run_co_op o) c).
Proof. unfold final at 1. by rewrite for_each_cons, bind_unfold, run_co_op_Ret. Qed.

Lemma more_run c :
  BackupCoordinator_SignalMoreWorkToDo c =
    (Ret (negb (cancelled_ c || (count_ c =? 0))), final (run_co_op COMore) c).
Proof.
  unfold final, run_co_op. cbn [SignalMoreWorkToDo BackupCoordinator_ops].
  unfold BackupCoordinator_SignalMoreWorkToDo. run. by case_bool; run.
Qed.

(** Calls of workers that follow the protocol, in any order the threads
    allow, are steps of the team. *)
Lemma calls_are_team_steps words order ws ws' c r :
  length words = length ws -> length ws' = length ws ->
  (forall i l s, words !! i = Some l -> ws !! i = Some s -> protocol s l = ws' !! i) ->
  interleaves words order ->
  rtc team_step (mkTeam c ws r) (mkTeam (final (for_each order run_co_op) c) ws' (r + refusals order c)).
Proof.
  intros L1 L2 HF Hi. revert ws c r L1 L2 HF.
  induction Hi as [words Hn|words i o l rest Hw Hi IH]; intros ws c r L1 L2 HF.
  - assert (ws = ws') as ->; [|cbn; by rewrite Z.add_0_r].
    apply list_eq. intros i. destruct (words !! i) as [l|] eqn:El.
    + destruct (lookup_lt_is_Some_2 ws i) as [s Es]; [rewrite <- L1; by eapply lookup_lt_Some|].
      rewrite <- (HF i l s El Es), Es. rewrite Forall_lookup in Hn. by rewrite (Hn i l El).
    + apply lookup_ge_None in El. rewrite !lookup_ge_None_2 by lia. done.
  - destruct (lookup_lt_is_Some_2 ws i) as [s Es]; [rewrite <- L1; by eapply lookup_lt_Some|].
    destruct (lookup_lt_is_Some_2 ws' i) as [s' Es']; [rewrite L2, <- L1; by eapply lookup_lt_Some|].
    pose proof (HF i _ s Hw Es) as Hp. rewrite Es' in Hp.
    rewrite final_calls_cons. cbn [refusals].
    assert (exists s1, protocol s1 l = Some s' /\
      team_step (mkTeam c ws r) (mkTeam (final (run_co_op o) c) (<[i := s1]> ws)
        (r + match o with COMore => if cancelled_ c || (count_ c =? 0) then 1 else 0 | _ => 0 end)))
      as (s1 & Hs1 & Hstep).
    { destruct o, s; try done; cbn in Hp.
      - exists Done. rewrite Z.add_0_r. split; [done|]. by apply TFinish.
      - exists Working. split; [done|].
        pose proof (TMore i c ws r _ _ Es (more_run c)) as T. by destruct (cancelled_ c || (count_ c =? 0)); rewrite ?Z.add_0_r. }
    eapply rtc_l; [exact Hstep|].
    rewrite Z.add_assoc. apply IH; rewrite ?length_insert; [done|done|].
    intros j lj sj Hlj Hsj. destruct (decide (j = i)) as [->|Hji].
    + rewrite list_lookup_insert_eq in Hlj by (by eapply lookup_lt_Some).
      rewrite list_lookup_insert_eq in Hsj by (by eapply lookup_lt_Some).
      injection Hlj as <-. injection Hsj as <-. by rewrite Es'.
    + rewrite list_lookup_insert_ne in Hlj by done. rewrite list_lookup_insert_ne in Hsj by done. by apply (HF j).
Qed.

(** ** Views without a cancellation *)

Definition cancels (o : co_op) : bool := match o with COError _ | COCancel => true | _ => false end.

Definition uncancelled (v : view) : Prop :=
  cancelled_ (v_coord v) = false /\ Forall (fun o => cancels o = false) (concat (v_script v)).

Lemma calls_uncancelled calls c :
  cancelled_ c = false -> Forall (fun o => cancels o = false) calls ->
  cancelled_ (final (for_each calls run_co_op) c) = false.
Proof.
  intros Hc Hf. unfold final. destruct (co_ops_effect calls c) as (c' & -> & _ & Ec). cbn [snd]. rewrite Ec, Hc.
  cbn [orb]. clear Ec. induction Hf as [|o l Ho _ IH]; [done|]. cbn [existsb]. unfold cancels in Ho. by rewrite Ho.
Qed.

Lemma uncancelled_call {A} made (m : M BackupCoordinator A) :
  (forall c, cancelled_ c = false -> cancelled_ (m c).2 = false) -> stable uncancelled (own_call made m).
Proof.
  intros Hm. apply stable_bind; [|intros _; apply stable_bind; [by intros v|intros _]].
  - apply stable_modify. intros v [H1 H2]. destruct (v_script v) as [|calls rest] eqn:Es; [by split; [|rewrite Es]|].
    cbn [concat] in H2. apply Forall_app in H2 as [H2 H3]. split; [|done]. by apply calls_uncancelled.
  - intros v [H1 H2]. unfold zoom. specialize (Hm _ H1). by destruct (m (v_coord v)).
Qed.

Lemma uncancelled_op {TM TS H A} (m : M view A) :
  stable uncancelled m -> stable (fun w : World TM TS view H => uncancelled (coordinator w)) (on_coordinator m).
Proof. intros Hm w Hw. unfold on_coordinator, zoom. specialize (Hm _ Hw). by destruct (m (coordinator w)). Qed.

Lemma interleaves_drop_nil {A} (words : list (list A)) order :
  interleaves (words ++ [[]]) order -> interleaves words order.
Proof.
  intros Hi. remember (words ++ [[]]) as ws eqn:E. revert words E.
  induction Hi as [ws Hn|ws i x l rest Hi _ IH]; intros words ->.
  - apply il_done. by apply Forall_app in Hn as [Hn _].
  - destruct (decide (i < length words)%nat) as [Hlt|Hge].
    + rewrite lookup_app_l in Hi by done. apply (il_step _ i x l); [done|]. apply IH.
      by rewrite insert_app_l.
    + rewrite lookup_app_r in Hi by lia. destruct (i - length words)%nat as [|k]; [by injection Hi|].
      by destruct k.
Qed.

(** ** A backup made of runs of DoSync *)

Section Runs.
Context {TM TS H : Type} `{!IclMap TM, !IclSet TS, !CountHandler H} {E : Env}.

(** A synchronizer in its thread: what happens around it, its world, and
    the answers of GetUuid when its count handler is made and when it
    fails. *)
Record sync_run := mkRun {
  sr_freezable : bool;
  sr_latency : Z;
  sr_schedule : nat -> point -> list env_action;
  sr_fuel : nat;
  sr_world : World TM TS view H;
  sr_uuid : outcome string;
  sr_error_uuid : outcome string
}.

Definition run_of (r : sync_run) : outcome unit * World TM TS view H :=
  DoSync (sr_freezable r) (sr_latency r) (sr_schedule r) (sr_fuel r) (sr_world r).

(** The job DoBackup sees. *)
Definition job_of (r : sync_run) : sync_job :=
  mkJob (sr_uuid r) (v_own (coordinator (run_of r).2))
    (match (run_of r).1 with Throw e => Some e | _ => None end) (sr_error_uuid r).

(** A run of one of [n] workers: it starts with the backup's new
    coordinator, of the others' calls it sees only ones that were made, and
    it ends. *)
Record run_ok (n : nat) (order : list co_op) (r : sync_run) : Prop := {
  ro_schedule : forall k p o, ECoordinator o ∉ sr_schedule r k p;
  ro_view : exists script, coordinator (sr_world r) = mkView (new_BackupCoordinator (Z.of_nat n)) script [] /\
              forall o, o ∈ concat script -> o ∈ order;
  ro_ends : (run_of r).1 = Ret tt \/ exists e, (run_of r).1 = Throw e /\ what e <> "";
  ro_uuid : exists u, sr_uuid r = Ret u
}.

Lemma protocol_plain s calls s' :
  protocol s calls = Some s' -> Forall (fun o => call_error o = None) calls /\ Forall (fun o => o <> COCancel) calls.
Proof.
  revert s. induction calls as [|o calls IH]; intros s Hp; [done|].
  destruct o, s; try done; cbn in Hp; apply IH in Hp as [? ?]; split; by constructor.
Qed.

Lemma job_protocol n order r :
  run_ok n order r ->
  exists s, protocol Working (job_calls (job_of r)) = Some s /\
    ((run_of r).1 = Ret tt -> s = Done \/ cancelled_ (v_coord (coordinator (run_of r).2)) = true).
Proof.
  intros [Hs (script & Hv & _) _ _].
  assert (followed (v_own (coordinator (sr_world r))) Working (sr_world r)) as Hf by (exists []; by rewrite app_nil_r).
  pose proof (wp_DoSync_follows (sr_freezable r) (sr_latency r) (sr_schedule r) Hs _ (sr_fuel r) _ Hf) as Hw.
  unfold wp in Hw. fold (run_of r) in Hw. unfold job_of. cbn [job_calls]. rewrite Hv in Hw. cbn [v_own] in Hw.
  destruct (run_of r) as [[[]|e|e|e|] w']; cbn [fst snd] in *.
  { destruct Hw as [(l & -> & E2)|(Hc & s & l & -> & E2)]; eexists; (split; [exact E2|]); auto. }
  all: destruct Hw as (s & l & -> & E2); exists s; by split.
Qed.

Lemma run_uncancelled n order r :
  run_ok n order r -> Forall (fun o => cancels o = false) order -> uncancelled (coordinator (run_of r).2).
Proof.
  intros [Hs (script & Hv & Hin) _ _] Ho. unfold run_of.
  assert (stable (fun w : World TM TS view H => uncancelled (coordinator w))
    (DoSync (sr_freezable r) (sr_latency r) (sr_schedule r) (sr_fuel r))) as Hst.
  { apply stable_bind; [by apply stable_zoom|]. intros sfd. apply stable_bind; [by apply stable_zoom|]. intros dfd.
    apply stable_with_freeze_helper; [done|]. apply stable_bind; [apply stable_gets|]. intros bs.
    apply stable_bind; [|intros _; apply stable_bind; [by apply stable_zoom|intros _; by apply stable_zoom]].
    apply stable_sync_loop; try done; [by apply (no_others _ Hs)|apply uncancelled_op, uncancelled_call..]; try done.
    intros c Hc. rewrite more_run. pose proof (calls_uncancelled [COMore] c Hc ltac:(by repeat constructor)) as Hm.
    by rewrite final_calls_cons in Hm. }
  apply Hst. rewrite Hv. split; [done|]. apply Forall_forall. intros o Hx. rewrite Forall_forall in Ho. auto.
Qed.
(** When every run returns normally and nobody cancels, the team ends with
    every worker done and, unless a resumption was refused, a count of
    zero. *)
Lemma runs_end_at_zero runs order :
  let n := length runs in
  let c0 := new_BackupCoordinator (Z.of_nat n) in
  Z.of_nat n < 2 ^ 32 -> Forall (run_ok n order) runs -> Forall (fun r => (run_of r).1 = Ret tt) runs ->
  interleaves (thread_calls <$> (job_of <$> runs)) order -> refusals order c0 = 0 ->
  count_ (final (for_each order run_co_op) c0) = 0.
Proof.
  intros n c0 Hn Hok Hret Hi Href. rewrite Forall_forall in Hok, Hret.
  assert (forall r, r ∈ runs -> thread_calls (job_of r) = job_calls (job_of r)) as Hcalls.
  { intros r Hr. unfold thread_calls, job_error, job_of. cbn. rewrite (Hret r Hr). by rewrite app_nil_r. }
  assert (Forall (fun o => cancels o = false) order) as Hunc.
  { rewrite (interleaves_perm _ _ Hi). apply Forall_concat, Forall_fmap, Forall_fmap, Forall_forall. intros r Hr.
    unfold compose. rewrite Hcalls by done. destruct (job_protocol n order r (Hok r Hr)) as (s & [Hp1 Hp2]%protocol_plain & _).
    rewrite Forall_forall in Hp1, Hp2. apply Forall_forall. intros o Ho. specialize (Hp1 o Ho). by destruct o; [..|destruct (Hp2 _ Ho)]. }
  assert (forall r, r ∈ runs -> protocol Working (thread_calls (job_of r)) = Some Done) as Hdone.
  { intros r Hr. rewrite Hcalls by done. destruct (job_protocol n order r (Hok r Hr)) as (s & -> & Hs).
    destruct (Hs (Hret r Hr)) as [->|Hc]; [done|]. by rewrite (proj1 (run_uncancelled n order r (Hok r Hr) Hunc)) in Hc. }
  assert (forall i l s, (thread_calls <$> (job_of <$> runs)) !! i = Some l ->
    replicate n Working !! i = Some s -> protocol s l = replicate n Done !! i) as Hwords.
  { intros i l s Hl Hs. apply lookup_replicate in Hs as [-> Hi']. rewrite lookup_replicate_2 by done.
    rewrite !list_lookup_fmap in Hl. destruct (runs !! i) as [r|] eqn:Er; [|done]. injection Hl as <-.
    apply Hdone. by eapply list_elem_of_lookup_2. }
  pose proof (calls_are_team_steps (thread_calls <$> (job_of <$> runs)) order (replicate n Working)
    (replicate n Done) c0 0) as Hsteps.
  rewrite !length_fmap, !length_replicate, Href in Hsteps.
  destruct (team_inv_reach n _ Hn (Hsteps eq_refl eq_refl Hwords Hi)) as [_ Hcount].
  cbn [coord workers refused] in Hcount. rewrite Hcount by (by apply calls_uncancelled).
  assert (working (replicate n Done) = 0) as -> by (clear; induction n; cbn [replicate working is_working]; lia). done.
Qed.

Lemma runs_return_or_throw n order runs :
  Forall (run_ok n order) runs ->
  Forall (fun r => (run_of r).1 = Ret tt) runs \/ exists r e, r ∈ runs /\ (run_of r).1 = Throw e.
Proof.
  induction 1 as [|r runs [_ _ Hr _] _ IH]; [by left|].
  destruct Hr as [Hr|(e & Hr & _)]; [|right; exists r, e; split; [by left|done]].
  destruct IH as [IH|(r' & e & Hr' & He)]; [left; by constructor|]. right. exists r', e. split; [by right|done].
Qed.

(** C12: a backup ends as its synchronizers do.  For any number of devices,
    whatever happens on each while its DoSync runs, however the calls of
    the synchronizers and of whoever cancels reach the coordinator, and
    however they fall between the evaluations of DoBackup's waiting loop:
    if some DoSync threw, the job is FAILED with a message made of exactly
    the errors of those that did; if all returned, it is CANCELLED or
    SUCCEEDED, as there was a cancellation or not; and DoBackup returns,
    provided that in the last case no resumption was refused.  No other
    job's status changes. *)
Theorem backup_of_synchronizers runs external rounds a t :
  let order := concat rounds in
  let n := length runs in
  let c0 := new_BackupCoordinator (Z.of_nat n) in
  Z.of_nat n < 2 ^ 32 -> Forall (run_ok n order) runs -> Forall (fun o => o = COCancel) external ->
  interleaves ((thread_calls <$> (job_of <$> runs)) ++ [external]) order -> is_Some (replies t !! a) ->
  (external = [] -> Forall (fun r => (run_of r).1 = Ret tt) runs -> refusals order c0 = 0) ->
  exists t' c', DoBackup (job_of <$> runs) rounds a (t, c0) = (Ret tt, (t', c')) /\
    same_others a t t' /\
    exists reply errors, replies t' !! a = Some reply /\ errors ≡ₚ concat (job_error <$> (job_of <$> runs)) /\
      ((exists r e, r ∈ runs /\ (run_of r).1 = Throw e) ->
         status reply = Some FAILED /\ failure_message reply = Some (errors_text errors)) /\
      (Forall (fun r => (run_of r).1 = Ret tt) runs ->
         status reply = Some (match external with [] => SUCCEEDED | _ => CANCELLED end)).
Proof.
  intros order n c0 Hn Hok Hext Hi Ha Href.
  assert (forall j, j ∈ job_of <$> runs -> exists r, j = job_of r /\ r ∈ runs /\ run_ok n order r) as Hjobs.
  { intros j (r & -> & Hr)%list_elem_of_fmap. exists r. rewrite Forall_forall in Hok. auto. }
  assert (forall r e, r ∈ runs -> (job_exception (job_of r) = Some e <-> (run_of r).1 = Throw e)) as Hexn.
  { intros r e Hr. cbn. destruct (run_of r).1; split; congruence. }
  pose proof (backup_outcome (job_of <$> runs) external rounds a t) as Hb.
  rewrite length_fmap in Hb. fold n in Hb. fold c0 in Hb. fold order in Hb. cbv zeta in Hb.
  destruct Hb as (t' & c' & R & Ho & reply & errors & H1 & H2 & H3 & H4); try done.
  - apply Forall_forall. intros j (r & -> & _ & [])%Hjobs. done.
  - apply Forall_forall. intros j (r & -> & _ & Hr)%Hjobs.
    destruct (job_protocol n order r Hr) as (s & [Hp _]%protocol_plain & _). exact Hp.
  - eapply Forall_impl; [exact Hext|]. by intros o ->.
  - intros j e (r & -> & Hr & [])%Hjobs Hj. apply Hexn in Hj; [|done].
    destruct ro_ends0 as [Hx|(e' & Hx & Hw)]; rewrite Hx in Hj; [done|]. by injection Hj as <-.
  - apply Forall_forall. intros j (r & -> & _ & Hr)%Hjobs.
    by destruct (job_protocol n order r Hr) as (s & [_ Hp]%protocol_plain & _).
  - destruct external as [|o ext]; [|right; left; apply Forall_cons in Hext as [-> _]; by left].
    destruct (runs_return_or_throw n order runs Hok) as [Hret|(r & e & Hr & He)].
    + right. right. apply runs_end_at_zero; auto. by apply interleaves_drop_nil.
    + left. exists (job_of r). split; [by apply list_elem_of_fmap_2|]. exists e. by apply Hexn.
  - exists t', c'. split_and!; [done|done|]. exists reply, errors. split_and!; [done|done| |].
    + intros (r & e & Hr & He). apply H3. exists (job_of r). split; [by apply list_elem_of_fmap_2|].
      exists e. by apply Hexn.
    + intros Hret. rewrite H4; [|].
      * f_equal. destruct external as [|o ext]; [done|]. apply Forall_cons in Hext as [-> _].
        by rewrite bool_decide_eq_true_2 by (by left).
      * intros j (r & -> & Hr & _)%Hjobs. rewrite Forall_forall in Hret. cbn. by rewrite (Hret r Hr).
Qed.
End Runs.

(** ** A backup on a machine that is left alone *)

(** A view in which [k] of the others have still to signal and the worker
    counts for [x]. *)
Definition waiting_for (x k : nat) (own : list co_op) (v : view) : Prop :=
  v_coord v = mkCoordinator (Z.of_nat (x + k)) false [] /\ concat (v_script v) = replicate k COFinished /\
  Z.of_nat (x + k) < 2 ^ 32 /\ v_own v = own.

Lemma finished_calls k x :
  Z.of_nat (k + x) < 2 ^ 32 ->
  final (for_each (replicate k COFinished) run_co_op) (mkCoordinator (Z.of_nat (k + x)) false []) =
    mkCoordinator (Z.of_nat x) false [].
Proof.
  induction k as [|k IH]; intros Hx; [done|]. cbn [replicate]. rewrite final_calls_cons, <- IH by lia.
  f_equal. unfold final. cbn. f_equal. rewrite u32_id by (unfold is_u32; lia). lia.
Qed.

Lemma replicate_split {A} k (o : A) l1 l2 :
  l1 ++ l2 = replicate k o -> exists k1 k2, k = (k1 + k2)%nat /\ l1 = replicate k1 o /\ l2 = replicate k2 o.
Proof.
  intros Hr. symmetry in Hr. apply replicate_as_Forall in Hr as [Hl [H1 H2]%Forall_app]. rewrite length_app in Hl.
  exists (length l1), (length l2). split_and!; [done|symmetry; by apply replicate_as_Forall..].
Qed.

(** The others' next calls. *)
Lemma others_waiting x k own v :
  waiting_for x k own v ->
  exists k' v', others v = (Ret tt, v') /\ waiting_for x k' own v' /\
    length (v_script v') = pred (length (v_script v)).
Proof.
  intros (E1 & E2 & E3 & E4). unfold others, modify. destruct (v_script v) as [|calls rest] eqn:Es.
  - exists k, v. split; [done|]. split; [|by rewrite Es]. split_and!; [done|by rewrite Es|done|done].
  - cbn [concat] in E2. apply replicate_split in E2 as (k1 & k2 & Ek & E5 & E6).
    exists k2. eexists. split; [done|]. split; [|done]. cbn [v_coord v_script v_own]. split_and!; [|done|lia|done].
    cbn. rewrite E1, E5. replace (x + k)%nat with (k1 + (x + k2))%nat by lia. apply finished_calls. lia.
Qed.

Lemma waiting_call {A} made (m : M BackupCoordinator A) x k own v :
  waiting_for x k own v ->
  exists k' v', own_call made m v = ((m (mkCoordinator (Z.of_nat (x + k')) false [])).1, v') /\
    (length (v_script v') = pred (length (v_script v)))%nat /\
    (v_script v = [] -> k' = 0%nat) /\ Z.of_nat (x + k') < 2 ^ 32 /\
    forall x', (m (mkCoordinator (Z.of_nat (x + k')) false [])).2 = mkCoordinator (Z.of_nat (x' + k')) false [] ->
      (x' <= x)%nat -> waiting_for x' k' (own ++ made) v'.
Proof.
  intros Hv. destruct (others_waiting x k own v Hv) as (k' & v1 & R & (E1 & E2 & E3 & E4) & Hl).
  exists k'. unfold own_call, zoom. rewrite bind_unfold, R. run. cbn [v_coord]. rewrite E1.
  destruct (m _) as [o c]. eexists. split; [done|]. cbn. split_and!; [done| | |].
  - intros Hs. rewrite Hs in Hl. apply nil_length_inv in Hl. rewrite Hl in E2. by destruct k'.
  - done.
  - intros x' -> Hx. split_and!; [done|done|lia|by rewrite E4].
Qed.

Lemma wait_answer c : (BackupCoordinator_WaitUntilFinished 500 c).1 = Ret ((count_ c =? 0) || cancelled_ c).
Proof. done. Qed.

Lemma waits_for_all x own L v k :
  x = 0%nat -> waiting_for x k own v -> (length (v_script v) <= L)%nat ->
  waits_out (fun v => v_own v = own) L v.
Proof.
  intros ->. revert v k. induction L as [|L IH]; intros v k Hv Hl.
  all: destruct (waiting_call [] (BackupCoordinator_WaitUntilFinished 500) 0 k own v Hv)
    as (k1 & v1 & R1 & L1 & Z1 & _ & W1); specialize (W1 0%nat eq_refl (le_n _)); rewrite app_nil_r in W1.
  - assert (v_script v = []) as Hnil by (destruct (v_script v); cbn in Hl; [done|lia]).
    exists true, v1. rewrite (Z1 Hnil) in R1. split; [exact R1|]. apply W1.
  - exists (Z.of_nat k1 =? 0), v1.
    split; [etransitivity; [exact R1|]; rewrite wait_answer; cbn [count_ cancelled_ plus]; by rewrite orb_false_r|]. destruct (Z.eqb_spec (Z.of_nat k1) 0); [apply W1|].
    destruct (waiting_call [] BackupCoordinator_IsCancelled 0 k1 own v1 W1) as (k2 & v2 & R2 & L2 & _ & _ & W2).
    exists v2. split; [exact R2|]. specialize (W2 0%nat eq_refl (le_n _)). rewrite app_nil_r in W2.
    apply (IH v2 k2 W2). lia.
Qed.

(** A worker among [n] that is left alone signals once, and is let go when
    the others have signalled. *)
Lemma view_finishes n script :
  (0 < n)%nat -> Z.of_nat n < 2 ^ 32 -> concat script = replicate (pred n) COFinished ->
  finishes_after (fun v => v_own v = [COFinished]) (length script) (mkView (new_BackupCoordinator (Z.of_nat n)) script []).
Proof.
  intros Hn Hb Hs.
  exists (fun v => (length (v_script v) <= length script)%nat /\ exists k, waiting_for 1 k [] v). split.
  - split; [done|]. exists (pred n). split_and!; [|done|lia|done]. cbn. unfold new_BackupCoordinator.
    rewrite u32_id by (unfold is_u32; lia). f_equal. lia.
  - intros v (Hl & k & Hv). split.
    + destruct (waiting_call [] BackupCoordinator_IsCancelled 1 k [] v Hv) as (k1 & v1 & R1 & L1 & _ & _ & W1).
      exists v1. split; [exact R1|]. split; [lia|]. exists k1. by apply (W1 1%nat).
    + destruct (waiting_call [COFinished] BackupCoordinator_SignalFinished 1 k [] v Hv) as (k1 & v1 & R1 & L1 & _ & B1 & W1).
      exists v1. split; [exact R1|]. apply (waits_for_all 0 _ _ _ k1 eq_refl); [|lia]. apply (W1 0%nat); [|lia].
      cbn [BackupCoordinator_SignalFinished modify snd count_ cancelled_ fatal_errors_]. f_equal.
      rewrite u32_id by (unfold is_u32; lia). lia.
Qed.

(** Threads that make one call each. *)
Lemma interleaves_singles {A} m k (o : A) :
  interleaves (replicate m [] ++ replicate k [o] ++ [[]]) (replicate k o).
Proof.
  revert m. induction k as [|k IH]; intros m.
  - apply il_done. apply Forall_app. split; [by apply Forall_replicate|by repeat constructor].
  - cbn [replicate]. apply (il_step _ m o []).
    + rewrite lookup_app_r, length_replicate, Nat.sub_diag by (by rewrite length_replicate). done.
    + replace (<[m := []]> (replicate m [] ++ ([o] :: replicate k [o]) ++ [[]]))
        with (replicate (S m) ([] : list A) ++ replicate k [o] ++ [[]]); [apply IH|].
      rewrite replicate_S_end, <- app_assoc. rewrite insert_app_r_alt, length_replicate, Nat.sub_diag by (by rewrite length_replicate).
      done.
Qed.

Section QuietTeam.
Context {TM TS H : Type} `{!IclMap TM, !IclMapLaws TM, !IclSet TS, !IclSetLaws TS}
  `{!CountHandler H, !CountHandlerLaws H} {env : Env}.
Implicit Types r : sync_run (TM := TM) (TS := TS) (H := H).

(** One of [n] synchronizers on a machine that works and is left alone
    while time passes and freezes run out.  The other workers' signals reach
    the coordinator at any of this worker's calls. *)
Record quiet_run (n : nat) r : Prop := {
  qr_schedule : undisturbed (sr_schedule r);
  qr_latency : 0 < sr_latency r;
  qr_uuid : exists u, sr_uuid r = Ret u;
  qr_world : exists script spb size,
    coordinator (sr_world r) = mkView (new_BackupCoordinator (Z.of_nat n)) script [] /\
    concat script = replicate (pred n) COFinished /\ prepared env spb size (sr_world r) /\
    card (sr_world r) + Z.of_nat (length script) < Z.of_nat (sr_fuel r)
}.

(** It copies everything and signals once. *)
Lemma quiet_run_copies n r :
  (0 < n)%nat -> Z.of_nat n < 2 ^ 32 -> quiet_run n r ->
  exists w', run_of r = (Ret tt, w') /\ v_own (coordinator w') = [COFinished] /\ card w' = 0 /\
    (forall x, is_Some (at_ (core (sr_world r)) x) \/ agrees (c_dst (core (sr_world r))) (core (sr_world r)) x ->
      agrees (c_dst (core w')) (core w') x) /\
    (forall b, c_src (core w') b = c_src (core (sr_world r)) b).
Proof.
  intros Hn Hb [Hs Hlat _ (script & spb & size & Hc & Hscript & Hp & Hfuel)].
  unfold run_of.
  destruct (quiet_copies (sr_freezable r) (sr_latency r) (sr_schedule r) Hs spb size (fun v => v_own v = [COFinished]) (length script)
    (fun _ _ _ => True)) with (fuel := sr_fuel r) (w := sr_world r) as (w' & R & HQ & K & A & B & _); try done.
  - split; [done|]. rewrite Hc. by apply view_finishes.
  - by exists w'.
Qed.

(** The same worker, with the others' signals coming as in [script]. *)
Definition with_script (script : list (list co_op)) r : sync_run (TM := TM) (TS := TS) (H := H) :=
  mkRun (sr_freezable r) (sr_latency r) (sr_schedule r) (sr_fuel r)
    (set_coordinator (mkView (v_coord (coordinator (sr_world r))) script []) (sr_world r)) (sr_uuid r) (sr_error_uuid r).

(** The worker signals once, and without waiting for the others: however
    many of their signals have come, and whenever they came. *)
Definition signals_unasked (n : nat) r : Prop :=
  forall j script, (j < n)%nat -> concat script = replicate j COFinished ->
    v_own (coordinator (run_of (E := env) (with_script script r)).2) = [COFinished].

Lemma quiet_run_signals n r : Z.of_nat n < 2 ^ 32 -> quiet_run n r -> signals_unasked n r.
Proof.
  intros Hb [Hs Hlat _ (script0 & spb & size & Hc & Hscript & Hp & Hfuel)] j script Hj Hcalls.
  unfold run_of. cbn [with_script sr_freezable sr_latency sr_schedule sr_fuel sr_world]. rewrite Hc. cbn [v_coord].
  set (w := set_coordinator _ _).
  assert (prepared env spb size w) as Hp' by (by destruct Hp).
  destruct (DoSync_signals (sr_freezable r) (sr_latency r) (sr_schedule r) Hs spb size
    (fun v => exists k, waiting_for (n - j) k [] v) (fun v => exists k, waiting_for (pred (n - j)) k [COFinished] v)
    (sr_fuel r) w Hp') as (k & _ & _ & _ & Ho); [change (card w) with (card (sr_world r)); lia|..|exact Ho].
  - exists j. split_and!; [|done|lia|done]. cbn. unfold new_BackupCoordinator.
    rewrite u32_id by (unfold is_u32; lia). f_equal. lia.
  - intros v (k & Hv). destruct (waiting_call [] BackupCoordinator_IsCancelled _ _ _ _ Hv) as (k1 & v1 & R1 & _ & _ & _ & W1).
    exists v1. split; [exact R1|]. exists k1. by apply (W1 (n - j)%nat).
  - intros v (k & Hv). destruct (waiting_call [COFinished] BackupCoordinator_SignalFinished _ _ _ _ Hv)
      as (k1 & v1 & R1 & _ & _ & B1 & W1).
    exists v1. split; [exact R1|]. exists k1. apply (W1 (pred (n - j))); [|lia].
    cbn [BackupCoordinator_SignalFinished modify snd count_ cancelled_ fatal_errors_]. f_equal.
    rewrite u32_id by (unfold is_u32; lia). lia.
  - intros v (k & Hv). split.
    + destruct (waiting_call [] (BackupCoordinator_WaitUntilFinished 500) _ _ _ _ Hv) as (k1 & v1 & R1 & _ & _ & _ & W1).
      eexists _, v1. split; [exact R1|]. exists k1. by apply (W1 (pred (n - j))).
    + destruct (waiting_call [] BackupCoordinator_IsCancelled _ _ _ _ Hv) as (k1 & v1 & R1 & _ & _ & _ & W1).
      exists v1. split; [exact R1|]. exists k1. by apply (W1 (pred (n - j))).
Qed.

(** A backup of several devices that are left alone succeeds.  For any
    number of synchronizers whose sources are not written to, on a machine
    on which no call fails and no two freezes run out within ten steps,
    whatever the order in which they finish and however their signals reach
    the coordinator: every DoSync signals without waiting for the others,
    and returns after
    a bounded number of rounds, with the source's bytes on its destination
    at every sector that was marked, or where it had them before; and DoBackup returns with the job's
    status SUCCEEDED, no other job's status changed. *)
Theorem quiet_backup_succeeds runs rounds a t :
  let n := length runs in
  Z.of_nat n < 2 ^ 32 -> Forall (quiet_run n) runs -> concat rounds = replicate n COFinished ->
  is_Some (replies t !! a) ->
  Forall (signals_unasked n) runs /\
  (forall r, r ∈ runs -> exists w', run_of r = (Ret tt, w') /\ card w' = 0 /\
     (forall x, is_Some (at_ (core (sr_world r)) x) \/ agrees (c_dst (core (sr_world r))) (core (sr_world r)) x ->
      agrees (c_dst (core w')) (core w') x) /\
     (forall b, c_src (core w') b = c_src (core (sr_world r)) b)) /\
  exists t' c', DoBackup (job_of <$> runs) rounds a (t, new_BackupCoordinator (Z.of_nat n)) = (Ret tt, (t', c')) /\
    same_others a t t' /\ exists reply, replies t' !! a = Some reply /\ status reply = Some SUCCEEDED.
Proof.
  intros n Hn Hq Hr Ha. rewrite Forall_forall in Hq.
  assert (forall r, r ∈ runs -> (0 < n)%nat) as Hpos by (unfold n; intros r; destruct runs; cbn; [by intros ?%not_elem_of_nil|lia]).
  split; [apply Forall_forall; intros r Hr'; by apply quiet_run_signals, Hq|]. split.
  { intros r Hin. destruct (quiet_run_copies n r) as (w' & R & _ & H1); eauto. }
  assert (forall j, j ∈ job_of <$> runs -> exists u e, j = mkJob (Ret u) [COFinished] None e) as Hjobs.
  { intros j (r & -> & Hin)%list_elem_of_fmap. destruct (qr_uuid n r (Hq r Hin)) as [u Hu].
    destruct (quiet_run_copies n r) as (w' & R & Ho & _); eauto.
    exists u, (sr_error_uuid r). unfold job_of. rewrite R, Hu. cbn. by rewrite Ho. }
  pose proof (backup_outcome (job_of <$> runs) [] rounds a t) as Hb.
  rewrite length_fmap in Hb. fold n in Hb. cbv zeta in Hb.
  destruct Hb as (t' & c' & R & Ho & reply & errors & H1 & H2 & _ & H4); try done.
  1, 2, 4: apply Forall_forall; intros j (u & e & ->)%Hjobs; first [by eexists|by repeat constructor].
  - by intros j e (u & e' & ->)%Hjobs.
  - rewrite Hr. replace (thread_calls <$> (job_of <$> runs)) with (replicate n [COFinished]).
    { apply (interleaves_singles 0). }
    apply replicate_as_Forall. rewrite !length_fmap. split; [done|]. apply Forall_fmap, Forall_forall.
    by intros j (u & e & ->)%Hjobs.
  - right. right. rewrite Hr. pose proof (finished_calls n 0) as Hf. rewrite Nat.add_0_r in Hf.
    unfold new_BackupCoordinator. rewrite u32_id by (unfold is_u32; lia). by rewrite Hf.
  - exists t', c'. split_and!; [done|done|]. exists reply. split; [done|]. rewrite H4; [done|].
    by intros j (u & e & ->)%Hjobs.
Qed.
End QuietTeam.

(** ** Two devices *)

Definition view_world (script : list (list co_op)) : World ref_map ref_set view BlockDeviceStatus :=
  mkWorld (core sample_world) (mkView (new_BackupCoordinator 2) script []) (counts sample_world)
    (source_device sample_world) (destination_device sample_world) (hist sample_world) (faults sample_world) 0.

Definition quiet_one (script : list (list co_op)) : sync_run :=
  mkRun true 10 clock_schedule 20 (view_world script) (Ret "aaaa") (Ret "aaaa").

Definition first_done : sync_run := quiet_one [[]; []; []; []; []; [COFinished]].
Definition second_done : sync_run := quiet_one [[]; []; [COFinished]].

Lemma sample_prepared script : prepared working_env 2 8192 (view_world script).
Proof. destruct (proj1 sample_ready). by split. Qed.

Lemma quiet_backup_succeeds_witness :
  exists t' c', DoBackup (job_of (E := working_env) <$> [first_done; second_done]) [[COFinished]; []; [COFinished]] 0
      (one_job, new_BackupCoordinator 2) = (Ret tt, (t', c')) /\
    exists reply, replies t' !! 0%nat = Some reply /\ status reply = Some SUCCEEDED.
Proof.
  destruct (quiet_backup_succeeds (env := working_env) [first_done; second_done] [[COFinished]; []; [COFinished]] 0 one_job)
    as (_ & _ & t' & c' & R & _ & H).
  - reflexivity.
  - repeat (apply Forall_cons; split); [split..|constructor]; try apply clock_undisturbed; try reflexivity; try (by eexists); (eexists _, 2, 8192; split; [reflexivity|];
      split; [reflexivity|]; split; [apply sample_prepared|reflexivity]).
  - reflexivity.
  - by eexists.
  - exists t', c'. split; [exact R|exact H].
Defined.

(** The second device's first read fails while the first is waiting. *)
Definition failing_schedule : nat -> point -> list env_action := fun _ p =>
  match p with PRead => [EReadReturns (-1)] | _ => [] end.

Definition read_error : BackupError := mkError "Error reading from source" "bbbb" "".

Definition first_waits : sync_run :=
  mkRun true 10 quiet_schedule 20 (view_world [[]; []; []; []; []; []; [COError read_error]]) (Ret "aaaa") (Ret "aaaa").
Definition second_fails : sync_run :=
  mkRun true 10 failing_schedule 20 (view_world [[]; [COFinished]]) (Ret "bbbb") (Ret "bbbb").

Example first_waits_run :
  ((run_of (E := working_env) first_waits).1, job_calls (job_of (E := working_env) first_waits)) = (Ret tt, [COFinished]).
Proof. vm_compute. reflexivity. Qed.

Example second_fails_run :
  (run_of (E := working_env) second_fails).1 = Throw (DeviceSynchronizerException "Error reading from source").
Proof. vm_compute. reflexivity. Qed.

Definition failing_rounds : list (list co_op) := [[COFinished]; []; [COError read_error]].

Lemma backup_of_synchronizers_witness :
  exists t' c', DoBackup (job_of (E := working_env) <$> [first_waits; second_fails]) failing_rounds 0
      (one_job, new_BackupCoordinator 2) = (Ret tt, (t', c')) /\
    exists reply errors, replies t' !! 0%nat = Some reply /\
      errors ≡ₚ concat (job_error <$> (job_of (E := working_env) <$> [first_waits; second_fails])) /\
      status reply = Some FAILED /\ failure_message reply = Some (errors_text errors).
Proof.
  destruct (backup_of_synchronizers (E := working_env) [first_waits; second_fails] [] failing_rounds 0 one_job)
    as (t' & c' & R & _ & reply & errors & H1 & H2 & H3 & _).
  - reflexivity.
  - apply Forall_cons; split; [split|apply Forall_cons; split; [split|constructor]].
    + intros k p o. apply not_elem_of_nil.
    + eexists. split; [reflexivity|]. intros o Ho. apply list_elem_of_singleton in Ho as ->. right. left.
    + left. vm_compute. reflexivity.
    + by eexists.
    + intros k p o Ho. destruct p; cbn in Ho; try by apply not_elem_of_nil in Ho.
      by apply list_elem_of_singleton in Ho.
    + eexists. split; [reflexivity|]. intros o Ho. apply list_elem_of_singleton in Ho as ->. left.
    + right. eexists. split; [apply second_fails_run|done].
    + by eexists.
  - constructor.
  - apply (il_step _ 0 COFinished []); [vm_compute; reflexivity|].
    apply (il_step _ 1 (COError read_error) []); [vm_compute; reflexivity|].
    apply il_done. vm_compute. repeat constructor.
  - by eexists.
  - intros _ Hret. exfalso. apply Forall_cons in Hret as [_ Hret]. apply Forall_cons in Hret as [Hret _].
    rewrite second_fails_run in Hret. discriminate.
  - exists t', c'. split; [exact R|]. exists reply, errors. split; [exact H1|]. split; [exact H2|].
    apply H3. exists second_fails. eexists. split; [right; left|apply second_fails_run].
Defined.

(** A write is traced while the first blocks are read, so the worker has
    more to do after it had signalled. *)
Lemma sync_follows_protocol_witness :
  let r := DoSync (env := working_env) true 10 busy_schedule 20 (view_world []) in
  exists calls s, v_own (coordinator r.2) = [] ++ calls /\ protocol Working calls = Some s /\
    (r.1 = Ret tt -> s = Done \/ cancelled_ (v_coord (coordinator r.2)) = true).
Proof.
  apply (sync_follows_protocol (E := working_env) true 10 busy_schedule).
  intros n p o Ho. unfold busy_schedule in Ho. destruct p; try by apply not_elem_of_nil in Ho.
  - repeat apply elem_of_cons in Ho as [Ho|Ho]; [done|by apply not_elem_of_nil in Ho].
  - repeat apply elem_of_cons in Ho as [Ho|Ho]; [done|by apply not_elem_of_nil in Ho].
  - destruct (n <? 12)%nat; repeat apply elem_of_cons in Ho as [Ho|Ho]; try done; by apply not_elem_of_nil in Ho.
Defined.
