(* ===== verification/BackupBuilder.v ===== *)
(** * Building a backup

    Models backup/backup_builder.{h,cc}: for every vector of a request the
    source device is found, the remote device is connected, tracing is
    started for a full backup (or required for an incremental one), and for
    a full backup the store of the device is filled with the sectors in
    use. *)

From S2P Require Import Prelude Machine Icl IclRef SectorStore TraceHandler Posix BlockDevice MountableDevice.
From S2P Require Import FreezeHelper ExtDevice Tracing SectorManager Nbd.

(** A vector of a StartBackupRequest. *)
Record Vector := mkVector {
  block_device_uuid : string;
  destination_host : string;
  destination_port : Z
}.

(** What a DeviceSynchronizer is constructed from: the address of the
    source's store comes from the manager. *)
Record synchronizer := mkSynchronizer {
  sy_source : ExtMountableBlockDevice;
  sy_destination : NbdBlockDevice
}.

Section Builder.
Context {env : Env} {TM TS B : Type} `{!IclMap TM, !IclSet TS}.
Abbreviation manager := (UnsyncedSectorManager TM TS).

(** The freeze helper GetInUseSectors makes, the superblock and the bitmaps
    of the filesystem at a path, and the memory uninitialised objects start
    in. *)
Context (Begin : IO (option Z) unit) (End_ : IO (option Z) bool).
Context (super_of : string -> ext_super) (bitmaps_of : string -> Ext2Bitmaps B).
Context (garbage : BlockDevice) (garbage1 garbage2 : list Z).

(** Running something that has its own object, and keeps none of it. *)
Definition with_object {S A} (s : S) (m : IO S A) : IO manager A := fun w =>
  let '(r, (_, h)) := m (s, w.2) in (r, (w.1, h)).

Definition remote_device (host : string) (port : Z) : IO manager NbdBlockDevice := fun w =>
  let '(r, h) := new_NbdBlockDevice host port garbage garbage1 garbage2 w.2 in (r, (w.1, h)).

(** A call on the store at an address. *)
Definition on_store_at {A} (a : nat) (m : M (UnsyncedSectorStore TM TS) A) : IO manager A := fun w =>
  match stores w.1 !! a with
  | None => (Undef "dangling store", w)
  | Some s =>
      let '(r, s') := m s in
      (r, (mkManager (store_map_ w.1) (tracer_map_ w.1) (<[a := s']> (stores w.1)) (next_store w.1), w.2))
  end.

(** [m], with [cleanup] run when it ends with an exception: the shared
    pointers go out of scope. *)
Definition unwind {S A} (cleanup : IO S unit) (m : IO S A) : IO S A :=
  try_catch m (fun e => cleanup ;; throw e).

Definition source_base (d : ExtMountableBlockDevice) : BlockDevice := mb_base (ext_base d).

(** Tracing must be running, or is started for a full backup. *)
Definition ensure_tracing (source : BlockDevice) (is_full : bool) : IO manager unit :=
  tracing ← IsTracing source;
  if tracing : bool then mret tt
  else if is_full then StartTracer source
  else throw (BackupException "No trace data exists for source").

(** The sectors in use become the unsynced ones. *)
Definition fill_store (source : BlockDevice) : IO manager unit :=
  store ← GetStore source;
  on_store_at store ClearIntervals ;;
  in_use_set ← with_object None (GetInUseSectors (TS := TS) (Ext2Bitmaps0 := bitmaps_of (path_ source)) Begin End_
    (super_of (path_ source)) (path_ source));
  for_each (is_intervals (in_use_set : TS)) (fun interval => on_store_at store (AddNonVolatileInterval interval)).

(** The checks of the DeviceSynchronizer's constructor. *)
Definition check_devices (source destination : BlockDevice) : IO manager unit :=
  if dev_t_ source =? dev_t_ destination
  then throw (DeviceSynchronizerException "Refusing to synchronize a device with itself")
  else if device_size_bytes_ destination <? device_size_bytes_ source
  then throw (DeviceSynchronizerException "Destination device is too small")
  else mret tt.

Definition CreateDeviceSynchronizer (vector : Vector) (is_full : bool) : IO manager synchronizer :=
  source_device ← with_object tt (CreateMountableBlockDeviceFromUuid (block_device_uuid vector) garbage);
  unwind (with_object (ext_base source_device) MountableBlockDevice_destroy) (
    remote ← remote_device (destination_host vector) (u16 (destination_port vector));
    unwind (with_object remote NbdBlockDevice_destroy) (
      ensure_tracing (source_base source_device) is_full ;;
      (if is_full then fill_store (source_base source_device) else mret tt) ;;
      check_devices (source_base source_device) (nb_base remote) ;;
      mret (mkSynchronizer source_device remote))).

(** A synchronizer whose last owner is gone: its destructor closes both
    devices, then the devices are destroyed, the destination first (members
    in reverse order). *)
Definition release_synchronizer (s : synchronizer) : IO manager unit :=
  source1 ← with_object (mb_base (ext_base (sy_source s))) (BlockDevice_Close ;; field id);
  dest1 ← with_object (nb_base (sy_destination s)) (BlockDevice_Close ;; field id);
  with_object (mkNbdDevice dest1 (nbd_client_ (sy_destination s))) NbdBlockDevice_destroy ;;
  with_object (set_mb_base source1 (ext_base (sy_source s))) MountableBlockDevice_destroy.

(** The loop of CreateBackup: [syncs_to_do] is destroyed, first element
    first, when the next synchronizer cannot be made. *)
Fixpoint create_synchronizers (vectors : list Vector) (is_full : bool) (syncs_to_do : list synchronizer)
    : IO manager (list synchronizer) :=
  match vectors with
  | [] => mret syncs_to_do
  | v :: rest =>
      s ← unwind (for_each syncs_to_do release_synchronizer) (CreateDeviceSynchronizer v is_full);
      create_synchronizers rest is_full (syncs_to_do ++ [s])
  end.

(** A Backup is its synchronizers and the coordinator it is given. *)
Definition CreateBackup (vectors : list Vector) (is_full : bool) : IO manager (list synchronizer) :=
  create_synchronizers vectors is_full [].

(** ** Properties *)

Context `{!IclMapLaws TM, !IclSetLaws TS}.

(** The store of a device. *)
Definition device_store (m : manager) (dev : Z) : option (UnsyncedSectorStore TM TS) :=
  store_of m dev ≫= fun a => stores m !! a.

Lemma on_store_at_run {A} a (m : M (UnsyncedSectorStore TM TS) A) s r s' (mg : manager) h :
  stores mg !! a = Some s -> m s = (r, s') ->
  on_store_at a m (mg, h) =
    (r, (mkManager (store_map_ mg) (tracer_map_ mg) (<[a := s']> (stores mg)) (next_store mg), h)).
Proof. intros Ha Hm. unfold on_store_at. cbn [fst snd]. by rewrite Ha, Hm. Qed.

(** The invariant of the manager does not look into the stores. *)
Lemma same_shape_inv (mg mg' : manager) :
  mgr_inv mg -> store_map_ mg' = store_map_ mg -> tracer_map_ mg' = tracer_map_ mg -> next_store mg' = next_store mg ->
  (forall a, volatile_seconds_ <$> stores mg' !! a = volatile_seconds_ <$> stores mg !! a) -> mgr_inv mg'.
Proof.
  intros [H1 H2 H3 H4 H5] E1 E2 E3 E4.
  assert (forall a, is_Some (stores mg' !! a) <-> is_Some (stores mg !! a)) as E.
  { intros a. rewrite <- !(fmap_is_Some volatile_seconds_). by rewrite E4. }
  split; rewrite ?E1, ?E2, ?E3; [by intros d a ?%H1%E|done|by intros a ?%E%H3|done|].
  intros a st Ha. specialize (E4 a). rewrite Ha in E4. destruct (stores mg !! a) as [st'|] eqn:Es; [|done].
  injection E4 as ->. eauto.
Qed.

Lemma add_intervals_run a l s (mg : manager) h :
  stores mg !! a = Some s ->
  exists s' mg', for_each l (fun i => on_store_at a (AddNonVolatileInterval i)) (mg, h) = (Ret tt, (mg', h)) /\
    stores mg' !! a = Some s' /\ store_map_ mg' = store_map_ mg /\ tracer_map_ mg' = tracer_map_ mg /\
    next_store mg' = next_store mg /\
    (forall b, b <> a -> stores mg' !! b = stores mg !! b) /\
    (forall x, is_Some (im_at (unsynced_sector_map_ s') x) <->
       is_Some (im_at (unsynced_sector_map_ s) x) \/ exists i, i ∈ l /\ x ∈ i) /\
    synced_sector_set_ s' = synced_sector_set_ s /\ volatile_seconds_ s' = volatile_seconds_ s.
Proof.
  revert s mg. induction l as [|i l IH]; intros s mg Ha; cbn [for_each].
  { exists s, mg. split_and!; auto. intros x. split; [by left|].
    intros [?|(i & Hi & _)]; [done|by apply not_elem_of_nil in Hi]. }
  set (s1 := set_map (im_add (unsynced_sector_map_ s) i 1) s).
  set (mg1 := mkManager (store_map_ mg) (tracer_map_ mg) (<[a := s1]> (stores mg)) (next_store mg)).
  destruct (IH s1 mg1) as (s' & mg' & R & A1 & A2 & A3 & A3' & A4 & A5 & A6 & A7); [cbn; apply lookup_insert_eq|].
  exists s', mg'. rewrite bind_unfold, (on_store_at_run a (AddNonVolatileInterval i) s (Ret tt) s1 mg h Ha eq_refl).
  split_and!; auto.
  - intros b Hb. rewrite A4 by done. cbn. by apply lookup_insert_ne.
  - intros x. rewrite A5. cbn. rewrite im_add_at by lia. cbn [Z.eqb Pos.eqb].
    destruct (in_iv x i) eqn:E.
    + apply in_iv_spec in E. split; [|by left; eexists]. intros _. right. exists i. split; [constructor|done].
    + apply in_iv_false in E. split.
      * intros [?|(j & Hj & Hx)]; [by left|]. right. exists j. split; [by constructor|done].
      * intros [?|(j & Hj & Hx)]; [by left|]. apply elem_of_cons in Hj as [->|Hj]; [done|].
        right. by exists j.
Qed.

(** Preparing a full backup.  When the sectors in use can be read, the
    store of the source device afterwards has exactly those sectors as
    unsynced, and nothing in its history, whatever it held before; the
    store keeps its address, so that a running tracer goes on marking in
    the same store, and no other store is touched. *)
Lemma fill_store_run source mg h h1 in_use v :
  mgr_inv mg ->
  GetInUseSectors (TS := TS) (Ext2Bitmaps0 := bitmaps_of (path_ source)) Begin End_
    (super_of (path_ source)) (path_ source) (None, h) = (Ret in_use, (v, h1)) ->
  exists mg' s', fill_store source (mg, h) = (Ret tt, (mg', h1)) /\ mgr_inv mg' /\
    device_store mg' (dev_t_ source) = Some s' /\
    (forall x, is_Some (im_at (unsynced_sector_map_ s') x) <-> is_mem in_use x = true) /\
    (forall x, is_mem (synced_sector_set_ s') x = false) /\
    (is_Some (store_of mg (dev_t_ source)) -> store_of mg' (dev_t_ source) = store_of mg (dev_t_ source)) /\
    (forall d s, d <> dev_t_ source -> device_store mg d = Some s -> device_store mg' d = Some s) /\
    tracer_map_ mg' = tracer_map_ mg.
Proof.
  intros Hi Hg. destruct (GetStore_run mg h source Hi) as (a & m1 & R1 & I1 & A1 & O1 & K1 & _ & T1).
  destruct (mi_alloc m1 I1 _ _ A1) as [s0 Hs0].
  set (s1 := set_synced is_empty (set_map im_empty s0)).
  set (m2 := mkManager (store_map_ m1) (tracer_map_ m1) (<[a := s1]> (stores m1)) (next_store m1)).
  destruct (add_intervals_run a (is_intervals in_use) s1 m2 h1) as (s' & mg' & R2 & B1 & B2 & B3 & B3' & B4 & B5 & B6 & B7);
    [cbn; apply lookup_insert_eq|].
  assert (forall d s, d <> dev_t_ source -> device_store m1 d = Some s -> device_store mg' d = Some s) as Hother.
  { intros d s Hd. unfold device_store, store_of. rewrite B2. cbn [store_map_ m2].
    destruct (store_map_ m1 !! d) as [[c|]|] eqn:Ec; [|done..]. cbn. intros Hc. rewrite B4.
    - unfold m2. cbn. rewrite lookup_insert_ne; [done|]. intros <-. apply Hd. by eapply mi_inj.
    - intros ->. apply Hd. by eapply mi_inj. }
  exists mg', s'. split.
  { unfold fill_store. rewrite bind_unfold, R1, bind_unfold, (on_store_at_run a ClearIntervals s0 (Ret tt) s1 m1 h Hs0 eq_refl).
    fold m2. rewrite bind_unfold. unfold with_object. cbn [fst snd]. rewrite Hg. exact R2. }
  split_and!.
  - eapply same_shape_inv; [exact I1|by rewrite B2|by rewrite B3|by rewrite B3'|].
    intros c. destruct (decide (c = a)) as [->|Hc].
    + rewrite B1, Hs0. cbn. by rewrite B7.
    + rewrite B4 by done. unfold m2. cbn. by rewrite lookup_insert_ne.
  - unfold device_store, store_of. rewrite B2. cbn. by rewrite A1.
  - intros x. rewrite B5, is_mem_spec. cbn. rewrite im_empty_at. split; [|by right].
    intros [[? ?]|?]; done.
  - intros x. rewrite B6. apply is_empty_mem.
  - intros [b Hb]. unfold store_of in *. rewrite B2. cbn. rewrite A1. cbn.
    destruct (store_map_ mg !! dev_t_ source) as [[c|]|] eqn:Ec; cbn in *; try done.
    rewrite (GetStore_known mg h source c Ec) in R1. by injection R1 as ->.
  - intros d s Hd Hs. apply Hother; [done|]. unfold device_store in *. rewrite O1 by done.
    destruct (store_of mg d) as [c|]; cbn in *; [|done]. rewrite K1; eauto.
  - rewrite B3. exact T1.
Qed.

(** *** Computations that leave the manager alone *)

Create HintDb keeps.

Definition keeps {A} (m : IO manager A) : Prop := forall w, (m w).2.1 = w.1.

Lemma keeps_then {A C} (m : IO manager A) (k : A -> IO manager C) :
  keeps m -> (forall a, keeps (k a)) -> keeps (m ≫= k).
Proof.
  intros Hm Hk w. rewrite bind_unfold. specialize (Hm w). destruct (m w) as [[a|e|x|x|] w']; cbn in *; try done.
  by rewrite Hk.
Qed.

Lemma keeps_unwind {A} (c : IO manager unit) (m : IO manager A) : keeps c -> keeps m -> keeps (unwind c m).
Proof.
  intros Hc Hm w. unfold unwind, try_catch. specialize (Hm w). destruct (m w) as [[a|e|x|x|] w']; cbn in *; try done.
  rewrite bind_unfold. specialize (Hc w'). destruct (c w') as [[?|?|?|?|] w'']; cbn in *; congruence.
Qed.

Lemma keeps_with_object {S A} (s : S) (m : IO S A) : keeps (with_object s m).
Proof. intros w. unfold with_object. by destruct (m (s, w.2)) as [r [? h]]. Qed.

Lemma keeps_remote_device host port : keeps (remote_device host port).
Proof. intros w. unfold remote_device. by destruct (new_NbdBlockDevice _ _ _ _ _ _) as [r h]. Qed.

Lemma keeps_ensure_tracing d : keeps (ensure_tracing d false).
Proof.
  intros [mg h]. unfold ensure_tracing, IsTracing. io.
  destruct (tracer_map_ mg !! dev_t_ d) as [[t|]|]; done.
Qed.

Lemma keeps_check_devices a b : keeps (check_devices a b).
Proof. intros w. unfold check_devices. by repeat case_bool. Qed.

Lemma keeps_mret {A} (x : A) : keeps (mret x).
Proof. done. Qed.

Lemma keeps_for_each {A} (l : list A) f : (forall x, keeps (f x)) -> keeps (for_each l f).
Proof. intros Hf. induction l; cbn; [done|]. by apply keeps_then. Qed.

Lemma keeps_release s : keeps (release_synchronizer s).
Proof. unfold release_synchronizer. repeat (apply keeps_then || intros ? || apply keeps_with_object). Qed.

Hint Resolve keeps_then keeps_unwind keeps_with_object keeps_remote_device keeps_ensure_tracing
  keeps_check_devices keeps_mret keeps_for_each keeps_release : keeps.

Lemma keeps_CreateDeviceSynchronizer v : keeps (CreateDeviceSynchronizer v false).
Proof. unfold CreateDeviceSynchronizer. eauto 20 with keeps. Qed.

(** The tracer of a device, as IsTracing answers. *)
Definition traced (mg : manager) (dev : Z) : bool :=
  match tracer_map_ mg !! dev with Some (Some _) => true | _ => false end.

(** What holds of a synchronizer that was made. *)
Definition fit (mg : manager) (s : synchronizer) : Prop :=
  traced mg (dev_t_ (source_base (sy_source s))) = true /\
  dev_t_ (source_base (sy_source s)) <> dev_t_ (nb_base (sy_destination s)) /\
  device_size_bytes_ (source_base (sy_source s)) <= device_size_bytes_ (nb_base (sy_destination s)).

Lemma unwind_Ret {A} (c : IO manager unit) (m : IO manager A) w a w' :
  unwind c m w = (Ret a, w') -> m w = (Ret a, w').
Proof.
  unfold unwind, try_catch. destruct (m w) as [[?|e|?|?|] w1]; try done.
  rewrite bind_unfold. by destruct (c w1) as [[?|?|?|?|] ?].
Qed.

(** The devices a synchronizer is made of are closed. *)
Lemma source_closed uuid (w : manager * history) d w' :
  with_object tt (CreateMountableBlockDeviceFromUuid uuid garbage) w = (Ret d, w') -> fd_ (source_base d) = -1.
Proof.
  unfold with_object, CreateMountableBlockDeviceFromUuid, GetPathFromUuid. io.
  destruct (env _ (option string * Z)%type (SRealpath _)) as [[p|] er]; io; [|done].
  unfold CreateMountableBlockDeviceFromPath, GetFilesystemFromPath. io.
  destruct (env _ _ (SBlkidTag "TYPE" p)) as [fs|]; io; [|done].
  assert (forall e h, (let '(r, (_, k)) := make_ext p e garbage (tt, h) in (r, (w.1, k))) = (Ret d, w') ->
    fd_ (source_base d) = -1) as Hm.
  { intros e h. unfold make_ext, new_MountableBlockDevice, new_BlockDevice. cbn [snd].
    match goal with |- context [BlockDevice_Init (?b, h)] => pose proof (proj1 (Init_closed b h)) as H; revert H;
      destruct (BlockDevice_Init (b, h)) as [[] [b' k]] end; intros H; try done. by intros [= <- _]. }
  repeat case_bool; [apply Hm..|by io].
Qed.

Lemma destination_closed host port (w : manager * history) d w' :
  remote_device host port w = (Ret d, w') -> fd_ (nb_base d) = -1.
Proof.
  unfold remote_device, new_NbdBlockDevice. destruct (new_NbdClient _ _ _) as [[[]|?|?|?|] [c h1]]; try done.
  match goal with |- context [BlockDevice_Init (?b, h1)] => pose proof (proj1 (Init_closed b h1)) as H; revert H;
    destruct (BlockDevice_Init (b, h1)) as [[] [b' h2]] end; intros H; try done.
  by intros [= <- _].
Qed.

(** A synchronizer as it was made. *)
Record usable (mg : manager) (s : synchronizer) : Prop := {
  us_fit : fit mg s;
  us_source : fd_ (source_base (sy_source s)) = -1;
  us_destination : fd_ (nb_base (sy_destination s)) = -1
}.

Lemma incremental_synchronizer_usable v w s w' :
  CreateDeviceSynchronizer v false w = (Ret s, w') -> usable w.1 s.
Proof.
  unfold CreateDeviceSynchronizer. intros (src & w1 & R1 & R)%bind_Ret_inv.
  apply unwind_Ret, bind_Ret_inv in R as (dst & w2 & R2 & R).
  apply unwind_Ret, bind_Ret_inv in R as (? & w3 & R3 & R).
  apply bind_Ret_inv in R as (? & w4 & [= <- <-] & R). apply bind_Ret_inv in R as (? & w5 & R5 & [= <- <-]).
  pose proof (keeps_with_object tt (CreateMountableBlockDeviceFromUuid (block_device_uuid v) garbage) w) as K1.
  pose proof (keeps_remote_device (destination_host v) (u16 (destination_port v)) w1) as K2.
  rewrite R1 in K1. rewrite R2 in K2. cbn in K1, K2.
  split; [split|exact (source_closed _ _ _ _ R1)|exact (destination_closed _ _ _ _ _ R2)]; cbn.
  - rewrite <- K1, <- K2. revert R3. destruct w2 as [mg h]. unfold ensure_tracing, IsTracing, traced. io.
    by destruct (tracer_map_ mg !! _) as [[?|]|].
  - revert R5. unfold check_devices. case_bool; [done|]. case_bool; [done|]. intros _.
    rewrite Z.eqb_neq in *. rewrite Z.ltb_ge in *. done.
Qed.

Lemma create_synchronizers_incremental vs done w :
  (create_synchronizers vs false done w).2.1 = w.1 /\
  forall syncs, (create_synchronizers vs false done w).1 = Ret syncs -> Forall (usable w.1) done ->
    Forall (usable w.1) syncs /\ length syncs = (length done + length vs)%nat.
Proof.
  revert done w. induction vs as [|v vs IH]; intros l w; cbn [create_synchronizers].
  { split; [done|]. intros syncs [= ->] Hl. split; [done|cbn; lia]. }
  rewrite bind_unfold.
  pose proof (keeps_unwind (for_each l release_synchronizer) _ ltac:(eauto with keeps)
    (keeps_CreateDeviceSynchronizer v) w) as K.
  destruct (unwind _ _ w) as [[s|?|?|?|] w'] eqn:R; cbn in K |- *; try by split.
  apply unwind_Ret, incremental_synchronizer_usable in R. destruct (IH (l ++ [s]) w') as [I1 I2].
  rewrite K in I1, I2. split; [done|]. intros syncs Hs Hl. destruct (I2 syncs Hs) as [F L].
  - apply Forall_app. split; [done|]. by constructor; [|constructor].
  - split; [done|]. rewrite L, length_app. cbn. lia.
Qed.

(** *** Full backups *)

Lemma ensure_tracing_Ret mg h source mg' h' :
  mgr_inv mg -> ensure_tracing source true (mg, h) = (Ret tt, (mg', h')) ->
  mgr_inv mg' /\ traced mg' (dev_t_ source) = true /\
  (forall d s, d <> dev_t_ source -> device_store mg d = Some s -> device_store mg' d = Some s) /\
  (forall d, traced mg d = true -> traced mg' d = true).
Proof.
  intros Hi. unfold ensure_tracing, IsTracing, traced. io.
  destruct (tracer_map_ mg !! dev_t_ source) as [[t|]|] eqn:Et; io.
  { intros [= <- <-]. rewrite Et. by split_and!. }
  all: intros R; destruct (StartTracer_Ret mg h source mg' h' Hi R) as (I & [t T] & O & K & T'); rewrite T;
    (split_and!; [done|done| |]).
  1, 3: intros d s Hd; unfold device_store; rewrite O by done; destruct (store_of mg d) as [a|]; cbn; [|done];
    intros Ha; rewrite K; eauto.
  all: intros d; destruct (tracer_map_ mg !! d) as [[t'|]|] eqn:Ed; try done; by rewrite (T' d t' Ed).
Qed.

Abbreviation source_path s := (path_ (source_base (sy_source s))).
Abbreviation source_dev s := (dev_t_ (source_base (sy_source s))).

(** A synchronizer that is ready for a full backup: it is usable, and its
    source's store has exactly the sectors in use. *)
Record filled (mg : manager) (s : synchronizer) : Prop := {
  fl_usable : usable mg s;
  fl_store : exists st, device_store mg (source_dev s) = Some st /\ volatile_seconds_ st = VOLATILE_SECONDS /\
    forall x, is_Some (im_at (unsynced_sector_map_ st) x) <->
      sector_in_use (Ext2Bitmaps0 := bitmaps_of (source_path s)) (super_of (source_path s)) x
}.

(** What making another synchronizer does to the ones there are. *)
Definition preserves (dev : Z) (mg mg' : manager) : Prop :=
  (forall d s, d <> dev -> device_store mg d = Some s -> device_store mg' d = Some s) /\
  (forall d, traced mg d = true -> traced mg' d = true).

Lemma filled_preserved dev mg mg' s : preserves dev mg mg' -> source_dev s <> dev -> filled mg s -> filled mg' s.
Proof.
  intros [H1 H2] Hd [[(F1 & F2) F3 F4] (st & F5 & F6)]. split.
  - split; [split; [by apply H2|done]|done|done].
  - exists st. split; [by apply H1|done].
Qed.

Context (bitmaps_ok : forall p, Ext2BitmapsLaws B (Ext2Bitmaps0 := bitmaps_of p)).

Lemma full_synchronizer_Ret v mg h s mg' h' :
  mgr_inv mg -> CreateDeviceSynchronizer v true (mg, h) = (Ret s, (mg', h')) -> super_ok (super_of (source_path s)) ->
  mgr_inv mg' /\ filled mg' s /\ preserves (source_dev s) mg mg'.
Proof.
  unfold CreateDeviceSynchronizer. intros Hi (src & [m1 h1] & R1 & R)%bind_Ret_inv.
  apply unwind_Ret, bind_Ret_inv in R as (dst & [m2 h2] & R2 & R).
  apply unwind_Ret, bind_Ret_inv in R as ([] & [m3 h3] & R3 & R).
  apply bind_Ret_inv in R as ([] & [m4 h4] & R4 & R). apply bind_Ret_inv in R as ([] & [m5 h5] & R5 & R).
  injection R as <- <- <-. cbn [sy_source sy_destination]. intros Hs.
  pose proof (keeps_with_object tt (CreateMountableBlockDeviceFromUuid (block_device_uuid v) garbage) (mg, h)) as K1.
  pose proof (keeps_remote_device (destination_host v) (u16 (destination_port v)) (m1, h1)) as K2.
  pose proof (keeps_check_devices (source_base src) (nb_base dst) (m4, h4)) as K5.
  pose proof (source_closed _ _ _ _ R1) as C1. pose proof (destination_closed _ _ _ _ _ R2) as C2.
  rewrite R1 in K1. rewrite R2 in K2. rewrite R5 in K5. cbn in K1, K2, K5. subst m1 m2 m5.
  destruct (ensure_tracing_Ret mg h2 (source_base src) m3 h3 Hi R3) as (I3 & T3 & S3 & P3).
  destruct (GetInUseSectors (TS := TS) (Ext2Bitmaps0 := bitmaps_of (path_ (source_base src))) Begin End_
    (super_of (path_ (source_base src))) (path_ (source_base src)) (None, h3)) as [o [x k]] eqn:Rg.
  assert (exists in_use, o = Ret in_use) as [in_use ->].
  { revert R4. unfold fill_store. destruct (GetStore_run m3 h3 (source_base src) I3) as (a & m & Ra & Ia & Aa & _).
    rewrite bind_unfold, Ra, bind_unfold. destruct (mi_alloc m Ia _ _ Aa) as [s0 Hs0].
    rewrite (on_store_at_run a ClearIntervals s0 (Ret tt) _ m h3 Hs0 eq_refl). cbv iota.
    rewrite bind_unfold. unfold with_object. cbn [fst snd]. rewrite Rg. destruct o; try done. eauto. }
  destruct (fill_store_run (source_base src) m3 h3 k in_use x I3 Rg) as (mg4 & st & R4' & I4 & D4 & M4 & _ & _ & O4 & T4).
  rewrite R4' in R4. injection R4 as -> ->.
  assert (forall d, traced m4 d = traced m3 d) as Ht by (intros d; unfold traced; by rewrite T4).
  split_and!; [done| |split].
  - split; cbn; [split; [split; [by rewrite Ht|]|done|done]|].
    + revert R5. unfold check_devices. case_bool; [done|]. case_bool; [done|]. intros _.
      rewrite Z.eqb_neq in *. rewrite Z.ltb_ge in *. done.
    + exists st. split; [done|]. split.
      * unfold device_store in D4. destruct (store_of m4 _) as [c|]; [|done]. by apply (mi_volatile m4 I4 c).
      * intros y. rewrite M4. by apply (GetInUseSectors_mem Begin End_ _ _ _ _ _ y Hs Rg).
  - intros d s' Hd Hs'. by apply O4, S3.
  - intros d Hd. rewrite Ht. by apply P3.
Qed.

Lemma create_synchronizers_full vs syncs w l w' :
  create_synchronizers vs true syncs w = (Ret l, w') ->
  exists new, l = syncs ++ new /\ length new = length vs /\
    (mgr_inv w.1 -> NoDup ((fun s => source_dev s) <$> l) -> Forall (fun s => super_ok (super_of (source_path s))) l ->
     Forall (filled w.1) syncs -> mgr_inv w'.1 /\ Forall (filled w'.1) l).
Proof.
  revert syncs w. induction vs as [|v vs IH]; intros syncs w; cbn [create_synchronizers].
  { intros [= <- <-]. exists []. rewrite app_nil_r. by split_and!. }
  intros (s & w1 & R1%unwind_Ret & R)%bind_Ret_inv. destruct (IH _ _ R) as (new & -> & L & H).
  exists (s :: new). rewrite <- app_assoc. split; [done|]. split; [cbn; by rewrite L|].
  rewrite <- app_assoc in H. intros Hi Hnd Hok Hf. destruct w as [mg h], w1 as [mg1 h1].
  destruct (full_synchronizer_Ret v mg h s mg1 h1 Hi R1) as (I1 & F1 & P1).
  { apply Forall_app in Hok as [_ Hok]. by apply Forall_cons in Hok as [? _]. }
  apply H; [done..|]. apply Forall_app. split; [|by constructor]. rewrite Forall_forall in Hf |- *.
  intros s' Hs'. eapply filled_preserved; [done| |by apply Hf]. intros E.
  rewrite fmap_app in Hnd. apply NoDup_app in Hnd as (_ & Hnd & _).
  apply (Hnd (source_dev s')); [apply list_elem_of_fmap; by exists s'|]. rewrite E. left.
Qed.
End Builder.
