(* ===== verification/BackupManager.v ===== *)
(** * The backup manager

    Models backup/backup_manager.{h,cc}: which backups are in progress, for
    which devices and with which coordinator; starting, stopping and
    cancelling them.  The builder is an interface: whatever makes a backup
    from the vectors of a request, over a state of its own.  The thread a
    backup runs in is two operations: its start at the end of [StartBackup],
    which says what the thread is given, and its end. *)

From S2P Require Import Prelude Machine Icl IclRef SectorStore TraceHandler Posix BlockDevice MountableDevice.
From S2P Require Import ExtDevice Tracing SectorManager Nbd StatusTracker Coordinator BackupBuilder.

(** The message StartBackupRequest. *)
Inductive backup_type := FULL_BACKUP | OTHER_BACKUP (value : Z).

Record StartBackupRequest := mkRequest { type_ : backup_type; vectors : list Vector }.

Definition is_full (r : StartBackupRequest) : bool :=
  match type_ r with FULL_BACKUP => true | OTHER_BACKUP _ => false end.

(** The UUIDs of the devices a request is about. *)
Definition request_uuids (r : StartBackupRequest) : list string := block_device_uuid <$> vectors r.

(** What the manager needs of a builder: a state [W] and one operation. *)
Class Builder (W Bk : Type) := CreateBackup_op : list Vector -> bool -> M W Bk.

(** ** make_uuid

    [unparsed] is the text of the UUID that libuuid generated.  uuid_unparse
    writes it, and a NUL, into the caller's array of [size] bytes; writing
    past the end of an array is undefined. *)
Definition uuid_unparse {S} (size : nat) (unparsed : string) : M S string :=
  if (String.length unparsed + 1 <=? size)%nat then mret unparsed else undef "write past the end of an array".

Definition make_uuid {S} (unparsed : string) : M S string := uuid_unparse 36 unparsed.

(** The text of a UUID has 36 characters: the NUL is one too many.  An
    array of 37 bytes would do. *)
Lemma make_uuid_overflows {S} unparsed (s : S) :
  String.length unparsed = 36%nat ->
  make_uuid unparsed s = (Undef "write past the end of an array", s) /\
  uuid_unparse 37 unparsed s = (Ret unparsed, s).
Proof. intros E. unfold make_uuid, uuid_unparse. by rewrite E. Qed.

Section Manager.
Context {W Bk : Type} `{!Builder W Bk}.

Record BackupManager := mkBM {
  in_progress_map_ : gmap string (gset string * nat);   (* device UUIDs, address of coordinator *)
  coordinators : gmap nat BackupCoordinator;
  next_coordinator : nat;
  tracker : Tracker;
  builder : W;
  destructor_called_ : bool
}.

Definition new_BackupManager (w : W) : BackupManager := mkBM ∅ ∅ 0 new_BackupStatusTracker w false.

Definition set_in_progress (m : gmap string (gset string * nat)) (b : BackupManager) : BackupManager :=
  mkBM m (coordinators b) (next_coordinator b) (tracker b) (builder b) (destructor_called_ b).

Definition set_coordinators (m : gmap nat BackupCoordinator) (b : BackupManager) : BackupManager :=
  mkBM (in_progress_map_ b) m (next_coordinator b) (tracker b) (builder b) (destructor_called_ b).

Definition set_tracker (t : Tracker) (b : BackupManager) : BackupManager :=
  mkBM (in_progress_map_ b) (coordinators b) (next_coordinator b) t (builder b) (destructor_called_ b).

Definition set_builder (w : W) (b : BackupManager) : BackupManager :=
  mkBM (in_progress_map_ b) (coordinators b) (next_coordinator b) (tracker b) w (destructor_called_ b).

Definition on_status {A} (m : M Tracker A) : M BackupManager A := zoom tracker set_tracker m.

Definition on_builder {A} (m : M W A) : M BackupManager A := zoom builder set_builder m.

Definition make_coordinator (num_workers : Z) : M BackupManager nat :=
  b ← get;
  put (mkBM (in_progress_map_ b) (<[next_coordinator b := new_BackupCoordinator num_workers]> (coordinators b))
         (S (next_coordinator b)) (tracker b) (builder b) (destructor_called_ b)) ;;
  mret (next_coordinator b).

(** No device of the request may be in progress already. *)
Definition overlaps (to_backup : gset string) (m : gmap string (gset string * nat)) : bool :=
  existsb (fun p : string * (gset string * nat) => bool_decide (p.2.1 ∩ to_backup <> ∅)) (map_to_list m).

Definition AddToInProgressSet (backup_uuid : string) (request : StartBackupRequest) (coordinator : nat)
    : M BackupManager unit :=
  let to_backup_uuids : gset string := list_to_set (request_uuids request) in
  m ← gets in_progress_map_;
  if overlaps to_backup_uuids m then throw (BackupException "Device is already being backed up")
  else modify (set_in_progress (<[backup_uuid := (to_backup_uuids, coordinator)]> m)).

(** in_progress_map_.erase, in the catch block and at the end of the thread. *)
Definition erase_job (backup_uuid : string) : M BackupManager unit :=
  modify (fun b => set_in_progress (delete backup_uuid (in_progress_map_ b)) b).

(** What the thread of a backup is given. *)
Record backup_thread := mkThread {
  bt_uuid : string;
  bt_backup : Bk;
  bt_event_handler : option nat;
  bt_coordinator : nat
}.

(** The result is the job UUID and the thread that was started.
    [backup_uuid] is the text that make_uuid is to return: what follows is
    the behaviour when the byte its uuid_unparse writes past the end of the
    array does no harm. *)
Definition StartBackup (start_request : StartBackupRequest) (backup_uuid : string)
    : M BackupManager (string * backup_thread) :=
  torn_down ← gets destructor_called_;
  if torn_down : bool then throw (BackupException "Unable to start backup, program is tearing down") else
  let num_vectors := Z.of_nat (length (vectors start_request)) in
  if num_vectors =? 0 then throw (BackupException "No devices given to backup") else
  coordinator ← make_coordinator num_vectors;
  event_handler ← on_status (CreateEventHandler backup_uuid);
  AddToInProgressSet backup_uuid start_request coordinator ;;
  backup ← try_catch (on_builder (CreateBackup_op (vectors start_request) (is_full start_request)))
             (fun e => erase_job backup_uuid ;; throw e);
  mret (backup_uuid, mkThread backup_uuid backup event_handler coordinator).

(** The end of the backup thread: [t] is the tracker DoBackup left, [c] the
    coordinator, [w] the state of the builder's parts. *)
Definition backup_thread_ends (th : backup_thread) (t : Tracker) (c : BackupCoordinator) (w : W)
    : M BackupManager unit :=
  modify (set_tracker t) ;;
  modify (fun b => set_coordinators (alter (fun _ => c) (bt_coordinator th) (coordinators b)) b) ;;
  modify (set_builder w) ;;
  erase_job (bt_uuid th).

Definition cancel_at (a : nat) (b : BackupManager) : BackupManager :=
  set_coordinators (alter (final BackupCoordinator_Cancel) a (coordinators b)) b.

Definition StopBackup (job_uuid : string) : M BackupManager unit :=
  m ← gets in_progress_map_;
  match m !! job_uuid with
  | None => throw (BackupException "Job not running")
  | Some (_, a) => modify (cancel_at a)
  end.

Definition CancelAll : M BackupManager unit :=
  m ← gets in_progress_map_;
  for_each (map_to_list m) (fun p => modify (cancel_at p.2.2)).

(** The destructor up to its waiting loop, and the loop's condition. *)
Definition BackupManager_destroy : M BackupManager unit :=
  modify (fun b => mkBM (in_progress_map_ b) (coordinators b) (next_coordinator b) (tracker b)
                     (builder b) true) ;;
  CancelAll.

Definition destroy_waits (b : BackupManager) : bool := negb (bool_decide (in_progress_map_ b = ∅)).

(** A client's operations, in any order and with any outcome of the parts
    outside; a caller catches what it throws. *)
Inductive bm_op :=
| BStart (request : StartBackupRequest) (uuid : string)
| BStop (job : string)
| BCancelAll
| BDestroy
| BEnds (th : backup_thread) (t : Tracker) (c : BackupCoordinator) (w : W).

Definition run_bm_op (o : bm_op) : M BackupManager unit :=
  match o with
  | BStart r u => try_catch (StartBackup r u ;; mret tt) (fun _ => mret tt)
  | BStop j => try_catch (StopBackup j) (fun _ => mret tt)
  | BCancelAll => CancelAll
  | BDestroy => BackupManager_destroy
  | BEnds th t c w => backup_thread_ends th t c w
  end.

(** ** Invariant *)

Record bm_inv (b : BackupManager) : Prop := {
  bi_disjoint : forall j k S T a c, in_progress_map_ b !! j = Some (S, a) ->
    in_progress_map_ b !! k = Some (T, c) -> j <> k -> S ## T;
  bi_alloc : forall j S a, in_progress_map_ b !! j = Some (S, a) -> is_Some (coordinators b !! a);
  bi_inj : forall j k S T a, in_progress_map_ b !! j = Some (S, a) ->
    in_progress_map_ b !! k = Some (T, a) -> j = k;
  bi_next : forall a, is_Some (coordinators b !! a) -> (a < next_coordinator b)%nat
}.

Lemma new_manager_bm_inv w : bm_inv (new_BackupManager w).
Proof.
  split; cbn; intros *; rewrite ?lookup_empty; done.
Qed.

Lemma overlaps_false to_backup m j S a :
  overlaps to_backup m = false -> m !! j = Some (S, a) -> S ## to_backup.
Proof.
  intros Ho Hj. unfold overlaps in Ho. apply disjoint_intersection_L.
  destruct (decide (S ∩ to_backup = ∅)) as [?|Hne]; [done|]. exfalso.
  assert (existsb (fun p : string * (gset string * nat) => bool_decide (p.2.1 ∩ to_backup <> ∅))
    (map_to_list m) = true) as He; [|congruence].
  apply List.existsb_exists. exists (j, (S, a)). split.
  - apply list_elem_of_In, elem_of_map_to_list. done.
  - by apply bool_decide_eq_true.
Qed.

Lemma overlaps_true to_backup m :
  overlaps to_backup m = true -> exists j S a, m !! j = Some (S, a) /\ S ∩ to_backup <> ∅.
Proof.
  unfold overlaps. intros ([j [S a]] & Hin & Hb)%List.existsb_exists.
  apply list_elem_of_In, elem_of_map_to_list in Hin. apply bool_decide_eq_true in Hb. by exists j, S, a.
Qed.

Lemma delete_inv b u : bm_inv b -> bm_inv (set_in_progress (delete u (in_progress_map_ b)) b).
Proof.
  intros []. split; cbn; intros *; rewrite ?lookup_delete_Some; intros; destruct_and?; eauto.
Qed.

Lemma set_tracker_inv t b : bm_inv b -> bm_inv (set_tracker t b).
Proof. by intros []; split. Qed.

Lemma set_builder_inv w b : bm_inv b -> bm_inv (set_builder w b).
Proof. by intros []; split. Qed.

Lemma alter_inv f a b : bm_inv b -> bm_inv (set_coordinators (alter f a (coordinators b)) b).
Proof. intros []. split; cbn; intros *; rewrite ?lookup_alter_is_Some; eauto. Qed.

Lemma cancel_inv a b : bm_inv b -> bm_inv (cancel_at a b).
Proof. apply alter_inv. Qed.

Lemma CancelAll_inv b : bm_inv b -> bm_inv (CancelAll b).2.
Proof.
  intros Hb. unfold CancelAll. run. apply (for_each_state_rule _ _ bm_inv); [done|].
  intros p b' _ Hb'. by apply cancel_inv.
Qed.

(** A new entry with a coordinator of its own. *)
Lemma insert_inv b u (D : gset string) a :
  bm_inv b -> is_Some (coordinators b !! a) ->
  (forall j S c, in_progress_map_ b !! j = Some (S, c) -> c <> a) ->
  (forall j S c, in_progress_map_ b !! j = Some (S, c) -> j <> u -> S ## D) ->
  bm_inv (set_in_progress (<[u := (D, a)]> (in_progress_map_ b)) b).
Proof.
  intros [] Ha Hna Hd. split; cbn; [..|done].
  - intros j k S T c d. rewrite !lookup_insert_Some.
    intros [[<- [= <- <-]]|[Hj1 Hj2]] [[<- [= <- <-]]|[Hk1 Hk2]] Hjk; try done; eauto.
    symmetry. eauto.
  - intros j S c. rewrite lookup_insert_Some. intros [[<- [= <- <-]]|[? ?]]; eauto.
  - intros j k S T c. rewrite !lookup_insert_Some.
    intros [[<- [= <- <-]]|[Hj1 Hj2]] [[<- Hc]|[Hk1 Hk2]]; try done; eauto.
    + by destruct (Hna _ _ _ Hk2).
    + injection Hc as _ <-. by destruct (Hna _ _ _ Hj2).
Qed.

(** *** StartBackup step by step *)

(** After the coordinator and the event handler have been made. *)
Lemma prepare_run b n u :
  bm_inv b ->
  exists h b1, (coordinator ← make_coordinator n; event_handler ← on_status (CreateEventHandler u);
                mret (coordinator, event_handler)) b = (Ret (next_coordinator b, h), b1) /\
    bm_inv b1 /\ in_progress_map_ b1 = in_progress_map_ b /\
    coordinators b1 = <[next_coordinator b := new_BackupCoordinator n]> (coordinators b) /\
    destructor_called_ b1 = destructor_called_ b /\ builder b1 = builder b /\
    CreateEventHandler u (tracker b) = (Ret h, tracker b1).
Proof.
  intros Hb. unfold make_coordinator. run. unfold on_status, zoom. cbn [tracker].
  assert (exists h t', CreateEventHandler u (tracker b) = (Ret h, t')) as (h & t' & Rh).
  { unfold CreateEventHandler. run. destruct (reply_map_ (tracker b) !! u); by eexists _, _. }
  rewrite Rh. run. eexists h, _. split; [done|]. split; [|done]. destruct Hb as [H1 H2 H3 H4]. split; cbn; eauto.
  - intros j S a Hj. destruct (decide (a = next_coordinator b)) as [->|];
      [rewrite lookup_insert_eq; eauto|rewrite lookup_insert_ne by done; eauto].
  - intros a. destruct (decide (a = next_coordinator b)) as [->|]; [lia|].
    rewrite lookup_insert_ne by done. intros Ha%H4. lia.
Qed.

(** A request that gets past the first checks: refused, or entered and then
    whatever the builder does. *)
Lemma StartBackup_run b r u :
  bm_inv b -> destructor_called_ b = false -> vectors r <> [] ->
  exists h b1, bm_inv b1 /\ in_progress_map_ b1 = in_progress_map_ b /\
    coordinators b1 = <[next_coordinator b := new_BackupCoordinator (Z.of_nat (length (vectors r)))]> (coordinators b) /\
    destructor_called_ b1 = false /\ builder b1 = builder b /\
    CreateEventHandler u (tracker b) = (Ret h, tracker b1) /\
    StartBackup r u b =
      if overlaps (list_to_set (request_uuids r)) (in_progress_map_ b)
      then (Throw (BackupException "Device is already being backed up"), b1)
      else let b2 := set_in_progress (<[u := (list_to_set (request_uuids r), next_coordinator b)]> (in_progress_map_ b1)) b1 in
        let '(c, w) := CreateBackup_op (vectors r) (is_full r) (builder b) in
        let b3 := set_builder w b2 in
        match c with
        | Ret k => (Ret (u, mkThread u k h (next_coordinator b)), b3)
        | Throw e => (Throw e, set_in_progress (delete u (in_progress_map_ b3)) b3)
        | Abort x => (Abort x, b3)
        | Undef x => (Undef x, b3)
        | OutOfFuel => (OutOfFuel, b3)
        end.
Proof.
  intros Hb Hd Hr. destruct (prepare_run b (Z.of_nat (length (vectors r))) u Hb) as (h & b1 & R & H1 & H2 & H3 & H4 & H5 & H6).
  exists h, b1. split_and!; [done..|congruence|done|done|]. revert R. unfold StartBackup. run. rewrite Hd.
  destruct (Z.eqb_spec (Z.of_nat (length (vectors r))) 0) as [E|_]; [by destruct (vectors r)|]. run.
  unfold make_coordinator. run. destruct (on_status _ _) as [[h'|?|?|?|] b1'] eqn:E; run; intros R; try done.
  injection R as -> ->. unfold AddToInProgressSet. run. rewrite H2.
  destruct (overlaps (list_to_set (request_uuids r)) (in_progress_map_ b)); [done|]. run.
  unfold try_catch, on_builder, zoom. cbn [builder set_in_progress]. rewrite H5.
  by destruct (CreateBackup_op (vectors r) (is_full r) (builder b)) as [[] w].
Qed.

Lemma StartBackup_inv b r u : bm_inv b -> bm_inv (StartBackup r u b).2.
Proof.
  intros Hb. destruct (destructor_called_ b) eqn:Ed; [unfold StartBackup; run; by rewrite Ed|].
  destruct (decide (vectors r = [])) as [En|En]; [unfold StartBackup; run; by rewrite Ed, En|].
  destruct (StartBackup_run b r u Hb Ed En) as (h & b1 & H1 & H2 & H3 & H4 & H5 & _ & ->).
  destruct (overlaps (list_to_set (request_uuids r)) (in_progress_map_ b)) eqn:Eo; [done|]. cbn zeta.
  match goal with |- context [set_in_progress (<[u := ?p]> ?m) b1] => set (b2 := set_in_progress (<[u := p]> m) b1) end.
  assert (bm_inv b2) as Hb2.
  { apply insert_inv; [done|rewrite H3, lookup_insert_eq; eauto|..]; rewrite H2.
    - intros j S a Hj%(bi_alloc b Hb)%(bi_next b Hb). lia.
    - intros j S a Hj _. by eapply overlaps_false. }
  destruct (CreateBackup_op _ _ _) as [c w]. apply (set_builder_inv w) in Hb2.
  destruct c; try exact Hb2. by apply delete_inv.
Qed.

Lemma run_bm_op_inv o b : bm_inv b -> bm_inv (run_bm_op o b).2.
Proof.
  intros Hb. destruct o as [r u|jb| | |th t c w]; cbn [run_bm_op].
  - pose proof (StartBackup_inv b r u Hb) as X. unfold try_catch. rewrite bind_unfold.
    by destruct (StartBackup r u b) as [[]].
  - unfold try_catch, StopBackup. run. destruct (in_progress_map_ b !! jb) as [[]|]; cbn; [by apply cancel_inv|done].
  - by apply CancelAll_inv.
  - unfold BackupManager_destroy. run. apply CancelAll_inv. by destruct Hb; split.
  - unfold backup_thread_ends, erase_job. run. apply (delete_inv (set_builder _ _)), set_builder_inv, alter_inv, set_tracker_inv, Hb.
Qed.

(** C10: one backup per device.  Whatever requests arrive in whatever order,
    however building them fails and whenever backups end, are stopped or
    everything is cancelled: no device is ever part of two backups in
    progress, and every backup in progress has a coordinator of its own. *)
Theorem no_device_backed_up_twice ops w j k D1 D2 a c :
  let b := final (for_each ops run_bm_op) (new_BackupManager w) in
  in_progress_map_ b !! j = Some (D1, a) -> in_progress_map_ b !! k = Some (D2, c) -> j <> k ->
  D1 ## D2 /\ a <> c /\ is_Some (coordinators b !! a).
Proof.
  intros b Hj Hk Hjk.
  assert (bm_inv b) as Hb.
  { unfold b, final. apply (for_each_state_rule _ _ bm_inv); [apply new_manager_bm_inv|].
    intros o b' _ Hb'. by apply run_bm_op_inv. }
  split_and!; [by eapply (bi_disjoint b Hb)| |by eapply (bi_alloc b Hb)].
  intros ->. apply Hjk. by eapply (bi_inj b Hb).
Qed.

(** A device of the request is in progress. *)
Definition device_in_progress (b : BackupManager) (r : StartBackupRequest) : Prop :=
  exists j S a x, in_progress_map_ b !! j = Some (S, a) /\ x ∈ S /\ x ∈ request_uuids r.

Lemma overlaps_spec b r :
  overlaps (list_to_set (request_uuids r)) (in_progress_map_ b) = true <-> device_in_progress b r.
Proof.
  split.
  - intros (j & S & a & Hj & Hne)%overlaps_true. apply set_choose_L in Hne as [y Hy]. exists j, S, a, y. set_solver.
  - intros (j & S & a & x & Hj & Hx & Hr). destruct (overlaps _ _) eqn:E; [done|].
    pose proof (overlaps_false _ _ _ _ _ E Hj). set_solver.
Qed.

(** C20: StartBackup, branch by branch.  While the manager is being
    destroyed, and then for an empty request, it throws the text of the code
    and the manager is what it was.  Otherwise a new coordinator that counts
    one worker per device and an event handler for the job are made; and if a
    device of the request is in progress, and only then, it throws "Device is
    already being backed up", without having called the builder, and no job
    is entered.  If none is, the result is the builder's: what the builder
    throws is thrown, with the backups in progress as they were; and when it
    makes a backup the job is in progress with exactly the devices of the
    request and that coordinator, and the thread is given the job's UUID, the
    backup, the event handler and the coordinator. *)
Theorem start_backup_spec b r u :
  in_progress_map_ b !! u = None ->
  let a := next_coordinator b in
  let made := <[a := mkCoordinator (u32 (Z.of_nat (length (vectors r)))) false []]> (coordinators b) in
  (destructor_called_ b = true ->
     StartBackup r u b = (Throw (BackupException "Unable to start backup, program is tearing down"), b)) /\
  (destructor_called_ b = false -> vectors r = [] ->
     StartBackup r u b = (Throw (BackupException "No devices given to backup"), b)) /\
  (destructor_called_ b = false -> vectors r <> [] ->
     exists h t, CreateEventHandler u (tracker b) = (Ret h, t) /\
     (device_in_progress b r ->
        StartBackup r u b = (Throw (BackupException "Device is already being backed up"),
          mkBM (in_progress_map_ b) made (S a) t (builder b) false)) /\
     (~ device_in_progress b r ->
        let '(built, w) := CreateBackup_op (vectors r) (is_full r) (builder b) in
        let entered := <[u := (list_to_set (request_uuids r), a)]> (in_progress_map_ b) in
        StartBackup r u b =
          match built with
          | Ret k => (Ret (u, mkThread u k h a), mkBM entered made (S a) t w false)
          | Throw e => (Throw e, mkBM (in_progress_map_ b) made (S a) t w false)
          | Abort x => (Abort x, mkBM entered made (S a) t w false)
          | Undef x => (Undef x, mkBM entered made (S a) t w false)
          | OutOfFuel => (OutOfFuel, mkBM entered made (S a) t w false)
          end)).
Proof.
  intros Hu a made. unfold StartBackup. run. split; [by intros ->|].
  split; [by intros -> ->|]. intros Ed En. rewrite Ed.
  destruct (Z.eqb_spec (Z.of_nat (length (vectors r))) 0) as [E|_]; [by destruct (vectors r)|]. run.
  assert (exists h t', CreateEventHandler u (tracker b) = (Ret h, t')) as (h & t & Rh).
  { unfold CreateEventHandler. run. destruct (reply_map_ (tracker b) !! u); by eexists _, _. }
  exists h, t. split; [done|]. unfold make_coordinator. run. unfold on_status, zoom. cbn [tracker]. rewrite Rh. run.
  unfold AddToInProgressSet. run. cbn [in_progress_map_ set_tracker]. split.
  - intros Ho%overlaps_spec. rewrite Ho, <- Ed. reflexivity.
  - intros Hno. destruct (overlaps _ _) eqn:Eo; [by destruct Hno; apply overlaps_spec|].
    unfold try_catch, on_builder, zoom. run. cbn [builder set_in_progress set_tracker].
    destruct (CreateBackup_op (vectors r) (is_full r) (builder b)) as [[k|e|x|x|] w]; run;
      unfold set_in_progress, set_tracker, set_builder, erase_job; run; rewrite ?Ed; try done.
    cbn. unfold set_in_progress. cbn. rewrite delete_insert_id by done. done.
Qed.

(** StopBackup.  A job that is not in progress: it throws and changes
    nothing.  A job in progress: exactly its coordinator is cancelled, with
    its count and errors kept; the job stays in progress until its thread
    ends. *)
Theorem stop_backup_spec b j :
  bm_inv b ->
  (in_progress_map_ b !! j = None -> StopBackup j b = (Throw (BackupException "Job not running"), b)) /\
  (forall D a, in_progress_map_ b !! j = Some (D, a) ->
     exists b' c, StopBackup j b = (Ret tt, b') /\ in_progress_map_ b' = in_progress_map_ b /\
       coordinators b !! a = Some c /\
       coordinators b' !! a = Some (mkCoordinator (count_ c) true (fatal_errors_ c)) /\
       forall a', a' <> a -> coordinators b' !! a' = coordinators b !! a').
Proof.
  intros Hb. unfold StopBackup. run. split; [by intros ->|]. intros D a Hj. rewrite Hj.
  destruct (bi_alloc b Hb j D a Hj) as [c Hc]. eexists _, c. split; [done|]. cbn. split_and!; auto.
  - by rewrite lookup_alter_eq, Hc.
  - intros a' Ha'. by apply lookup_alter_ne.
Qed.

Lemma cancel_all_from l b a c :
  coordinators b !! a = Some c ->
  exists c', coordinators (for_each l (fun p : string * (gset string * nat) => modify (cancel_at p.2.2)) b).2 !! a = Some c' /\
    ((exists j D, (j, (D, a)) ∈ l) \/ cancelled_ c = true -> cancelled_ c' = true).
Proof.
  revert b c. induction l as [|[j [D a']] l IH]; intros b c Hc; cbn [for_each].
  { exists c. split; [done|]. intros [(j & D & Hin)|?]; [by apply not_elem_of_nil in Hin|done]. }
  run. destruct (decide (a' = a)) as [->|Hne].
  - destruct (IH (cancel_at a b) (final BackupCoordinator_Cancel c)) as (c' & H1 & H2).
    { cbn. by rewrite lookup_alter_eq, Hc. }
    exists c'. split; [done|]. intros _. apply H2. by right.
  - destruct (IH (cancel_at a' b) c) as (c' & H1 & H2). { cbn. by rewrite lookup_alter_ne. }
    exists c'. split; [done|]. intros [(k & D' & Hin)|?]; [|apply H2; by right].
    apply H2. left. apply elem_of_cons in Hin as [[= -> -> ->]|Hin]; [done|]. by exists k, D'.
Qed.

(** Tearing down.  After the destructor's first part every backup in
    progress has been told to stop, no new one can start, and the loop
    that follows waits exactly as long as some backup is in progress. *)
Theorem destructor_cancels_everything b r u :
  bm_inv b ->
  exists b', BackupManager_destroy b = (Ret tt, b') /\
    in_progress_map_ b' = in_progress_map_ b /\
    (forall j D a, in_progress_map_ b !! j = Some (D, a) ->
       exists co, coordinators b' !! a = Some co /\ cancelled_ co = true) /\
    StartBackup r u b' = (Throw (BackupException "Unable to start backup, program is tearing down"), b') /\
    (destroy_waits b' = false <-> in_progress_map_ b = ∅).
Proof.
  intros Hb. unfold BackupManager_destroy. run. unfold CancelAll. run.
  set (b0 := mkBM _ _ _ _ _ true).
  assert (forall l b, exists b', for_each l (fun p : string * (gset string * nat) => modify (cancel_at p.2.2)) b =
    (Ret tt, b') /\ in_progress_map_ b' = in_progress_map_ b /\ destructor_called_ b' = destructor_called_ b) as Hl.
  { induction l as [|p l IH]; intros b1; [by exists b1|]. rewrite for_each_cons. run.
    destruct (IH (cancel_at p.2.2 b1)) as (b2 & ? & ? & ?). by exists b2. }
  destruct (Hl (map_to_list (in_progress_map_ b)) b0) as (b' & R & E1 & E2).
  exists b'. split_and!; [done|done| | |].
  - intros j D a Hj. destruct (bi_alloc b Hb j D a Hj) as [co Hco].
    destruct (cancel_all_from (map_to_list (in_progress_map_ b)) b0 a co Hco) as (c' & H1 & H2).
    cbn [in_progress_map_ b0] in R. rewrite R in H1. exists c'. split; [done|]. apply H2. left.
    exists j, D. by apply elem_of_map_to_list.
  - unfold StartBackup. run. by rewrite E2.
  - unfold destroy_waits. rewrite E1, negb_false_iff, bool_decide_eq_true. done.
Qed.

End Manager.

(** ** The manager with the program's builder *)

Section WithBuilder.
Context {env : Env} {TM TS B : Type} `{!IclMap TM, !IclSet TS}.
Context (Begin : IO (option Z) unit) (End_ : IO (option Z) bool).
Context (super_of : string -> ext_super) (bitmaps_of : string -> Ext2Bitmaps B).
Context (garbage : BlockDevice) (garbage1 garbage2 : list Z).

Instance BackupBuilder_builder : Builder (UnsyncedSectorManager TM TS * history) (list synchronizer) :=
  CreateBackup (B := B) Begin End_ super_of bitmaps_of garbage garbage1 garbage2.

(** C21: a request for anything but a full backup, whether it is refused,
    fails or is started: no store and no tracer of the sector manager is
    touched, so what was marked since the last backup is all there; and if
    it was started, the thread has one synchronizer per vector of the
    request, each from a traced device to a different device that is at
    least as large. *)
Theorem incremental_start_keeps_marks `{!IclMapLaws TM, !IclSetLaws TS} b r u :
  bm_inv b -> is_full r = false ->
  let '(o, b') := StartBackup r u b in
  (builder b').1 = (builder b).1 /\
  forall th, o = Ret (u, th) ->
    Forall (fit (builder b).1) (bt_backup th) /\ length (bt_backup th) = length (vectors r).
Proof.
  intros Hb Hf. destruct (destructor_called_ b) eqn:Ed; [unfold StartBackup; run; by rewrite Ed|].
  destruct (decide (vectors r = [])) as [En|En]; [unfold StartBackup; run; by rewrite Ed, En|].
  destruct (StartBackup_run b r u Hb Ed En) as (h & b1 & H1 & H2 & H3 & H4 & H5 & _ & ->).
  case_bool; [by rewrite H5|]. cbn zeta. rewrite Hf. unfold CreateBackup_op, BackupBuilder_builder, CreateBackup.
  destruct (create_synchronizers_incremental (B := B) Begin End_ super_of bitmaps_of garbage garbage1 garbage2 (vectors r) [] (builder b))
    as [K F].
  destruct (create_synchronizers _ _ _ _ _ _ _ (vectors r) false [] (builder b)) as [[k|e|x|x|] w]; cbn in *; try done.
  split; [done|]. intros th [= <-]. cbn. destruct (F k eq_refl) as [Fu L]; [done|].
  split; [|done]. eapply Forall_impl; [exact Fu|]. by intros s [].
Qed.
End WithBuilder.

(** ** Runs *)

(** A builder that has nothing to do but refuses the device "eeee". *)
#[local] Instance simple_builder : Builder nat (list string) := fun vs _ =>
  if bool_decide ("eeee" ∈ (block_device_uuid <$> vs)) then throw (BlockDeviceException "No such device")
  else modify S ;; mret (block_device_uuid <$> vs).

Definition request_of (uuids : list string) : StartBackupRequest :=
  mkRequest FULL_BACKUP ((fun u => mkVector u "backup.example" 10809) <$> uuids).

Definition one_backup : @BackupManager nat :=
  final (StartBackup (request_of ["aaaa"; "bbbb"]) "job1") (new_BackupManager 0%nat).

Definition two_backups : list (@bm_op nat (list string)) :=
  [BStart (request_of ["aaaa"; "bbbb"]) "job1"; BStart (request_of ["bbbb"; "cccc"]) "job2";
   BStart (request_of ["eeee"]) "job2"; BStart (request_of ["dddd"]) "job3"].

Lemma no_device_backed_up_twice_witness :
  let b := final (for_each two_backups run_bm_op) (new_BackupManager 0%nat) in
  ({["aaaa"; "bbbb"]} : gset string) ## {["dddd"]} /\ (0%nat <> 3%nat) /\ is_Some (coordinators b !! 0%nat).
Proof.
  apply (no_device_backed_up_twice two_backups 0%nat "job1" "job3" {["aaaa"; "bbbb"]} {["dddd"]} 0%nat 3%nat).
  - vm_compute. reflexivity.
  - vm_compute. reflexivity.
  - discriminate.
Defined.

Lemma one_backup_inv : bm_inv one_backup.
Proof. apply StartBackup_inv, new_manager_bm_inv. Qed.

(** "bbbb" is in progress; "cccc" is not; "eeee" cannot be built. *)
Lemma start_backup_spec_witness :
  (StartBackup (request_of ["cccc"; "bbbb"]) "job2" one_backup).1 =
    Throw (BackupException "Device is already being backed up") /\
  (StartBackup (request_of ["eeee"]) "job2" one_backup).1 = Throw (BlockDeviceException "No such device") /\
  in_progress_map_ (StartBackup (request_of ["eeee"]) "job2" one_backup).2 = in_progress_map_ one_backup /\
  in_progress_map_ (StartBackup (request_of ["cccc"]) "job2" one_backup).2 !! "job2" = Some ({["cccc"]}, 1%nat) /\
  coordinators (StartBackup (request_of ["cccc"]) "job2" one_backup).2 !! 1%nat = Some (mkCoordinator 1 false []).
Proof.
  assert (forall x, x ∉ ["aaaa"; "bbbb"] -> ~ device_in_progress one_backup (request_of [x])) as Hno.
  { intros x Hx (j & D & a & y & Hj & Hy & Hr%list_elem_of_singleton). cbn in Hr. subst y. apply Hx.
    change (in_progress_map_ one_backup) with ({["job1" := (({["aaaa"]} ∪ ({["bbbb"]} ∪ ∅) : gset string), 0%nat)]} : gmap string (gset string * nat)) in Hj.
    apply lookup_singleton_Some in Hj as [_ [= <- _]]. set_solver. }
  split.
  { destruct (proj2 (proj2 (start_backup_spec one_backup (request_of ["cccc"; "bbbb"]) "job2" eq_refl)) eq_refl ltac:(discriminate))
      as (h & t & _ & H & _).
    rewrite H; [reflexivity|]. exists "job1", {["aaaa"; "bbbb"]}, 0%nat, "bbbb".
    split; [vm_compute; reflexivity|]. split; [set_solver|right; left]. }
  destruct (proj2 (proj2 (start_backup_spec one_backup (request_of ["eeee"]) "job2" eq_refl)) eq_refl ltac:(discriminate))
    as (h & t & _ & _ & H).
  destruct (proj2 (proj2 (start_backup_spec one_backup (request_of ["cccc"]) "job2" eq_refl)) eq_refl ltac:(discriminate))
    as (h' & t' & _ & _ & H').
  specialize (H (Hno "eeee" ltac:(vm_compute; intros Hin; repeat apply elem_of_cons in Hin as [Hin|Hin]; [discriminate..|by apply not_elem_of_nil in Hin]))).
  specialize (H' (Hno "cccc" ltac:(vm_compute; intros Hin; repeat apply elem_of_cons in Hin as [Hin|Hin]; [discriminate..|by apply not_elem_of_nil in Hin]))).
  cbn in H, H'. rewrite H, H'. split_and!; vm_compute; reflexivity.
Defined.

Lemma stop_backup_spec_witness :
  StopBackup "job9" one_backup = (Throw (BackupException "Job not running"), one_backup).
Proof. apply (proj1 (stop_backup_spec one_backup "job9" one_backup_inv)). reflexivity. Defined.

Lemma destructor_cancels_everything_witness :
  exists b', BackupManager_destroy one_backup = (Ret tt, b') /\
    in_progress_map_ b' = in_progress_map_ one_backup.
Proof.
  destruct (destructor_cancels_everything one_backup (request_of []) "" one_backup_inv) as (b' & R & E & _).
  exists b'. split; [exact R|exact E].
Defined.

(** A host with a traced /dev/sda1 and a server that greets correctly. *)
Definition backup_env : Env := fun h T c =>
  match c in sys T return T with
  | SLstat p => (0, 0, mkStat S_IFBLK (if String.eqb p "/dev/nbd0" then 11008 else 2049))
  | c' => server_env good_greeting h _ c'
  end.

Definition builder_traced : UnsyncedSectorManager ref_map ref_set :=
  mkManager {[2049 := Some 0%nat]} {[2049 := Some (mkEntry (mkDT 9 0 "sda1" []) 0)]}
    {[0%nat := new_UnsyncedSectorStore VOLATILE_SECONDS]} 1.

Definition incremental_request : StartBackupRequest :=
  mkRequest (OTHER_BACKUP 1) [mkVector "0000-1111" "backup.example" 10809].

Definition incremental_start :=
  StartBackup (Builder0 := BackupBuilder_builder (env := backup_env) (B := list bool) (mret tt) always_frozen
    (fun _ => sample_super) (fun _ => sample_bitmaps) sample_device [] []) incremental_request "job1"
    (new_BackupManager (builder_traced, [])).

Lemma incremental_start_keeps_marks_witness :
  exists th b', incremental_start = (Ret ("job1", th), b') /\ (builder b').1 = builder_traced /\
    Forall (fit builder_traced) (bt_backup th) /\ length (bt_backup th) = 1%nat.
Proof.
  pose proof (incremental_start_keeps_marks (env := backup_env) (B := list bool) (mret tt) always_frozen
    (fun _ => sample_super) (fun _ => sample_bitmaps) sample_device [] [] (new_BackupManager (builder_traced, [])) incremental_request "job1"
    (new_manager_bm_inv _) eq_refl) as H.
  fold incremental_start in H. destruct incremental_start as [o b'] eqn:R. destruct H as [H1 H2].
  destruct o as [[u th]|?|?|?|]; [|exfalso; revert R; vm_compute; discriminate..].
  assert (u = "job1") as -> by (revert R; vm_compute; congruence).
  destruct (H2 th eq_refl) as [H3 H4]. exists th, b'. by split_and!.
Defined.
