(* ===== verification/ManagerThreads.v ===== *)
(** * The backup manager, its threads and its destructor

    Models StartBackup, the thread it detaches, StopBackup and the
    destructor of backup/backup_manager.cc at the granularity of their
    accesses to what they share: [destructor_called_], the map of the
    backups in progress with its mutex, and the coordinators.  What each of
    them computes is in [BackupManager]; here it is which of them may run
    when the manager is destroyed. *)

From S2P Require Import Prelude Coordinator StatusTracker BackupBuilder BackupManager.

(** A call of StartBackup; the listener's thread makes them one at a
    time. *)
Inductive starter_pc :=
| SNone
| SChecked            (* destructor_called_ was false *)
| SAdded (u : string) (* in the map: the builder is at work *).

(** The thread of a backup. *)
Inductive backup_pc :=
| BRunning   (* in DoBackup *)
| BDone      (* DoBackup has returned and the backup is released *)
| BErased    (* the job is out of the map; map_lock is still held *)
| BEnded.

#[export] Instance backup_pc_eq_dec : EqDecision backup_pc.
Proof. solve_decision. Defined.

(** The owner of the manager. *)
Inductive tear_pc :=
| DAlive
| DFlagged   (* destructor_called_ is set *)
| DWaiting   (* CancelAll has returned: while (in_progress_map_.size() != 0U) *)
| DGone.     (* the destructor has returned: the members are destroyed *)

Record manager_threads := mkMT {
  mt_map : gset string;            (* the keys of in_progress_map_ *)
  mt_starter : starter_pc;
  mt_threads : gmap string backup_pc;
  mt_owner : tear_pc;
  mt_cancelled : gset string       (* jobs whose coordinator was cancelled *)
}.

Definition new_manager_threads : manager_threads := mkMT ∅ SNone ∅ DAlive ∅.

(** in_progress_map_mutex_ is free. *)
Definition map_free (ts : gmap string backup_pc) : Prop := forall u, ts !! u <> Some BErased.

(** One step.  The size of the map is read without the mutex. *)
Inductive manager_step : manager_threads -> manager_threads -> Prop :=
(* StartBackup *)
| start_checked m ts c :
    manager_step (mkMT m SNone ts DAlive c) (mkMT m SChecked ts DAlive c)
| start_refused m ts d c :      (* no device, or one that is being backed up *)
    map_free ts -> manager_step (mkMT m SChecked ts d c) (mkMT m SNone ts d c)
| start_added m ts d c u :
    map_free ts -> u ∉ m -> ts !! u = None ->
    manager_step (mkMT m SChecked ts d c) (mkMT ({[u]} ∪ m) (SAdded u) ts d c)
| start_fails m ts d c u :      (* the builder has thrown *)
    map_free ts -> manager_step (mkMT m (SAdded u) ts d c) (mkMT (m ∖ {[u]}) SNone ts d c)
| start_detaches m ts d c u :
    manager_step (mkMT m (SAdded u) ts d c) (mkMT m SNone (<[u := BRunning]> ts) d c)
(* the backup's thread *)
| backup_returns m s ts d c u :
    ts !! u = Some BRunning -> manager_step (mkMT m s ts d c) (mkMT m s (<[u := BDone]> ts) d c)
| backup_erases m s ts d c u :
    map_free ts -> ts !! u = Some BDone ->
    manager_step (mkMT m s ts d c) (mkMT (m ∖ {[u]}) s (<[u := BErased]> ts) d c)
| backup_unlocks m s ts d c u :
    ts !! u = Some BErased -> manager_step (mkMT m s ts d c) (mkMT m s (<[u := BEnded]> ts) d c)
(* StopBackup *)
| stop_cancels m s ts c u :
    map_free ts -> u ∈ m -> manager_step (mkMT m s ts DAlive c) (mkMT m s ts DAlive ({[u]} ∪ c))
(* the destructor *)
| destroy_flags m s ts c :
    manager_step (mkMT m s ts DAlive c) (mkMT m s ts DFlagged c)
| destroy_cancels m s ts c :
    map_free ts -> manager_step (mkMT m s ts DFlagged c) (mkMT m s ts DWaiting (m ∪ c))
| destroy_returns s ts c :
    manager_step (mkMT ∅ s ts DWaiting c) (mkMT ∅ s ts DGone c).

(** In the daemon the listener, whose thread makes the requests, is
    destroyed before the manager: no StartBackup is running then. *)
Definition daemon_step (s s' : manager_threads) : Prop :=
  manager_step s s' /\ (mt_owner s = DAlive -> mt_owner s' = DFlagged -> mt_starter s = SNone).

(** ** Invariant *)

(** The thread still has a job in the map. *)
Definition at_work (p : backup_pc) : bool := match p with BRunning | BDone => true | _ => false end.

Definition being_added (s : starter_pc) : gset string := match s with SAdded u => {[u]} | _ => ∅ end.

(** The jobs that have to be in the map. *)
Definition has_job (s : starter_pc) (ts : gmap string backup_pc) (u : string) : Prop :=
  u ∈ being_added s \/ exists p, ts !! u = Some p /\ at_work p = true.

Record threads_inv (s : manager_threads) : Prop := {
  ti_map : forall u, u ∈ mt_map s <-> has_job (mt_starter s) (mt_threads s) u;
  ti_new : forall u, mt_starter s = SAdded u -> mt_threads s !! u = None;
  ti_quiet : mt_owner s <> DAlive -> mt_starter s = SNone;
  ti_cancelled : mt_owner s = DWaiting \/ mt_owner s = DGone -> mt_map s ⊆ mt_cancelled s;
  ti_gone : mt_owner s = DGone -> mt_map s = ∅
}.

Lemma new_threads_inv : threads_inv new_manager_threads.
Proof.
  split; cbn; try done. intros u. split; [set_solver|]. intros [?|(p & Hp & _)]; [set_solver|by rewrite lookup_empty in Hp].
Qed.

(** The map and the threads when one thread goes on. *)
Lemma map_keeps (m : gset string) s ts u p q :
  (forall v, v ∈ m <-> has_job s ts v) -> ts !! u = Some p -> at_work q = at_work p ->
  forall v, v ∈ m <-> has_job s (<[u := q]> ts) v.
Proof.
  intros H Hu Hq v. rewrite H. unfold has_job. destruct (decide (u = v)) as [<-|Hne]; [|by rewrite lookup_insert_ne].
  rewrite lookup_insert_eq, Hu. split; (intros [?|(x & [= <-] & ?)]; [by left|right; eexists; split; [done|congruence]]).
Qed.

Lemma map_erases (m : gset string) s ts u :
  (forall v, v ∈ m <-> has_job s ts v) -> (forall v, s = SAdded v -> ts !! v = None) -> ts !! u = Some BDone ->
  forall v, v ∈ m ∖ {[u]} <-> has_job s (<[u := BErased]> ts) v.
Proof.
  intros H Hnew Hu v. rewrite elem_of_difference, elem_of_singleton, H. unfold has_job. destruct (decide (u = v)) as [<-|Hne].
  - rewrite lookup_insert_eq. split; [by intros [_ []]|]. intros [Ha|(p & [= <-] & Hp)]; [|done].
    destruct s as [| |w]; cbn in Ha; [set_solver..|]. apply elem_of_singleton in Ha as ->. by rewrite (Hnew w eq_refl) in Hu.
  - rewrite lookup_insert_ne by done. naive_solver.
Qed.

Lemma new_keeps s (ts : gmap string backup_pc) u p q :
  (forall v, s = SAdded v -> ts !! v = None) -> ts !! u = Some p ->
  forall v, s = SAdded v -> <[u := q]> ts !! v = None.
Proof. intros H Hu v Hv. specialize (H v Hv). rewrite lookup_insert_ne; [done|congruence]. Qed.

(** A call of StartBackup is in progress: the owner has not begun. *)
Lemma starting_alive s : threads_inv s -> mt_starter s <> SNone -> mt_owner s = DAlive.
Proof. intros Hi Hs. destruct (mt_owner s) eqn:E; [done|..]; destruct Hs; apply (ti_quiet s Hi); by rewrite E. Qed.

Lemma daemon_step_inv s s' : daemon_step s s' -> threads_inv s -> threads_inv s'.
Proof.
  intros [H Hd] Hi. pose proof (starting_alive s Hi) as Ha. destruct Hi as [I1 I2 I3 I4 I5]. destruct H; cbn in *.
  all: try (assert (d = DAlive) as -> by (by apply Ha)).
  - by split.
  - by split.
  - split; cbn; [|by intros v [= <-]|done|by intros []|done].
    intros v. rewrite elem_of_union, I1. unfold has_job. set_solver.
  - split; cbn; [|done|done|by intros []|done].
    intros v. rewrite elem_of_difference, I1. unfold has_job. pose proof (I2 u eq_refl). split; [set_solver|].
    intros [?|(p & Hp & Hw)]; [set_solver|]. split; [right; eauto|]. intros ->%elem_of_singleton. congruence.
  - split; cbn; [|done|done|by intros []|done].
    intros v. rewrite I1. unfold has_job. destruct (decide (u = v)) as [<-|Hne].
    + rewrite lookup_insert_eq. split; [intros _; right; by eexists|]. intros _. left. cbn. set_solver.
    + rewrite lookup_insert_ne by done. set_solver.
  - split; cbn; [by eapply map_keeps|by eapply new_keeps|done|done|done].
  - split; cbn; [by apply map_erases|by eapply new_keeps|done|intros Hw; specialize (I4 Hw); set_solver|].
    intros Hg. rewrite (I5 Hg). set_solver.
  - split; cbn; [by eapply map_keeps|by eapply new_keeps|done|done|done].
  - split; cbn; [done|done|done|by intros []|done].
  - split; cbn; [done|done|by intros _; apply Hd|by intros []|done].
  - split; cbn; [done|done|by intros _; apply I3|set_solver|done].
  - split; cbn; [done|done|by intros _; apply I3|set_solver|done].
Qed.

Lemma daemon_inv s : rtc daemon_step new_manager_threads s -> threads_inv s.
Proof.
  intros Hr. exact (rtc_invariant daemon_step threads_inv daemon_step_inv _ _ Hr new_threads_inv).
Qed.

(** ** Properties *)

(** C30: tearing down.  In the daemon, in every interleaving of StartBackup,
    the backups' threads, StopBackup and the destructor: from the moment the
    destructor waits, the coordinator of every backup whose thread is still
    at work has been cancelled; and when the destructor returns, no
    StartBackup is running, no job is left in the map, and every thread has
    left DoBackup and taken its job out of the map. *)
Theorem destructor_waits_for_backups s :
  rtc daemon_step new_manager_threads s ->
  (mt_owner s = DWaiting \/ mt_owner s = DGone ->
     forall u p, mt_threads s !! u = Some p -> at_work p = true -> u ∈ mt_cancelled s) /\
  (mt_owner s = DGone ->
     mt_starter s = SNone /\ mt_map s = ∅ /\
     forall u p, mt_threads s !! u = Some p -> p = BErased \/ p = BEnded).
Proof.
  intros [I1 I2 I3 I4 I5]%daemon_inv.
  assert (forall u p, mt_threads s !! u = Some p -> at_work p = true -> u ∈ mt_map s) as Hmap
    by (intros u p Hp Hw; apply I1; right; eauto).
  split; [intros Hw u p Hp Ha; apply (I4 Hw); eauto|]. intros Hg. split_and!; [apply I3; by rewrite Hg|by apply I5|].
  intros u p Hp. destruct p; [..|by left|by right]; specialize (Hmap u _ Hp eq_refl); rewrite (I5 Hg) in Hmap; set_solver.
Qed.

(** *** The destructor ends *)

Definition weight (p : backup_pc) : nat := match p with BRunning => 3 | BDone => 2 | BErased => 1 | BEnded => 0 end.

Definition work_left (ts : gmap string backup_pc) : nat := map_fold (fun _ p n => (weight p + n)%nat) 0%nat ts.

Definition steps_left (s : manager_threads) : nat :=
  (work_left (mt_threads s) + match mt_owner s with DAlive => 3 | DFlagged => 2 | DWaiting => 1 | DGone => 0 end)%nat.

Lemma work_left_delete ts u p : ts !! u = Some p -> work_left ts = (weight p + work_left (delete u ts))%nat.
Proof. intros Hu. unfold work_left. by rewrite (map_fold_delete_L _ _ u p ts) by (done || intros; lia). Qed.

Lemma work_left_insert ts u p q :
  ts !! u = Some p -> (work_left (<[u := q]> ts) + weight p = work_left ts + weight q)%nat.
Proof.
  intros Hu. rewrite (work_left_delete ts u p Hu), (work_left_delete (<[u := q]> ts) u q) by apply lookup_insert_eq.
  rewrite delete_insert_eq. lia.
Qed.

(** A thread that has not ended, or none. *)
Lemma unended_thread (ts : gmap string backup_pc) :
  (exists u p, ts !! u = Some p /\ p <> BEnded) \/ forall u p, ts !! u = Some p -> p = BEnded.
Proof.
  destruct (decide (map_Forall (fun _ p => at_work p = false /\ p <> BErased) ts)) as [H|H].
  - right. intros u p Hp. destruct (H u p Hp) as [? ?]. by destruct p.
  - left. apply map_not_Forall in H as (u & p & Hp & Hn); [|apply _]. exists u, p. split; [done|]. intros ->. by apply Hn.
Qed.

(** Once the destructor has begun, the steps left are bounded; as long as
    every DoBackup returns, as the cancelled ones do, it is never stuck
    before it has returned and every thread has ended. *)
Theorem teardown_ends s :
  rtc daemon_step new_manager_threads s -> mt_owner s <> DAlive ->
  (forall s', daemon_step s s' -> mt_owner s' <> DAlive /\ (steps_left s' < steps_left s)%nat) /\
  ((exists s', daemon_step s s') \/ (mt_owner s = DGone /\ forall u p, mt_threads s !! u = Some p -> p = BEnded)).
Proof.
  intros Hi%daemon_inv Ho. pose proof (ti_quiet s Hi Ho) as Hs. split.
  - intros s' [H _]. destruct H; cbn in *; try done; (split; [done|]); unfold steps_left; cbn; try lia.
    all: match goal with Hu : ?t !! ?u = Some _ |- context [<[?u := ?q]> ?t] =>
      pose proof (work_left_insert t u _ q Hu); cbn in *; lia end.
  - destruct s as [m st ts d c]. cbn in *. subst st.
    assert (d = DAlive -> False) as Hd by done.
    destruct (unended_thread ts) as [(u & p & Hu & Hp)|Hall].
    + left. destruct (decide (map_Forall (fun _ p => p <> BErased) ts)) as [Hf|Hf].
      * assert (map_free ts) as Hfree by (intros v Hv; by apply (Hf v BErased)).
        destruct p; [| |by destruct (Hfree u)|done]; eexists; (split; [|by intros ?%Hd]);
          [by apply backup_returns|by apply backup_erases].
      * apply map_not_Forall in Hf as (v & q & Hq & Hn); [|apply _]. eexists. split; [|by intros ?%Hd].
        apply (backup_unlocks _ _ _ _ _ v). destruct q; try by destruct Hn. done.
    + assert (map_free ts) as Hfree by (by intros v Hv%Hall).
      assert (m = ∅) as ->.
      { apply set_eq. intros v. rewrite (ti_map _ Hi v). split; [|set_solver]. cbn.
        intros [?|(p & ->%Hall & ?)]; [set_solver|done]. }
      destruct d; [done| | |by right]; left; eexists; (split; [|by intros ?%Hd]); by constructor.
Qed.

Lemma map_free_empty : map_free ∅.
Proof. intros u. by rewrite lookup_empty. Qed.

Lemma map_free_insert ts u p : p <> BErased -> map_free ts -> map_free (<[u := p]> ts).
Proof.
  intros Hp Hf v. destruct (decide (u = v)) as [<-|Hne]; [rewrite lookup_insert_eq; congruence|].
  rewrite lookup_insert_ne by done. apply Hf.
Qed.

(** ** The operations of the manager are such steps *)

Section Refinement.
Context {W Bk : Type} `{!Builder W Bk}.
Abbreviation manager := (@BackupManager W).
Implicit Types b : manager.

(** The manager between its operations. *)
Record related b (s : manager_threads) : Prop := {
  rl_map : forall u, is_Some (in_progress_map_ b !! u) <-> u ∈ mt_map s;
  rl_flag : destructor_called_ b = true <-> mt_owner s <> DAlive;
  rl_starter : mt_starter s = SNone;
  rl_free : map_free (mt_threads s);
  rl_cancelled : forall u D a, in_progress_map_ b !! u = Some (D, a) ->
    u ∈ mt_cancelled s <-> exists c, coordinators b !! a = Some c /\ cancelled_ c = true
}.

(** When an operation may be made: a new job has a new UUID, the requests
    stop before the destructor begins, and a thread that ends is one that
    runs, with the coordinator of its job. *)
Definition may_run (o : bm_op (W := W) (Bk := Bk)) b (s : manager_threads) : Prop :=
  match o with
  | BStart _ u => (u ∉ mt_map s) /\ mt_threads s !! u = None /\ (u ∉ mt_cancelled s)
  | BStop _ | BDestroy => mt_owner s = DAlive
  | BCancelAll => False
  | BEnds th _ _ _ => mt_threads s !! bt_uuid th = Some BRunning /\
      exists D, in_progress_map_ b !! bt_uuid th = Some (D, bt_coordinator th)
  end.

(** Where an operation goes: a StartBackup that returns has entered its job
    and detached a thread; StopBackup of a job in progress has cancelled it;
    the destructor, at its waiting loop, has cancelled every job; and a
    backup's thread has taken its job out of the map and ended. *)
Definition after_op (o : bm_op (W := W) (Bk := Bk)) b (s : manager_threads) : manager_threads :=
  let '(mkMT m st ts d c) := s in
  match o with
  | BStart r u =>
      match (StartBackup r u b).1 with
      | Ret _ => mkMT ({[u]} ∪ m) st (<[u := BRunning]> ts) d c
      | _ => s
      end
  | BStop j => if decide (j ∈ m) then mkMT m st ts d ({[j]} ∪ c) else s
  | BCancelAll => s
  | BDestroy => mkMT m st ts DWaiting (m ∪ c)
  | BEnds th _ _ _ => mkMT (m ∖ {[bt_uuid th]}) st (<[bt_uuid th := BEnded]> ts) d c
  end.

Lemma start_simulated b s r u b' :
  bm_inv b -> related b s -> may_run (BStart r u) b s -> run_bm_op (BStart r u) b = (Ret tt, b') ->
  rtc daemon_step s (after_op (BStart r u) b s) /\ related b' (after_op (BStart r u) b s).
Proof.
  intros Hb [R1 R2 R3 R4 R5] (Hu1 & Hu2 & Hu3). destruct s as [m st ts d c]. cbn in *. subst st.
  destruct (destructor_called_ b) eqn:Ed.
  { unfold StartBackup, try_catch. run. rewrite Ed. intros [= <-]. split; [done|]. split; cbn; try done. by rewrite Ed. }
  assert (d = DAlive) as -> by (destruct d; [done|..]; by (assert (false = true) by (apply R2; done))).
  destruct (decide (vectors r = [])) as [En|En].
  { unfold StartBackup, try_catch. run. rewrite Ed, En. run. intros [= <-]. split; [done|]. split; cbn; try done. by rewrite Ed. }
  destruct (StartBackup_run b r u Hb Ed En) as (h & b1 & _ & H2 & H3 & H4 & _ & _ & E).
  unfold try_catch. rewrite bind_unfold, E. clear E.
  assert (forall v D a, in_progress_map_ b !! v = Some (D, a) ->
    v ∈ c <-> exists co, coordinators b1 !! a = Some co /\ cancelled_ co = true) as Hc1.
  { intros v D a Hv. rewrite H3. rewrite lookup_insert_ne; [eauto|]. intros <-.
    pose proof (bi_next b Hb _ (bi_alloc b Hb _ _ _ Hv)). lia. }
  assert (forall b2, in_progress_map_ b2 = in_progress_map_ b1 -> destructor_called_ b2 = destructor_called_ b1 ->
    coordinators b2 = coordinators b1 -> related b2 (mkMT m SNone ts DAlive c)) as Hsame.
  { intros b2 E1 E2 E3. split; cbn; rewrite ?E1, ?E2, ?E3, ?H2, ?H4; try done. }
  case_bool; [intros [= <-]; split; [done|by apply Hsame]|].
  cbn zeta. destruct (CreateBackup_op (vectors r) (is_full r) (builder b)) as [[k|e|x|x|] w]; try done; intros [= <-]; cbn [fst].
  - split.
    + eapply rtc_l; [split; [apply start_checked|done]|]. eapply rtc_l; [split; [by apply (start_added _ _ _ _ u)|done]|].
      apply rtc_once. split; [apply start_detaches|done].
    + split; cbn; try done.
      * intros v. rewrite H2, lookup_insert_is_Some, R1. set_solver.
      * by rewrite H4.
      * by apply map_free_insert.
      * intros v D a. rewrite H2. rewrite lookup_insert_Some. intros [[<- [= _ <-]]|[_ Hv]]; [|eauto].
        split; [done|]. rewrite H3, lookup_insert_eq. by intros (co & [= <-] & ?).
  - split; [done|]. apply Hsame; [|done|done]. cbn.
    rewrite delete_insert_id; [done|]. rewrite H2. destruct (in_progress_map_ b !! u) eqn:Eu; [|done].
    destruct Hu1. apply R1. by rewrite Eu.
Qed.

Lemma stop_simulated b s j b' :
  bm_inv b -> related b s -> may_run (BStop j) b s -> run_bm_op (BStop j) b = (Ret tt, b') ->
  rtc daemon_step s (after_op (BStop j) b s) /\ related b' (after_op (BStop j) b s).
Proof.
  intros Hb [R1 R2 R3 R4 R5] Hd. destruct s as [m st ts d c]. cbn in *. subst st d.
  unfold StopBackup, try_catch. run. specialize (R1 j) as R1j.
  destruct (in_progress_map_ b !! j) as [[D a]|] eqn:Ej; run; intros [= <-].
  2: { rewrite decide_False by (intros [? ?]%R1j; done). by split. }
  assert (j ∈ m) as Hj by (by apply R1j). rewrite decide_True by done. split; [|split; cbn; try done].
  - apply rtc_once. split; [|done]. by apply stop_cancels.
  - intros v D' a' Hv. destruct (bi_alloc b Hb v D' a' Hv) as [co Hco]. destruct (decide (a' = a)) as [->|Hne].
    + assert (v = j) as -> by (by eapply (bi_inj b Hb)). split; [|set_solver].
      intros _. eexists. split; [by rewrite lookup_alter_eq, Hco|done].
    + rewrite lookup_alter_ne by done. rewrite <- (R5 v D' a' Hv), elem_of_union, elem_of_singleton.
      split; [intros [->|?]; [congruence|done]|by right].
Qed.

Lemma destroy_simulated b s b' :
  bm_inv b -> related b s -> may_run BDestroy b s -> run_bm_op BDestroy b = (Ret tt, b') ->
  rtc daemon_step s (after_op BDestroy b s) /\ related b' (after_op BDestroy b s).
Proof.
  intros Hb [R1 R2 R3 R4 R5] Hd R. destruct s as [m st ts d c]. cbn in *. subst st d.
  destruct (destructor_cancels_everything b (mkRequest FULL_BACKUP []) "" Hb) as (b2 & R' & E1 & E2 & E3 & _).
  rewrite R in R'. injection R' as <-. split; [|split; cbn; try done].
  - eapply rtc_l; [split; [apply destroy_flags|done]|]. apply rtc_once. split; [by apply destroy_cancels|done].
  - intros u. by rewrite E1.
  - split; [done|]. intros _. destruct (destructor_called_ b') eqn:Ed; [done|].
    revert E3. unfold StartBackup. run. by rewrite Ed.
  - intros u D a. rewrite E1. intros Hu. split; [by eauto|]. intros _. apply elem_of_union. left. apply R1. by rewrite Hu.
Qed.

Lemma end_simulated b s th t co w b' :
  bm_inv b -> related b s -> may_run (BEnds th t co w) b s -> run_bm_op (BEnds th t co w) b = (Ret tt, b') ->
  rtc daemon_step s (after_op (BEnds th t co w) b s) /\ related b' (after_op (BEnds th t co w) b s).
Proof.
  intros Hb [R1 R2 R3 R4 R5] [Hu [D0 Hm]]. destruct s as [m st ts d c]. cbn in *. subst st.
  unfold backup_thread_ends, erase_job. run. intros [= <-]. set (u := bt_uuid th) in *.
  split; [|split; cbn; try done].
  - eapply rtc_l; [split; [by apply backup_returns|cbn; congruence]|].
    eapply rtc_l; [split; [apply backup_erases; [by apply map_free_insert|apply lookup_insert_eq]|cbn; congruence]|].
    rewrite <- (insert_insert_eq ts u BEnded BErased), <- (insert_insert_eq ts u BErased BDone).
    apply rtc_once. split; [apply backup_unlocks, lookup_insert_eq|cbn; congruence].
  - intros v. rewrite lookup_delete_is_Some, R1. set_solver.
  - by apply map_free_insert.
  - intros v D a. rewrite lookup_delete_Some. intros [Hne Hv]. rewrite lookup_alter_ne; [eauto|].
    intros <-. apply Hne. by eapply (bi_inj b Hb).
Qed.

(** C31: the operations of the manager are steps of its threads.  Whatever
    operation a client or a backup's thread makes on the manager, with
    whatever result, is the sequence of steps of the concurrent model that
    ends where [after_op] says: StartBackup has entered its job and detached
    a thread if and only if it returned, StopBackup has cancelled the job,
    the destructor has set its flag and cancelled every job, and the thread
    of a backup has taken its job out of the map and ended.  The manager
    agrees with the model there: the same jobs are in the map, the flag of
    the destructor is the same, and of the jobs in progress exactly those the
    steps cancelled have a cancelled coordinator. *)
Theorem operations_are_steps b s o b' :
  bm_inv b -> related b s -> may_run o b s -> run_bm_op o b = (Ret tt, b') ->
  rtc daemon_step s (after_op o b s) /\ related b' (after_op o b s).
Proof.
  destruct o as [r u|j| | |th t co w].
  - apply start_simulated.
  - apply stop_simulated.
  - done.
  - apply destroy_simulated.
  - apply end_simulated.
Qed.
End Refinement.

(** *** What is not safe *)

(** Takes a step of a run of the manager. *)
Ltac side_condition :=
  first [ apply lookup_insert_eq | apply lookup_empty | set_solver
        | repeat first [apply map_free_empty | apply map_free_insert; [done|]] ].

Tactic Notation "manager_run" uconstr(c) :=
  eapply rtc_l; [first [split; [eapply c; side_condition|done] | eapply c; side_condition]|].

(** The thread still holds the map's mutex when the map is empty: the
    destructor can return, and the mutex be destroyed, before the thread
    has unlocked it. *)
Theorem mutex_outlives_manager :
  exists s, rtc daemon_step new_manager_threads s /\ mt_owner s = DGone /\ mt_threads s !! "job1" = Some BErased.
Proof.
  eexists. split.
  - unfold new_manager_threads. manager_run start_checked. manager_run (start_added _ _ _ _ "job1"). manager_run start_detaches.
    manager_run backup_returns. manager_run destroy_flags. manager_run destroy_cancels. manager_run backup_erases.
    replace (({["job1"]} ∪ ∅) ∖ {["job1"]}) with (∅ : gset string) by set_solver.
    manager_run destroy_returns. apply rtc_refl.
  - by split.
Qed.

(** The check of destructor_called_ is no protection by itself: a StartBackup
    that has passed it goes on while the manager is destroyed.  Only that
    the daemon destroys the listener first excludes it. *)
Theorem late_start_outlives_manager :
  exists s, rtc manager_step new_manager_threads s /\ mt_owner s = DGone /\ mt_starter s = SChecked.
Proof.
  eexists. split.
  - unfold new_manager_threads. manager_run start_checked. manager_run destroy_flags. manager_run destroy_cancels.
    replace (∅ ∪ ∅) with (∅ : gset string) by set_solver. manager_run destroy_returns. apply rtc_refl.
  - by split.
Qed.

(** ** Runs *)

(** The destructor waits for a backup that is still running. *)
Lemma waiting_run :
  exists s, rtc daemon_step new_manager_threads s /\ mt_owner s = DWaiting /\ mt_threads s !! "job1" = Some BRunning.
Proof.
  eexists. split.
  - unfold new_manager_threads. manager_run start_checked. manager_run (start_added _ _ _ _ "job1"). manager_run start_detaches.
    manager_run destroy_flags. manager_run destroy_cancels. apply rtc_refl.
  - by split.
Qed.

Lemma destructor_waits_for_backups_witness :
  exists s, rtc daemon_step new_manager_threads s /\ mt_owner s = DWaiting /\ "job1" ∈ mt_cancelled s.
Proof.
  destruct waiting_run as (s & Hr & Ho & Ht). exists s. split; [exact Hr|]. split; [exact Ho|].
  apply (proj1 (destructor_waits_for_backups s Hr) (or_introl Ho) "job1" BRunning); [exact Ht|reflexivity].
Defined.

Lemma teardown_ends_witness :
  exists s, mt_owner s = DWaiting /\ mt_threads s !! "job1" = Some BRunning /\ exists s', daemon_step s s'.
Proof.
  destruct waiting_run as (s & Hr & Ho & Ht). exists s. split; [exact Ho|]. split; [exact Ht|].
  destruct (teardown_ends s Hr) as [_ [H|[H _]]]; [congruence|exact H|congruence].
Defined.

(** A backup is started, and stopped. *)
Definition one_started : @BackupManager nat :=
  final (run_bm_op (Builder0 := simple_builder) (BStart (request_of ["aaaa"]) "job1")) (new_BackupManager 0%nat).

Definition one_running : manager_threads := mkMT {["job1"]} SNone {["job1" := BRunning]} DAlive ∅.

Lemma one_started_job u D a :
  in_progress_map_ one_started !! u = Some (D, a) -> u = "job1" /\ a = 0%nat.
Proof.
  change (in_progress_map_ one_started) with ({["job1" := (({["aaaa"]} ∪ ∅ : gset string), 0%nat)]} : gmap string (gset string * nat)).
  intros [<- [= _ <-]]%lookup_singleton_Some. done.
Qed.

Lemma one_started_related : related one_started one_running.
Proof.
  split.
  - intros u. split; [intros [[D a] Hu]; apply one_started_job in Hu as [-> _]; set_solver|].
    intros Hu. apply (elem_of_singleton u "job1") in Hu as ->. eexists. vm_compute. reflexivity.
  - split; [discriminate|by intros []].
  - reflexivity.
  - by apply map_free_insert, map_free_empty.
  - intros u D a [-> ->]%one_started_job. split; [set_solver|]. intros (co & Hco & Hc). exfalso. revert Hc.
    vm_compute in Hco. injection Hco as <-. discriminate.
Qed.

Lemma operations_are_steps_witness :
  rtc daemon_step one_running (mkMT {["job1"]} SNone {["job1" := BRunning]} DAlive ({["job1"]} ∪ ∅)) /\
  exists c, coordinators (run_bm_op (Builder0 := simple_builder) (BStop "job1") one_started).2 !! 0%nat = Some c /\ cancelled_ c = true.
Proof.
  destruct (operations_are_steps (Builder0 := simple_builder) one_started one_running (BStop "job1")
    (run_bm_op (Builder0 := simple_builder) (BStop "job1") one_started).2) as [R Hrel].
  - apply run_bm_op_inv, new_manager_bm_inv.
  - exact one_started_related.
  - reflexivity.
  - vm_compute. reflexivity.
  - split; [exact R|]. apply (rl_cancelled _ _ Hrel "job1" ({["aaaa"]} ∪ ∅) 0%nat).
    + vm_compute. reflexivity.
    + apply elem_of_union. left. by apply elem_of_singleton.
Defined.
