(* ===== verification/BackupRun.v ===== *)
(** * A started backup and its end

    What a full and an incremental backup share: the state StartBackup of
    backup/backup_manager.cc leaves when it has started one, the threads of
    its synchronizers on a machine that is left alone, and what DoBackup and
    the end of the backup's thread make of them. *)

From S2P Require Import Prelude Machine Icl IclRef SectorStore TraceHandler Posix BlockDevice MountableDevice.
From S2P Require Import StatusTracker Coordinator FreezeHelper DeviceSynchronizer SyncSafety SyncRuns Tracing SectorManager.
From S2P Require Import ExtDevice Nbd Backup SyncTeam BackupBuilder BackupManager.

(** ** StartBackup has started a backup *)

Section Started.
Context {W Bk : Type} `{!Builder W Bk}.

(** The job of the thread [th]: its coordinator is new, and a status request
    for it reads the message at [a]. *)
Record started (b : BackupManager (W := W)) (r : StartBackupRequest) (u : string)
    (th : backup_thread (Bk := Bk)) (b' : BackupManager (W := W)) (a : nat) : Prop := {
  sd_uuid : bt_uuid th = u;
  sd_backup : CreateBackup_op (vectors r) (is_full r) (builder b) = (Ret (bt_backup th), builder b');
  sd_coordinator : coordinators b' !! bt_coordinator th = Some (new_BackupCoordinator (Z.of_nat (length (vectors r))));
  sd_handler : bt_event_handler th = Some a;
  sd_tracker : tracker_inv (tracker b');
  sd_reply : reply_map_ (tracker b') !! u = Some a;
  sd_others : forall k, k <> u -> job_reply (tracker b') k = job_reply (tracker b) k
}.

Lemma StartBackup_started b r u th b' :
  bm_inv b -> tracker_inv (tracker b) -> reply_map_ (tracker b) !! u = None ->
  StartBackup r u b = (Ret (u, th), b') -> exists a, started b r u th b' a.
Proof.
  intros Hb Ht Hu R.
  destruct (destructor_called_ b) eqn:Ed; [revert R; unfold StartBackup; run; by rewrite Ed|].
  destruct (decide (vectors r = [])) as [En|En]; [revert R; unfold StartBackup; run; by rewrite Ed, En|].
  destruct (StartBackup_run b r u Hb Ed En) as (h & b1 & _ & _ & H3 & _ & H5 & H6 & E). rewrite E in R. revert R. clear E.
  case_bool; [done|]. cbn zeta. destruct (CreateBackup_op (vectors r) (is_full r) (builder b)) as [[l|?|?|?|] w] eqn:Rc; try done.
  intros [= <- <-]. pose proof (CreateEventHandler_run (tracker b) u Ht) as He. rewrite Hu in He.
  destruct He as (a & t' & Re & I & Ma & Mj & Mo). rewrite H6 in Re. injection Re as -> <-.
  exists a. split; try done. cbn. by rewrite H3, lookup_insert_eq.
Qed.
End Started.

(** ** The threads of the synchronizers *)

Section Runs.
Context {env : Env} {TM TS H : Type} `{!IclMap TM, !IclMapLaws TM, !IclSet TS, !IclSetLaws TS}
  `{!CountHandler H, !CountHandlerLaws H}.
Abbreviation manager := (UnsyncedSectorManager TM TS).
Implicit Types run : sync_run (TM := TM) (TS := TS) (H := H).

(** The sectors marked in the store of a synchronizer's source. *)
Definition source_marks (mg : manager) (s : synchronizer) (x : Z) : Prop :=
  exists st, device_store mg (dev_t_ (source_base (sy_source s))) = Some st /\
    is_Some (im_at (unsynced_sector_map_ st) x).

(** The block of every marked sector lies on the device. *)
Record marks_fit (mg : manager) (s : synchronizer) : Prop := {
  mf_size : 0 <= device_size_bytes_ (source_base (sy_source s)) <= 2 ^ 62;
  mf_blocks : exists spb, 1 <= spb < 2 ^ 22 /\ block_size_bytes_ (source_base (sy_source s)) = 512 * spb /\
    forall x, source_marks mg s x -> 0 <= x /\ 512 * (x + spb) <= device_size_bytes_ (source_base (sy_source s))
}.

(** The thread of one of [n] synchronizers, on a machine that is left alone
    while time passes and freezes run out: its devices and its store are the
    ones the builder made, and the signals of the others, which they send
    without waiting for this one, reach the coordinator at any of its
    calls. *)
Record starts (mg : manager) (n : nat) (s : synchronizer) run : Prop := {
  st_source : source_device (sr_world run) = source_base (sy_source s);
  st_destination : destination_device (sr_world run) = nb_base (sy_destination s);
  st_store : device_store mg (dev_t_ (source_base (sy_source s))) = Some (c_store (core (sr_world run)));
  st_coordinator : exists script,
    coordinator (sr_world run) = mkView (new_BackupCoordinator (Z.of_nat n)) script [] /\
    concat script = replicate (pred n) COFinished /\
    card (sr_world run) + Z.of_nat (length script) < Z.of_nat (sr_fuel run);
  st_schedule : undisturbed (sr_schedule run);
  st_faults : faults (sr_world run) = no_faults;
  st_traces : c_traces (core (sr_world run)) = [];
  st_inflight : c_inflight (core (sr_world run)) = [];
  st_latency : 0 < sr_latency run;
  st_clock : VOLATILE_SECONDS < c_clock (core (sr_world run));
  st_uuid : exists u, sr_uuid run = Ret u
}.

Lemma device_store_volatile (mg : manager) dev st :
  mgr_inv mg -> device_store mg dev = Some st -> volatile_seconds_ st = VOLATILE_SECONDS.
Proof. intros Hm. unfold device_store. destruct (store_of mg dev) as [a|]; [|done]. apply (mi_volatile mg Hm a). Qed.

(** A synchronizer that the builder made is prepared. *)
Lemma starts_quiet mg n s run :
  (forall h p f, 0 <= ret (env h _ (SOpen p f))) -> mgr_inv mg ->
  usable mg s -> marks_fit mg s -> starts mg n s run -> quiet_run (env := env) n run.
Proof.
  intros Hopen Hm [(_ & _ & F1) F2 F3] [Hsize (spb & Hspb & Hbs & Hin)] [].
  destruct st_coordinator0 as (script & Hc & Hscript & Hfuel).
  split; [done|done|done|]. exists script, spb, (device_size_bytes_ (source_base (sy_source s))).
  split_and!; [done|done| |done].
  split; rewrite ?st_source0, ?st_destination0; try done; try lia.
  - unfold vs_. rewrite (device_store_volatile mg _ _ Hm st_store0). unfold VOLATILE_SECONDS in *. lia.
  - unfold SECONDS_BETWEEN_FLUSHES, VOLATILE_SECONDS in *. lia.
  - intros x Hx. apply Hin. by eexists.
Qed.

(** What the thread of a synchronizer does: it returns with nothing left to
    do and the source unchanged, and where a sector was marked, or the
    destination had the source's bytes, the destination has them. *)
Definition copies (mg : manager) (s : synchronizer) run : Prop :=
  exists w', run_of (E := env) run = (Ret tt, w') /\ card w' = 0 /\
    (forall k, c_src (core w') k = c_src (core (sr_world run)) k) /\
    forall x, source_marks mg s x \/ agrees (c_dst (core (sr_world run))) (core (sr_world run)) x ->
      forall k, k / 512 = x -> c_dst (core w') k = c_src (core (sr_world run)) k.

Context {W : Type} `{!Builder W (list synchronizer)}.

(** What is left when the backup's thread has ended: DoBackup has returned,
    a status request is answered SUCCEEDED for the job and as before for the
    others, and the job is no longer in progress. *)
Definition ends_in_success (b : BackupManager (W := W)) (u : string) (th : backup_thread (Bk := list synchronizer))
    (b' : BackupManager (W := W)) (n : nat) (runs : list (sync_run (TM := TM) (TS := TS) (H := H))) (rounds : list (list co_op))
    (w : W) : Prop :=
  exists a t' c', bt_event_handler th = Some a /\
    coordinators b' !! bt_coordinator th = Some (new_BackupCoordinator (Z.of_nat n)) /\
    DoBackup (job_of (E := env) <$> runs) rounds a (tracker b', new_BackupCoordinator (Z.of_nat n)) = (Ret tt, (t', c')) /\
    let b'' := final (backup_thread_ends th t' c' w) b' in
    (exists reply, result (GetReply u) (tracker b'') = Ret (Some reply) /\ status reply = Some SUCCEEDED) /\
    (forall j, j <> u -> result (GetReply j) (tracker b'') = result (GetReply j) (tracker b)) /\
    in_progress_map_ b'' !! u = None.

Lemma started_succeeds b r u th b' a mg runs rounds w :
  let n := length (vectors r) in
  started b r u th b' a -> length (bt_backup th) = n ->
  (forall h p f, 0 <= ret (env h _ (SOpen p f))) -> Z.of_nat n < 2 ^ 32 ->
  mgr_inv mg -> Forall (usable mg) (bt_backup th) -> Forall (marks_fit mg) (bt_backup th) ->
  Forall2 (starts mg n) (bt_backup th) runs -> concat rounds = replicate n COFinished ->
  Forall2 (copies mg) (bt_backup th) runs /\ Forall (signals_unasked (env := env) n) runs /\
  ends_in_success b u th b' n runs rounds w.
Proof.
  intros n [Eu _ Hc Ea It Ma Mo] L Hopen Hn Hm Huse Hfit Hst Hr.
  assert (length runs = n) as Ln by (rewrite <- (Forall2_length _ _ _ Hst); exact L).
  assert (Forall (quiet_run (env := env) n) runs) as Hq.
  { eapply Forall2_Forall_r; [exact Hst|]. apply Forall_forall. intros s Hs run Hrun.
    rewrite Forall_forall in Huse, Hfit. eapply starts_quiet; eauto. }
  destruct (quiet_backup_succeeds (env := env) runs rounds a (tracker b')) as (Hsig & Hcopy & t' & c' & RD & [Er Eo] & reply & E1 & E2);
    rewrite ?Ln; try done; [by apply (ti_alloc _ It u)|].
  rewrite Ln in RD. rewrite Ln in Hsig. split_and!; [|done|].
  - apply Forall2_same_length_lookup_2; [by rewrite Ln|]. intros i s run Hs Hrun.
    destruct (Hcopy run) as (w' & Rw & Hz & Ha & Hsrc); [by eapply list_elem_of_lookup_2|].
    exists w'. split_and!; [done|done|done|]. intros x Hx k Hk. rewrite <- Hsrc. apply (Ha x); [|done].
    destruct Hx as [(st & Es & Hx)|Hx]; [left|by right].
    rewrite (st_store _ _ _ _ (Forall2_lookup_lr _ _ _ _ _ _ Hst Hs Hrun)) in Es. by injection Es as <-.
  - exists a, t', c'. split_and!; [done|done|done|]. cbn zeta. unfold backup_thread_ends, erase_job, final. run. cbn.
    rewrite Eu. unfold result, GetReply. run. rewrite Er, Ma. split_and!.
    + exists reply. cbn. by rewrite E1.
    + intros j Hj. specialize (Mo j Hj). unfold job_reply in Mo.
      destruct (reply_map_ (tracker b') !! j) as [c|] eqn:Ej; cbn in *; [|by rewrite Mo].
      rewrite Eo; [by rewrite Mo|]. intros ->. apply Hj. by eapply (ti_inj _ It).
    + apply lookup_delete_eq.
Qed.
End Runs.
