(* ===== verification/FullBackup.v ===== *)
(** * A full backup from the request to its end

    Composes the parts: StartBackup of the manager with the program's
    builder makes a synchronizer per device of a request and fills the
    stores with the sectors in use; the backup's thread runs DoBackup over
    them, each DoSync in a thread of its own at the shared coordinator; the
    status tracker says how it ended. *)

From S2P Require Import Prelude Machine Icl IclRef SectorStore TraceHandler Posix BlockDevice MountableDevice.
From S2P Require Import StatusTracker Coordinator FreezeHelper DeviceSynchronizer SyncSafety SyncRuns Tracing SectorManager.
From S2P Require Import ExtDevice Nbd Backup SyncTeam BackupBuilder BackupManager BackupRun.

Section Full.
Context {env : Env} {TM TS B H : Type} `{!IclMap TM, !IclMapLaws TM, !IclSet TS, !IclSetLaws TS}
  `{!CountHandler H, !CountHandlerLaws H}.
Context (Begin : IO (option Z) unit) (End_ : IO (option Z) bool).
Context (super_of : string -> ext_super) (bitmaps_of : string -> Ext2Bitmaps B).
Context (bitmaps_ok : forall p, Ext2BitmapsLaws B (Ext2Bitmaps0 := bitmaps_of p)).
Context (garbage : BlockDevice) (garbage1 garbage2 : list Z).
Abbreviation manager := (UnsyncedSectorManager TM TS).
Abbreviation start r u :=
  (StartBackup (Builder0 := BackupBuilder_builder Begin End_ super_of bitmaps_of garbage garbage1 garbage2) r u).
Implicit Types run : sync_run (TM := TM) (TS := TS) (H := H).

(** The sectors of a synchronizer's source that its filesystem uses. *)
Definition source_uses (s : synchronizer) (x : Z) : Prop :=
  sector_in_use (Ext2Bitmaps0 := bitmaps_of (path_ (source_base (sy_source s))))
    (super_of (path_ (source_base (sy_source s)))) x.

(** The filesystem of a source lies on the device, block by block. *)
Record filesystem_fits (s : synchronizer) : Prop := {
  ff_super : super_ok (super_of (path_ (source_base (sy_source s))));
  ff_size : 0 <= device_size_bytes_ (source_base (sy_source s)) <= 2 ^ 62;
  ff_blocks : exists spb, 1 <= spb < 2 ^ 22 /\ block_size_bytes_ (source_base (sy_source s)) = 512 * spb /\
    forall x, source_uses s x -> 0 <= x /\ 512 * (x + spb) <= device_size_bytes_ (source_base (sy_source s))
}.

Lemma filled_marks (mg : manager) s x : filled super_of bitmaps_of mg s -> source_marks mg s x <-> source_uses s x.
Proof.
  intros [_ (st & E & _ & Hx)]. rewrite <- (Hx x). unfold source_marks. rewrite E. split; [by intros (? & [= <-] & ?)|eauto].
Qed.

Lemma filled_marks_fit (mg : manager) s : filled super_of bitmaps_of mg s -> filesystem_fits s -> marks_fit mg s.
Proof.
  intros Hf [_ Hsize (spb & Hspb & Hbs & Hin)]. split; [done|]. exists spb. split; [done|]. split; [done|].
  intros x Hx. by apply Hin, (filled_marks mg).
Qed.

(** What StartBackup leaves when it starts a full backup. *)
Lemma full_started b r u th b' a :
  mgr_inv (builder b).1 -> is_full r = true ->
  started (Builder0 := BackupBuilder_builder Begin End_ super_of bitmaps_of garbage garbage1 garbage2) b r u th b' a ->
  NoDup ((fun s => dev_t_ (source_base (sy_source s))) <$> bt_backup th) -> Forall filesystem_fits (bt_backup th) ->
  length (bt_backup th) = length (vectors r) /\ mgr_inv (builder b').1 /\
  Forall (filled super_of bitmaps_of (builder b').1) (bt_backup th).
Proof.
  intros Hm Hf [_ Rc _ _ _ _ _] Hnd Hfit. rewrite Hf in Rc.
  destruct (create_synchronizers_full Begin End_ super_of bitmaps_of garbage garbage1 garbage2 bitmaps_ok _ _ _ _ _ Rc)
    as (new & E & L & Hfill). cbn [app] in E. rewrite E in *. split; [done|].
  apply Hfill; [done|done| |done]. eapply Forall_impl; [exact Hfit|]. by intros s [].
Qed.

End Full.

(** ** Two devices, two servers *)

(** A host with /dev/sda1 and /dev/sdb1, and NBD servers that greet; an NBD
    device is in use once its socket has been set. *)
Definition nbd_users (h : history) : nat :=
  length (filter (fun e => match e with Ev (SIoctl _ NBD_DO_IT) _ => true | _ => false end = true) h).

Definition host_env : Env := fun h T c =>
  match c in sys T return T with
  | SRealpath p => (Some (if String.eqb p "/dev/disk/by-uuid/bbbb" then "/dev/sdb1" else "/dev/sda1"), 0)
  | SLstat p => (0, 0, mkStat S_IFBLK (if String.eqb p "/dev/sda1" then 2049 else if String.eqb p "/dev/sdb1" then 2065
                   else if String.eqb p "/dev/nbd0" then 11008 else 11009))
  | SIoctlOut _ BLKGETSIZE64 => (0, 0, 65536)
  | SReaddir _ => ["."; ".."; "sda"; "nbd0"; "nbd1"]
  | SAccess p => if String.eqb p "/sys/block/nbd0/pid" && negb (Nat.eqb (nbd_users h) 0) then (0, 0) else (-1, ENOENT)
  | c' => server_env (fun k => good_greeting (Nat.modulo k 4)) h _ c'
  end.

(** Filesystems in which every third, or every fifth, block is allocated. *)
Definition bitmaps_every (k : Z) : Ext2Bitmaps (list bool) := {|
  allocated := fun b => b mod k =? 0;
  get_block_bitmap_range := fun start num => (fun i => (start + Z.of_nat i) mod k =? 0) <$> seq 0 (Z.to_nat num);
  test_bit := fun j l => default false (l !! Z.to_nat j)
|}.

Lemma bitmaps_every_laws k : Ext2BitmapsLaws (list bool) (Ext2Bitmaps0 := bitmaps_every k).
Proof.
  split. intros start num j Hj. cbn. rewrite list_lookup_fmap, lookup_seq_lt by lia. cbn. by rewrite Z2Nat.id by lia.
Qed.

Definition host_bitmaps (path : string) : Ext2Bitmaps (list bool) :=
  bitmaps_every (if String.eqb path "/dev/sdb1" then 5 else 3).

Definition full_request : StartBackupRequest :=
  mkRequest FULL_BACKUP [mkVector "aaaa" "backup.example" 10809; mkVector "bbbb" "backup.example" 10810].

Definition idle_manager : BackupManager :=
  new_BackupManager ((new_UnsyncedSectorManager : UnsyncedSectorManager ref_map ref_set), ([] : history)).

Definition full_start :=
  StartBackup (Builder0 := BackupBuilder_builder (env := host_env) (mret tt) always_frozen (fun _ => sample_super)
    host_bitmaps sample_device [] []) full_request "job1" idle_manager.

(** The thread of a synchronizer with a store; [dst] are the destination's
    bytes. *)
Definition thread_with (store : UnsyncedSectorStore ref_map ref_set) (dst : Z -> Z) (s : synchronizer)
    (script : list (list co_op)) : sync_run :=
  mkRun true 10 clock_schedule 60
    (mkWorld (mkCore (fun b => b mod 251) dst [] [] store 1000 false)
       (mkView (new_BackupCoordinator 2) script []) (mkDeviceStatus "" 0 0)
       (source_base (sy_source s)) (nb_base (sy_destination s)) [] no_faults 0) (Ret "uuid") (Ret "uuid").

Definition thread_run (dst : Z -> Z) (mg : UnsyncedSectorManager ref_map ref_set) (s : synchronizer)
    (script : list (list co_op)) : sync_run :=
  thread_with (default (new_UnsyncedSectorStore 0) (device_store mg (dev_t_ (source_base (sy_source s))))) dst s script.

(** What the start on this host gives, as far as the theorem looks at it. *)
Definition start_facts (th : backup_thread (Bk := list synchronizer)) (mg : UnsyncedSectorManager ref_map ref_set) :=
  (fun s => (path_ (source_base (sy_source s)), dev_t_ (source_base (sy_source s)),
             device_size_bytes_ (source_base (sy_source s)), block_size_bytes_ (source_base (sy_source s)),
             path_ (nb_base (sy_destination s)),
             (fun st => im_card (unsynced_sector_map_ st)) <$> device_store mg (dev_t_ (source_base (sy_source s)))))
    <$> bt_backup th.

Example full_start_facts :
  match full_start with
  | (Ret (u, th), b') => u = "job1" /\ start_facts th (builder b').1 =
      [("/dev/sda1", 2049, 65536, 1024, "/dev/nbd0", Some 10); ("/dev/sdb1", 2065, 65536, 1024, "/dev/nbd1", Some 6)]
  | _ => False
  end.
Proof. vm_compute. split; reflexivity. Qed.

Lemma sample_bounds k x :
  sector_in_use (Ext2Bitmaps0 := bitmaps_every k) sample_super x -> 0 <= x /\ 512 * (x + 2) <= 65536.
Proof.
  intros [?|(b & Hb & Hc & _ & Hx)]; [lia|]. cbn in Hb, Hc. change (sectors_per_block sample_super) with 2 in Hx.
  Z.to_euclidean_division_equations. lia.
Qed.

Lemma sample_super_ok : super_ok sample_super.
Proof. split; cbn; lia. Qed.

Lemma thread_starts dst mg s script st :
  device_store mg (dev_t_ (source_base (sy_source s))) = Some st -> concat script = [COFinished] ->
  im_card (unsynced_sector_map_ st) + Z.of_nat (length script) < 60 -> starts mg 2 s (thread_run dst mg s script).
Proof.
  intros Hs Hscript Hc. split; try exact clock_undisturbed; try done; unfold thread_run, thread_with, card; cbn [sr_world core c_store sr_fuel coordinator]; rewrite ?Hs.
  - done.
  - exists script. split_and!; [done|by rewrite Hscript|exact Hc].
  - by eexists.
Qed.


(** Different devices are needed: a request that names a device twice is
    accepted, because the devices of a request are put into a set before
    they are compared with the backups in progress.  Its two synchronizers
    then take intervals out of the one store of the device, for two
    destinations. *)
Definition duplicate_start :=
  StartBackup (Builder0 := BackupBuilder_builder (env := host_env) (mret tt) always_frozen (fun _ => sample_super)
      host_bitmaps sample_device [] [])
    (mkRequest FULL_BACKUP [mkVector "aaaa" "backup.example" 10809; mkVector "aaaa" "backup.example" 10810])
    "job1" idle_manager.

(** And so a destination can lack sectors in use while the job's status is
    SUCCEEDED: here the first thread has copied everything before the second
    one looks at the store. *)
Theorem duplicate_device_loses_data :
  match duplicate_start with
  | (Ret (_, th), b') =>
      match bt_backup th, bt_event_handler th with
      | [s1; s2], Some a =>
          let run1 := thread_run (fun _ => 0) (builder b').1 s1 [[]; []; []; []; []; [COFinished]] in
          let w1 := (run_of (E := host_env) (H := BlockDeviceStatus) run1).2 in
          let run2 := thread_with (c_store (core w1)) (fun _ => 0) s2 [[]; []; [COFinished]] in
          let w2 := (run_of (E := host_env) (H := BlockDeviceStatus) run2).2 in
          let '(o, (t', _)) := DoBackup (job_of (E := host_env) (H := BlockDeviceStatus) <$> [run1; run2])
            [[COFinished]; []; [COFinished]] a (tracker b', new_BackupCoordinator 2) in
          dev_t_ (source_base (sy_source s1)) = dev_t_ (source_base (sy_source s2)) /\
          (path_ (nb_base (sy_destination s1)), path_ (nb_base (sy_destination s2))) = ("/dev/nbd0", "/dev/nbd1") /\
          o = Ret tt /\ (status <$> replies t' !! a) = Some (Some SUCCEEDED) /\
          (c_dst (core w1) 514, c_dst (core w2) 514, c_src (core w2) 514) = (12, 0, 12)
      | _, _ => False
      end
  | _ => False
  end.
Proof. vm_compute. split_and!; reflexivity. Qed.
