(* ===== verification/IncrementalBackup.v ===== *)
(** * An incremental backup from the request to its end

    The builder makes a synchronizer per device of the request and leaves
    the stores as the tracers filled them; the backup copies what is marked
    in them.  If the destination had the source's bytes wherever nothing is
    marked, as the theorems on the life of a device ([BackupChain]) say, it
    is then a copy of the source. *)

From S2P Require Import Prelude Machine Icl IclRef SectorStore TraceHandler Posix BlockDevice MountableDevice.
From S2P Require Import StatusTracker Coordinator FreezeHelper DeviceSynchronizer SyncSafety SyncRuns Tracing SectorManager.
From S2P Require Import ExtDevice Nbd Backup SyncTeam BackupBuilder BackupManager BackupRun FullBackup.

Section Incremental.
Context {env : Env} {TM TS B H : Type} `{!IclMap TM, !IclMapLaws TM, !IclSet TS, !IclSetLaws TS}
  `{!CountHandler H, !CountHandlerLaws H}.
Context (Begin : IO (option Z) unit) (End_ : IO (option Z) bool).
Context (super_of : string -> ext_super) (bitmaps_of : string -> Ext2Bitmaps B).
Context (garbage : BlockDevice) (garbage1 garbage2 : list Z).
Abbreviation manager := (UnsyncedSectorManager TM TS).
Abbreviation start r u :=
  (StartBackup (Builder0 := BackupBuilder_builder Begin End_ super_of bitmaps_of garbage garbage1 garbage2) r u).
Implicit Types run : sync_run (TM := TM) (TS := TS) (H := H).

(** A sector is marked or it is not. *)
Lemma source_marks_dec (mg : manager) s x : source_marks mg s x \/ ~ source_marks mg s x.
Proof.
  unfold source_marks. destruct (device_store mg _) as [st|]; [|right; by intros (? & ? & _)].
  destruct (im_at (unsynced_sector_map_ st) x) eqn:E; [left; exists st; by rewrite E|].
  right. intros (st' & [= <-] & Hx). rewrite E in Hx. by destruct Hx.
Qed.

(** What StartBackup leaves when it starts an incremental backup. *)
Lemma incremental_started b r u th b' a :
  is_full r = false ->
  started (Builder0 := BackupBuilder_builder Begin End_ super_of bitmaps_of garbage garbage1 garbage2) b r u th b' a ->
  (builder b').1 = (builder b).1 /\ length (bt_backup th) = length (vectors r) /\
  Forall (usable (builder b).1) (bt_backup th).
Proof.
  intros Hf [_ Rc _ _ _ _ _]. rewrite Hf in Rc. unfold CreateBackup_op, BackupBuilder_builder, CreateBackup in Rc.
  destruct (create_synchronizers_incremental (B := B) Begin End_ super_of bitmaps_of garbage garbage1 garbage2
    (vectors r) [] (builder b)) as [K F]. rewrite Rc in K, F. split; [done|]. destruct (F _ eq_refl) as [Hu L]; done.
Qed.

End Incremental.

(** ** Two devices, written to since the last backup *)

Definition marked_store (i : SectorInterval) : UnsyncedSectorStore ref_map ref_set :=
  set_map (im_add im_empty i 900) (new_UnsyncedSectorStore VOLATILE_SECONDS).

Definition host_marked : UnsyncedSectorManager ref_map ref_set :=
  mkManager {[2049 := Some 0%nat; 2065 := Some 1%nat]}
    {[2049 := Some (mkEntry (mkDT 9 0 "sda1" []) 0); 2065 := Some (mkEntry (mkDT 10 0 "sdb1" []) 1)]}
    {[0%nat := marked_store (mkSI 4 6); 1%nat := marked_store (mkSI 10 13)]} 2.

Definition changes_request : StartBackupRequest :=
  mkRequest (OTHER_BACKUP 1) [mkVector "aaaa" "backup.example" 10809; mkVector "bbbb" "backup.example" 10810].

Definition changes_start :=
  StartBackup (Builder0 := BackupBuilder_builder (env := host_env) (mret tt) always_frozen (fun _ => sample_super)
    host_bitmaps sample_device [] []) changes_request "job2" (new_BackupManager (host_marked, ([] : history))).

Example changes_start_facts :
  match changes_start with
  | (Ret (u, th), b') => u = "job2" /\ start_facts th host_marked =
      [("/dev/sda1", 2049, 65536, 1024, "/dev/nbd0", Some 2); ("/dev/sdb1", 2065, 65536, 1024, "/dev/nbd1", Some 3)]
  | _ => False
  end.
Proof. vm_compute. split; reflexivity. Qed.

Lemma host_marked_inv : mgr_inv host_marked.
Proof.
  split; cbn.
  - intros d a. rewrite !lookup_insert_Some, !lookup_singleton_Some. naive_solver.
  - intros d e a. rewrite !lookup_insert_Some, !lookup_singleton_Some. naive_solver.
  - intros a [x Hx]. revert Hx. rewrite !lookup_insert_Some, !lookup_singleton_Some. naive_solver lia.
  - intros d t. rewrite !lookup_insert_Some, !lookup_singleton_Some. naive_solver.
  - intros a st. rewrite !lookup_insert_Some, !lookup_singleton_Some. naive_solver.
Qed.

(** The destination before the backup: the copy of before the writes. *)
Definition outdated (i : SectorInterval) : Z -> Z := fun b => if in_iv (b / 512) i then 0 else b mod 251.

Lemma marked_store_at i x : is_Some (im_at (unsynced_sector_map_ (marked_store i)) x) <-> in_iv x i = true.
Proof.
  unfold marked_store. cbn [unsynced_sector_map_ set_map]. rewrite im_add_at by lia. cbn [Z.eqb]. rewrite im_empty_at.
  destruct (in_iv x i); split; [done|by eexists|by intros []|done].
Qed.

Lemma marked_fits s dev i :
  dev_t_ (source_base (sy_source s)) = dev -> device_size_bytes_ (source_base (sy_source s)) = 65536 ->
  block_size_bytes_ (source_base (sy_source s)) = 1024 -> device_store host_marked dev = Some (marked_store i) ->
  (forall x, in_iv x i = true -> 0 <= x <= 126) -> marks_fit host_marked s.
Proof.
  intros Ed Es Eb Hd Hi. split; [rewrite Es; lia|]. exists 2. split; [lia|]. split; [done|]. rewrite Es.
  intros x (st & E & Hx). rewrite Ed, Hd in E. injection E as <-. apply marked_store_at, Hi in Hx. lia.
Qed.

Lemma marked_thread s dev i script :
  dev_t_ (source_base (sy_source s)) = dev -> device_store host_marked dev = Some (marked_store i) ->
  concat script = [COFinished] -> im_card (unsynced_sector_map_ (marked_store i)) + Z.of_nat (length script) < 60 ->
  starts host_marked 2 s (thread_run (outdated i) host_marked s script).
Proof. intros Ed Hd Hs Hc. apply (thread_starts _ _ _ _ (marked_store i)); [by rewrite Ed|done|done]. Qed.

