(* ===== verification/Requests.v ===== *)
(** * Requests and replies

    Models request_listener/: the framing of messages on the Unix domain
    socket (ipc_request_listener.cc, socket_reply_channel.cc), the request
    handler (request_handler.cc) and the listener's thread.  The messages'
    encoding is protobuf's, which the program only calls: parsing and
    serialising are parameters. *)

From S2P Require Import Prelude Machine Posix BlockDevice Nbd StatusTracker Coordinator BackupBuilder BackupManager.

(** ** Messages *)

Inductive request_type := RStartBackup | RStopBackup | RBackupStatus | ROther (value : Z).

Record Request := mkReq {
  req_type : request_type;
  start_backup_request : StartBackupRequest;
  stop_job_uuid : string;
  status_job_uuid : string
}.

Inductive reply_type := START_BACKUP | STOP_BACKUP | BACKUP_STATUS | ERROR.

Record Reply := mkRep {
  rep_type : option reply_type;
  start_backup_reply : option string;               (* job_uuid *)
  backup_status_reply : option BackupStatusReply;
  error_reply : option string                       (* short_error *)
}.

Definition empty_Reply : Reply := mkRep None None None None.
Definition set_type (t : reply_type) (r : Reply) : Reply :=
  mkRep (Some t) (start_backup_reply r) (backup_status_reply r) (error_reply r).
Definition set_job_uuid (u : string) (r : Reply) : Reply :=
  mkRep (rep_type r) (Some u) (backup_status_reply r) (error_reply r).
Definition set_status_reply (s : BackupStatusReply) (r : Reply) : Reply :=
  mkRep (rep_type r) (start_backup_reply r) (Some s) (error_reply r).
Definition set_short_error (e : string) (r : Reply) : Reply :=
  mkRep (rep_type r) (start_backup_reply r) (backup_status_reply r) (Some e).

(** ** Sockets *)

Definition SOCKET_BACKLOG : Z := 5.
Definition AF_UNIX : Z := 1.
Definition SUN_PATH_SIZE : Z := 108.
Definition MAX_MESSAGE : Z := 1 * 1024 * 1024.

Section Sockets.
Context {env : Env} {S : Type}.

(** strncpy copies as many bytes as the path has, whatever the size of
    sun_path. *)
Definition OpenSocket (ipc_socket_path : string) : IO S Z :=
  s ← call (SSocket AF_UNIX);
  if ret s <? 0 then throw (RequestListenerException "Unable to open socket") else
  u ← call (SUnlink ipc_socket_path);
  if negb (ret u =? 0) && negb (errno u =? ENOENT)
  then throw (RequestListenerException "Unable to remove socket path") else
  if SUN_PATH_SIZE <? Z.of_nat (String.length ipc_socket_path) then undef "write past the end of sun_path" else
  b ← call (SBind (ret s) ipc_socket_path);
  if negb (ret b =? 0) then throw (RequestListenerException "Unable to bind socket") else
  l ← call (SListen (ret s) SOCKET_BACKLOG);
  if negb (ret l =? 0) then throw (RequestListenerException "Unable to listen on socket") else
  mret (ret s).

Definition ConnectionIsReady (socket_fd timeout_millis : Z) : IO S bool :=
  r ← call (SPoll socket_fd timeout_millis);
  if ret r =? -1 then throw (RequestListenerException "Poll failure")
  else if ret r =? 0 then mret false
  else if ret r =? 1 then mret true
  else throw (RequestListenerException "Unexpected branch").

Definition GetNewConnection (socket_fd : Z) : IO S Z :=
  r ← call (SAccept socket_fd);
  if ret r <? 0 then throw (RequestListenerException "Unable to accept connection") else mret (ret r).
End Sockets.

(** ** Framing *)

Section Framing.
Context {env : Env} {S : Type}.
Context (ParseFromString : list Z -> Request) (SerializeAsString : Reply -> list Z).

(** [garbage] is what message_length holds before it is read into. *)
Definition ReadProtobufRequest (connection_fd : Z) (garbage : list Z) : IO S Request :=
  '(r1, b1) ← call (SRead connection_fd 4);
  if negb (ret r1 =? 4) then throw (RequestListenerException "Error during read from socket") else
  let message_length := Bytes.ntohl (Bytes.le_value (fill 4 b1 garbage)) in
  if MAX_MESSAGE <? message_length then throw (RequestListenerException "Message was too big") else
  '(r2, b2) ← call (SRecvAll connection_fd message_length);
  if negb (ret r2 =? i32 message_length) then throw (RequestListenerException "Error reading request") else
  mret (ParseFromString (fill (Z.to_nat message_length) b2 (replicate (Z.to_nat message_length) 0))).

(** SocketReplyChannel::SendReply; SerializeToFileDescriptor writes the
    encoded message and says whether it could.  What follows a write that
    answers -1 is what the code does when it sees the answer: a write to a
    connection the client has closed raises SIGPIPE first, which the daemon
    neither blocks nor ignores. *)
Definition SendReply (connection_fd : Z) (reply : Reply) : IO S unit :=
  let reply_size := Bytes.htonl (u32 (Z.of_nat (length (SerializeAsString reply)))) in
  w1 ← call (SWrite connection_fd (Bytes.le_bytes 4 reply_size));
  if ret w1 =? -1 then throw (runtime_error "Error writing to socket fd") else
  w2 ← call (SWrite connection_fd (SerializeAsString reply));
  if ret w2 =? -1 then throw (RequestListenerException "Error sending over reply channel") else
  mret tt.

Definition SocketReplyChannel_destroy (connection_fd : Z) : IO S unit :=
  call (SClose connection_fd) ;; mret tt.
End Framing.

(** ** The handler and the listener *)

Section Handler.
Context {env : Env} {W Bk : Type} `{!Builder W Bk}.
Context (ParseFromString : list Z -> Request) (SerializeAsString : Reply -> list Z).
Abbreviation manager := (@BackupManager W).

(** The listener's own calls are the history here.  Those of the manager and
    its builder are in the builder's state, with a history of their own
    ([BackupBuilder.BackupBuilder_builder], [NbdLife], [Tracing]). *)
Definition on_manager {A} (m : M manager A) : IO manager A := fun w =>
  let '(r, b) := m w.1 in (r, (b, w.2)).

(** The reply to a request; [uuid] is what make_uuid generates if it is
    called. *)
Definition make_reply (request : Request) (uuid : string) : M manager Reply :=
  try_catch
    (match req_type request with
     | RStartBackup =>
         started ← StartBackup (start_backup_request request) uuid;
         mret (set_job_uuid started.1 (set_type START_BACKUP empty_Reply))
     | RStopBackup =>
         StopBackup (stop_job_uuid request) ;;
         mret (set_type STOP_BACKUP empty_Reply)
     | RBackupStatus =>
         let job_uuid := status_job_uuid request in
         temp_status_reply ← on_status (GetReply job_uuid);
         mret (match temp_status_reply with
               | Some s => set_status_reply s (set_type BACKUP_STATUS empty_Reply)
               | None => set_short_error ("'" +:+ job_uuid +:+ "' doesn't exist") (set_type ERROR empty_Reply)
               end)
     | ROther _ => throw (RequestListenerException "Not implemented")
     end)
    (fun e => mret (set_short_error (what e) (set_type ERROR empty_Reply))).

Definition Handle (request : Request) (uuid : string) (connection_fd : Z) : IO manager unit :=
  reply ← on_manager (make_reply request uuid);
  SendReply SerializeAsString connection_fd reply.

(** One connection, from accept to the end of the reply channel's life:
    the channel is destroyed on every way out. *)
Definition serve (socket_fd : Z) (uuid : string) (garbage : list Z) : IO manager unit :=
  connection_fd ← GetNewConnection socket_fd;
  try_catch
    (request ← ReadProtobufRequest ParseFromString connection_fd garbage;
     Handle request uuid connection_fd ;;
     SocketReplyChannel_destroy connection_fd)
    (fun e => SocketReplyChannel_destroy connection_fd ;; throw e).

(** The listener's thread.  An iteration is what it reads of [do_stop_] at
    the head of the loop and after the poll, the next UUID and the
    uninitialised length; without further iterations the thread is still
    running. *)
Record iteration := mkIteration {
  stop_at_head : bool; stop_after_poll : bool; it_uuid : string; it_garbage : list Z
}.

Fixpoint listen_loop (socket_fd : Z) (its : list iteration) : IO manager bool :=
  match its with
  | [] => mret false
  | i :: rest =>
      if stop_at_head i then mret true else
      broke ← try_catch
        (ready ← ConnectionIsReady socket_fd 500;
         if ready : bool then
           if stop_after_poll i then mret true
           else serve socket_fd (it_uuid i) (it_garbage i) ;; mret false
         else mret false)
        (fun _ => mret false);
      if broke : bool then mret true else listen_loop socket_fd rest
  end.

(** Stop, called with the socket of the listener. *)
Definition IpcRequestListener_Stop (socket_fd : Z) : IO manager unit :=
  call (SShutdown socket_fd) ;;
  call (SClose socket_fd) ;;
  mret tt.
End Handler.

(** ** Properties *)

Lemma open_fds_read fd n r h : open_fds (Ev (SRead fd n) r :: h) = open_fds h.
Proof. done. Qed.

Lemma open_fds_recv fd n r h : open_fds (Ev (SRecvAll fd n) r :: h) = open_fds h.
Proof. done. Qed.

Lemma open_fds_write fd b r h : open_fds (Ev (SWrite fd b) r :: h) = open_fds h.
Proof. done. Qed.

Lemma open_fds_poll fd t r h : open_fds (Ev (SPoll fd t) r :: h) = open_fds h.
Proof. done. Qed.

Lemma open_fds_unlink p r h : open_fds (Ev (SUnlink p) r :: h) = open_fds h.
Proof. done. Qed.

Lemma open_fds_bind fd p r h : open_fds (Ev (SBind fd p) r :: h) = open_fds h.
Proof. done. Qed.

Lemma open_fds_listen fd n r h : open_fds (Ev (SListen fd n) r :: h) = open_fds h.
Proof. done. Qed.

Lemma open_fds_socket f r h :
  open_fds (Ev (SSocket f) r :: h) = if 0 <=? ret r then {[ret r]} ∪ open_fds h else open_fds h.
Proof. done. Qed.

Lemma open_fds_accept f r h :
  open_fds (Ev (SAccept f) r :: h) = if 0 <=? ret r then {[ret r]} ∪ open_fds h else open_fds h.
Proof. done. Qed.

#[export] Hint Rewrite open_fds_read open_fds_recv open_fds_write open_fds_poll open_fds_unlink
  open_fds_bind open_fds_listen : agent.

Section FramingProps.
Context {E : Env} {S : Type}.
Context (parse : list Z -> Request) (serialize : Reply -> list Z).

Lemma ntohl_range z : 0 <= Bytes.ntohl z < 2 ^ 32.
Proof.
  unfold Bytes.ntohl, Bytes.bswap.
  pose proof (Bytes.le_value_range (rev (Bytes.le_bytes 4 z)) (Forall_rev (Bytes.le_bytes_range 4 z))) as H.
  rewrite length_rev, Bytes.length_le_bytes in H. exact H.
Qed.

(** The bytes a history wrote to a descriptor, in order: of every call as
    many as it answered. *)
Fixpoint sent (fd : Z) (h : history) : list Z :=
  match h with
  | [] => []
  | Ev c r :: h' =>
      sent fd h' ++
      match c in sys T return T -> list Z with
      | SWrite fd' bytes => fun r => if fd' =? fd then take (Z.to_nat (ret r)) bytes else []
      | _ => fun _ => []
      end r
  end.

(** A write fails or takes all its bytes.  SerializeToFileDescriptor sees
    to it for the message; for the four bytes of the length SendReply relies
    on it, since it looks only for -1. *)
Definition whole_writes : Prop :=
  forall h fd bytes, let r := ret (E h _ (SWrite fd bytes)) in r = -1 \/ r = Z.of_nat (length bytes).

(** What SendReply puts on the wire: the length in network order, then the
    message. *)
Lemma SendReply_sent fd reply (s : S) h w :
  whole_writes ->
  SendReply serialize fd reply (s, h) = (Ret tt, w) ->
  sent fd w.2 = sent fd h ++ Bytes.be_bytes 4 (u32 (Z.of_nat (length (serialize reply)))) ++ serialize reply.
Proof.
  intros Hw. rewrite <- (Bytes.le_bytes_bswap 4). unfold SendReply, Bytes.htonl.
  generalize (Bytes.le_bytes 4 (Bytes.bswap 4 (u32 (Z.of_nat (length (serialize reply)))))) as header.
  intros header. io. destruct (Z.eqb_spec (ret (E h _ (SWrite fd header))) (-1)) as [|E1]; io; [done|].
  set (h1 := Ev (SWrite fd header) _ :: h).
  destruct (Z.eqb_spec (ret (E h1 _ (SWrite fd (serialize reply)))) (-1)) as [|E2]; io; [done|]. intros [= <-]. cbn [snd sent h1].
  destruct (Hw h fd header) as [X1|X1], (Hw h1 fd (serialize reply)) as [X2|X2]; try done. rewrite X1, X2.
  by rewrite Z.eqb_refl, !Nat2Z.id, !firstn_all, app_assoc.
Qed.

Lemma fill_exact n bs old : length bs = n -> length old = n -> fill n bs old = bs.
Proof.
  intros H1 H2. unfold fill. rewrite firstn_all2 by lia. rewrite skipn_all2 by lia. apply app_nil_r.
Qed.

(** C25: framing.  What SendReply wrote for a reply of at most 1 MB, on a
    connection whose writes are not cut short, read back over a connection
    that delivers those bytes, is the encoding of that reply: the length and
    the message come through as they were. *)
Theorem framing_roundtrip fd fd' reply garbage (s s' : S) w k :
  whole_writes ->
  let body := serialize reply in
  Z.of_nat (length body) <= MAX_MESSAGE -> length garbage = 4%nat ->
  SendReply serialize fd reply (s, []) = (Ret tt, w) ->
  let n := Z.of_nat (length body) in
  let e1 := (4, 0, take 4 (sent fd w.2)) in
  E k _ (SRead fd' 4) = e1 ->
  E (Ev (SRead fd' 4) e1 :: k) _ (SRecvAll fd' n) = (n, 0, drop 4 (sent fd w.2)) ->
  result (ReadProtobufRequest parse fd' garbage) (s', k) = Ret (parse body).
Proof.
  intros Hw body Hlen Hg HS n e1 H1 H2. apply SendReply_sent in HS; [|done]. cbn [sent app] in HS. fold body n in HS.
  assert (u32 n = n) as Hu. { apply u32_id. unfold is_u32, MAX_MESSAGE in *. lia. }
  rewrite Hu in HS. unfold e1 in *. clear e1.
  assert (length (Bytes.be_bytes 4 n) = 4%nat) as L4.
  { unfold Bytes.be_bytes. by rewrite length_rev, Bytes.length_le_bytes. }
  rewrite HS, (take_app_length' _ _ 4) in * by done. rewrite (drop_app_length' _ _ 4) in H2 by done.
  unfold result, ReadProtobufRequest. io. rewrite H1. io. cbn [ret fst snd Z.eqb Pos.eqb negb].
  rewrite (fill_exact 4) by done.
  assert (Bytes.ntohl (Bytes.le_value (Bytes.be_bytes 4 n)) = n) as Hn.
  { rewrite <- Bytes.le_bytes_bswap, Bytes.le_value_bytes. change (256 ^ Z.of_nat 4) with (2 ^ 32).
    change (Bytes.bswap 4 n) with (Bytes.ntohl n). rewrite Z.mod_small by apply ntohl_range.
    apply Bytes.bswap_involutive. change (256 ^ Z.of_nat 4) with (2 ^ 32). unfold MAX_MESSAGE in *. lia. }
  rewrite Hn. rewrite (proj2 (Z.ltb_ge MAX_MESSAGE n) Hlen). io. rewrite H2. io. cbn [ret fst snd].
  rewrite i32_id by (unfold MAX_MESSAGE in *; lia). rewrite Z.eqb_refl. cbn [negb]. io.
  unfold n. rewrite Nat2Z.id, fill_exact; [done|done|apply length_replicate].
Qed.

(** C26: the size limit.  Whatever a client sends, reading a request asks for
    at most 1 MB, and either throws or parses exactly the number of bytes
    that were announced; a request whose announced length is too large or
    whose length cannot be read is refused without reading further. *)
Theorem request_size_bounded fd garbage (s : S) h :
  let '(r1, b1) := E h _ (SRead fd 4) in
  let h1 := Ev (SRead fd 4) (r1, b1) :: h in
  let n := Bytes.ntohl (Bytes.le_value (fill 4 b1 garbage)) in
  let '(r2, b2) := E h1 _ (SRecvAll fd n) in
  let run := ReadProtobufRequest parse fd garbage (s, h) in
  ((ret r1 <> 4 \/ MAX_MESSAGE < n) /\ (exists e, run = (Throw e, (s, h1))))
  \/ (ret r1 = 4 /\ 0 <= n <= MAX_MESSAGE /\ run.2 = (s, Ev (SRecvAll fd n) (r2, b2) :: h1) /\
      ((ret r2 <> n /\ exists e, run.1 = Throw e) \/
       (ret r2 = n /\ exists bytes, length bytes = Z.to_nat n /\ run.1 = Ret (parse bytes)))).
Proof.
  destruct (E h _ (SRead fd 4)) as [r1 b1] eqn:E1. set (n := Bytes.ntohl _).
  destruct (E (Ev (SRead fd 4) (r1, b1) :: h) _ (SRecvAll fd n)) as [r2 b2] eqn:E2. unfold ReadProtobufRequest. io. rewrite E1. io. fold n.
  rewrite E2. destruct (Z.eqb_spec (ret r1) 4) as [H4|H4]; cbn [negb]; [|left; split; [by left|by eexists]].
  destruct (Z.ltb_spec MAX_MESSAGE n) as [Hn|Hn]; [left; split; [by right|by eexists]|].
  right. pose proof (ntohl_range (Bytes.le_value (fill 4 b1 garbage))) as Hr. fold n in Hr.
  split_and!; [done|lia|done|..].
  - io. rewrite E2. io. by case_bool.
  - io. rewrite E2. io. rewrite i32_id by (unfold MAX_MESSAGE in *; lia).
    destruct (Z.eqb_spec (ret r2) n) as [H2|H2]; cbn [negb]; [right|left]; (split; [done|]); eexists; [|done].
    split; [|done]. unfold fill. rewrite length_app, length_skipn, length_replicate.
    pose proof (length_firstn (Z.to_nat n) b2) as Hf. lia.
Qed.
End FramingProps.

Section SocketProps.
Context {E : Env} {S : Type}.
Hypothesis Hfresh : fresh_fds E.

Lemma OpenSocket_run path (s : S) h o s' h' :
  OpenSocket path (s, h) = (o, (s', h')) ->
  (exists fd, o = Ret fd /\ (fd ∉ open_fds h) /\ open_fds h' = {[fd]} ∪ open_fds h) \/
  (o = Throw (RequestListenerException "Unable to open socket") /\ open_fds h' = open_fds h) \/
  (((exists e, o = Throw e) \/ exists x, o = Undef x) /\
     exists fd, (fd ∉ open_fds h) /\ open_fds h' = {[fd]} ∪ open_fds h).
Proof.
  destruct Hfresh as (_ & Hs & _). specialize (Hs h AF_UNIX). cbn zeta in Hs.
  unfold OpenSocket. io. destruct (E h _ (SSocket AF_UNIX)) as [fd en] eqn:Es. cbn [ret fst] in Hs |- *.
  destruct Hs as [->|[H0 Hn]].
  { cbn. intros [= <- <- <-]. right. left. split; [done|]. by rewrite open_fds_socket. }
  assert (open_fds (Ev (SSocket AF_UNIX) (fd, en) :: h) = {[fd]} ∪ open_fds h) as Ho.
  { rewrite open_fds_socket. cbn [ret fst]. by rewrite (proj2 (Z.leb_le 0 fd) H0). }
  rewrite (proj2 (Z.ltb_ge fd 0) H0). io.
  repeat (case_bool; io); intros [= <- <- <-]; autorewrite with agent; rewrite Ho;
    first [right; right; split; [by eauto|by exists fd] | left; by exists fd].
Qed.

(** Opening the socket.  On success the new descriptor is open, and it is
    the one returned.  A failure after socket() leaves the descriptor open
    with nobody who knows it; the only failure that leaks nothing is that
    of socket() itself. *)
Theorem open_socket_spec path (s : S) h o s' h' :
  OpenSocket path (s, h) = (o, (s', h')) ->
  (exists fd, o = Ret fd /\ (fd ∉ open_fds h) /\ open_fds h' = {[fd]} ∪ open_fds h) \/
  (o = Throw (RequestListenerException "Unable to open socket") /\ open_fds h' = open_fds h) \/
  (((exists e, o = Throw e) \/ exists x, o = Undef x) /\
     exists fd, (fd ∉ open_fds h) /\ open_fds h' = {[fd]} ∪ open_fds h).
Proof. apply OpenSocket_run. Qed.
End SocketProps.

Section HandlerProps.
Context {E : Env} {W Bk : Type} `{!Builder W Bk}.
Context (parse : list Z -> Request) (serialize : Reply -> list Z).
Abbreviation manager := (@BackupManager W).

Definition error_Reply (e : string) : Reply := mkRep (Some ERROR) None None (Some e).

(** What the handler answers. *)
Definition answer (b : manager) (request : Request) (uuid : string) : outcome Reply :=
  match req_type request with
  | RStartBackup =>
      match result (StartBackup (start_backup_request request) uuid) b with
      | Ret p => Ret (mkRep (Some START_BACKUP) (Some p.1) None None)
      | Throw e => Ret (error_Reply (what e))
      | Abort x => Abort x
      | Undef x => Undef x
      | OutOfFuel => OutOfFuel
      end
  | RStopBackup =>
      Ret (if decide (is_Some (in_progress_map_ b !! stop_job_uuid request))
           then mkRep (Some STOP_BACKUP) None None None else error_Reply "Job not running")
  | RBackupStatus =>
      Ret (match job_reply (tracker b) (status_job_uuid request) with
           | Some st => mkRep (Some BACKUP_STATUS) None (Some st) None
           | None => error_Reply ("'" +:+ status_job_uuid request +:+ "' doesn't exist")
           end)
  | ROther _ => Ret (error_Reply "Not implemented")
  end.

Lemma make_reply_answer b request uuid : result (make_reply request uuid) b = answer b request uuid.
Proof.
  unfold result, make_reply, answer, try_catch. destruct (req_type request).
  - rewrite bind_unfold. unfold result. by destruct (StartBackup _ uuid b) as [[]].
  - unfold StopBackup. run. destruct (in_progress_map_ b !! stop_job_uuid request) as [[]|] eqn:Ej.
    + rewrite decide_True by eauto. done.
    + rewrite decide_False by (intros [? ?]; done). done.
  - unfold on_status, zoom, GetReply. run.
    unfold job_reply. by destruct (reply_map_ (tracker b) !! status_job_uuid request ≫= _).
  - done.
Qed.

(** C27: every request is answered.  Whatever the request asks for and
    whatever the manager throws, the handler sends exactly one reply on the
    request's connection: the job's UUID, the acknowledgement or a copy of
    the job's status when there is one, and otherwise an error reply with
    the text of the exception.  Only the manager dying keeps a reply from
    being sent. *)
Theorem every_request_is_answered request uuid fd (b : manager) h reply :
  answer b request uuid = Ret reply ->
  exists b', Handle serialize request uuid fd (b, h) = SendReply serialize fd reply (b', h) /\
    (req_type request <> RStartBackup -> req_type request <> RStopBackup -> b' = b).
Proof.
  intros Ha. pose proof (make_reply_answer b request uuid) as Hm. rewrite Ha in Hm. unfold result in Hm.
  destruct (make_reply request uuid b) as [o b'] eqn:R. cbn in Hm. subst o.
  exists b'. split; [unfold Handle; rewrite bind_unfold; unfold on_manager; cbn [fst snd]; by rewrite R|].
  intros Hn1 Hn2. revert R. unfold make_reply, try_catch. destruct (req_type request); try done.
  - unfold on_status, zoom, GetReply. run. intros [= _ <-]. by destruct b.
  - by intros [= _ <-].
Qed.

Hypothesis Hfresh : fresh_fds E.

Lemma send_fds {S} fd reply (w : S * history) : open_fds (SendReply serialize fd reply w).2.2 = open_fds w.2.
Proof. destruct w. unfold SendReply. io. repeat (case_bool; io); done. Qed.

Lemma read_fds {S} fd g (w : S * history) : open_fds (ReadProtobufRequest parse fd g w).2.2 = open_fds w.2.
Proof.
  destruct w as [s h]. unfold ReadProtobufRequest. io. destruct (E h _ (SRead fd 4)) as [r1 b1]. io.
  repeat (case_bool; io); try done. destruct (E _ _ (SRecvAll fd _)) as [r2 b2]. io. by case_bool.
Qed.

Lemma handle_fds request uuid fd (w : manager * history) :
  open_fds (Handle serialize request uuid fd w).2.2 = open_fds w.2.
Proof.
  unfold Handle. rewrite bind_unfold. unfold on_manager.
  destruct (make_reply request uuid w.1) as [[r|?|?|?|] b']; try done. by rewrite send_fds.
Qed.

(** One connection: its descriptor is gone afterwards. *)
Lemma serve_fds sock uuid g (w w' : manager * history) o :
  serve parse serialize sock uuid g w = (o, w') -> (exists x, o = Ret x) \/ (exists e, o = Throw e) ->
  open_fds w'.2 = open_fds w.2.
Proof.
  destruct Hfresh as (_ & _ & Ha & _). destruct w as [b h]. specialize (Ha h sock). cbn zeta in Ha.
  unfold serve, GetNewConnection. io. destruct (E h _ (SAccept sock)) as [fd en]. cbn [ret fst] in Ha |- *.
  destruct Ha as [->|[H0 Hn]]. { cbn. intros [= <- <-] _. cbn. by rewrite open_fds_accept. }
  rewrite (proj2 (Z.ltb_ge fd 0) H0). io. set (h1 := Ev (SAccept sock) (fd, en) :: h).
  assert (open_fds h1 = {[fd]} ∪ open_fds h) as Ho.
  { unfold h1. rewrite open_fds_accept. cbn [ret fst]. by rewrite (proj2 (Z.leb_le 0 fd) H0). }
  assert (forall X, X = open_fds h1 -> X ∖ {[fd]} = open_fds h) as Hc by (intros X ->; rewrite Ho; set_solver).
  unfold try_catch. rewrite bind_unfold. pose proof (read_fds fd g (b, h1)) as Hr.
  destruct (ReadProtobufRequest parse fd g (b, h1)) as [[q|e|?|?|] w1]; cbn [snd] in Hr;
    [| |by intros [= <- <-] [[? ?]|[? ?]]..].
  - rewrite bind_unfold. pose proof (handle_fds q uuid fd w1) as Hh.
    destruct (Handle serialize q uuid fd w1) as [[[]|e|?|?|] w2]; cbn [snd] in Hh;
      [| |by intros [= <- <-] [[? ?]|[? ?]]..]; unfold SocketReplyChannel_destroy; io;
      intros [= <- <-] _; cbn [snd]; rewrite open_fds_close; apply Hc; congruence.
  - unfold SocketReplyChannel_destroy. io. intros [= <- <-] _. cbn [snd]. rewrite open_fds_close. by apply Hc.
Qed.

Lemma listen_loop_run sock its (w w' : manager * history) o :
  listen_loop parse serialize sock its w = (o, w') ->
  (forall e, o <> Throw e) /\ ((exists x, o = Ret x) -> open_fds w'.2 = open_fds w.2).
Proof.
  revert w. induction its as [|i its IH]; intros w; cbn [listen_loop]; [by intros [= <- <-]|].
  case_bool; [by intros [= <- <-]|]. rewrite bind_unfold. unfold try_catch. rewrite bind_unfold.
  assert (exists b1 o1 w1, ConnectionIsReady sock 500 w = (o1, w1) /\ open_fds w1.2 = open_fds w.2 /\
    (o1 = Ret b1 \/ exists e, o1 = Throw e)) as (b1 & o1 & w1 & -> & Hp & Ho1).
  { exists (negb (ret (E w.2 _ (SPoll sock 500)) =? 0)). unfold ConnectionIsReady. io.
    set (r := ret _). destruct (Z.eqb_spec r (-1)); [by eexists _, _; split_and!; [|..|right; eexists]|].
    destruct (Z.eqb_spec r 0); [by eexists _, _; split_and!; [|..|left]|].
    case_bool; eexists _, _; split_and!; try done; [by left|by right; eexists]. }
  destruct Ho1 as [->|[e ->]].
  - destruct b1; [|run; intros R; rewrite <- Hp; by apply IH].
    case_bool; [by intros [= <- <-]|]. rewrite bind_unfold.
    pose proof (serve_fds sock (it_uuid i) (it_garbage i) w1) as Hserve.
    destruct (serve _ _ _ _ _ w1) as [[x|e|?|?|] w2]; run; intros R;
      [| |by injection R as <- <-; split; [|intros [? ?]]..];
      rewrite <- Hp, <- (Hserve w2 _ eq_refl) by eauto; by apply IH.
  - run. intros R. rewrite <- Hp. by apply IH.
Qed.

(** *** Nothing a client sends ends the process

    As long as the builder returns or throws. *)
Definition builder_returns : Prop :=
  forall vs full (w : W), (exists k, (CreateBackup_op vs full w).1 = Ret k) \/ exists e, (CreateBackup_op vs full w).1 = Throw e.

Lemma StartBackup_returns r u (b : manager) : builder_returns -> returns (StartBackup r u b).1.
Proof.
  intros Hb. unfold StartBackup. run. case_bool; [done|]. case_bool; [done|]. unfold make_coordinator. run.
  unfold on_status, zoom, CreateEventHandler. run. cbn [tracker].
  assert (forall h (b1 : manager), returns ((AddToInProgressSet u r (next_coordinator b) ;;
    backup ← try_catch (on_builder (CreateBackup_op (vectors r) (is_full r))) (fun e => erase_job u ;; throw e);
    mret (u, mkThread u backup h (next_coordinator b))) b1).1) as Hgo.
  { intros h b1. unfold AddToInProgressSet. run. case_bool; [done|]. run. unfold try_catch, on_builder, zoom. run.
    match goal with |- context [CreateBackup_op ?vs ?full ?w] => pose proof (Hb vs full w) as Hc end.
    destruct (CreateBackup_op _ _ _) as [o w']. cbn in Hc. by destruct Hc as [[k ->]|[e ->]]. }
  destruct (reply_map_ (tracker b) !! u); run; apply Hgo.
Qed.

Lemma make_reply_run request u (b : manager) :
  builder_returns -> bm_inv b -> exists reply b', make_reply request u b = (Ret reply, b') /\ bm_inv b'.
Proof.
  intros Hb Hi. unfold make_reply, try_catch. destruct (req_type request).
  - pose proof (StartBackup_returns (start_backup_request request) u b Hb) as Hr.
    pose proof (StartBackup_inv b (start_backup_request request) u Hi) as Hi'. run.
    destruct (StartBackup _ _ b) as [[x|e|?|?|] b']; try done; run; by eexists _, _.
  - unfold StopBackup. run. destruct (in_progress_map_ b !! stop_job_uuid request) as [[D a]|]; run; eexists _, _;
      (split; [done|]); [by apply cancel_inv|done].
  - unfold on_status, zoom, GetReply. run. eexists _, _. split; [done|]. by destruct b.
  - run. by eexists _, _.
Qed.

Lemma read_request_run fd garbage (b : manager) h :
  exists o h', ReadProtobufRequest parse fd garbage (b, h) = (o, (b, h')) /\ returns o.
Proof.
  unfold ReadProtobufRequest. io. destruct (E h _ (SRead fd 4)) as [r1 b1]. io.
  case_bool; [by eexists _, _|]. case_bool; [by eexists _, _|]. io.
  match goal with |- context [E ?k _ (SRecvAll fd ?n)] => destruct (E k _ (SRecvAll fd n)) as [r2 b2] end. io.
  case_bool; by eexists _, _.
Qed.

Lemma serve_run sock u garbage (b : manager) h :
  builder_returns -> bm_inv b ->
  exists o b' h', serve parse serialize sock u garbage (b, h) = (o, (b', h')) /\ returns o /\ bm_inv b'.
Proof.
  intros Hb Hi. unfold serve, GetNewConnection. io. case_bool; [by eexists _, _, _|]. io.
  match goal with |- context [try_catch ?m ?k (b, ?h0)] => assert (exists o b' h', m (b, h0) = (o, (b', h')) /\ returns o /\ bm_inv b')
    as (o & b' & h' & R & Ho & Hi') end.
  { rewrite bind_unfold.
    match goal with |- context [ReadProtobufRequest parse ?fd ?g (b, ?k)] => destruct (read_request_run fd g b k) as (o & h1 & R & Ho) end.
    unfold history in R. rewrite R. destruct o as [request|e|?|?|]; try done; [|by eexists _, _, _].
    rewrite bind_unfold. unfold Handle, on_manager. rewrite bind_unfold. cbn [fst snd].
    destruct (make_reply_run request u b Hb Hi) as (reply & b' & Rm & Hi'). rewrite Rm.
    unfold SendReply. io. case_bool; io; [by eexists _, _, _|].
    case_bool; io; [by eexists _, _, _|]. unfold SocketReplyChannel_destroy. io. by eexists _, _, _. }
  unfold try_catch. rewrite R. destruct o as [[]|?|?|?|]; try done; unfold SocketReplyChannel_destroy; io; by eexists _, _, _.
Qed.

Lemma listen_loop_returns sock its (b : manager) h :
  builder_returns -> bm_inv b ->
  exists stopped b' h', listen_loop parse serialize sock its (b, h) = (Ret stopped, (b', h')) /\ bm_inv b'.
Proof.
  intros Hb. revert b h. induction its as [|i its IH]; intros b h Hi; cbn [listen_loop]; [by eexists _, _, _|].
  case_bool; [by eexists _, _, _|]. rewrite bind_unfold. unfold try_catch. rewrite bind_unfold. unfold ConnectionIsReady. io.
  case_bool; [by io; apply IH|]. case_bool; [by io; apply IH|]. case_bool; io; [|by apply IH].
  case_bool; [by io; eexists _, _, _|]. io.
  match goal with |- context [serve _ _ ?s ?u ?g (b, ?k)] => destruct (serve_run s u g b k Hb Hi) as (o & b' & h' & R & Ho & Hi') end.
  unfold history in R. rewrite R. destruct o; try done; io; by apply IH.
Qed.

(** C28: the listener's thread.  No exception, from the socket, from a
    malformed request, from the handler or from sending the reply, ends the
    loop; and after every connection, however it went, the process holds
    the descriptors it held before: connections are served one at a time
    and each is closed. *)
Theorem listener_survives_and_leaks_nothing sock its (w w' : manager * history) o :
  listen_loop parse serialize sock its w = (o, w') ->
  (forall e, o <> Throw e) /\ ((exists x, o = Ret x) -> open_fds w'.2 = open_fds w.2).
Proof. apply listen_loop_run. Qed.
End HandlerProps.

(** ** Runs *)

(** A toy encoding: a status request for the job whose name is the message;
    a reply is its error text. *)
Definition toy_parse (bytes : list Z) : Request :=
  mkReq RBackupStatus (mkRequest FULL_BACKUP [])
    "" (String.string_of_list_ascii ((fun b => Ascii.ascii_of_N (Z.to_N b)) <$> bytes)).

Definition toy_serialize (r : Reply) : list Z :=
  match error_reply r with
  | Some e => (fun a => Z.of_N (Ascii.N_of_ascii a)) <$> String.list_ascii_of_string e
  | None => [0]
  end.

#[local] Existing Instance simple_builder.

(** A connection that delivers the given bytes. *)
Definition stream_env (stream : list Z) : Env := fun h T c =>
  match c in sys T return T with
  | SRead _ n => (n, 0, take (Z.to_nat n) stream)
  | SRecvAll _ n => (n, 0, drop 4 stream)
  | c' => working_env h _ c'
  end.

Definition sample_reply : Reply := error_Reply "job".

Definition wire : list Z := [0; 0; 0; 3; 106; 111; 98].

Lemma framing_roundtrip_witness :
  result (ReadProtobufRequest (env := stream_env wire) toy_parse 7 (replicate 4 9)) (tt, []) =
    Ret (toy_parse [106; 111; 98]).
Proof.
  apply (framing_roundtrip (E := stream_env wire) toy_parse toy_serialize 5 7 sample_reply (replicate 4 9) tt tt
    (final (SendReply (env := stream_env wire) toy_serialize 5 sample_reply) (tt, []))).
  - intros h fd bytes. right. reflexivity.
  - vm_compute. discriminate.
  - reflexivity.
  - reflexivity.
  - reflexivity.
  - reflexivity.
Defined.

Lemma stream_env_fresh stream : fresh_fds (stream_env stream).
Proof. exact working_env_fresh. Qed.

Lemma open_socket_spec_witness :
  exists fd, result (OpenSocket (env := working_env) "/var/run/dattod.sock") (tt, []) = Ret fd /\
    open_fds (final (OpenSocket (env := working_env) "/var/run/dattod.sock") (tt, [])).2 = {[fd]} ∪ ∅.
Proof.
  destruct (open_socket_spec (E := working_env) working_env_fresh "/var/run/dattod.sock" tt [] (Ret 3) tt
    (final (OpenSocket (env := working_env) "/var/run/dattod.sock") (tt, [])).2 eq_refl)
    as [(fd & E1 & _ & E2)|[[E1 _]|[[[e E1]|[x E1]] _]]]; [|discriminate E1..].
  exists fd. split; [exact E1|exact E2].
Defined.

(** A bind that fails: the socket stays open. *)
Definition bound_env : Env := fun h T c =>
  match c in sys T return T with
  | SBind _ _ => (-1, 98)
  | c' => working_env h _ c'
  end.

Example bind_failure_leaks :
  result (OpenSocket (env := bound_env) "/var/run/dattod.sock") (tt, []) =
    Throw (RequestListenerException "Unable to bind socket") /\
  open_fds (final (OpenSocket (env := bound_env) "/var/run/dattod.sock") (tt, [])).2 = {[3]}.
Proof. split; [reflexivity|vm_compute; reflexivity]. Qed.

Definition status_request : Request := toy_parse [106; 111; 98; 57].

Lemma every_request_is_answered_witness :
  exists b', Handle (env := working_env) toy_serialize status_request "u" 5 (one_backup, []) =
    SendReply (env := working_env) toy_serialize 5 (error_Reply "'job9' doesn't exist") (b', []).
Proof.
  destruct (every_request_is_answered (E := working_env) toy_serialize status_request "u" 5 one_backup []
    (error_Reply "'job9' doesn't exist")) as (b' & H & _).
  - vm_compute. reflexivity.
  - exists b'. exact H.
Defined.

Definition two_iterations : list iteration :=
  [mkIteration false false "u" (replicate 4 9); mkIteration false false "v" (replicate 4 9);
   mkIteration true false "" []].

Lemma listener_survives_and_leaks_nothing_witness :
  let w' := final (listen_loop (env := stream_env wire) toy_parse toy_serialize 3 two_iterations) (one_backup, []) in
  open_fds w'.2 = open_fds [].
Proof.
  apply (listener_survives_and_leaks_nothing (E := stream_env wire) toy_parse toy_serialize (stream_env_fresh wire) 3
    two_iterations (one_backup, []) (final (listen_loop (env := stream_env wire) toy_parse toy_serialize 3 two_iterations) (one_backup, []))
    (Ret true)).
  - vm_compute. reflexivity.
  - eexists. reflexivity.
Defined.
