(* ===== verification/Session.v ===== *)
(** * What a client sees of its backups

    Composes the request handler, the backup manager, the threads of the
    backups and the status tracker: a session is any sequence of requests,
    of writes of the backups' threads to their status messages, and of ends
    of such threads.  The theorems are about the answers to status
    requests, the only view of a backup that a client has. *)

From S2P Require Import Prelude Machine Posix StatusTracker Coordinator Backup BackupBuilder BackupManager BackupRun Requests.

(** ** The writes of a backup's thread *)

(** How far DoBackup has come. *)
Inductive phase := PStarting | PRunning | PReported.

(** DoBackup and the synchronizers it started write to the message at [a],
    one step per critical section or unprotected access: the three writes
    of CreateSyncCountHandler are not made under one lock. *)
Inductive thread_writes (a : nat) : phase * Tracker -> phase * Tracker -> Prop :=
| WProgress t : thread_writes a (PStarting, t) (PRunning, final (BackupInProgress a) t)
| WEntry t : thread_writes a (PRunning, t) (PRunning, final (update_reply a (add_device_status (mkDeviceStatus "" 0 0))) t)
| WUuid t index uuid :
    thread_writes a (PRunning, t)
      (PRunning, final (update_device a index (fun d => mkDeviceStatus uuid (bytes_transferred d) (bytes_unsynced d))) t)
| WHandler t index : thread_writes a (PRunning, t) (PRunning, final (new_SyncCountHandler a index) t)
| WSynced t index n :
    thread_writes a (PRunning, t) (PRunning, final (on_device (a, index) (SyncCountHandler_UpdateSyncedCount n)) t)
| WUnsynced t index n :
    thread_writes a (PRunning, t) (PRunning, final (on_device (a, index) (SyncCountHandler_UpdateUnsyncedCount n)) t)
| WSucceeded t : thread_writes a (PRunning, t) (PReported, final (BackupSucceeded a) t)
| WCancelled t : thread_writes a (PRunning, t) (PReported, final (BackupCancelled a) t)
| WFailed t text : thread_writes a (PRunning, t) (PReported, final (BackupFailed a text) t).

(** What a message says in each phase. *)
Definition is_final (s : option Status) : Prop := s = Some SUCCEEDED \/ s = Some CANCELLED \/ s = Some FAILED.

Definition shows (p : phase) (s : option Status) : Prop :=
  match p with
  | PStarting => s = Some NOT_STARTED
  | PRunning => s = Some IN_PROGRESS
  | PReported => is_final s
  end.

(** Every write is an update of the one message, by a thread that has not
    reported yet, and keeps the message in step with the thread. *)
Lemma writes_update a p t p' t' :
  thread_writes a (p, t) (p', t') ->
  p <> PReported /\ p' <> PStarting /\ exists f, t' = (update_reply a f t).2 /\ forall r, shows p (status r) -> shows p' (status (f r)).
Proof.
  intros H. inversion H; subst; (split; [done|split; [done|]]); try (eexists; split; [reflexivity|]; intros r Hr; cbn; unfold is_final; by auto).
  exists (set_failure_message text ∘ set_status FAILED). split.
  - unfold final, BackupFailed. run. cbn. by rewrite alter_alter_eq.
  - intros r _. cbn. unfold is_final. auto.
Qed.

(** DoBackup makes such writes, from the first to the report. *)
Lemma wait_loop_tracker rounds s rest s' : wait_loop rounds s = (Ret rest, s') -> s'.1 = s.1.
Proof.
  revert s. induction rounds as [|calls rounds IH]; intros [t c]; cbn [wait_loop]; unfold on_coord, zoom.
  all: intros (b & [t1 c1] & R1 & R2)%bind_Ret_inv; cbn [fst snd] in R1.
  all: destruct (WaitUntilFinished 2000 c) as [o c2]; injection R1 as -> <- <-.
  - destruct b; [by injection R2 as _ <-|done].
  - destruct b; [by injection R2 as _ <-|]. apply bind_Ret_inv in R2 as ([] & [t3 c3] & R3 & R4).
    cbn [fst snd] in R3. destruct (for_each calls run_co_op c2) as [o2 c4]. injection R3 as -> <- <-. by apply IH in R4.
Qed.

Lemma create_handler_writes a uuid t h t' :
  CreateSyncCountHandler a uuid t = (Ret h, t') -> rtc (thread_writes a) (PRunning, t) (PRunning, t').
Proof.
  unfold CreateSyncCountHandler. run. destruct uuid as [u|e|x|x|]; try done. run. intros R.
  eapply rtc_l; [apply WEntry|]. eapply rtc_l; [eapply WUuid|]. eapply rtc_l; [eapply WHandler|].
  unfold final. unfold new_SyncCountHandler in *. revert R. run. intros [= _ <-]. apply rtc_refl.
Qed.

Lemma create_handlers_write a jobs s s' :
  for_each jobs (fun sync => on_tracker (CreateSyncCountHandler a (job_uuid sync)) ;; mret tt) s = (Ret tt, s') ->
  rtc (thread_writes a) (PRunning, s.1) (PRunning, s'.1).
Proof.
  revert s. induction jobs as [|j jobs IH]; intros [t c]; cbn [for_each]; [by intros [= <-]|].
  intros ([] & [t1 c1] & R1 & R2)%bind_Ret_inv. apply bind_Ret_inv in R1 as (h & [t2 c2] & R1 & [= <- <-]).
  unfold on_tracker, zoom in R1. cbn [fst snd] in R1. destruct (CreateSyncCountHandler _ _ t) as [o t3] eqn:E.
  injection R1 as -> <- <-. etrans; [by eapply create_handler_writes|exact (IH _ R2)].
Qed.

Lemma on_coord_tracker {A} (m : M BackupCoordinator A) s r s' : on_coord m s = (r, s') -> s'.1 = s.1.
Proof. unfold on_coord, zoom. destruct (m s.2) as [o c]. by intros [= _ <-]. Qed.

Lemma on_tracker_writes a m t c p p' s' :
  on_tracker m (t, c) = (Ret tt, s') -> thread_writes a (p, t) (p', final m t) -> thread_writes a (p, t) (p', s'.1).
Proof. unfold on_tracker, zoom, final. cbn [fst snd]. destruct (m t) as [o t1]. by intros [= _ <-]. Qed.

Theorem DoBackup_writes jobs rounds a t c t' c' :
  DoBackup jobs rounds a (t, c) = (Ret tt, (t', c')) -> rtc (thread_writes a) (PStarting, t) (PReported, t').
Proof.
  unfold DoBackup. intros ([] & [t1 c1] & R1 & R)%bind_Ret_inv.
  apply bind_Ret_inv in R as ([] & [t2 c2] & R2 & R). apply bind_Ret_inv in R as (rest & [t3 c3] & R3 & R).
  apply bind_Ret_inv in R as ([] & [t4 c4] & R4 & R). apply bind_Ret_inv in R as (es & [t5 c5] & R5 & R).
  pose proof (on_tracker_writes a _ _ _ _ _ _ R1 (WProgress a t)) as W1.
  apply create_handlers_write in R2. apply wait_loop_tracker in R3. apply on_coord_tracker in R4, R5. cbn in *. subst t3 t4 t5.
  eapply rtc_l; [exact W1|]. etrans; [exact R2|]. apply rtc_once. revert R. case_bool.
  - intros R. exact (on_tracker_writes a _ _ _ _ _ _ R (WFailed a t2 _)).
  - intros (b & [t6 c6] & R6 & R)%bind_Ret_inv. apply on_coord_tracker in R6. cbn in R6. subst t6. destruct b.
    + exact (on_tracker_writes a _ _ _ _ _ _ R (WCancelled a t2)).
    + exact (on_tracker_writes a _ _ _ _ _ _ R (WSucceeded a t2)).
Qed.

(** ** Sessions *)

Section Session.
Context {W Bk : Type} `{!Builder W Bk}.
Abbreviation manager := (@BackupManager W).

(** The manager, and for every backup that has been started and whose
    thread has not ended the address of its message and its phase. *)
Record session := mkSession { sn_manager : manager; sn_live : gmap string (nat * phase) }.

Definition new_session (w : W) : session := mkSession (new_BackupManager w) ∅.

(** The backup a request starts. *)
Definition joined (request : Request) (uuid : string) (b : manager) (live : gmap string (nat * phase))
    : gmap string (nat * phase) :=
  match req_type request, StartBackup (start_backup_request request) uuid b with
  | RStartBackup, (Ret (_, th), _) =>
      match bt_event_handler th with Some a => <[bt_uuid th := (a, PStarting)]> live | None => live end
  | _, _ => live
  end.

(** A request is handled, with a UUID of its own; a thread writes; a thread
    ends; and what the threads do to the coordinators and to the parts of
    the builder. *)
Inductive session_step : session -> session -> Prop :=
| SRequest request uuid reply b b' live :
    reply_map_ (tracker b) !! uuid = None -> make_reply request uuid b = (Ret reply, b') ->
    session_step (mkSession b live) (mkSession b' (joined request uuid b live))
| SWrite u a p p' t b live :
    live !! u = Some (a, p) -> thread_writes a (p, tracker b) (p', t) ->
    session_step (mkSession b live) (mkSession (set_tracker t b) (<[u := (a, p')]> live))
| SEnd u a b live :
    live !! u = Some (a, PReported) ->
    session_step (mkSession b live) (mkSession (final (erase_job u) b) (delete u live))
| SCoordinator a f b live :
    session_step (mkSession b live) (mkSession (set_coordinators (alter f a (coordinators b)) b) live)
| SBuilder w b live :
    session_step (mkSession b live) (mkSession (set_builder w b) live).

(** *** Invariant *)

Record session_inv (s : session) : Prop := {
  si_manager : bm_inv (sn_manager s);
  si_tracker : tracker_inv (tracker (sn_manager s));
  si_map : forall u, is_Some (in_progress_map_ (sn_manager s) !! u) <-> is_Some (sn_live s !! u);
  si_live : forall u a p, sn_live s !! u = Some (a, p) ->
    reply_map_ (tracker (sn_manager s)) !! u = Some a /\
    exists r, job_reply (tracker (sn_manager s)) u = Some r /\ shows p (status r);
  si_over : forall u r, job_reply (tracker (sn_manager s)) u = Some r -> sn_live s !! u = None ->
    status r = Some NOT_STARTED \/ is_final (status r)
}.

Lemma new_session_inv w : session_inv (new_session w).
Proof.
  split; cbn.
  - apply new_manager_bm_inv.
  - apply new_tracker_inv.
  - intros u. by rewrite !lookup_empty.
  - intros u a p. by rewrite lookup_empty.
  - intros u r. unfold job_reply. cbn. by rewrite lookup_empty.
Qed.

(** How far a message can have moved on: not back, and not at all once it is
    final. *)
Definition later (r r' : BackupStatusReply) : Prop :=
  (is_final (status r) -> r' = r) /\
  (status r = Some IN_PROGRESS -> status r' = Some IN_PROGRESS \/ is_final (status r')) /\
  (status r = Some NOT_STARTED ->
     status r' = Some NOT_STARTED \/ status r' = Some IN_PROGRESS \/ is_final (status r')).

#[export] Instance later_preorder : PreOrder later.
Proof.
  split.
  - intros r. split_and!; auto.
  - intros r1 r2 r3 (A1 & B1 & C1) (A2 & B2 & C2). split_and!.
    + intros H. rewrite A2; [by apply A1|]. by rewrite A1.
    + intros [H|H]%B1; [by apply B2|]. right. by rewrite (A2 H).
    + intros [H|[H|H]]%C1; [by apply C2|right; by apply B2|]. right. right. by rewrite (A2 H).
Qed.

(** What a step does to the messages there are. *)
Definition progresses (s s' : session) : Prop :=
  forall u r, job_reply (tracker (sn_manager s)) u = Some r ->
    exists r', job_reply (tracker (sn_manager s')) u = Some r' /\ later r r'.

Lemma progresses_same s s' :
  (forall u r, job_reply (tracker (sn_manager s)) u = Some r -> job_reply (tracker (sn_manager s')) u = Some r) ->
  progresses s s'.
Proof. intros H u r Hr. exists r. split; [by apply H|reflexivity]. Qed.

(** *** Requests *)

Lemma CreateEventHandler_map j t a t' :
  CreateEventHandler j t = (Ret (Some a), t') -> reply_map_ t' = <[j := a]> (reply_map_ t).
Proof.
  unfold CreateEventHandler, new_BackupEventHandler. run. destruct (reply_map_ t !! j); [done|]. run. by intros [= <- <-].
Qed.

(** StartBackup, as far as a session looks at it.  A job that cannot be
    started may leave a message behind. *)
Definition start_seen (b : manager) (u : string) (o : outcome (string * backup_thread (Bk := Bk))) (b' : manager) : Prop :=
  tracker_inv (tracker b') /\
  (forall k, k <> u -> job_reply (tracker b') k = job_reply (tracker b) k /\
                       reply_map_ (tracker b') !! k = reply_map_ (tracker b) !! k) /\
  (forall m, job_reply (tracker b') u = Some m -> status m = Some NOT_STARTED) /\
  match o with
  | Ret (_, th) => bt_uuid th = u /\ exists a, bt_event_handler th = Some a /\ reply_map_ (tracker b') !! u = Some a /\
      is_Some (job_reply (tracker b') u) /\
      exists x, in_progress_map_ b' = <[u := x]> (in_progress_map_ b)
  | Throw _ => in_progress_map_ b' = in_progress_map_ b
  | _ => True
  end.

Lemma refused_seen b u e :
  tracker_inv (tracker b) -> reply_map_ (tracker b) !! u = None -> start_seen b u (Throw e) b.
Proof.
  intros Ht Hu. assert (job_reply (tracker b) u = None) as Hn by (unfold job_reply; by rewrite Hu).
  split_and!; [done|done|by rewrite Hn|done].
Qed.

Lemma StartBackup_seen b r u o b' :
  bm_inv b -> tracker_inv (tracker b) -> reply_map_ (tracker b) !! u = None -> in_progress_map_ b !! u = None ->
  StartBackup r u b = (o, b') -> start_seen b u o b'.
Proof.
  intros Hb Ht Hu Hm R.
  destruct (destructor_called_ b) eqn:Ed; [revert R; unfold StartBackup; run; rewrite Ed; intros [= <- <-]; by apply refused_seen|].
  destruct (decide (vectors r = [])) as [En|En];
    [revert R; unfold StartBackup; run; rewrite Ed, En; run; intros [= <- <-]; by apply refused_seen|].
  destruct (StartBackup_run b r u Hb Ed En) as (h & b1 & _ & H2 & _ & _ & _ & H6 & E). rewrite E in R. clear E.
  pose proof (CreateEventHandler_run (tracker b) u Ht) as He. rewrite Hu in He.
  destruct He as (a & t' & Re & I & Ma & Mj & Mo). rewrite H6 in Re. injection Re as -> <-.
  apply CreateEventHandler_map in H6.
  assert (forall b2 : manager, tracker b2 = tracker b1 -> tracker_inv (tracker b2) /\
    (forall k, k <> u -> job_reply (tracker b2) k = job_reply (tracker b) k /\
                         reply_map_ (tracker b2) !! k = reply_map_ (tracker b) !! k) /\
    (forall m, job_reply (tracker b2) u = Some m -> status m = Some NOT_STARTED)) as Ht2.
  { intros b2 ->. split; [done|]. split; [|rewrite Mj; by intros m [= <-]].
    intros k Hk. rewrite H6, lookup_insert_ne by done. auto. }
  revert R. case_bool; [intros [= <- <-]; destruct (Ht2 b1 eq_refl) as (T1 & T2 & T3); exact (conj T1 (conj T2 (conj T3 H2)))|]. cbn zeta.
  destruct (CreateBackup_op (vectors r) (is_full r) (builder b)) as [c w]. intros R.
  assert (tracker b' = tracker b1) as Et by (destruct c; by injection R as <- <-).
  destruct (Ht2 b' Et) as (T1 & T2 & T3). split; [done|]. split; [done|]. split; [done|].
  destruct c as [k|e|x|x|]; injection R as <- <-; try done; cbn.
  - split; [done|]. exists a. split_and!; [done|done|rewrite Mj; by eexists|]. eexists. by rewrite H2.
  - rewrite H2. by rewrite delete_insert_id.
Qed.
(** A step that leaves the messages and the jobs alone. *)
Lemma quiet_step b b' live :
  session_inv (mkSession b live) -> bm_inv b' -> tracker b' = tracker b -> in_progress_map_ b' = in_progress_map_ b ->
  session_inv (mkSession b' live) /\ progresses (mkSession b live) (mkSession b' live).
Proof.
  intros [I1 I2 I3 I4 I5] Hb Et Em. cbn in *. split; [by split; cbn; rewrite ?Et, ?Em|].
  apply progresses_same. cbn. by rewrite Et.
Qed.

(** A backup was started, or could not be. *)
Lemma start_step b r u o b' live :
  session_inv (mkSession b live) -> reply_map_ (tracker b) !! u = None -> StartBackup r u b = (o, b') ->
  (forall x, o <> Abort x) -> (forall x, o <> Undef x) -> o <> OutOfFuel ->
  let live' := match o with
    | Ret (_, th) => match bt_event_handler th with Some a => <[bt_uuid th := (a, PStarting)]> live | None => live end
    | _ => live
    end in
  session_inv (mkSession b' live') /\ progresses (mkSession b live) (mkSession b' live').
Proof.
  intros [I1 I2 I3 I4 I5] Hu R Ho1 Ho2 Ho3. cbn in *.
  assert (live !! u = None) as Hl.
  { destruct (live !! u) as [[a p]|] eqn:El; [|done]. destruct (I4 u a p El) as [? _]. congruence. }
  assert (in_progress_map_ b !! u = None) as Hm.
  { destruct (in_progress_map_ b !! u) eqn:Em; [|done]. destruct (proj1 (I3 u) (mk_is_Some _ _ Em)). congruence. }
  destruct (StartBackup_seen b r u o b' I1 I2 Hu Hm R) as (T1 & T2 & T3 & T4).
  assert (bm_inv b') as Hb by (pose proof (StartBackup_inv b r u I1) as X; by rewrite R in X).
  assert (forall k m, job_reply (tracker b) k = Some m -> k <> u) as Hne.
  { intros k m Hk ->. unfold job_reply in Hk. by rewrite Hu in Hk. }
  split.
  2: { apply progresses_same. cbn. intros k m Hk. destruct (T2 k (Hne k m Hk)) as [-> _]. done. }
  destruct o as [[u' th]|e|x|x|]; [|..]; [|split; cbn; [done|done|by rewrite T4| |]|by destruct (Ho1 x)|by destruct (Ho2 x)|done].
  - destruct T4 as (-> & a & -> & Ma & [m Hm'] & x & Ex). split; cbn; [done|done| | |].
    + intros k. rewrite Ex, !lookup_insert_is_Some, I3. done.
    + intros k a' p. rewrite lookup_insert_Some. intros [[<- [= <- <-]]|[Hk El]].
      * split; [done|]. exists m. split; [done|]. by apply T3.
      * destruct (T2 k (not_eq_sym Hk)) as [-> ->]. by apply I4.
    + intros k m' Hk El. rewrite lookup_insert_None in El. destruct El as [El Hk'].
      destruct (T2 k (not_eq_sym Hk')) as [E _]. rewrite E in Hk. by apply (I5 k).
  - intros k a p El. destruct (T2 k) as [-> ->]; [congruence|]. by apply I4.
  - intros k m Hk El. destruct (decide (k = u)) as [->|Hk']; [left; by apply T3|].
    destruct (T2 k Hk') as [E _]. rewrite E in Hk. by apply (I5 k).
Qed.

Lemma request_step request uuid reply b b' live :
  session_inv (mkSession b live) -> reply_map_ (tracker b) !! uuid = None ->
  make_reply request uuid b = (Ret reply, b') ->
  session_inv (mkSession b' (joined request uuid b live)) /\
  progresses (mkSession b live) (mkSession b' (joined request uuid b live)).
Proof.
  intros Hi Hu. unfold make_reply, joined, try_catch. destruct (req_type request).
  - rewrite bind_unfold. destruct (StartBackup (start_backup_request request) uuid b) as [o b1] eqn:R. intros E.
    assert (b1 = b') as -> by (destruct o; by injection E).
    destruct o as [[u th]|e|x|x|]; try done; by apply (start_step _ _ _ _ _ _ Hi Hu R).
  - unfold StopBackup. run. destruct (in_progress_map_ b !! stop_job_uuid request) as [[D a]|]; run; intros [= _ <-].
    + apply quiet_step; [done|apply cancel_inv, Hi|done|done].
    + apply quiet_step; [done|apply Hi|done|done].
  - unfold on_status, zoom, GetReply. run. intros [= _ <-]. apply quiet_step; [done|apply set_tracker_inv, Hi|done|done].
  - intros [= _ <-]. apply quiet_step; [done|apply Hi|done|done].
Qed.

Lemma write_step u a p p' t b live :
  session_inv (mkSession b live) -> live !! u = Some (a, p) -> thread_writes a (p, tracker b) (p', t) ->
  let s' := mkSession (set_tracker t b) (<[u := (a, p')]> live) in
  session_inv s' /\ progresses (mkSession b live) s'.
Proof.
  intros [I1 I2 I3 I4 I5] Hu (Hp & Hp' & f & -> & Hf)%writes_update. cbn in *. destruct (I4 u a p Hu) as [Ha (r & Hr & Hs)].
  destruct (update_reply_job (tracker b) u a f I2 Ha) as [Ej Eo]. rewrite Hr in Ej. cbn in Ej. split.
  - split; cbn; [by apply set_tracker_inv|by apply (update_reply_inv a f)| | |].
    + intros k. rewrite I3, lookup_insert_is_Some. destruct (decide (u = k)) as [<-|]; [rewrite Hu; naive_solver|naive_solver].
    + intros k a' q. rewrite lookup_insert_Some. intros [[<- [= <- <-]]|[Hk El]].
      * split; [done|]. exists (f r). split; [exact Ej|by apply Hf].
      * destruct (I4 k a' q El) as [? Hx]. split; [done|]. rewrite <- (Eo k (not_eq_sym Hk)) in Hx. exact Hx.
    + intros k m Hk El. rewrite lookup_insert_None in El. destruct El as [El Hne]. apply (I5 k); [|done].
      by rewrite <- (Eo k (not_eq_sym Hne)).
  - intros k m Hk. cbn [sn_manager] in Hk. destruct (decide (k = u)) as [->|Hne].
    + rewrite Hr in Hk. injection Hk as <-. exists (f r). split; [exact Ej|]. specialize (Hf r Hs).
      unfold later, is_final. destruct p, p'; cbn in *; unfold is_final in *; try done; rewrite Hs; split_and!;
        intros; destruct_or?; try discriminate; auto.
    + exists m. split; [|reflexivity]. rewrite <- Hk. exact (Eo k Hne).
Qed.

Lemma end_step u a b live :
  session_inv (mkSession b live) -> live !! u = Some (a, PReported) ->
  let s' := mkSession (final (erase_job u) b) (delete u live) in
  session_inv s' /\ progresses (mkSession b live) s'.
Proof.
  intros [I1 I2 I3 I4 I5] Hu. cbn in *. split; [|by apply progresses_same]. split; cbn; [by apply delete_inv|done| | |].
  - intros k. rewrite !lookup_delete_is_Some, I3. done.
  - intros k a' p. rewrite lookup_delete_Some. intros [_ El]. by apply I4.
  - intros k m Hk El. destruct (decide (u = k)) as [<-|Hne].
    + destruct (I4 u a PReported Hu) as [_ (r & Hr & Hs)]. rewrite Hr in Hk. injection Hk as <-. by right.
    + rewrite lookup_delete_ne in El by done. by apply (I5 k).
Qed.

Lemma session_step_seen s s' : session_step s s' -> session_inv s -> session_inv s' /\ progresses s s'.
Proof.
  intros [request uuid reply b b' live Hu R|u a p p' t b live Hu Hw|u a b live Hu|a f b live|w b live] Hi.
  - by eapply request_step.
  - by eapply write_step.
  - by eapply end_step.
  - apply quiet_step; [done|apply alter_inv, Hi|done|done].
  - apply quiet_step; [done|apply set_builder_inv, Hi|done|done].
Qed.

Lemma session_reaches s s' : rtc session_step s s' -> session_inv s -> session_inv s' /\ progresses s s'.
Proof.
  induction 1 as [s|s1 s2 s3 H12 _ IH]; intros Hi; [split; [done|by apply progresses_same]|].
  destruct (session_step_seen s1 s2 H12 Hi) as [Hi2 P12]. destruct (IH Hi2) as [Hi3 P23]. split; [done|].
  intros u r Hr. destruct (P12 u r Hr) as (r2 & Hr2 & L1). destruct (P23 u r2 Hr2) as (r3 & Hr3 & L2).
  exists r3. split; [done|]. by etrans.
Qed.

(** ** What a client is told *)

(** A status request. *)
Definition ask (u : string) : Request := mkReq RBackupStatus (mkRequest FULL_BACKUP []) "" u.

Definition status_is (r : BackupStatusReply) : Reply := mkRep (Some BACKUP_STATUS) None (Some r) None.

Lemma ask_answer b u x r :
  result (make_reply (ask u) x) b = Ret (status_is r) <-> job_reply (tracker b) u = Some r.
Proof.
  rewrite make_reply_answer. unfold answer. cbn. destruct (job_reply (tracker b) u); split; try done; by intros [= ->].
Qed.

(** C11: what a client is told of a backup.  In every session, whatever the
    requests, the interleaving of the backups' threads and their results: a
    job that has had a status keeps having one; a status SUCCEEDED,
    CANCELLED or FAILED is given unchanged, with its message and its
    counters, for ever after; IN_PROGRESS is followed only by itself or by
    one of these, and NOT_STARTED only by itself, IN_PROGRESS or one of
    these.  And the status is true: NOT_STARTED means that the job's thread
    has not begun DoBackup or that the job could not be started,
    IN_PROGRESS that DoBackup is running, and one of the final ones that it
    has reported. *)
Theorem status_answers w s s' u x r :
  rtc session_step (new_session w) s -> rtc session_step s s' ->
  result (make_reply (ask u) x) (sn_manager s) = Ret (status_is r) ->
  (exists r', result (make_reply (ask u) x) (sn_manager s') = Ret (status_is r') /\ later r r') /\
  match sn_live s !! u with
  | Some (_, PStarting) => status r = Some NOT_STARTED
  | Some (_, PRunning) => status r = Some IN_PROGRESS
  | Some (_, PReported) => is_final (status r)
  | None => status r = Some NOT_STARTED \/ is_final (status r)
  end.
Proof.
  intros H0 H1 Hr%ask_answer. destruct (session_reaches _ _ H0 (new_session_inv w)) as [Hi _].
  destruct (session_reaches _ _ H1 Hi) as [_ Hp]. split.
  - destruct (Hp u r Hr) as (r' & Hr' & Hl). exists r'. split; [by apply ask_answer|done].
  - destruct (sn_live s !! u) as [[a p]|] eqn:El; [|by apply (si_over s Hi u)].
    destruct (si_live s Hi u a p El) as [_ (r' & Hr' & Hs)]. rewrite Hr in Hr'. injection Hr' as <-. by destruct p.
Qed.

(** A job can be stopped exactly while its thread lives, and the request is
    acknowledged then. *)
Theorem stop_answers w s u x :
  rtc session_step (new_session w) s ->
  result (make_reply (mkReq RStopBackup (mkRequest FULL_BACKUP []) u "") x) (sn_manager s) =
    Ret (match sn_live s !! u with
         | Some _ => mkRep (Some STOP_BACKUP) None None None
         | None => error_Reply "Job not running"
         end).
Proof.
  intros H0. destruct (session_reaches _ _ H0 (new_session_inv w)) as [Hi _]. rewrite make_reply_answer. unfold answer. cbn.
  pose proof (si_map s Hi u) as Hm. destruct (sn_live s !! u).
  - rewrite decide_True; [done|]. apply Hm. eauto.
  - rewrite decide_False; [done|]. intros [? ?]%Hm. done.
Qed.
End Session.

(** ** A session: a backup is started, reports its success and ends *)

Definition start_request : Request := mkReq RStartBackup (request_of ["aaaa"]) "" "".

Definition session_started : session :=
  mkSession (make_reply (Builder0 := simple_builder) start_request "job1" (new_BackupManager 0%nat)).2
    (joined (Builder0 := simple_builder) start_request "job1" (new_BackupManager 0%nat) ∅).

(** The write [f] of job1's thread, after which it is in phase [p]. *)
Definition session_write (f : Tracker -> Tracker) (p : phase) (s : session (W := nat)) : session :=
  mkSession (set_tracker (f (tracker (sn_manager s))) (sn_manager s)) (<["job1" := (0%nat, p)]> (sn_live s)).

Definition session_running : session := session_write (final (BackupInProgress 0)) PRunning session_started.

Definition session_entry : session :=
  session_write (final (update_reply 0 (add_device_status (mkDeviceStatus "" 0 0)))) PRunning session_running.

Definition session_reported : session := session_write (final (BackupSucceeded 0)) PReported session_running.

Definition session_over : session :=
  mkSession (final (erase_job "job1") (sn_manager session_reported)) (delete "job1" (sn_live session_reported)).

Abbreviation simple_step := (session_step (Builder0 := simple_builder)).

Lemma session_started_step : simple_step (new_session 0%nat) session_started.
Proof.
  apply (SRequest (Builder0 := simple_builder) start_request "job1" (mkRep (Some START_BACKUP) (Some "job1") None None));
    [reflexivity|vm_compute; reflexivity].
Qed.

Lemma session_write_step f p p' s :
  sn_live s !! "job1" = Some (0%nat, p) ->
  thread_writes 0 (p, tracker (sn_manager s)) (p', f (tracker (sn_manager s))) -> simple_step s (session_write f p' s).
Proof. destruct s as [b live]. cbn. intros Hu Hw. by eapply (SWrite (Builder0 := simple_builder)). Qed.

Lemma session_running_reached : rtc simple_step (new_session 0%nat) session_running.
Proof.
  eapply rtc_l; [exact session_started_step|]. apply rtc_once.
  apply (session_write_step _ PStarting); [vm_compute; reflexivity|apply WProgress].
Qed.

Lemma session_reported_reached : rtc simple_step (new_session 0%nat) session_reported.
Proof.
  etrans; [exact session_running_reached|]. apply rtc_once.
  apply (session_write_step _ PRunning); [vm_compute; reflexivity|apply WSucceeded].
Qed.

Lemma session_over_step : simple_step session_reported session_over.
Proof. apply (SEnd (Builder0 := simple_builder) "job1" 0%nat). vm_compute. reflexivity. Qed.

Lemma status_answers_witness :
  result (make_reply (Builder0 := simple_builder) (ask "job1") "job2") (sn_manager session_over) =
    Ret (status_is (mkReply (Some SUCCEEDED) None [])).
Proof.
  destruct (status_answers (Builder0 := simple_builder) 0%nat session_reported session_over "job1" "job2"
    (mkReply (Some SUCCEEDED) None []) session_reported_reached (rtc_once _ _ session_over_step)) as [(r' & R & Hl & _) _].
  - vm_compute. reflexivity.
  - rewrite R. rewrite Hl; [reflexivity|]. left. reflexivity.
Defined.

Lemma stop_answers_witness :
  result (make_reply (Builder0 := simple_builder) (mkReq RStopBackup (mkRequest FULL_BACKUP []) "job1" "") "job2")
    (sn_manager session_reported) = Ret (mkRep (Some STOP_BACKUP) None None None).
Proof. rewrite (stop_answers (Builder0 := simple_builder) 0%nat session_reported "job1" "job2" session_reported_reached). reflexivity. Defined.

(** CreateSyncCountHandler does not hold the mutex between its writes: a
    status request can be answered with a device that has no name yet. *)
Theorem device_without_name_is_visible :
  rtc simple_step (new_session 0%nat) session_entry /\
  result (make_reply (Builder0 := simple_builder) (ask "job1") "job2") (sn_manager session_entry) =
    Ret (status_is (mkReply (Some IN_PROGRESS) None [mkDeviceStatus "" 0 0])).
Proof.
  split; [|vm_compute; reflexivity]. etrans; [exact session_running_reached|]. apply rtc_once.
  apply (session_write_step _ PRunning); [vm_compute; reflexivity|apply WEntry].
Qed.
