(* ===== verification/ListenerThread.v ===== *)
(** * Starting and stopping the request listener

    Models the constructor, Stop and the destructor of IpcRequestListener
    (request_listener/ipc_request_listener.cc) together with the loop of its
    thread, at the granularity of their accesses to what they share: the
    flags [do_stop_] and [started], the listening socket, and the connection
    that is being served, on which the thread waits for the client.  What an
    iteration does with a connection is in [Requests]. *)

From S2P Require Import Prelude.

(** Where the listening thread is. *)
Inductive listen_pc :=
| LHead       (* while (!do_stop_) *)
| LPolling    (* in ConnectionIsReady *)
| LReady      (* a connection is ready: if (do_stop_) *)
| LAccept     (* about to accept on the socket *)
| LLength     (* in read, for the length of the request *)
| LMessage    (* in recv, for the request *)
| LHandling   (* in RequestHandler::Handle *)
| LReply      (* in write, with the reply *)
| LStarted    (* about to write started = true *)
| LEnded.

(** Where the thread is that owns the listener; [dying] says that Stop was
    called by the destructor. *)
Inductive owner_pc :=
| OSpin                    (* in the constructor: while (!started) *)
| OUp                      (* outside the listener's methods *)
| OShutdown (dying : bool)  (* in Stop, with do_stop_ set *)
| OClose (dying : bool)     (* in Stop, after shutdown *)
| OJoin                    (* in the destructor, after Stop *)
| OGone.                   (* the destructor has returned *)

Inductive sock_state := SockOpen | SockShut | SockClosed.

(** [started] is a local variable of the constructor that the thread has by
    reference: [dangling] counts the writes to it after its life.
    [late_accepts] counts the connections accepted after [do_stop_] was
    set, and [stray_closes] the calls of close on a descriptor that Stop had
    closed before.  [answered] says that the client of the connection has
    done what the thread waits for: sent what is to be read, made room for
    the reply, or closed its end. *)
Record listener := mkListener {
  l_thread : listen_pc;
  l_owner : owner_pc;
  do_stop_ : bool;
  started : bool;
  l_socket : sock_state;
  dangling : nat;
  late_accepts : nat;
  stray_closes : nat;
  answered : bool
}.

Definition new_IpcRequestListener : listener := mkListener LHead OSpin false false SockOpen 0 0 0 false.

Definition bump_if (b : bool) (n : nat) : nat := if b then S n else n.

Definition frame_gone (o : owner_pc) : bool := match o with OSpin => false | _ => true end.

(** A step of the thread.  A poll ends after half a second at the latest,
    and can end in any way; accept can fail, and must when the socket is
    closed; read, recv and write return only when the client has answered,
    and then in any way: what is too short, too long or an error ends the
    connection with an exception. *)
Inductive thread_step : listener -> listener -> Prop :=
| listen_stop o st k d a y r :
    thread_step (mkListener LHead o true st k d a y r) (mkListener LEnded o true st k d a y r)
| listen_poll o st k d a y r :
    thread_step (mkListener LHead o false st k d a y r) (mkListener LPolling o false st k d a y r)
| poll_nothing o s st k d a y r :   (* time-out, or an exception *)
    thread_step (mkListener LPolling o s st k d a y r) (mkListener LStarted o s st k d a y r)
| poll_ready o s st k d a y r :
    thread_step (mkListener LPolling o s st k d a y r) (mkListener LReady o s st k d a y r)
| ready_stop o st k d a y r :
    thread_step (mkListener LReady o true st k d a y r) (mkListener LEnded o true st k d a y r)
| ready_go o st k d a y r :
    thread_step (mkListener LReady o false st k d a y r) (mkListener LAccept o false st k d a y r)
| accept_fails o s st k d a y r :
    thread_step (mkListener LAccept o s st k d a y r) (mkListener LStarted o s st k d a y r)
| accept_works r' o s st k d a y r :
    k <> SockClosed ->
    thread_step (mkListener LAccept o s st k d a y r) (mkListener LLength o s st k d (bump_if s a) y r')
| length_read r' o s st k d a y :
    thread_step (mkListener LLength o s st k d a y true) (mkListener LMessage o s st k d a y r')
| length_bad o s st k d a y :
    thread_step (mkListener LLength o s st k d a y true) (mkListener LStarted o s st k d a y true)
| message_read o s st k d a y :
    thread_step (mkListener LMessage o s st k d a y true) (mkListener LHandling o s st k d a y true)
| message_bad o s st k d a y :
    thread_step (mkListener LMessage o s st k d a y true) (mkListener LStarted o s st k d a y true)
| handle_done r' o s st k d a y r :
    thread_step (mkListener LHandling o s st k d a y r) (mkListener LReply o s st k d a y r')
| reply_done o s st k d a y :
    thread_step (mkListener LReply o s st k d a y true) (mkListener LStarted o s st k d a y true)
| write_started o s st k d a y r :
    thread_step (mkListener LStarted o s st k d a y r) (mkListener LHead o s true k (bump_if (frame_gone o) d) a y r).

(** Stop is public: the owner may call it before the destructor does, and
    each call shuts down and closes the descriptor again. *)
Inductive owner_step : listener -> listener -> Prop :=
| constructor_returns t s k d a y r :
    owner_step (mkListener t OSpin s true k d a y r) (mkListener t OUp s true k d a y r)
| stop_flag dying t s st k d a y r :
    owner_step (mkListener t OUp s st k d a y r) (mkListener t (OShutdown dying) true st k d a y r)
| stop_shutdown dying t s st k d a y r :
    owner_step (mkListener t (OShutdown dying) s st k d a y r)
      (mkListener t (OClose dying) s st (match k with SockClosed => SockClosed | _ => SockShut end) d a y r)
| stop_close dying t s st k d a y r :
    owner_step (mkListener t (OClose dying) s st k d a y r)
      (mkListener t (if dying : bool then OJoin else OUp) s st SockClosed d a
         (bump_if (match k with SockClosed => true | _ => false end) y) r)
| destructor_returns s st k d a y r :
    owner_step (mkListener LEnded OJoin s st k d a y r) (mkListener LEnded OGone s st k d a y r).

(** The client answers. *)
Inductive client_step : listener -> listener -> Prop :=
| client_answers t o s st k d a y :
    client_step (mkListener t o s st k d a y false) (mkListener t o s st k d a y true).

Definition listener_step (l l' : listener) : Prop := thread_step l l' \/ owner_step l l' \/ client_step l l'.

(** ** Properties *)

(** Past the last look at [do_stop_] before an accept. *)
Definition past_check (t : listen_pc) : bool := match t with LAccept => true | _ => false end.

Record listener_inv (l : listener) : Prop := {
  li_started : l_owner l <> OSpin -> started l = true;
  li_stop : l_owner l <> OSpin -> l_owner l <> OUp -> do_stop_ l = true;
  li_spin : l_owner l = OSpin -> do_stop_ l = false;
  li_ended : l_thread l = LEnded -> do_stop_ l = true;
  li_gone : l_owner l = OGone -> l_thread l = LEnded;
  li_late : (late_accepts l + (if do_stop_ l && past_check (l_thread l) then 1 else 0) <= 1)%nat;
  li_early : do_stop_ l = false -> late_accepts l = 0%nat
}.

Lemma listener_step_inv l l' : listener_step l l' -> listener_inv l -> listener_inv l'.
Proof.
  intros [H|[H|H]] [I1 I2 I3 I4 I5 I6 I7]; destruct H; cbn in *; split; cbn; try done; try (intuition congruence).
  all: try (destruct s; cbn in *; rewrite ?I7 by done; try destruct (past_check t); lia).
  all: by destruct dying.
Qed.

Lemma listener_reachable_inv l : rtc listener_step new_IpcRequestListener l -> listener_inv l.
Proof.
  intros Hr. apply (rtc_invariant listener_step listener_inv listener_step_inv _ _ Hr).
  split; cbn; try done. lia.
Qed.

(** C38: the life of the listener.  In every interleaving of the thread with
    its owner and its clients: the constructor returns only after the thread
    has been through its loop; the thread ends only when it has been told to;
    when the destructor returns the thread has ended, so that nothing of the
    listener is used after its life; and after Stop has set its flag at
    most one more connection is accepted, by a thread that had looked at
    the flag before. *)
Theorem listener_lifecycle l :
  rtc listener_step new_IpcRequestListener l ->
  (l_owner l <> OSpin -> started l = true) /\
  (l_thread l = LEnded -> do_stop_ l = true) /\
  (l_owner l = OGone -> l_thread l = LEnded) /\
  (late_accepts l <= 1)%nat.
Proof. intros Hr%listener_reachable_inv. destruct Hr. split_and!; auto. lia. Qed.

(** *** Stopping *)

Definition stop_measure (t : listen_pc) : nat :=
  match t with
  | LAccept => 7 | LLength => 6 | LMessage => 5 | LHandling => 4 | LReply => 3
  | LPolling => 3 | LReady => 1 | LStarted => 2 | LHead => 1 | LEnded => 0
  end.

Lemma thread_step_stops l l' :
  thread_step l l' -> do_stop_ l = true -> do_stop_ l' = true /\ (stop_measure (l_thread l') < stop_measure (l_thread l))%nat.
Proof. destruct 1; cbn; intros; try done; (split; [done|lia]). Qed.

Lemma others_stop l l' :
  owner_step l l' \/ client_step l l' -> do_stop_ l = true -> do_stop_ l' = true /\ l_thread l' = l_thread l.
Proof. intros [H|H]; destruct H; by cbn. Qed.

(** The thread waits for a client that has not answered. *)
Definition waits_for_client (l : listener) : Prop :=
  (l_thread l = LLength \/ l_thread l = LMessage \/ l_thread l = LReply) /\ answered l = false.

Lemma thread_step_or_wait l :
  l_thread l <> LEnded -> (waits_for_client l /\ (forall l', ~ thread_step l l')) \/
    (~ waits_for_client l /\ exists l', thread_step l l').
Proof.
  destruct l as [t o s st k d a y r]. unfold waits_for_client. cbn. intros Ht.
  destruct t; try done; try destruct s; try destruct r;
    first [right; split; [naive_solver|eexists; by (apply (length_read true) || apply (handle_done true) || constructor)]
          |left; split; [naive_solver|intros l' H; inversion H]].
Qed.

(** A run with [n] steps of the thread. *)
Inductive thread_run : nat -> listener -> listener -> Prop :=
| thread_run_here l : thread_run 0 l l
| thread_run_step n l1 l2 l3 : thread_step l1 l2 -> thread_run n l2 l3 -> thread_run (S n) l1 l3
| thread_run_other n l1 l2 l3 : owner_step l1 l2 \/ client_step l1 l2 -> thread_run n l2 l3 -> thread_run n l1 l3.


(** ** Things that go wrong *)

Lemma blocked_stays l l' :
  thread_step l l' \/ owner_step l l' -> waits_for_client l /\ l_owner l = OJoin -> waits_for_client l' /\ l_owner l' = OJoin.
Proof.
  intros Hst [Hw Ho]. assert (l_thread l <> LEnded) as Ht by (destruct Hw as [[E|[E|E]] _]; by rewrite E).
  destruct Hst as [Hst|Hst].
  - destruct (thread_step_or_wait l Ht) as [[_ Hno]|[Hn _]]; [by destruct (Hno l')|by destruct Hn].
  - destruct Hst; cbn in *; try done.
Qed.

(** A client that connects and sends nothing: the thread is in read, and
    while the client stays silent the destructor does not return, whatever
    the thread and the owner do. *)
Theorem silent_client_blocks_destructor :
  exists l, rtc listener_step new_IpcRequestListener l /\ l_owner l = OJoin /\ l_thread l = LLength /\
    forall l', rtc (fun x y => thread_step x y \/ owner_step x y) l l' -> l_owner l' = OJoin.
Proof.
  exists (mkListener LLength OJoin true true SockClosed 0 0 0 false). split_and!; [|done|done|].
  - do 3 (eapply rtc_l; [left; constructor|]). eapply rtc_l; [right; left; constructor|].
    eapply rtc_l; [left; constructor|]. eapply rtc_l; [left; apply poll_ready|]. eapply rtc_l; [left; constructor|].
    eapply rtc_l; [left; by apply (accept_works false)|].
    eapply rtc_l; [right; left; apply (stop_flag true)|]. eapply rtc_l; [right; left; constructor|].
    eapply rtc_l; [right; left; constructor|]. done.
  - intros l' Hr. apply (rtc_invariant _ _ blocked_stays _ _ Hr). split; [|done]. split; [by left|done].
Qed.

(** The thread goes on writing to the constructor's variable: from its
    second iteration on it can only write to memory the constructor has
    given back. *)
Theorem started_is_written_after_its_life :
  exists l, rtc listener_step new_IpcRequestListener l /\ l_owner l = OUp /\ dangling l = 1%nat.
Proof.
  exists (mkListener LHead OUp false true SockOpen 1 0 0 false). split; [|done].
  do 3 (eapply rtc_l; [left; constructor|]). eapply rtc_l; [right; left; constructor|].
  do 3 (eapply rtc_l; [left; constructor|]). done.
Qed.

(** Stop closes the socket before the thread has been joined: the thread can
    be about to accept on a descriptor that is closed, or by then somebody
    else's. *)
Theorem accept_on_closed_socket :
  exists l, rtc listener_step new_IpcRequestListener l /\ l_thread l = LAccept /\ l_socket l = SockClosed.
Proof.
  exists (mkListener LAccept OJoin true true SockClosed 0 0 0 false). split; [|done].
  do 3 (eapply rtc_l; [left; constructor|]). eapply rtc_l; [right; left; constructor|].
  eapply rtc_l; [left; constructor|]. eapply rtc_l; [left; apply poll_ready|]. eapply rtc_l; [left; constructor|].
  eapply rtc_l; [right; left; apply (stop_flag true)|]. do 2 (eapply rtc_l; [right; left; constructor|]). done.
Qed.

(** A Stop before the destructor's, as in the listener's test: the
    destructor shuts down and closes the descriptor a second time, whoever
    has it by then. *)
Theorem stop_twice_closes_twice :
  exists l, rtc listener_step new_IpcRequestListener l /\ l_owner l = OGone /\ stray_closes l = 1%nat.
Proof.
  exists (mkListener LEnded OGone true true SockClosed 0 0 1 false). split; [|done].
  do 3 (eapply rtc_l; [left; constructor|]). eapply rtc_l; [right; left; constructor|].
  eapply rtc_l; [right; left; apply (stop_flag false)|]. do 2 (eapply rtc_l; [right; left; constructor|]).
  eapply rtc_l; [left; constructor|].
  eapply rtc_l; [right; left; apply (stop_flag true)|]. do 3 (eapply rtc_l; [right; left; constructor|]). done.
Qed.

(** ** A run: one connection, then Stop *)

Definition stopped_listener : listener := mkListener LEnded OGone true true SockClosed 0 0 0 false.

Lemma stopped_reachable : rtc listener_step new_IpcRequestListener stopped_listener.
Proof.
  do 3 (eapply rtc_l; [left; constructor|]). eapply rtc_l; [right; left; constructor|].
  eapply rtc_l; [right; left; apply (stop_flag true)|]. do 2 (eapply rtc_l; [right; left; constructor|]).
  eapply rtc_l; [left; constructor|]. eapply rtc_l; [right; left; constructor|]. done.
Qed.

Lemma listener_lifecycle_witness : l_thread stopped_listener = LEnded.
Proof. apply (listener_lifecycle stopped_listener stopped_reachable). reflexivity. Defined.

