(* ===== verification/LogSink.v ===== *)
(** * The queuing log sink

    Models logging/queuing_log_sink.{h,cc}: threads put messages into a
    queue under a mutex, and a writer thread takes them out and writes them
    to the file without holding the mutex, so that a frozen filesystem
    blocks the writer only.  A state says where the writer's code is; the
    steps are the critical sections of the two sides. *)

From S2P Require Import Prelude Machine Posix.

(** Of the release build. *)
Definition LINES_TO_BUFFER : nat := 20.

(** Where the writer thread is: at the head of its outer loop; waiting on
    the condition variable (the mutex is released); in the inner loop with
    the mutex; in fputs without it; at its end. *)
Inductive writer_pc := AtHead | Waiting | Draining | Writing (message : string) | Closed.

#[export] Instance writer_pc_eq_dec : EqDecision writer_pc.
Proof. solve_decision. Defined.

Record QueuingLogSink := mkSink {
  to_write_queue_ : list string;
  should_die_ : bool;
  pc : writer_pc;
  file : list string;      (* what each fputs has written *)
  logged : list string;    (* every message send was called with *)
  failed_writes : nat      (* the calls of fputs that failed *)
}.

Definition new_QueuingLogSink : QueuingLogSink := mkSink [] false AtHead [] [] 0.

(** What fputs is given: a C string ends at its first NUL. *)
Fixpoint c_str (s : string) : string :=
  match s with
  | EmptyString => EmptyString
  | String a s' => if Ascii.eqb a Ascii.zero then EmptyString else String a (c_str s')
  end.

Definition line_of (message : string) : string := c_str (message +:+ newline).

(** What of it reaches the file: all of it, or, if a write fails, as much as
    was written before. *)
Definition fputs (failed_after : option nat) (message : string) : string :=
  match failed_after with
  | None => line_of message
  | Some n => String.substring 0 n (line_of message)
  end.

(** Whether the mutex is free for a thread that wants to log. *)
Definition mutex_free (s : QueuingLogSink) : bool :=
  match pc s with Draining => false | _ => true end.

Definition set_pc (p : writer_pc) (s : QueuingLogSink) : QueuingLogSink :=
  mkSink (to_write_queue_ s) (should_die_ s) p (file s) (logged s) (failed_writes s).

(** send: the new state and whether it notifies; not now while the mutex is
    held. *)
Definition send (log_string : string) (s : QueuingLogSink) : option (QueuingLogSink * bool) :=
  if mutex_free s then
    let q := to_write_queue_ s ++ [log_string] in
    Some (mkSink q (should_die_ s) (pc s) (file s) (logged s ++ [log_string]) (failed_writes s),
          bool_decide (LINES_TO_BUFFER < length q)%nat)
  else None.

(** One step of the writer thread; [failed_after] is how its fputs goes, if
    it is one.  The result of fputs is not looked at. *)
Definition writer_step (failed_after : option nat) (s : QueuingLogSink) : option QueuingLogSink :=
  match pc s with
  | AtHead => Some (set_pc (if should_die_ s then Closed else Waiting) s)
  | Waiting => Some (set_pc Draining s)       (* notified, timed out or spurious *)
  | Draining =>
      match to_write_queue_ s with
      | [] => Some (set_pc AtHead s)
      | m :: q => Some (mkSink q (should_die_ s) (Writing m) (file s) (logged s) (failed_writes s))
      end
  | Writing m =>
      Some (mkSink (to_write_queue_ s) (should_die_ s) Draining (file s ++ [fputs failed_after m]) (logged s)
              (match failed_after with None => failed_writes s | Some _ => S (failed_writes s) end))
  | Closed => None
  end.

(** The destructor before it joins the writer. *)
Definition start_dying (s : QueuingLogSink) : QueuingLogSink :=
  mkSink (to_write_queue_ s) true (pc s) (file s) (logged s) (failed_writes s).

Inductive sink_step : QueuingLogSink -> QueuingLogSink -> Prop :=
| SinkSend m s s' b : send m s = Some (s', b) -> sink_step s s'
| SinkWriter f s s' : writer_step f s = Some s' -> sink_step s s'
| SinkDie s : sink_step s (start_dying s).

(** ** Opening and closing the file

    The constructor before it starts the writer thread, with the file mode
    mask of the process: [setbuf] is called on what fopen returned before
    that is tested.  The destructor joins the writer, which closes the
    file. *)

Definition UMASK_PRIVATE : Z := 63.   (* 077 *)

Definition new_QueuingLogSink_file {E : Env} {S : Type} (output_file_name : string) : IO S Z :=
  old_mask ← call (SUmask UMASK_PRIVATE);
  output_file ← call (SFopen output_file_name);
  if ret output_file <? 0 then undef "setbuf(NULL, NULL)" else
  call (SUmask old_mask) ;;
  mret (ret output_file).

Definition QueuingLogSink_destroy {E : Env} {S : Type} (output_file : Z) : IO S unit :=
  call (SClose output_file) ;; mret tt.

(** ** Properties *)

(** The message fputs is busy with. *)
Definition in_flight (s : QueuingLogSink) : list string :=
  match pc s with Writing m => [m] | _ => [] end.

(** The messages fputs was called with are the first that were logged, and
    the file has of each what its fputs wrote. *)
Record log_inv (s : QueuingLogSink) : Prop := {
  lg_order : exists written, written ++ in_flight s ++ to_write_queue_ s = logged s /\
    Forall2 (fun text m => exists f, text = fputs f m) (file s) written /\
    (failed_writes s = 0%nat -> file s = line_of <$> written)
}.

Lemma sink_step_inv s s' : sink_step s s' -> log_inv s -> log_inv s'.
Proof.
  intros Hst [(written & Hs & Hf & Hn)]. destruct Hst as [m s s' b H|f s s' H|s].
  - unfold send in H. destruct (mutex_free s); [|done]. injection H as <- _. split. exists written.
    unfold in_flight in *. cbn. split_and!; [rewrite <- Hs; by rewrite !app_assoc|done|done].
  - unfold writer_step, in_flight in *. destruct (pc s) eqn:Ep; [..|done]; cbn in *.
    + injection H as <-. split. exists written. unfold in_flight. by destruct (should_die_ s); cbn.
    + injection H as <-. split. by exists written.
    + destruct (to_write_queue_ s) as [|m q] eqn:Eq; injection H as <-; split; exists written; unfold in_flight; cbn; [by rewrite Eq|done].
    + injection H as <-. split. exists (written ++ [message]). unfold in_flight. cbn. split_and!.
      * by rewrite <- app_assoc.
      * apply Forall2_app; [done|]. repeat constructor. by eexists.
      * destruct f; [done|]. intros H0. rewrite fmap_app, (Hn H0). done.
  - split. by exists written.
Qed.

(** C40: the log is what was logged.  In every reachable state the messages
    that fputs was called with, the one it is busy with and those in the queue
    are, in this order, exactly the messages that were logged: none is
    skipped, doubled or reordered.  The file has, in order, of each message
    fputs was called with a beginning of its line (up to a NUL, if it has
    one): the whole line unless the write failed, which nobody looks at; so
    when no fputs has failed the file is exactly their lines. *)
Theorem log_keeps_order s :
  rtc sink_step new_QueuingLogSink s ->
  exists written, written ++ in_flight s ++ to_write_queue_ s = logged s /\
    Forall2 (fun text m => exists f, text = fputs f m) (file s) written /\
    (failed_writes s = 0%nat -> file s = line_of <$> written).
Proof.
  intros H. apply lg_order.
  apply (rtc_invariant sink_step log_inv sink_step_inv _ _ H). split. exists []. by split_and!.
Qed.

(** A line that is lost: the disk is full, the result of fputs is not looked
    at, and the message is in neither the file nor the queue. *)
Theorem failed_write_is_not_noticed :
  rtc sink_step new_QueuingLogSink (mkSink [] false AtHead [""] ["disk full"] 1).
Proof.
  eapply rtc_l; [by apply (SinkSend "disk full" _ _ false)|].
  do 3 (eapply rtc_l; [apply (SinkWriter None); reflexivity|]).
  eapply rtc_l; [apply (SinkWriter (Some 0%nat)); reflexivity|].
  eapply rtc_l; [apply (SinkWriter None); reflexivity|]. apply rtc_refl.
Qed.

(** Logging does not wait for the disk.  While the writer is in fputs,
    which blocks when the filesystem is frozen, every message can be
    logged; and where the mutex is held, one step of the writer that does
    not touch the disk releases it. *)
Theorem logging_never_waits_for_disk s m :
  (mutex_free s = true -> is_Some (send m s)) /\
  (forall x, pc s = Writing x -> mutex_free s = true) /\
  (mutex_free s = false -> exists s', (forall f, writer_step f s = Some s') /\ file s' = file s /\ mutex_free s' = true).
Proof.
  unfold send, mutex_free, writer_step. split_and!.
  - intros ->. by eexists.
  - by intros x ->.
  - destruct (pc s); try done. intros _. destruct (to_write_queue_ s); by eexists.
Qed.

(** A message logged after the writer's last look at the queue and before
    it looks at [should_die_] again. *)
Definition lost_line : QueuingLogSink := mkSink ["last words"] true Closed [] ["last words"] 0.

Lemma lost_line_reachable : rtc sink_step new_QueuingLogSink lost_line.
Proof.
  do 3 (eapply rtc_l; [apply (SinkWriter None); reflexivity|]).
  eapply rtc_l; [eapply (SinkSend "last words"); reflexivity|].
  eapply rtc_l; [apply SinkDie|].
  eapply rtc_l; [apply (SinkWriter None); reflexivity|]. apply rtc_refl.
Qed.

(** The last lines.  The writer looks at [should_die_] without looking
    at the queue, so it can end with messages still in the queue: they are
    never written. *)
Theorem last_lines_can_be_lost :
  rtc sink_step new_QueuingLogSink lost_line /\ (forall f, writer_step f lost_line = None) /\
  to_write_queue_ lost_line <> [].
Proof.
  split; [exact lost_line_reachable|done].
Qed.

(** The writer's inner loop empties the queue when nobody logs; here every
    fputs works. *)
Fixpoint writer_steps (n : nat) (s : QueuingLogSink) : option QueuingLogSink :=
  match n with
  | O => Some s
  | S n' => writer_step None s ≫= writer_steps n'
  end.

(** What is in the queue when the writer wakes up is written, in order,
    in two steps a line, if nothing else is logged meanwhile. *)
Theorem drain_writes_everything s :
  pc s = Draining ->
  writer_steps (2 * length (to_write_queue_ s) + 1) s =
    Some (mkSink [] (should_die_ s) AtHead (file s ++ (line_of <$> to_write_queue_ s)) (logged s) (failed_writes s)).
Proof.
  destruct s as [q d p f l e]. cbn [pc to_write_queue_ should_die_ file logged failed_writes]. intros ->. revert f. induction q as [|m q IH]; intros f.
  - cbn. by rewrite app_nil_r.
  - replace (2 * length (m :: q) + 1)%nat with (S (S (2 * length q + 1)))%nat by (cbn; lia).
    cbn [writer_steps writer_step pc to_write_queue_ should_die_ file logged failed_writes mbind option_bind].
    etransitivity; [apply IH|]. by rewrite <- app_assoc.
Qed.

(** *** The end of the writer *)

(** Steps until the thread the destructor joins has ended. *)
Definition writer_measure (s : QueuingLogSink) : nat :=
  (2 * length (to_write_queue_ s) +
   match pc s with Waiting => 3 | Draining => 2 | Writing _ => 3 | AtHead => 1 | Closed => 0 end)%nat.

Lemma writer_step_measure s s' :
  should_die_ s = true -> writer_step None s = Some s' ->
  should_die_ s' = true /\ (writer_measure s' < writer_measure s)%nat.
Proof.
  destruct s as [q d p f l e]. cbn [should_die_]. intros ->. unfold writer_step, writer_measure. cbn.
  destruct p; try done; [intros [= <-]; cbn; split; [done|lia]..| |intros [= <-]; cbn; split; [done|lia]].
  destruct q; intros [= <-]; cbn; (split; [done|lia]).
Qed.

(** What the writer still writes before it looks at [should_die_]. *)
Definition committed (s : QueuingLogSink) : list string :=
  match pc s with AtHead | Closed => [] | _ => line_of <$> (in_flight s ++ to_write_queue_ s) end.

Lemma writer_ends s :
  should_die_ s = true ->
  exists n s', (n <= writer_measure s)%nat /\ writer_steps n s = Some s' /\ pc s' = Closed /\
    file s' = file s ++ committed s.
Proof.
  remember (writer_measure s) as m eqn:Em. revert s Em.
  induction m as [m IH] using lt_wf_ind; intros s -> Hd.
  destruct (writer_step None s) as [s1|] eqn:Es.
  2: { destruct s as [q d p f l e], p; cbn in Es; try done; [by destruct q|].
       exists 0%nat. eexists. split; [lia|]. split_and!; [done|done|]. by rewrite app_nil_r. }
  destruct (writer_step_measure s s1 Hd Es) as [Hd1 Hm].
  destruct (IH _ Hm s1 eq_refl Hd1) as (n & s' & Hn & Rn & Hc & Hf).
  exists (S n), s'. split_and!; [lia|by cbn; rewrite Es|done|]. rewrite Hf. clear -Es Hd.
  destruct s as [q d p f l e]. cbn in Hd. subst d. unfold committed, in_flight. destruct p; cbn in *; try done.
  - by injection Es as <-.
  - by injection Es as <-.
  - destruct q; by injection Es as <-; cbn; rewrite ?app_nil_r.
  - injection Es as <-. cbn. by rewrite <- app_assoc.
Qed.

(** The destructor returns.  Once [should_die_] is set and nobody logs
    any more, wherever the writer is and however much is queued, it ends
    within two steps per queued line and three more: it never waits for
    anything but the time-out of its condition variable and the disk.  If
    it was past its look at the flag and no fputs fails, every line is in the
    file by then. *)
Theorem destructor_joins_writer s :
  should_die_ s = true ->
  exists n s', (n <= 2 * length (to_write_queue_ s) + 3)%nat /\ writer_steps n s = Some s' /\ pc s' = Closed /\
    (pc s <> AtHead -> pc s <> Closed -> file s' = file s ++ (line_of <$> (in_flight s ++ to_write_queue_ s))).
Proof.
  intros Hd. destruct (writer_ends s Hd) as (n & s' & Hn & R & Hc & Hf). exists n, s'. split_and!; [|done|done|].
  - unfold writer_measure in Hn. destruct (pc s); lia.
  - intros H1 H2. rewrite Hf. unfold committed. by destruct (pc s).
Qed.

(** The log file is private.  The constructor creates the file with the
    mask 077 in force and puts the old mask back; when the file cannot be
    opened, it uses the null pointer before it looks at it, with the mask
    still changed. *)
Theorem log_file_is_private {E : Env} {S : Type} path (w : S * history) :
  let old := E w.2 _ (SUmask UMASK_PRIVATE) in
  let h1 := Ev (SUmask UMASK_PRIVATE) old :: w.2 in
  let f := E h1 _ (SFopen path) in
  let h2 := Ev (SFopen path) f :: h1 in
  new_QueuingLogSink_file path w =
    if ret f <? 0 then (Undef "setbuf(NULL, NULL)", (w.1, h2))
    else (Ret (ret f), (w.1, Ev (SUmask old) (E h2 _ (SUmask old)) :: h2)).
Proof. unfold new_QueuingLogSink_file. io. by case_bool; io. Qed.

(** ** Witnesses *)

(** Two messages; the second write fails after one character. *)
Definition half_written : QueuingLogSink :=
  mkSink ["c"] false Draining [line_of "a"; "b"] ["a"; "bb"; "c"] 1.

Lemma half_written_reachable : rtc sink_step new_QueuingLogSink half_written.
Proof.
  eapply rtc_l; [by apply (SinkSend "a" _ _ false)|]. eapply rtc_l; [by apply (SinkSend "bb" _ _ false)|].
  eapply rtc_l; [by apply (SinkSend "c" _ _ false)|].
  do 5 (eapply rtc_l; [apply (SinkWriter None); reflexivity|]).
  eapply rtc_l; [apply (SinkWriter (Some 1%nat)); reflexivity|]. apply rtc_refl.
Qed.

Lemma log_keeps_order_witness :
  exists written, written ++ ["c"] = ["a"; "bb"; "c"] /\
    Forall2 (fun text m => exists f, text = fputs f m) [line_of "a"; "b"] written.
Proof.
  destruct (log_keeps_order half_written half_written_reachable) as (written & H1 & H2 & _).
  exists written. split; [exact H1|exact H2].
Defined.

Lemma drain_writes_everything_witness :
  writer_steps 5 (mkSink ["a"; "b"] false Draining [line_of "0"] ["0"; "a"; "b"] 0) =
    Some (mkSink [] false AtHead (line_of <$> ["0"; "a"; "b"]) ["0"; "a"; "b"] 0).
Proof. apply (drain_writes_everything (mkSink ["a"; "b"] false Draining [line_of "0"] ["0"; "a"; "b"] 0)). reflexivity. Defined.

Example notifies_beyond_twenty :
  snd <$> send "x" (mkSink (replicate 20 "y") false Waiting [] (replicate 20 "y") 0) = Some true /\
  snd <$> send "x" (mkSink (replicate 19 "y") false Waiting [] (replicate 19 "y") 0) = Some false.
Proof. split; reflexivity. Qed.

Example line_is_cut_at_nul : line_of ("a" +:+ String Ascii.zero "b") = "a" /\ String.length (line_of "ab") = 3%nat.
Proof. split; reflexivity. Qed.

Lemma destructor_joins_writer_witness :
  exists n s', (n <= 7)%nat /\ writer_steps n (mkSink ["a"; "b"] true Waiting [line_of "0"] ["0"; "a"; "b"] 0) = Some s' /\
    pc s' = Closed /\ file s' = line_of <$> ["0"; "a"; "b"].
Proof.
  destruct (destructor_joins_writer (mkSink ["a"; "b"] true Waiting [line_of "0"] ["0"; "a"; "b"] 0) eq_refl)
    as (n & s' & Hn & R & Hc & Hf).
  exists n, s'. split_and!; [exact Hn|exact R|exact Hc|apply Hf; discriminate].
Defined.
