(* ===== verification/Dattod.v ===== *)
(** * The daemon

    Models dattod/: the lock file (flock.{h,cc}), the signal handler
    (signal_handler.{h,cc}) and main (dattod.cc), which puts the parts
    together and takes them down again.  The history is that of the calls of
    main, the log, the lock, the signal handler and the listener; the
    manager's builder has one of its own, whose descriptors are the subject
    of [NbdLife], [Tracing] and [SyncFrames]. *)

From S2P Require Import Prelude Machine Posix BlockDevice Tracing Nbd StatusTracker Coordinator.
From S2P Require Import BackupBuilder BackupManager Requests LogSink.

Definition SIGINT : Z := 2.

(** ** The lock file *)

Record Flock := mkFlock { lock_path_ : string; path_fd_ : Z }.

Section FlockOps.
Context {env : Env} {S : Type}.

Definition new_Flock (file_path : string) : IO S Flock :=
  fd ← call (SOpen file_path [O_RDWR; O_CREAT]);
  if ret fd <? 0 then throw (DattodException "Unable to lock file") else
  r ← call (SFlock (ret fd));
  if negb (ret r =? 0) then
    if errno r =? EWOULDBLOCK then throw (DattodException "File already locked")
    else throw (DattodException "Unknown lock failure")
  else mret (mkFlock file_path (ret fd)).

(** [sprintf("%ld", pid)], without the NUL. *)
Definition pid_text (pid : Z) : list Z :=
  (fun a => Z.of_N (Ascii.N_of_ascii a)) <$> String.list_ascii_of_string (to_string pid).

Definition WritePid (lock : Flock) : IO S unit :=
  pid ← call SGetpid;
  t ← call (SFtruncate (path_fd_ lock) 0);
  if negb (ret t =? 0) then throw (DattodException "Unable to truncate lock file") else
  w ← call (SWrite (path_fd_ lock) (pid_text pid));
  if ret w =? -1 then throw (DattodException "Unable to write to lock file") else mret tt.

Definition Flock_destroy (lock : Flock) : IO S unit := call (SClose (path_fd_ lock)) ;; mret tt.
End FlockOps.

(** ** Signals

    The static variable of the handler, and the signals the handler is
    installed for. *)

Record SigState := mkSig { signal_caught : Z; installed : gset Z }.

Definition no_signals : SigState := mkSig 0 ∅.

(** A signal arrives: the handler stores it, or the default action of the
    signals this program handles ends the process. *)
Definition deliver_signal {H} (signal : Z) : M (SigState * H) unit := fun w =>
  if decide (signal ∈ installed w.1) then (Ret tt, (mkSig signal (installed w.1), w.2))
  else (Abort "killed by a signal", w).

Section Signals.
Context {env : Env}.

Definition set_action (signal : Z) (act : sig_action) : IO SigState bool :=
  r ← call (SSigaction signal act);
  if ret r =? 0 then
    upd (fun s => mkSig (signal_caught s)
           (match act with SIG_HANDLER => {[signal]} ∪ installed s | SIG_DFL => installed s ∖ {[signal]} end)) ;;
    mret true
  else mret false.

(** A new action: the default one, until its handler is set. *)
Definition get_default_sig_action : sig_action := SIG_DFL.

Definition BlockSignals (signals_to_handle_ : list Z) : IO SigState unit :=
  for_each signals_to_handle_ (fun signal =>
    ok ← set_action signal SIG_HANDLER;
    if negb ok then throw (DattodException "Unable to set signal") else mret tt).

(** [pause]: it returns when a handler has run after it was called;
    [arrivals] are the signals from then on. *)
Definition pause (arrivals : list Z) : IO SigState unit :=
  match arrivals with
  | [] => out_of_fuel
  | s :: _ => deliver_signal s
  end.

(** [early] are the signals that arrive after BlockSignals and before
    pause, [late] those after. *)
Definition WaitForSignal (signals_to_handle_ early late : list Z) : IO SigState Z :=
  BlockSignals signals_to_handle_ ;;
  for_each early deliver_signal ;;
  pause late ;;
  local_signal_caught ← field signal_caught;
  upd (fun s => mkSig 0 (installed s)) ;;
  if local_signal_caught =? 0 then throw (DattodException "Unexpected! Signal was still 0 after handler")
  else mret local_signal_caught.

Definition SignalHandler_destroy (signals_to_handle_ : list Z) : IO SigState unit :=
  for_each signals_to_handle_ (fun signal => set_action signal get_default_sig_action ;; mret tt).
End Signals.

(** ** main *)

Section Main.
Context {env : Env} {W Bk : Type} `{!Builder W Bk}.
Context (ParseFromString : list Z -> Request) (SerializeAsString : Reply -> list Z).

Definition DATTO_SOCKET : string := "/var/run/dattod.sock".
Definition FLOCK_PATH : string := "/var/run/dattod.pid".

Record daemon := mkDaemon { sig : SigState; mgr : @BackupManager W }.

Definition on_sig {A} (m : IO SigState A) : IO daemon A := on sig (fun s d => mkDaemon s (mgr d)) m.

Definition on_mgr {A} (m : IO (@BackupManager W) A) : IO daemon A := on mgr (fun b d => mkDaemon (sig d) b) m.

(** An exception nobody catches. *)
Definition uncaught {S A} (m : IO S A) : IO S A :=
  try_catch m (fun _ => abort "std::terminate").

(** The wait of the manager's destructor: [ends] are the backup threads
    that end meanwhile. *)
Definition wait_for_backups (ends : list (@bm_op W Bk)) : M (@BackupManager W) unit :=
  for_each ends run_bm_op ;;
  waits ← gets destroy_waits;
  if waits : bool then out_of_fuel else mret tt.

(** What happens around main: the connections served before the stop, the
    signals, and the backups that end while the manager is destroyed. *)
Record surroundings := mkSurroundings {
  connections : list iteration;
  early_signals : list Z;
  late_signals : list Z;
  endings : list (@bm_op W Bk)
}.

Definition signals_to_block : list Z := [SIGTERM; SIGINT].

(** The part that runs with the lock. *)
Definition run_daemon (x : surroundings) : IO daemon unit :=
  uncaught (on_sig (BlockSignals signals_to_block)) ;;
  sock ← uncaught (OpenSocket DATTO_SOCKET);
  on_mgr (listen_loop ParseFromString SerializeAsString sock (connections x)) ;;
  uncaught (on_sig (WaitForSignal signals_to_block (early_signals x) (late_signals x))) ;;
  on_mgr (IpcRequestListener_Stop sock) ;;
  on_mgr (on_manager BackupManager_destroy) ;;
  on_mgr (on_manager (wait_for_backups (endings x))) ;;
  on_sig (SignalHandler_destroy signals_to_block).

(** main after the log has been set up: with the lock, until it is
    released. *)
Definition locked_main (x : surroundings) : IO daemon Z :=
  locked ← try_catch (lock ← new_Flock FLOCK_PATH; mret (Some lock)) (fun _ => mret None);
  match locked with
  | None => mret 1
  | Some lock =>
      written ← try_catch (WritePid lock ;; mret true) (fun _ => mret false);
      if negb written then Flock_destroy lock ;; mret 1
      else
        run_daemon x ;;
        Flock_destroy lock ;;
        mret 0
  end.

(** The release build becomes a daemon and has its log in /var/log; the log
    sink is the first object of main and is destroyed last, on every
    return. *)
Definition LOG_PATH (NDEBUG : bool) : string :=
  if NDEBUG then "/var/log/dattod.log" else "/tmp/dattod.log".

Definition main (NDEBUG : bool) (x : surroundings) : IO daemon Z :=
  failed ← (if NDEBUG then r ← call SDaemon; mret (negb (ret r =? 0)) else mret false);
  if failed : bool then mret 1 else
  log_sink ← new_QueuingLogSink_file (LOG_PATH NDEBUG);
  result ← locked_main x;
  QueuingLogSink_destroy log_sink ;;
  mret result.
End Main.

(** ** Properties *)

Lemma open_fds_open p f r h :
  open_fds (Ev (SOpen p f) r :: h) = if 0 <=? ret r then {[ret r]} ∪ open_fds h else open_fds h.
Proof. done. Qed.

Lemma open_fds_fopen p r h :
  open_fds (Ev (SFopen p) r :: h) = if 0 <=? ret r then {[ret r]} ∪ open_fds h else open_fds h.
Proof. done. Qed.

Lemma open_fds_umask m r h : open_fds (Ev (SUmask m) r :: h) = open_fds h.
Proof. done. Qed.

Lemma open_fds_flock fd r h : open_fds (Ev (SFlock fd) r :: h) = open_fds h.
Proof. done. Qed.

Lemma open_fds_getpid r h : open_fds (Ev SGetpid r :: h) = open_fds h.
Proof. done. Qed.

Lemma open_fds_ftruncate fd n r h : open_fds (Ev (SFtruncate fd n) r :: h) = open_fds h.
Proof. done. Qed.

Lemma open_fds_sigaction n a r h : open_fds (Ev (SSigaction n a) r :: h) = open_fds h.
Proof. done. Qed.

Lemma open_fds_shutdown fd r h : open_fds (Ev (SShutdown fd) r :: h) = open_fds h.
Proof. done. Qed.

#[export] Hint Rewrite open_fds_flock open_fds_getpid open_fds_ftruncate open_fds_sigaction open_fds_shutdown : agent.

Section FlockProps.
Context {E : Env} {S : Type}.
Hypothesis Hfresh : fresh_fds E.

Lemma new_Flock_run path (s : S) h :
  exists o h', new_Flock path (s, h) = (o, (s, h')) /\
    ((exists fd, o = Ret (mkFlock path fd) /\ (fd ∉ open_fds h) /\ open_fds h' = {[fd]} ∪ open_fds h) \/
     (exists e, o = Throw e)).
Proof.
  destruct Hfresh as (Ho & _). specialize (Ho h path [O_RDWR; O_CREAT]). cbn zeta in Ho.
  unfold new_Flock. io. destruct (E h _ (SOpen path [O_RDWR; O_CREAT])) as [fd en]. cbn [ret fst] in Ho |- *.
  destruct Ho as [->|[H0 Hn]]. { eexists _, _. split; [done|]. right. by eexists. }
  rewrite (proj2 (Z.ltb_ge fd 0) H0). io.
  repeat (case_bool; io); eexists _, _; (split; [done|]); [right; by eexists..|].
  left. exists fd. split_and!; [done|done|]. autorewrite with agent. rewrite open_fds_open.
  cbn [ret fst]. by rewrite (proj2 (Z.leb_le 0 fd) H0).
Qed.

Lemma WritePid_run l (s : S) h :
  exists o h', WritePid l (s, h) = (o, (s, h')) /\ open_fds h' = open_fds h /\ (o = Ret tt \/ exists e, o = Throw e).
Proof.
  unfold WritePid. io. repeat (case_bool; io); eexists _, _; (split; [done|]); split; eauto.
Qed.

(** The lock file.  The lock is taken exactly when open and flock
    succeed, and then its descriptor is the only one added; with the lock
    taken by another process, or another failure of flock, the descriptor
    that open returned stays open: the constructor throws, so the
    destructor does not run. *)
Theorem flock_spec path (s : S) h :
  let '(fd, en) := E h _ (SOpen path [O_RDWR; O_CREAT]) in
  let h1 := Ev (SOpen path [O_RDWR; O_CREAT]) (fd, en) :: h in
  let r := E h1 _ (SFlock fd) in
  (fd < 0 -> new_Flock path (s, h) = (Throw (DattodException "Unable to lock file"), (s, h1))) /\
  (0 <= fd -> exists o, new_Flock path (s, h) = (o, (s, Ev (SFlock fd) r :: h1)) /\
     (ret r = 0 -> o = Ret (mkFlock path fd)) /\
     (ret r <> 0 -> errno r = EWOULDBLOCK -> o = Throw (DattodException "File already locked")) /\
     open_fds (Ev (SFlock fd) r :: h1) = {[fd]} ∪ open_fds h).
Proof.
  unfold new_Flock. io. destruct (E h _ (SOpen path [O_RDWR; O_CREAT])) as [fd en]. cbn [ret fst]. cbn zeta.
  destruct (Z.ltb_spec fd 0) as [H0|H0]; [split; [done|lia]|]. split; [lia|]. intros _. io.
  set (r := E _ _ (SFlock fd)).
  assert (open_fds (Ev (SFlock fd) r :: Ev (SOpen path [O_RDWR; O_CREAT]) (fd, en) :: h) = {[fd]} ∪ open_fds h) as Ho.
  { autorewrite with agent. rewrite open_fds_open. cbn [ret fst]. by rewrite (proj2 (Z.leb_le 0 fd) H0). }
  destruct (Z.eqb_spec (ret r) 0) as [Hr|Hr]; cbn [negb].
  - eexists. split; [done|]. by split_and!.
  - destruct (Z.eqb_spec (errno r) EWOULDBLOCK); eexists; (split; [done|]); by split_and!.
Qed.
End FlockProps.

Section SignalProps.
Context {E : Env}.

Lemma set_action_fds n a (w : SigState * history) : open_fds (set_action n a w).2.2 = open_fds w.2.
Proof. destruct w. unfold set_action. io. by case_bool. Qed.

Lemma BlockSignals_fds l (w : SigState * history) : open_fds (BlockSignals l w).2.2 = open_fds w.2.
Proof.
  apply (for_each_state_rule l _ (fun w' => open_fds w'.2 = open_fds w.2)); [done|].
  intros n w' _ Hw'. apply bind_state_rule; [by rewrite set_action_fds|].
  intros ok w1 R. pose proof (set_action_fds n SIG_HANDLER w') as Hs. rewrite R in Hs. cbn in Hs.
  case_bool; cbn; congruence.
Qed.

Lemma SignalHandler_destroy_fds l (w : SigState * history) :
  open_fds (SignalHandler_destroy l w).2.2 = open_fds w.2.
Proof.
  apply (for_each_state_rule l _ (fun w' => open_fds w'.2 = open_fds w.2)); [done|].
  intros n w' _ Hw'. rewrite <- Hw', <- (set_action_fds n get_default_sig_action w'). rewrite bind_unfold.
  by destruct (set_action n get_default_sig_action w') as [[]].
Qed.

Lemma deliver_fds {H} n (w : SigState * H) : (deliver_signal n w).2.2 = w.2.
Proof. unfold deliver_signal. by destruct (decide _). Qed.

Lemma WaitForSignal_fds l early late (w : SigState * history) :
  open_fds (WaitForSignal l early late w).2.2 = open_fds w.2.
Proof.
  set (Q := fun w' : SigState * history => open_fds w'.2 = open_fds w.2).
  change (Q (WaitForSignal l early late w).2). unfold WaitForSignal.
  apply bind_state_rule; [apply BlockSignals_fds|]. intros ? w1 R1.
  assert (Q w1) as Q1 by (pose proof (BlockSignals_fds l w) as H1; by rewrite R1 in H1).
  assert (forall n w', Q w' -> Q (deliver_signal n w').2) as Hd by (intros n w' Hw'; unfold Q; by rewrite deliver_fds).
  apply bind_state_rule; [apply for_each_state_rule; auto|]. intros ? w2 R2.
  assert (Q w2) as Q2.
  { replace w2 with (for_each early deliver_signal w1).2 by (by rewrite R2). apply for_each_state_rule; auto. }
  assert (Q (pause late w2).2) as Hp by (destruct late; [done|by apply Hd]).
  apply bind_state_rule; [done|]. intros ? w3 R3. rewrite R3 in Hp. cbn in Hp. io. by case_bool.
Qed.

Lemma set_action_handler n s h :
  ret (E h _ (SSigaction n SIG_HANDLER)) = 0 ->
  set_action n SIG_HANDLER (s, h) =
    (Ret true, (mkSig (signal_caught s) ({[n]} ∪ installed s),
                Ev (SSigaction n SIG_HANDLER) (E h _ (SSigaction n SIG_HANDLER)) :: h)).
Proof. intros Hr. unfold set_action. io. by rewrite Hr. Qed.

Lemma BlockSignals_run l s h :
  (forall h n, ret (E h _ (SSigaction n SIG_HANDLER)) = 0) ->
  exists h', BlockSignals l (s, h) = (Ret tt, (mkSig (signal_caught s) (list_to_set l ∪ installed s), h')).
Proof.
  intros Hsa. revert s h. induction l as [|n l IH]; intros s h.
  - exists h. unfold BlockSignals. cbn. destruct s. cbn. by rewrite union_empty_l_L.
  - destruct (IH (mkSig (signal_caught s) ({[n]} ∪ installed s))
      (Ev (SSigaction n SIG_HANDLER) (E h _ (SSigaction n SIG_HANDLER)) :: h)) as [h' R].
    exists h'. unfold BlockSignals in *. rewrite for_each_cons, bind_unfold, bind_unfold, set_action_handler by done.
    etransitivity; [exact R|]. cbn. do 3 f_equal. set_solver.
Qed.

Lemma last_any_default {A} (e : list A) a b : e <> [] -> List.last e a = List.last e b.
Proof. induction e as [|x [|y e] IH]; intros Hn; [done|done|]. by apply IH. Qed.

Lemma deliver_all_run {H} e s (h : H) :
  (forall x, x ∈ e -> x ∈ installed s) ->
  for_each e deliver_signal (s, h) = (Ret tt, (mkSig (List.last e (signal_caught s)) (installed s), h)).
Proof.
  revert s. induction e as [|x e IH]; intros s He; cbn [for_each]; [by destruct s|].
  rewrite bind_unfold. unfold deliver_signal at 1. cbn [fst snd]. rewrite decide_True by (apply He; left).
  rewrite IH; [|intros y Hy; apply He; by right]. cbn [signal_caught installed]. destruct e as [|y e]; [done|].
  by rewrite (last_any_default (y :: e) x (signal_caught s)).
Qed.

(** Waiting for a signal.  With the handlers installed, WaitForSignal
    returns the first handled signal that arrives once it is paused, and
    clears the static variable.  Signals that arrived earlier, after
    BlockSignals, are stored by the handler but do not end the wait: if no
    further signal comes, the call does not return. *)
Theorem wait_for_signal_spec l early late s h :
  (forall h n, ret (E h _ (SSigaction n SIG_HANDLER)) = 0) ->
  (forall x, x ∈ early ++ late -> x ∈ l /\ x <> 0) ->
  let '(o, (s', _)) := WaitForSignal l early late (s, h) in
  match late with
  | [] => o = OutOfFuel /\ signal_caught s' = List.last early (signal_caught s)
  | x :: _ => o = Ret x /\ signal_caught s' = 0
  end.
Proof.
  intros Hsa Hin. destruct (BlockSignals_run l s h Hsa) as [h' R]. set (s1 := mkSig _ _) in R.
  assert (forall x, x ∈ early ++ late -> x ∈ installed s1) as Hall.
  { intros x Hx. cbn. apply Hin in Hx as [Hx _]. set_solver. }
  assert (WaitForSignal l early late (s, h) =
    (pause late ;; local ← field signal_caught; upd (fun s => mkSig 0 (installed s)) ;;
      if local =? 0 then throw (DattodException "Unexpected! Signal was still 0 after handler") else mret local)
    (mkSig (List.last early (signal_caught s1)) (installed s1), h')) as ->.
  { unfold WaitForSignal. rewrite bind_unfold, R, bind_unfold, deliver_all_run; [done|]. intros x Hx. apply Hall, elem_of_app. by left. }
  destruct late as [|x late]; cbn [pause].
  - by io.
  - io. unfold deliver_signal. cbn [fst snd installed]. rewrite decide_True by (apply Hall, elem_of_app; right; left). io.
    cbn [signal_caught]. rewrite (proj2 (Z.eqb_neq x 0)); [done|].
    apply Hin, elem_of_app. right. left.
Qed.
End SignalProps.

Section MainProps.
Context {E : Env} {W Bk : Type} `{!Builder W Bk}.
Context (parse : list Z -> Request) (serialize : Reply -> list Z).

(** One daemon at a time.  When the lock file is locked by another
    process, main gives up after the open and the flock, and has done
    nothing else: in particular the other daemon's socket is not removed
    and its PID in the lock file stays. *)
Theorem second_daemon_is_harmless x (d : @daemon W) h fd en r :
  E h _ (SOpen FLOCK_PATH [O_RDWR; O_CREAT]) = (fd, en) -> 0 <= fd ->
  E (Ev (SOpen FLOCK_PATH [O_RDWR; O_CREAT]) (fd, en) :: h) _ (SFlock fd) = r -> ret r <> 0 ->
  locked_main parse serialize x (d, h) =
    (Ret 1, (d, Ev (SFlock fd) r :: Ev (SOpen FLOCK_PATH [O_RDWR; O_CREAT]) (fd, en) :: h)).
Proof.
  intros Ho Hfd Hl Hr. unfold locked_main. rewrite bind_unfold. unfold try_catch at 1. rewrite bind_unfold.
  unfold new_Flock. io. rewrite Ho. io. cbn [ret fst]. rewrite (proj2 (Z.ltb_ge fd 0) Hfd). io. rewrite Hl.
  rewrite (proj2 (Z.eqb_neq _ _) Hr). cbn [negb]. by case_bool.
Qed.

Hypothesis Hfresh : fresh_fds E.

Lemma on_sig_run {A} (m : IO SigState A) (d : @daemon W) (h : history) :
  on_sig m (d, h) = let '(o, (s, h')) := m (sig d, h) in (o, (mkDaemon s (mgr d), h')).
Proof. done. Qed.

Lemma on_mgr_run {A} (m : IO (@BackupManager W) A) (d : @daemon W) (h : history) :
  on_mgr m (d, h) = let '(o, (b, h')) := m (mgr d, h) in (o, (mkDaemon (sig d) b, h')).
Proof. done. Qed.

Lemma uncaught_Ret {S A} (m : IO S A) w a w' : uncaught m w = (Ret a, w') -> m w = (Ret a, w').
Proof. unfold uncaught, try_catch. by destruct (m w) as [[]]. Qed.

Lemma on_sig_Ret {A} (m : IO SigState A) (d : @daemon W) h a d' h' :
  (forall w, open_fds (m w).2.2 = open_fds w.2) ->
  on_sig m (d, h) = (Ret a, (d', h')) -> open_fds h' = open_fds h /\ mgr d' = mgr d.
Proof.
  intros Hm. rewrite on_sig_run. specialize (Hm (sig d, h)). destruct (m (sig d, h)) as [o [s' h1]].
  intros [= _ <- <-]. done.
Qed.

Lemma on_manager_fds {A} (m : M (@BackupManager W) A) (d : @daemon W) h a d' h' :
  on_mgr (on_manager m) (d, h) = (Ret a, (d', h')) -> h' = h /\ m (mgr d) = (Ret a, mgr d').
Proof.
  rewrite on_mgr_run. unfold on_manager. cbn [fst snd]. destruct (m (mgr d)) as [o b]. by intros [= -> <- <-].
Qed.

(** *** A run in which nothing fails *)

(** The calls of main, the log, the lock and the signal handler, and those
    that set up the listener, succeed. *)
Record calls_work : Prop := {
  cw_daemon : forall h, ret (E h _ SDaemon) = 0;
  cw_log : forall h p, 0 <= ret (E h _ (SFopen p));
  cw_open : forall h p f, 0 <= ret (E h _ (SOpen p f));
  cw_flock : forall h fd, ret (E h _ (SFlock fd)) = 0;
  cw_truncate : forall h fd n, ret (E h _ (SFtruncate fd n)) = 0;
  cw_pid : forall h fd pid, ret (E h _ (SWrite fd (pid_text pid))) <> -1;
  cw_sigaction : forall h n act, ret (E h _ (SSigaction n act)) = 0;
  cw_socket : forall h f, 0 <= ret (E h _ (SSocket f));
  cw_unlink : forall h p, ret (E h _ (SUnlink p)) = 0;
  cw_bind : forall h fd p, ret (E h _ (SBind fd p)) = 0;
  cw_listen : forall h fd n, ret (E h _ (SListen fd n)) = 0
}.

Hypothesis Hwork : calls_work.

(** A backup's thread ends. *)
Definition is_end (o : @bm_op W Bk) : Prop := match o with BEnds _ _ _ _ => True | _ => False end.

Lemma endings_run l (b : @BackupManager W) : Forall is_end l -> exists b', for_each l run_bm_op b = (Ret tt, b').
Proof.
  intros Hl. revert b. induction Hl as [|o l Ho _ IH]; intros b; [by exists b|]. destruct o; try done.
  rewrite for_each_cons. cbn [run_bm_op]. unfold backup_thread_ends, erase_job. run. apply IH.
Qed.

Lemma OpenSocket_works {S} path (s : S) h :
  Z.of_nat (String.length path) <= SUN_PATH_SIZE ->
  exists fd h', OpenSocket path (s, h) = (Ret fd, (s, h')) /\ (fd ∉ open_fds h) /\ open_fds h' = {[fd]} ∪ open_fds h.
Proof.
  intros Hp. destruct (OpenSocket path (s, h)) as [o [s' h']] eqn:R. pose proof (OpenSocket_run Hfresh path s h _ _ _ R) as Hr.
  revert R. unfold OpenSocket. io. rewrite (proj2 (Z.ltb_ge _ 0) (cw_socket Hwork _ _)). io.
  rewrite (cw_unlink Hwork). cbn [Z.eqb negb andb]. rewrite (proj2 (Z.ltb_ge _ _) Hp). io.
  rewrite (cw_bind Hwork). cbn [Z.eqb negb]. io. rewrite (cw_listen Hwork). cbn [Z.eqb negb]. io. intros [= <- <- <-].
  destruct Hr as [(fd & [= <-] & Hn & F)|[[? _]|[[[? ?]|[? ?]] _]]]; try done. by eexists _, _.
Qed.

Lemma locks l (d : @daemon W) h :
  exists fd h', new_Flock l (d, h) = (Ret (mkFlock l fd), (d, h')) /\ (fd ∉ open_fds h) /\ open_fds h' = {[fd]} ∪ open_fds h.
Proof.
  destruct (new_Flock_run (S := @daemon W) Hfresh l d h) as (o & h' & R & Ho). rewrite R. revert R. unfold new_Flock. io.
  rewrite (proj2 (Z.ltb_ge _ 0) (cw_open Hwork _ _ _)). io. rewrite (cw_flock Hwork). cbn [Z.eqb negb]. io. intros [= <- <-].
  destruct Ho as [(fd & [= ->] & Hn & F)|[e ?]]; [by eexists _, _|done].
Qed.

Lemma writes_pid l (d : @daemon W) h :
  exists h', WritePid l (d, h) = (Ret tt, (d, h')) /\ open_fds h' = open_fds h.
Proof.
  unfold WritePid. io. rewrite (cw_truncate Hwork). cbn [Z.eqb negb]. io.
  rewrite (proj2 (Z.eqb_neq _ (-1)) (cw_pid Hwork _ _ _)). io. eexists. split; [done|]. by autorewrite with agent.
Qed.

Lemma WaitForSignal_run l early n late s h :
  (forall x, x ∈ early ++ n :: late -> x ∈ l /\ x <> 0) ->
  exists h', WaitForSignal l early (n :: late) (s, h) = (Ret n, (mkSig 0 (list_to_set l ∪ installed s), h')) /\
    open_fds h' = open_fds h.
Proof.
  intros Hin. pose proof (WaitForSignal_fds l early (n :: late) (s, h)) as Hf.
  destruct (BlockSignals_run l s h (fun h n => cw_sigaction Hwork h n SIG_HANDLER)) as [h' R].
  exists h'. revert Hf. unfold WaitForSignal. rewrite bind_unfold, R, bind_unfold, deliver_all_run.
  2: { intros x Hx. cbn. destruct (Hin x) as [? _]; [apply elem_of_app; by left|]. set_solver. }
  destruct (Hin n) as [Hl H0]; [apply elem_of_app; right; left|].
  rewrite bind_unfold. unfold pause, deliver_signal. cbn [fst snd installed]. rewrite decide_True by set_solver. io.
  cbn [signal_caught]. rewrite (proj2 (Z.eqb_neq n 0)) by done. by io.
Qed.

Lemma SignalHandler_destroy_run l s h :
  exists h', SignalHandler_destroy l (s, h) = (Ret tt, (mkSig (signal_caught s) (installed s ∖ list_to_set l), h')) /\
    open_fds h' = open_fds h.
Proof.
  revert s h. induction l as [|n l IH]; intros s h.
  - exists h. split; [|done]. destruct s as [c i]. cbn. by rewrite difference_empty_L.
  - unfold SignalHandler_destroy in *. rewrite for_each_cons, bind_unfold, bind_unfold. unfold set_action. io.
    rewrite (cw_sigaction Hwork). cbn [Z.eqb get_default_sig_action]. io.
    match goal with |- context [for_each l _ (?s1, ?h1)] => destruct (IH s1 h1) as (h' & R & F) end.
    exists h'. split; [etransitivity; [exact R|]|rewrite F; by autorewrite with agent]. cbn. do 3 f_equal. set_solver.
Qed.

(** The daemon's run, between taking and releasing the lock. *)
Lemma run_daemon_run x (w : W) h n late :
  builder_returns -> late_signals x = n :: late ->
  (forall y, y ∈ early_signals x ++ n :: late -> y ∈ signals_to_block) -> Forall is_end (endings x) ->
  exists sock k0 stopped b1 k1 b2 b3 h',
    listen_loop parse serialize sock (connections x) (new_BackupManager w, k0) = (Ret stopped, (b1, k1)) /\
    bm_inv b1 /\ BackupManager_destroy b1 = (Ret tt, b2) /\ for_each (endings x) run_bm_op b2 = (Ret tt, b3) /\
    open_fds h' = open_fds h /\
    run_daemon parse serialize x (mkDaemon no_signals (new_BackupManager w), h) =
      (if destroy_waits b3 then (OutOfFuel, (mkDaemon (mkSig 0 {[SIGTERM; SIGINT]}) b3, h'))
       else (Ret tt, (mkDaemon no_signals b3, h'))).
Proof.
  intros Hb Hl Hin Hend.
  destruct (BlockSignals_run signals_to_block no_signals h (fun h n => cw_sigaction Hwork h n SIG_HANDLER)) as [h1 R1].
  pose proof (BlockSignals_fds signals_to_block (no_signals, h)) as F1. rewrite R1 in F1. cbn [snd] in F1.
  destruct (OpenSocket_works DATTO_SOCKET (mkDaemon (mkSig 0 (list_to_set signals_to_block ∪ ∅)) (new_BackupManager w)) h1 ltac:(vm_compute; discriminate))
    as (sock & h2 & R2 & Hn2 & F2).
  destruct (listen_loop_returns parse serialize sock (connections x) (new_BackupManager w) h2 Hb (new_manager_bm_inv w))
    as (stopped & b1 & h3 & R3 & Hi1).
  pose proof (listen_loop_run parse serialize Hfresh _ _ _ _ _ R3) as [_ F3]. specialize (F3 ltac:(eauto)). cbn [snd] in F3.
  destruct (WaitForSignal_run signals_to_block (early_signals x) n late (mkSig 0 (list_to_set signals_to_block ∪ ∅)) h3) as (h4 & R4 & F4).
  { intros y Hy. split; [by apply Hin|]. apply Hin in Hy. unfold signals_to_block, SIGTERM, SIGINT in Hy.
    repeat apply elem_of_cons in Hy as [->|Hy]; [done..|by apply not_elem_of_nil in Hy]. }
  destruct (destructor_cancels_everything b1 (mkRequest FULL_BACKUP []) "" Hi1) as (b2 & R5 & _).
  destruct (endings_run (endings x) b2 Hend) as [b3 R6].
  exists sock, h2, stopped, b1, h3, b2, b3.
  unfold run_daemon. rewrite bind_unfold. unfold uncaught at 1, try_catch at 1. rewrite on_sig_run. cbn [sig mgr]. rewrite R1.
  rewrite bind_unfold. unfold uncaught at 1, try_catch at 1. cbn [signal_caught installed no_signals].
  rewrite R2. rewrite bind_unfold, on_mgr_run. cbn [mgr sig]. rewrite R3. rewrite bind_unfold. unfold uncaught at 1, try_catch at 1.
  rewrite on_sig_run. cbn [sig mgr]. rewrite Hl, R4. rewrite bind_unfold, on_mgr_run. unfold IpcRequestListener_Stop. io. cbn [mgr sig].
  rewrite on_mgr_run. unfold on_manager at 1. cbn [fst snd mgr sig]. rewrite R5. io.
  rewrite on_mgr_run. unfold on_manager at 1, wait_for_backups. cbn [fst snd mgr sig]. run. rewrite R6. run.
  set (k := Ev (SClose sock) _ :: _).
  assert (open_fds k = open_fds h) as Fk by (unfold k; autorewrite with agent; rewrite F4, F3, F2, F1; set_solver).
  destruct (destroy_waits b3); run.
  - exists k. split_and!; try done.
  - rewrite on_sig_run. cbn [sig mgr]. destruct (SignalHandler_destroy_run signals_to_block (mkSig 0 (list_to_set signals_to_block ∪ (list_to_set signals_to_block ∪ ∅))) k)
      as (h' & R7 & F7). cbn [installed]. rewrite R7. exists h'. split_and!; try done. congruence.
Qed.

Lemma main_run NDEBUG x (w : W) h n late :
  builder_returns -> late_signals x = n :: late ->
  (forall y, y ∈ early_signals x ++ n :: late -> y ∈ signals_to_block) -> Forall is_end (endings x) ->
  exists sock k0 stopped b1 k1 b2 b3 h' waiting,
    listen_loop parse serialize sock (connections x) (new_BackupManager w, k0) = (Ret stopped, (b1, k1)) /\
    bm_inv b1 /\ BackupManager_destroy b1 = (Ret tt, b2) /\ for_each (endings x) run_bm_op b2 = (Ret tt, b3) /\
    open_fds h' = open_fds h /\
    main parse serialize NDEBUG x (mkDaemon no_signals (new_BackupManager w), h) =
      (if destroy_waits b3 then (OutOfFuel, waiting) else (Ret 0, (mkDaemon no_signals b3, h'))).
Proof.
  intros Hb El Hin Hend.
  set (d := mkDaemon no_signals (new_BackupManager w)). unfold main. rewrite bind_unfold.
  set (h0 := if NDEBUG then Ev SDaemon (E h _ SDaemon) :: h else h).
  assert ((if NDEBUG then r ← call SDaemon; mret (negb (ret r =? 0)) else mret false) (d, h) = (Ret false, (d, h0))) as ->.
  { unfold h0. destruct NDEBUG; [|done]. io. by rewrite (cw_daemon Hwork). }
  assert (open_fds h0 = open_fds h) as F0 by (unfold h0; by destruct NDEBUG).
  rewrite bind_unfold. unfold new_QueuingLogSink_file. io. set (k := Ev (SUmask UMASK_PRIVATE) _ :: h0).
  rewrite (proj2 (Z.ltb_ge _ 0) (cw_log Hwork k (LOG_PATH NDEBUG))). io.
  destruct (proj2 (proj2 (proj2 Hfresh)) k (LOG_PATH NDEBUG)) as [Hf|[Hf Hn]];
    [pose proof (cw_log Hwork k (LOG_PATH NDEBUG)); lia|].
  set (log := ret (E k _ (SFopen (LOG_PATH NDEBUG)))) in *. set (h1 := Ev (SUmask _) _ :: _).
  assert (open_fds h1 = {[log]} ∪ open_fds h /\ log ∉ open_fds h) as [F1 Hlog].
  { assert (open_fds k = open_fds h) as Ek by (unfold k; by rewrite open_fds_umask). rewrite Ek in Hn. split; [|done].
    unfold h1. rewrite open_fds_umask, open_fds_fopen. fold log. by rewrite (proj2 (Z.leb_le 0 log) Hf), Ek. }
  unfold locked_main. rewrite bind_unfold. unfold try_catch at 1. rewrite bind_unfold.
  destruct (locks FLOCK_PATH d h1) as (fd & h2 & R2 & Hn2 & F2). unfold history in R2. rewrite R2. io. unfold try_catch at 1. rewrite bind_unfold.
  destruct (writes_pid (mkFlock FLOCK_PATH fd) d h2) as (h3 & R3 & F3). unfold history in R3. rewrite R3. io. cbn [negb].
  destruct (run_daemon_run x w h3 n late Hb El Hin Hend)
    as (sock & k0 & stopped & b1 & k1 & b2 & b3 & h4 & L & Hi & R5 & R6 & F4 & R).
  rewrite bind_unfold. fold d in R. unfold history in R. rewrite R.
  exists sock, k0, stopped, b1, k1, b2, b3. destruct (destroy_waits b3).
  - eexists h, _. by split_and!.
  - unfold Flock_destroy, QueuingLogSink_destroy. io. eexists _, (d, h). split_and!; [done..| |reflexivity].
    cbn [path_fd_]. autorewrite with agent. rewrite F4, F3, F2, F1. set_solver.
Qed.

End MainProps.

(** ** Runs *)

#[local] Existing Instance simple_builder.

Lemma flock_spec_witness :
  exists o, new_Flock (env := working_env) "/var/run/dattod.pid" (tt, []) =
    (o, (tt, [Ev (SFlock 3) (0, 0); Ev (SOpen "/var/run/dattod.pid" [O_RDWR; O_CREAT]) (3, 0)])) /\
    o = Ret (mkFlock "/var/run/dattod.pid" 3).
Proof.
  destruct (proj2 (flock_spec (E := working_env) "/var/run/dattod.pid" tt []) ltac:(vm_compute; discriminate))
    as (o & R & H & _).
  exists o. split; [exact R|]. apply H. reflexivity.
Defined.

Lemma wait_for_signal_spec_witness :
  result (WaitForSignal (env := working_env) [SIGTERM; SIGINT] [SIGTERM] []) (no_signals, []) = OutOfFuel.
Proof.
  pose proof (wait_for_signal_spec (E := working_env) [SIGTERM; SIGINT] [SIGTERM] [] no_signals []) as H.
  unfold result. destruct (WaitForSignal _ _ _ _) as [o [s' h']].
  apply H; [reflexivity|].
  intros x Hx. apply elem_of_app in Hx as [Hx|Hx]; [|by apply not_elem_of_nil in Hx].
  apply list_elem_of_singleton in Hx as ->. split; [left|discriminate].
Defined.

Definition sample_daemon : @daemon nat := mkDaemon no_signals (new_BackupManager 0%nat).

(** One connection, then SIGTERM. *)
Definition sample_surroundings : @surroundings nat (list string) :=
  mkSurroundings [mkIteration false false "u" (replicate 4 9)] [] [SIGTERM] [].

Definition locked_env : Env := fun h T c =>
  match c in sys T return T with
  | SFlock _ => (-1, EWOULDBLOCK)
  | c' => working_env h _ c'
  end.

Lemma second_daemon_is_harmless_witness :
  result (locked_main (env := locked_env) toy_parse toy_serialize sample_surroundings) (sample_daemon, []) = Ret 1.
Proof.
  unfold result. rewrite (second_daemon_is_harmless (E := locked_env) toy_parse toy_serialize sample_surroundings
    sample_daemon [] 3 0 (-1, EWOULDBLOCK)); try reflexivity; vm_compute; discriminate.
Defined.

(** A backup is in progress when the signal comes, and ends while the
    manager is destroyed. *)
Definition backup_parse (bytes : list Z) : Request :=
  mkReq RStartBackup (request_of ["aaaa"]) "" "".

Definition ending_surroundings : @surroundings nat (list string) :=
  mkSurroundings [mkIteration false false "job1" (replicate 4 9)] [SIGINT] [SIGTERM]
    [BEnds (mkThread "job1" ["aaaa"] (Some 0%nat) 0%nat) new_BackupStatusTracker (mkCoordinator 0 true []) 1%nat].

Lemma stream_calls_work : calls_work (E := stream_env wire).
Proof.
  split; intros; try reflexivity; try apply next_fd_fresh.
  change (ret (stream_env wire h cret (SWrite fd (pid_text pid)))) with (Z.of_nat (length (pid_text pid))). lia.
Qed.

Lemma simple_builder_returns : builder_returns (Builder0 := simple_builder).
Proof. intros vs full w. unfold CreateBackup_op, simple_builder. run. case_bool; [right|left]; by eexists. Qed.


(** A backup was in progress in that run: without its end main waits. *)
Example backup_is_waited_for :
  result (main (env := stream_env wire) backup_parse toy_serialize true
    (mkSurroundings (connections ending_surroundings) [SIGINT] [SIGTERM] [])) (sample_daemon, []) = OutOfFuel.
Proof. vm_compute. reflexivity. Qed.
