(* ===== verification/XfsDevice.v ===== *)
(** * XFS filesystems

    Models block_device/xfs_mountable_block_device.{h,cc}: the sectors in
    use are all sectors of the device less the free extents that xfs_db
    prints.  The regular expressions are written out: their character
    classes do not overlap, so that matching is a scan from left to right.
    fork answers twice, as in [NbdServer]: the run in which it answers 0 is
    the child. *)

From S2P Require Import Prelude Machine Icl IclRef Posix BlockDevice Tracing NbdServer.

Abbreviation chars := (list Ascii.ascii).

Definition is_digit (c : Ascii.ascii) : bool :=
  let n := Ascii.nat_of_ascii c in (48 <=? n)%nat && (n <=? 57)%nat.

Definition BLANK : Ascii.ascii := Ascii.ascii_of_nat 32.
Definition NEWLINE : Ascii.ascii := Ascii.ascii_of_nat 10.

Definition is_blank (c : Ascii.ascii) : bool := Ascii.eqb c BLANK.

(** The longest prefix of characters of a class, and the rest. *)
Fixpoint span (P : Ascii.ascii -> bool) (l : chars) : chars * chars :=
  match l with
  | [] => ([], [])
  | c :: l' => if P c then let '(a, b) := span P l' in (c :: a, b) else ([], l)
  end.

Fixpoint strip_prefix (p l : chars) : option chars :=
  match p, l with
  | [], _ => Some l
  | c :: p', d :: l' => if Ascii.eqb c d then strip_prefix p' l' else None
  | _ :: _, [] => None
  end.

(** One or more digits. *)
Definition match_digits (l : chars) : option (chars * chars) :=
  match span is_digit l with
  | ([], _) => None
  | p => Some p
  end.

(** One or more blanks. *)
Definition match_blanks (l : chars) : option chars :=
  match span is_blank l with
  | ([], _) => None
  | (_, rest) => Some rest
  end.

Definition at_end (l : chars) : bool := bool_decide (l = [NEWLINE]).

(** BLOCK_SIZE_REGEX and AG_BLOCKS_REGEX: a word, digits, a newline. *)
Definition match_header (word : string) (line : chars) : option chars :=
  rest ← strip_prefix (String.list_ascii_of_string word) line;
  '(digits, rest) ← match_digits rest;
  if at_end rest then Some digits else None.

(** FREE_LIST_REGEX: three numbers. *)
Definition match_free (line : chars) : option (chars * chars * chars) :=
  let rest := (span is_blank line).2 in
  '(d1, rest) ← match_digits rest;
  rest ← match_blanks rest;
  '(d2, rest) ← match_digits rest;
  rest ← match_blanks rest;
  '(d3, rest) ← match_digits rest;
  if at_end rest then Some (d1, d2, d3) else None.

(** The value of a string of digits. *)
Definition digit_value (c : Ascii.ascii) : Z := Z.of_nat (Ascii.nat_of_ascii c) - 48.

Fixpoint number (acc : Z) (l : chars) : Z :=
  match l with
  | [] => acc
  | c :: l' => number (acc * 10 + digit_value c) l'
  end.

Section Xfs.
Context {TS : Type} `{!IclSet TS}.

(** The local variables of the loop. *)
Record xfs_vars := mkXfs { xv_block_size : Z; xv_ag_blocks : Z; got_free_line : bool; in_use_sectors : TS }.

Definition stoi (l : chars) : M xfs_vars Z :=
  if number 0 l <? 2 ^ 31 then mret (number 0 l) else throw (out_of_range "stoi").

Definition stoll (l : chars) : M xfs_vars Z :=
  if number 0 l <? 2 ^ 63 then mret (number 0 l) else throw (out_of_range "stoll").

(** Arithmetic on long long: overflow is undefined. *)
Definition signed (n : Z) : M xfs_vars Z :=
  if (- 2 ^ 63 <=? n) && (n <? 2 ^ 63) then mret n else undef "signed overflow".

(** A free extent: the group, the block in it, and the length. *)
Definition subtract_free (d1 d2 d3 : chars) : M xfs_vars unit :=
  v ← get;
  if (xv_block_size v =? -1) || (xv_ag_blocks v =? -1) then throw (runtime_error "Unexpected line") else
  n1 ← stoll d1;
  p ← signed (n1 * xv_ag_blocks v);
  n2 ← stoll d2;
  start ← signed (p + n2);
  let start_block := u64 start in
  let start_sector := u64 (start_block * xv_block_size v) / 512 in
  n3 ← stoll d3;
  q ← signed (n3 * xv_block_size v);
  let num_sectors := u64 (Z.quot q 512) in
  let interval := mkSI start_sector (u64 (start_sector + num_sectors)) in
  put (mkXfs (xv_block_size v) (xv_ag_blocks v) true (is_sub (in_use_sectors v) interval)).

(** [matches]: the line and what its groups matched. *)
Definition CheckMatches (matches : list chars) (expected : nat) : M xfs_vars unit :=
  if negb (length matches =? expected)%nat then throw (runtime_error "Bad matches") else mret tt.

(** One line, with its newline. *)
Definition xfs_line (line : chars) : M xfs_vars unit :=
  match match_header "blocksize = " line with
  | Some d =>
      CheckMatches [line; d] 2 ;;
      n ← stoi d;
      modify (fun v => mkXfs n (xv_ag_blocks v) (got_free_line v) (in_use_sectors v))
  | None =>
      match match_header "agblocks = " line with
      | Some d =>
          CheckMatches [line; d] 2 ;;
          n ← stoi d;
          modify (fun v => mkXfs (xv_block_size v) n (got_free_line v) (in_use_sectors v))
      | None =>
          match match_free line with
          | Some (d1, d2, d3) =>
              CheckMatches [line; d1; d2; d3] 4 ;;
              subtract_free d1 d2 d3
          | None => mret tt
          end
      end
  end.

(** The loop over the lines, with what it does to the set. *)
Definition xfs_lines (lines : list chars) (in_use : TS) : outcome TS :=
  match for_each lines xfs_line (mkXfs (-1) (-1) false in_use) with
  | (Ret _, v) => Ret (in_use_sectors v)
  | (Throw e, _) => Throw e
  | (Abort x, _) => Abort x
  | (Undef x, _) => Undef x
  | (OutOfFuel, _) => OutOfFuel
  end.

Section Process.
Context {env : Env}.

(** The branch of the child. *)
Definition run_xfs_db (pipefd0 pipefd1 : Z) : IO BlockDevice (process TS) :=
  call (SClose pipefd0) ;;
  call (SDup2 pipefd1 1) ;;
  call (SDup2 pipefd1 2) ;;
  path ← field path_;
  replaced ← call (SExeclp "xfs_db"
    ["-r"; path; "-c"; "sb"; "-c"; "print blocksize agblocks"; "-c"; "freesp -d"]);
  if (replaced : bool) then mret Replaced else
  call (SExit 1) ;;
  mret (Exited 1).

(** A fork that fails goes on as the parent does.  How the child ended, and
    whether there was a free line, is only logged; but when waitpid fails,
    what is looked at for the log was never written. *)
Definition Xfs_GetInUseSectors : IO BlockDevice (process TS) :=
  device_size ← field device_size_bytes_;
  let in_use := is_add is_empty (mkSI 0 (device_size / 512)) in
  '(r, (pipefd0, pipefd1)) ← call SPipe;
  if negb (ret r =? 0) then throw (runtime_error "fill me out") else
  fork_ret ← call SFork;
  if ret fork_ret =? 0 then run_xfs_db pipefd0 pipefd1 else
  call (SClose pipefd1) ;;
  xfs_db_out ← call (SFdopen pipefd0);
  if negb xfs_db_out then undef "fgets on a null stream" else
  lines ← call (SFgets pipefd0);
  in_use' ← (fun w => (xfs_lines lines in_use, w));
  waited ← call (SWaitpid (ret fork_ret));
  if ret waited =? -1 then undef "status is read uninitialised" else
  mret (GoesOn in_use').
End Process.
End Xfs.
Arguments xfs_vars : clear implicits.
Arguments mkXfs {TS}.

(** ** What xfs_db prints *)

Definition print_num (n : Z) : chars := String.list_ascii_of_string (to_string n).

Definition print_header (word : string) (n : Z) : chars :=
  String.list_ascii_of_string word ++ print_num n ++ [NEWLINE].

Definition blanks (k : nat) : chars := replicate k BLANK.

(** The lines after the two headers: an extent in columns of any width, or
    a line that is none of the three kinds. *)
Inductive xfs_output :=
| XExtent (k1 k2 k3 : nat) (agno agbno len : Z)
| XOther (line : chars).

Definition print_line (o : xfs_output) : chars :=
  match o with
  | XExtent k1 k2 k3 a b c =>
      blanks k1 ++ print_num a ++ blanks (S k2) ++ print_num b ++ blanks (S k3) ++ print_num c ++ [NEWLINE]
  | XOther l => l
  end.

(** ** Properties *)

Lemma number_app acc l k : number acc (l ++ k) = number (number acc l) k.
Proof. revert acc. induction l; intros; cbn; auto. Qed.

Lemma digit_char n : 0 <= n < 10 ->
  is_digit (Ascii.ascii_of_nat (48 + Z.to_nat n)) = true /\
  digit_value (Ascii.ascii_of_nat (48 + Z.to_nat n)) = n.
Proof.
  intros Hn. unfold is_digit, digit_value. rewrite Ascii.nat_ascii_embedding by lia.
  split; [|lia]. apply andb_true_iff. rewrite !Nat.leb_le. lia.
Qed.

(** Printing a number: digits, at least one, with the number's value. *)
Lemma digits_spec fuel n acc :
  0 <= n < 10 ^ Z.of_nat (S fuel) ->
  exists ds, String.list_ascii_of_string (digits (S fuel) n acc) = ds ++ String.list_ascii_of_string acc /\
    ds <> [] /\ Forall (fun c => is_digit c = true) ds /\ number 0 ds = n.
Proof.
  revert n acc. induction fuel as [|fuel IH]; intros n acc Hn;
    destruct (digit_char (n mod 10)) as [D1 D2]; try (apply Z.mod_pos_bound; lia);
    set (c := Ascii.ascii_of_nat (48 + Z.to_nat (n mod 10))) in *.
  - assert (n / 10 = 0) as E by (apply Z.div_small; lia). cbn [digits]. fold c. rewrite E, Z.eqb_refl.
    exists [c]. split_and!; [done|done|by constructor|]. cbn [number]. rewrite D2.
    rewrite Z.mod_small by lia. lia.
  - change (digits (S (S fuel)) n acc) with
      (if n / 10 =? 0 then String c acc else digits (S fuel) (n / 10) (String c acc)).
    destruct (Z.eqb_spec (n / 10) 0) as [E|E].
    + exists [c]. split_and!; [done|done|by constructor|]. cbn [number]. rewrite D2.
      pose proof (Z.div_mod n 10). lia.
    + destruct (IH (n / 10) (String c acc)) as (ds & -> & Hne & Hf & Hv).
      { split; [apply Z.div_pos; lia|]. apply Z.div_lt_upper_bound; [lia|].
        rewrite (Nat2Z.inj_succ (S fuel)), Z.pow_succ_r in Hn by lia. lia. }
      exists (ds ++ [c]). split_and!.
      * cbn [String.list_ascii_of_string]. by rewrite <- app_assoc.
      * by destruct ds.
      * apply Forall_app. split; [done|by constructor].
      * rewrite number_app, Hv. cbn [number]. rewrite D2. pose proof (Z.div_mod n 10). lia.
Qed.

Lemma print_num_spec n :
  0 <= n < 10 ^ 20 ->
  print_num n <> [] /\ Forall (fun c => is_digit c = true) (print_num n) /\ number 0 (print_num n) = n.
Proof.
  intros Hn. destruct (digits_spec 19 n "" Hn) as (ds & E & H). unfold print_num, to_string.
  rewrite E. cbn. by rewrite app_nil_r.
Qed.

Lemma span_app (P : Ascii.ascii -> bool) l c rest :
  Forall (fun x => P x = true) l -> P c = false -> span P (l ++ c :: rest) = (l, c :: rest).
Proof. induction 1 as [|x l Hx _ IH]; intros Hc; cbn; [by rewrite Hc|]. by rewrite Hx, IH. Qed.

Lemma match_digits_app n c rest :
  0 <= n < 10 ^ 20 -> is_digit c = false ->
  match_digits (print_num n ++ c :: rest) = Some (print_num n, c :: rest).
Proof.
  intros Hn Hc. destruct (print_num_spec n Hn) as (Hne & Hf & _). unfold match_digits.
  rewrite span_app by done. by destruct (print_num n).
Qed.

Lemma blanks_blank k : Forall (fun c => is_blank c = true) (blanks k).
Proof. by apply Forall_replicate. Qed.

(** A digit starts every number. *)
Lemma print_num_cons n : 0 <= n < 10 ^ 20 -> exists c l, print_num n = c :: l /\ is_blank c = false.
Proof.
  intros Hn. destruct (print_num_spec n Hn) as (Hne & Hf & _). destruct (print_num n) as [|c l]; [done|].
  exists c, l. split; [done|]. apply Forall_cons in Hf as [Hc _]. unfold is_blank.
  destruct (Ascii.eqb_spec c BLANK) as [->|]; [by vm_compute in Hc|done].
Qed.

Lemma span_blanks k n rest :
  0 <= n < 10 ^ 20 -> span is_blank (blanks k ++ print_num n ++ rest) = (blanks k, print_num n ++ rest).
Proof.
  intros Hn. destruct (print_num_cons n Hn) as (c & l & -> & Hc). cbn [app]. apply span_app; [apply blanks_blank|done].
Qed.

Lemma match_blanks_app k n rest :
  0 <= n < 10 ^ 20 -> match_blanks (blanks (S k) ++ print_num n ++ rest) = Some (print_num n ++ rest).
Proof. intros Hn. unfold match_blanks. by rewrite span_blanks. Qed.

(** The three expressions read back what xfs_db prints. *)
Lemma match_free_print k1 k2 k3 a b c :
  0 <= a < 10 ^ 20 -> 0 <= b < 10 ^ 20 -> 0 <= c < 10 ^ 20 ->
  match_free (print_line (XExtent k1 k2 k3 a b c)) = Some (print_num a, print_num b, print_num c).
Proof.
  intros Ha Hb Hc. cbn [print_line]. unfold match_free. rewrite span_blanks by done. cbn [snd].
  change (blanks (S k2)) with (BLANK :: blanks k2). rewrite <- app_comm_cons.
  rewrite match_digits_app by done. cbn [mbind option_bind].
  change (BLANK :: blanks k2 ++ print_num b ++ blanks (S k3) ++ print_num c ++ [NEWLINE]) with
    (blanks (S k2) ++ print_num b ++ blanks (S k3) ++ print_num c ++ [NEWLINE]).
  rewrite match_blanks_app by done. cbn [mbind option_bind].
  change (blanks (S k3) ++ print_num c ++ [NEWLINE]) with (BLANK :: blanks k3 ++ print_num c ++ [NEWLINE]) at 1.
  rewrite match_digits_app by done. cbn [mbind option_bind].
  change (BLANK :: blanks k3 ++ print_num c ++ [NEWLINE]) with (blanks (S k3) ++ print_num c ++ [NEWLINE]).
  rewrite match_blanks_app by done. cbn [mbind option_bind].
  by rewrite match_digits_app.
Qed.

Lemma strip_prefix_app p l : strip_prefix p (p ++ l) = Some l.
Proof. induction p as [|c p IH]; cbn; [done|]. by rewrite Ascii.eqb_refl. Qed.

Lemma match_header_print word n :
  0 <= n < 10 ^ 20 -> match_header word (print_header word n) = Some (print_num n).
Proof.
  intros Hn. unfold match_header, print_header. rewrite strip_prefix_app. cbn [mbind option_bind].
  by rewrite match_digits_app.
Qed.

(** A word that starts with a letter is not found at the start of a line
    that starts with a blank or a digit. *)
Lemma match_header_extent w word k n rest :
  is_blank w = false -> is_digit w = false -> 0 <= n < 10 ^ 20 ->
  match_header (String w word) (blanks k ++ print_num n ++ rest) = None.
Proof.
  intros Hb Hd Hn. unfold match_header. cbn [String.list_ascii_of_string].
  destruct k; cbn [blanks replicate app strip_prefix].
  - destruct (print_num_spec n Hn) as (Hne & Hf & _). destruct (print_num n) as [|c l]; [done|].
    apply Forall_cons in Hf as [Hc _]. cbn [app].
    destruct (Ascii.eqb_spec w c) as [->|]; [by rewrite Hc in Hd|done].
  - change (is_blank w = false) in Hb. unfold is_blank in Hb. by rewrite Hb.
Qed.

(** All that the child prints. *)
Definition xfs_db_prints (bs ag : Z) (outs : list xfs_output) : list chars :=
  print_header "blocksize = " bs :: print_header "agblocks = " ag :: (print_line <$> outs).

(** The sectors of an extent that is free. *)
Definition extent_of (bs ag : Z) (o : xfs_output) : option SectorInterval :=
  match o with
  | XExtent _ _ _ a b c =>
      let start := (a * ag + b) * bs / 512 in Some (mkSI start (start + c * bs / 512))
  | XOther _ => None
  end.

Definition in_extent (bs ag x : Z) (o : xfs_output) : bool :=
  from_option (in_iv x) false (extent_of bs ag o).

(** An extent ends below 2^63 bytes; other lines match none of the three
    expressions. *)
Definition output_ok (bs ag : Z) (o : xfs_output) : Prop :=
  match o with
  | XExtent _ _ _ a b c => 0 <= a /\ 0 <= b /\ 0 <= c /\ (a * ag + b + c) * bs < 2 ^ 63
  | XOther l => match_header "blocksize = " l = None /\ match_header "agblocks = " l = None /\ match_free l = None
  end.

Section XfsProps.
Context {TS : Type} `{!IclSet TS, !IclSetLaws TS}.
Implicit Types v : xfs_vars TS.

(** The bounds of an extent bound everything the code computes from it. *)
Lemma extent_bounds bs ag a b c :
  1 <= bs < 2 ^ 31 -> 1 <= ag < 2 ^ 31 -> 0 <= a -> 0 <= b -> 0 <= c -> (a * ag + b + c) * bs < 2 ^ 63 ->
  a < 2 ^ 63 /\ b < 2 ^ 63 /\ c < 2 ^ 63 /\ 0 <= a * ag <= a * ag + b /\ a * ag + b < 2 ^ 63 /\
  0 <= (a * ag + b) * bs < 2 ^ 63 /\ 0 <= c * bs < 2 ^ 63.
Proof.
  intros. assert (a <= a * ag) by nia. assert (0 <= (a * ag + b) * bs) by nia. assert (0 <= c * bs) by nia.
  assert ((a * ag + b + c) * bs = (a * ag + b) * bs + c * bs) by ring.
  assert (a * ag + b + c <= (a * ag + b + c) * bs) by nia. lia.
Qed.

Lemma print_num_number n : 0 <= n < 2 ^ 63 -> number 0 (print_num n) = n.
Proof. intros. apply print_num_spec. lia. Qed.

Lemma stoll_print n v : 0 <= n < 2 ^ 63 -> stoll (print_num n) v = (Ret n, v).
Proof. intros Hn. unfold stoll. rewrite print_num_number by done. by rewrite (proj2 (Z.ltb_lt n _)) by apply Hn. Qed.

Lemma stoi_print n v : 0 <= n < 2 ^ 31 -> stoi (print_num n) v = (Ret n, v).
Proof. intros Hn. unfold stoi. rewrite print_num_number by lia. by rewrite (proj2 (Z.ltb_lt n _)) by apply Hn. Qed.

Lemma signed_Ret n v : 0 <= n < 2 ^ 63 -> signed n v = (Ret n, v).
Proof. intros Hn. unfold signed. by rewrite (proj2 (Z.leb_le _ n)), (proj2 (Z.ltb_lt n _)) by lia. Qed.

(** The branch of a free extent: nothing wraps. *)
Lemma subtract_free_run k1 k2 k3 a b c v :
  let bs := xv_block_size v in
  let ag := xv_ag_blocks v in
  1 <= bs < 2 ^ 31 -> 1 <= ag < 2 ^ 31 -> output_ok bs ag (XExtent k1 k2 k3 a b c) ->
  exists i, extent_of bs ag (XExtent k1 k2 k3 a b c) = Some i /\
    subtract_free (print_num a) (print_num b) (print_num c) v
      = (Ret tt, mkXfs bs ag true (is_sub (in_use_sectors v) i)).
Proof.
  intros bs ag Hbs Hag (Ha & Hb & Hc & H).
  destruct (extent_bounds bs ag a b c) as (B1 & B2 & B3 & B4 & B5 & B6 & B7); try done.
  eexists. split; [reflexivity|]. unfold subtract_free. run. fold bs ag.
  rewrite (proj2 (Z.eqb_neq bs (-1))), (proj2 (Z.eqb_neq ag (-1))) by lia. cbn [orb]. run.
  rewrite stoll_print by lia. run. rewrite signed_Ret by lia. run.
  rewrite stoll_print by lia. run. rewrite signed_Ret by lia. run.
  rewrite stoll_print by lia. run. rewrite signed_Ret by lia. run.
  assert (0 <= (a * ag + b) * bs / 512 < 2 ^ 63) by (split; [apply Z.div_pos|apply Z.div_lt_upper_bound]; lia).
  assert (0 <= c * bs / 512 < 2 ^ 63) by (split; [apply Z.div_pos|apply Z.div_lt_upper_bound]; lia).
  rewrite (u64_id (a * ag + b)), (u64_id ((a * ag + b) * bs)), Z.quot_div_nonneg,
    (u64_id (c * bs / 512)), u64_id by (unfold is_u64; lia). done.
Qed.

(** Every line after the headers removes its extent and nothing else. *)
Lemma xfs_line_output o v :
  let bs := xv_block_size v in
  let ag := xv_ag_blocks v in
  1 <= bs < 2 ^ 31 -> 1 <= ag < 2 ^ 31 -> output_ok bs ag o ->
  exists v', xfs_line (print_line o) v = (Ret tt, v') /\ xv_block_size v' = bs /\ xv_ag_blocks v' = ag /\
    forall x, is_mem (in_use_sectors v') x = is_mem (in_use_sectors v) x && negb (in_extent bs ag x o).
Proof.
  intros bs ag Hbs Hag Hok. unfold xfs_line. destruct o as [k1 k2 k3 a b c|l].
  - pose proof Hok as (Ha & Hb & Hc & H). destruct (extent_bounds bs ag a b c) as (? & ? & ? & _); try done.
    destruct (subtract_free_run k1 k2 k3 a b c v Hbs Hag Hok) as (i & Ei & R).
    rewrite match_free_print by lia. cbn [print_line]. rewrite !match_header_extent by (done || lia).
    unfold CheckMatches. cbn [length Nat.eqb negb]. run. rewrite R.
    eexists. split_and!; [done..|]. intros x. cbn [in_use_sectors]. rewrite is_sub_mem.
    unfold in_extent. fold bs ag in Ei. by rewrite Ei.
  - destruct Hok as (H1 & H2 & H3). exists v. cbn [print_line]. rewrite H1, H2, H3.
    split_and!; try done. intros x. cbn. by rewrite andb_true_r.
Qed.

Lemma xfs_lines_output outs v :
  let bs := xv_block_size v in
  let ag := xv_ag_blocks v in
  1 <= bs < 2 ^ 31 -> 1 <= ag < 2 ^ 31 -> Forall (output_ok bs ag) outs ->
  exists v', for_each (print_line <$> outs) xfs_line v = (Ret tt, v') /\
    forall x, is_mem (in_use_sectors v') x = is_mem (in_use_sectors v) x && negb (existsb (in_extent bs ag x) outs).
Proof.
  intros bs ag Hbs Hag Hok. revert v bs ag Hbs Hag Hok.
  induction outs as [|o outs IH]; intros v bs ag Hbs Hag Hok.
  - exists v. split; [done|]. intros x. by rewrite andb_true_r.
  - apply Forall_cons in Hok as [Ho Hok]. destruct (xfs_line_output o v Hbs Hag Ho) as (v1 & R1 & E1 & E2 & M1).
    fold bs ag in E1, E2, M1. rewrite <- E1, <- E2 in *.
    destruct (IH v1) as (v2 & R2 & M2); try done. exists v2. rewrite fmap_cons, for_each_cons.
    split; [by rewrite bind_unfold, R1|]. intros x. rewrite M2, M1. cbn [existsb].
    by rewrite negb_orb, andb_assoc.
Qed.

(** The two headers. *)
Lemma xfs_headers bs ag v :
  1 <= bs < 2 ^ 31 -> 1 <= ag < 2 ^ 31 ->
  (xfs_line (print_header "blocksize = " bs) ;; xfs_line (print_header "agblocks = " ag)) v =
    (Ret tt, mkXfs bs ag (got_free_line v) (in_use_sectors v)).
Proof.
  intros Hbs Hag. unfold xfs_line, CheckMatches. rewrite !match_header_print by lia. cbn [length Nat.eqb negb]. run.
  assert (match_header "blocksize = " (print_header "agblocks = " ag) = None) as -> by done.
  run. rewrite stoi_print by lia. run. by rewrite stoi_print by lia.
Qed.

Lemma xfs_lines_exact bs ag outs (s : TS) :
  1 <= bs < 2 ^ 31 -> 1 <= ag < 2 ^ 31 -> Forall (output_ok bs ag) outs ->
  exists s' : TS, xfs_lines (xfs_db_prints bs ag outs) s = Ret s' /\
    forall x, is_mem s' x = is_mem s x && negb (existsb (in_extent bs ag x) outs).
Proof.
  intros Hbs Hag Hok. unfold xfs_lines, xfs_db_prints. rewrite for_each_cons.
  set (v0 := mkXfs _ _ _ _). pose proof (xfs_headers bs ag v0 Hbs Hag) as R0.
  destruct (xfs_lines_output outs (mkXfs bs ag false (in_use_sectors v0))) as (v1 & R1 & M1); try done.
  rewrite bind_unfold in R0. rewrite bind_unfold. destruct (xfs_line (print_header "blocksize = " bs) v0) as [[[]| | | |] v2]; try done.
  rewrite for_each_cons, bind_unfold, R0. cbv iota beta.
  change (got_free_line v0) with false. rewrite R1. by exists (in_use_sectors v1).
Qed.

(** A parent whose calls work and whose child prints [lines]. *)
Record xfs_db_runs (env : Env) (lines : list chars) : Prop := {
  xr_pipe : forall h, ret (env h _ SPipe).1 = 0;
  xr_fork : forall h, 0 < ret (env h _ SFork);
  xr_fdopen : forall h fd, env h _ (SFdopen fd) = true;
  xr_lines : forall h fd, env h _ (SFgets fd) = lines;
  xr_wait : forall h pid, ret (env h _ (SWaitpid pid)) <> -1
}.

(** C19: on the output of xfs_db, the two sizes and then the free extents in
    columns of any width among lines of other kinds, GetInUseSectors
    returns exactly the sectors of the device that are in no free extent;
    the text is parsed back to the numbers printed, and the products of
    group, block and block size are computed without overflow. *)
Theorem xfs_in_use_exact env b h bs ag outs :
  1 <= bs < 2 ^ 31 -> 1 <= ag < 2 ^ 31 -> Forall (output_ok bs ag) outs ->
  xfs_db_runs env (xfs_db_prints bs ag outs) ->
  exists (s : TS) h',
    Xfs_GetInUseSectors (b, h) = (Ret (GoesOn s), (b, h')) /\
    forall x, is_mem s x =
      in_iv x (mkSI 0 (device_size_bytes_ b / 512)) && negb (existsb (in_extent bs ag x) outs).
Proof.
  intros Hbs Hag Hok [Hp Hf Ho Hl Hw].
  destruct (xfs_lines_exact bs ag outs (is_add is_empty (mkSI 0 (device_size_bytes_ b / 512)) : TS)) as (s & R & M); try done.
  specialize (Hp h). unfold Xfs_GetInUseSectors. io.
  destruct (env h _ SPipe) as [r [rd wr]] eqn:Er. cbn [fst] in Hp. exists s. eexists. io.
  rewrite Hp. cbn [negb Z.eqb]. io. rewrite (proj2 (Z.eqb_neq _ 0)) by (specialize (Hf (Ev SPipe (r, (rd, wr)) :: h)); lia).
  io. rewrite Ho. cbn [negb]. io. rewrite Hl, R. cbv iota beta. io. rewrite (proj2 (Z.eqb_neq _ (-1))) by apply Hw. io.
  split; [done|]. intros x. rewrite M, is_add_mem. unfold is_mem at 1. by rewrite is_empty_intervals.
Qed.

(** Every call that gets a pipe leaves its reading end open, whatever
    becomes of the child and whatever it prints: a device that is asked for
    its sectors again and again uses up the descriptors of the process. *)
Theorem xfs_leaks_pipe (env : Env) b h rd wr :
  ret (env h _ SPipe).1 = 0 -> (env h _ SPipe).2 = (rd, wr) -> rd <> wr -> wr ∉ open_fds h ->
  ret (env (Ev SPipe (env h _ SPipe) :: h) _ SFork) <> 0 ->
  open_fds (Xfs_GetInUseSectors (TS := TS) (env := env) (b, h)).2.2 = {[rd]} ∪ open_fds h.
Proof.
  intros Hp E Hne Hfr Hf. unfold Xfs_GetInUseSectors. io.
  destruct (env h _ SPipe) as [r [rd' wr']] eqn:Er. cbn [fst snd] in *. simplify_eq. io.
  rewrite Hp. cbn [negb Z.eqb]. io. rewrite (proj2 (Z.eqb_neq _ 0)) by done. io.
  set (h1 := Ev (SClose wr) _ :: _).
  assert (open_fds h1 = {[rd]} ∪ open_fds h) as Hh.
  { subst h1. unfold open_fds; fold open_fds. cbn [fst snd]. rewrite Hp. cbn [Z.eqb]. set_solver. }
  destruct (env h1 _ (SFdopen rd)); cbn [negb]; io; [|done].
  destruct (xfs_lines _ _); io; try done. destruct (_ =? -1); io; done.
Qed.

(** In the child no code of the caller runs, and what it becomes is xfs_db
    with the device as its first argument: the -r before it is taken for
    the name of the program, so the device is opened for writing too. *)
Theorem xfs_child_spec (env : Env) b h :
  ret (env h _ SPipe).1 = 0 -> ret (env (Ev SPipe (env h _ SPipe) :: h) _ SFork) = 0 ->
  exists p h', Xfs_GetInUseSectors (TS := TS) (env := env) (b, h) = (Ret p, (b, h')) /\
    (p = Replaced \/ p = Exited 1) /\
    execs h' = ("xfs_db", ["-r"; path_ b; "-c"; "sb"; "-c"; "print blocksize agblocks"; "-c"; "freesp -d"]) :: execs h.
Proof.
  intros Hp Hf. unfold Xfs_GetInUseSectors, run_xfs_db. io.
  destruct (env h _ SPipe) as [r [rd wr]] eqn:Er. cbn [fst snd] in *. io.
  rewrite Hp. cbn [negb Z.eqb]. io. rewrite Hf. cbn [Z.eqb]. io.
  destruct (env _ bool _); io; eauto 10.
Qed.
End XfsProps.

(** ** An output *)

Definition sample_output : list xfs_output :=
  [XOther (String.list_ascii_of_string "   agno    agbno      len" ++ [NEWLINE]); XExtent 7 4 5 0 12 4; XExtent 7 4 5 1 2 6].

(** A machine whose child prints it. *)
Definition xfs_env (lines : list chars) : Env := fun h T c =>
  match c in sys T return T with
  | SFgets _ => lines
  | c' => working_env h _ c'
  end.

Definition xfs_device : BlockDevice := mkBlockDevice "/dev/sdb1" 2065 131072 4096 (-1).

Lemma xfs_env_runs lines : xfs_db_runs (xfs_env lines) lines.
Proof. by split. Qed.

Lemma xfs_in_use_exact_witness :
  exists (s : ref_set) h',
    Xfs_GetInUseSectors (env := xfs_env (xfs_db_prints 4096 16 sample_output)) (xfs_device, [])
      = (Ret (GoesOn s), (xfs_device, h')) /\
    is_mem s 95 = true /\ is_mem s 96 = false /\ is_mem s 127 = false /\ is_mem s 128 = true /\
    is_mem s 144 = false /\ is_mem s 191 = false /\ is_mem s 192 = true /\ is_mem s 256 = false.
Proof.
  destruct (xfs_in_use_exact (TS := ref_set) (xfs_env (xfs_db_prints 4096 16 sample_output))
              xfs_device [] 4096 16 sample_output) as (s & h' & R & H).
  - lia.
  - lia.
  - repeat constructor; vm_compute; repeat split; discriminate.
  - apply xfs_env_runs.
  - exists s, h'. split; [exact R|]. rewrite !H. by vm_compute.
Defined.

Lemma xfs_leaks_pipe_witness :
  open_fds (Xfs_GetInUseSectors (TS := ref_set) (env := xfs_env []) (xfs_device, [])).2.2 = {[3]} ∪ (∅ : gset Z).
Proof.
  apply (xfs_leaks_pipe (TS := ref_set) (xfs_env []) xfs_device [] 3 4); [reflexivity|reflexivity|lia| |discriminate].
  apply not_elem_of_empty.
Defined.
