(* ===== verification/CopyTool.v ===== *)
(** * The copy tool

    Models fsawarebdcopy/fsawarebdcopy.cc, the program that copies the
    sectors in use of a filesystem to another device: the factory, the
    store, GetInUseSectors and a synchronizer with the fake coordinator and
    the printing count handler, one after the other.  Its theorem puts the
    components' results together. *)

From S2P Require Import Prelude Machine Icl IclRef SectorStore TraceHandler Posix BlockDevice.
From S2P Require Import MountableDevice StatusTracker Coordinator FreezeHelper DeviceSynchronizer.
From S2P Require Import SyncSafety SyncRuns Tracing SectorManager ExtDevice Nbd BackupBuilder.

Section Tool.
Context {env : Env} {TM TS B : Type} `{!IclMap TM, !IclSet TS, !Ext2Bitmaps B}.
Context (Begin : IO (option Z) unit) (End_ : IO (option Z) bool) (super_of : string -> ext_super).
Context (garbage : BlockDevice) (freezable : bool) (latency : Z) (schedule : nat -> point -> list env_action).
Abbreviation manager := (UnsyncedSectorManager TM TS).
Abbreviation world := (World TM TS FakeBackupCoordinator printed).

(** [std::make_shared<BlockDevice>(path)]. *)
Definition make_device (path : string) : IO manager BlockDevice := fun w =>
  let '(r, (d, h)) := new_BlockDevice path garbage w.2 in
  (match r with
   | Ret _ => Ret d
   | Throw e => Throw e
   | Abort x => Abort x
   | Undef x => Undef x
   | OutOfFuel => OutOfFuel
   end, (w.1, h)).

(** main up to the DeviceSynchronizer: the two devices and the address of
    the source's store. *)
Definition prepare (source destination : string) : IO manager (BlockDevice * BlockDevice * nat) :=
  source_device ← with_object tt (CreateMountableBlockDeviceFromPath source garbage);
  destination_device ← make_device destination;
  let src := source_base source_device in
  source_store ← GetStore src;
  in_use_set ← with_object None (GetInUseSectors (TS := TS) (B := B) Begin End_ (super_of (path_ src)) (path_ src));
  for_each (is_intervals (in_use_set : TS)) (fun interval =>
    on_store_at source_store (AddNonVolatileInterval interval)) ;;
  mret (src, destination_device, source_store).

(** What the synchronizer starts from: the bytes of the two devices, the
    time, and what has been prepared. *)
Definition start_world (src_bytes dst_bytes : Z -> Z) (clock : Z) (src dst : BlockDevice)
    (store : UnsyncedSectorStore TM TS) (h : history) : world :=
  let bytes_total := u64 (im_card (unsynced_sector_map_ store) * 512) in
  mkWorld (mkCore src_bytes dst_bytes [] [] store clock false) (tt : FakeBackupCoordinator)
    (new_PrintingSyncCountHandler bytes_total) src dst h no_faults 0.

(** An exception that leaves main ends the process. *)
Definition run_sync (fuel : nat) (w : world) : outcome Z * world :=
  match (new_DeviceSynchronizer ;; DoSync freezable latency schedule fuel ;; DeviceSynchronizer_destroy) w with
  | (Ret _, w') => (Ret 0, w')
  | (Throw _, w') => (Abort "std::terminate", w')
  | (Abort x, w') => (Abort x, w')
  | (Undef x, w') => (Undef x, w')
  | (OutOfFuel, w') => (OutOfFuel, w')
  end.

Definition copy_main (argv : list string) (src_bytes dst_bytes : Z -> Z) (clock : Z) (fuel : nat) (h : history)
    : outcome Z * option world :=
  match argv with
  | [_; source; destination] =>
      match prepare source destination (new_UnsyncedSectorManager, h) with
      | (Ret (src, dst, a), (mg, h1)) =>
          match stores mg !! a with
          | None => (Undef "dangling store", None)
          | Some s => let '(o, w) := run_sync fuel (start_world src_bytes dst_bytes clock src dst s h1) in (o, Some w)
          end
      | (Throw _, _) => (Abort "std::terminate", None)
      | (Abort x, _) => (Abort x, None)
      | (Undef x, _) => (Undef x, None)
      | (OutOfFuel, _) => (OutOfFuel, None)
      end
  | _ => (Ret 1, None)   (* usage; exit(1) *)
  end.
End Tool.

(** ** Properties *)

Section ToolProps.
Context {env : Env} {TM TS B : Type} `{!IclMap TM, !IclSet TS, !Ext2Bitmaps B}.
Context `{!IclMapLaws TM, !IclSetLaws TS, !Ext2BitmapsLaws B}.
Context (Begin : IO (option Z) unit) (End_ : IO (option Z) bool) (super_of : string -> ext_super).
Context (garbage : BlockDevice) (freezable : bool) (latency : Z).
Abbreviation prep := (prepare (TM := TM) (TS := TS) (B := B) Begin End_ super_of garbage).

(** The store that has been prepared holds exactly these sectors. *)
Lemma prepare_Ret source destination h src dst a mg h1 :
  prep source destination (new_UnsyncedSectorManager, h) = (Ret (src, dst, a), (mg, h1)) ->
  super_ok (super_of (path_ src)) ->
  exists s, stores mg !! a = Some s /\ volatile_seconds_ s = VOLATILE_SECONDS /\
    forall x, is_Some (im_at (unsynced_sector_map_ s) x) <-> sector_in_use (B := B) (super_of (path_ src)) x.
Proof.
  intros (sd & [m1 k1] & R1 & R)%bind_Ret_inv Hs.
  pose proof (keeps_with_object (TM := TM) (TS := TS) tt (CreateMountableBlockDeviceFromPath source garbage) (new_UnsyncedSectorManager, h)) as K1.
  rewrite R1 in K1. cbn in K1. subst m1. apply bind_Ret_inv in R as (dd & [m2 k2] & R2 & R).
  assert (m2 = new_UnsyncedSectorManager) as ->.
  { revert R2. unfold make_device. cbn [fst snd]. destruct (new_BlockDevice _ _ _) as [o [d k]]. by intros [= _ <- _]. }
  apply bind_Ret_inv in R as (a' & [m3 k3] & R3 & R).
  destruct (GetStore_new (new_UnsyncedSectorManager : UnsyncedSectorManager TM TS) k2 (source_base sd) eq_refl)
    as (m3' & R3' & _ & E3 & _). rewrite R3' in R3. injection R3 as <- <- <-.
  apply bind_Ret_inv in R as (u & [m4 k4] & R4 & R). revert R4. unfold with_object. cbn [fst snd].
  destruct (GetInUseSectors _ _ _ _ _) as [o [v k]] eqn:Rg. intros [= -> <- <-].
  assert (stores m3' !! next_store (new_UnsyncedSectorManager : UnsyncedSectorManager TM TS) =
    Some (new_UnsyncedSectorStore VOLATILE_SECONDS)) as Ha by (rewrite E3; apply lookup_insert_eq).
  destruct (add_intervals_run _ (is_intervals u) _ m3' k Ha) as (s & m5 & R5 & A5 & _ & _ & _ & _ & M5 & _ & V5).
  apply bind_Ret_inv in R as ([] & w5 & R5' & R). pose proof (eq_trans (eq_sym R5) R5') as Ew. injection Ew as <-.
  injection R as <- <- <- <- <-. exists s. split_and!; [done|done|].
  intros x. rewrite M5, <- is_mem_spec. cbn. rewrite im_empty_at.
  rewrite (GetInUseSectors_mem Begin End_ _ _ _ _ _ x Hs Rg). unfold sector_in_use.
  split; [intros [[? ?]|?]; done|by right].
Qed.
(** The devices that have been prepared are closed. *)
Lemma prepare_closed source destination h src dst a mg h1 :
  fresh_fds env -> (forall fd, fd ∈ open_fds h -> 0 <= fd) ->
  prep source destination (new_UnsyncedSectorManager, h) = (Ret (src, dst, a), (mg, h1)) ->
  fd_ src = -1 /\ fd_ dst = -1.
Proof.
  intros Hfr Hpos (sd & [m1 k1] & R1 & R)%bind_Ret_inv. apply bind_Ret_inv in R as (dd & [m2 k2] & R2 & R).
  assert (src = source_base sd /\ dst = dd) as [-> ->].
  { apply bind_Ret_inv in R as (? & ? & _ & R). apply bind_Ret_inv in R as (? & ? & _ & R).
    apply bind_Ret_inv in R as (? & ? & _ & R). by injection R. }
  assert (fd_ (source_base sd) = -1 /\ open_fds k1 = open_fds h) as [F1 O1].
  { revert R1. unfold with_object, CreateMountableBlockDeviceFromPath, GetFilesystemFromPath. io.
    destruct (env h _ (SBlkidTag "TYPE" source)) as [fs|] eqn:Ef; io; [|done].
    set (h' := Ev (SBlkidTag "TYPE" source) (Some fs) :: h).
    assert (forall b, (let '(r, (_, k)) := make_ext source b garbage (tt, h') in (r, (new_UnsyncedSectorManager : UnsyncedSectorManager TM TS, k)))
      = (Ret sd, (m1, k1)) -> fd_ (source_base sd) = -1 /\ open_fds k1 = open_fds h) as Hm.
    { intros b. unfold make_ext, new_MountableBlockDevice, new_BlockDevice. cbn [snd].
      destruct (Init_run Hfr (mkBlockDevice source (dev_t_ garbage) (device_size_bytes_ garbage)
        (block_size_bytes_ garbage) (fd_ garbage)) h' Hpos) as (r & b' & k & -> & H2 & H3 & _).
      destruct r; intros [= <- _ <-]. done. }
    repeat case_bool; [by apply Hm..|by io]. }
  revert R2. unfold make_device, new_BlockDevice. cbn [fst snd].
  destruct (Init_run Hfr (mkBlockDevice destination (dev_t_ garbage) (device_size_bytes_ garbage)
    (block_size_bytes_ garbage) (fd_ garbage)) k1) as (r & b' & k & -> & _ & H3 & _); [by rewrite O1|].
  destruct r; intros [= <- _ _]. done.
Qed.

End ToolProps.

(** ** A run: sixteen blocks of 1 KB, every third one allocated *)

Definition tool_env : Env := fun h T c =>
  match c in sys T return T with
  | SLstat p => (0, 0, mkStat S_IFBLK (if String.eqb p "/dev/sdb1" then 2065 else 2049))
  | SIoctlOut _ BLKGETSIZE64 => (0, 0, 65536)
  | c' => working_env h _ c'
  end.

Definition tool_prepared :=
  prepare (env := tool_env) (TM := ref_map) (TS := ref_set) (B := list bool) (mret tt) always_frozen
    (fun _ => sample_super) sample_device "/dev/sda1" "/dev/sdb1" (new_UnsyncedSectorManager, []).

Definition tool_run :=
  copy_main (env := tool_env) (TM := ref_map) (TS := ref_set) (B := list bool) (mret tt) always_frozen
    (fun _ => sample_super) sample_device true 10 clock_schedule ["fsawarebdcopy"; "/dev/sda1"; "/dev/sdb1"]
    (fun b => b mod 251) (fun _ => 0) 1000 40 [].

Lemma sample_in_use_bounds x :
  sector_in_use (B := list bool) sample_super x -> 0 <= x /\ 512 * (x + 2) <= 65536.
Proof.
  intros [?|(b & Hb & Hc & _ & Hx)]; [lia|]. cbn in Hb, Hc. change (sectors_per_block sample_super) with 2 in Hx. Z.to_euclidean_division_equations. lia.
Qed.

Lemma tool_prepared_facts src dst a mg h1 :
  tool_prepared = (Ret (src, dst, a), (mg, h1)) ->
  dev_t_ src = 2049 /\ dev_t_ dst = 2065 /\ device_size_bytes_ src = 65536 /\ device_size_bytes_ dst = 65536 /\
  block_size_bytes_ src = 1024 /\
  match stores mg !! a with Some s => im_card (unsynced_sector_map_ s) | None => 0 end = 10.
Proof. vm_compute. intros [= <- <- <- <- <-]. by split_and!. Qed.

